(** * chess3d: the board registry, the move executor and the turn flow

    A shallow embedding of the game logic of the 3D chess front end.  The
    program keeps its state in module-level variables ([boardState],
    [selectedPiece], [validMoves], [previousMove], [isPlayerTurn],
    [deferredResolve], the scene graph and a few DOM nodes); they are the
    fields of [State] below and every source function becomes a function
    on [State], under the name it has in the source.

    The rules engine ([Chess] of chess.js) and the search process are
    external collaborators: the engine is an interface ([RulesEngine]), the
    search process is the list of messages posted to it. *)

From Stdlib Require Import String Ascii List Bool Arith Lia ZArith QArith.
From Stdlib Require Import DecimalString DecimalNat.
Import ListNotations.
Open Scope list_scope.
Open Scope bool_scope.
Open Scope nat_scope.
Open Scope string_scope.

(** ** JavaScript strings

    Identities and squares are ASCII, so a JavaScript string is a [string]
    and one UTF-16 code unit is one character. *)

(** [s.includes(sub)]: [sub] occurs in [s] as a contiguous substring. *)
Fixpoint includes (sub s : string) : bool :=
  prefix sub s ||
  match s with
  | EmptyString => false
  | String _ rest => includes sub rest
  end.

(** [s.split("")[i]]: the one-character string at index [i], [None] for
    [undefined]. *)
Definition charAt (i : nat) (s : string) : option string :=
  match get i s with
  | Some c => Some (String c EmptyString)
  | None => None
  end.

(** [s.slice(a, b)] for [0 <= a <= b]. *)
Definition slice (a b : nat) (s : string) : string := substring a (b - a) s.

(** [s.substring(1)]. *)
Definition dropFirst (s : string) : string :=
  match s with
  | EmptyString => EmptyString
  | String _ rest => rest
  end.

(** [s.split(sep)] for a one-character separator. *)
Fixpoint splitOn (sep : ascii) (s : string) : list string :=
  match s with
  | EmptyString => [EmptyString]
  | String c rest =>
      if Ascii.eqb c sep then EmptyString :: splitOn sep rest
      else match splitOn sep rest with
           | [] => [String c EmptyString]
           | w :: ws => String c w :: ws
           end
  end.

(** A value interpolated in a template literal: [undefined] prints as the
    word. *)
Definition template (v : option string) : string :=
  match v with
  | Some s => s
  | None => "undefined"
  end.

(** A natural number interpolated in a template literal. *)
Definition numToString (n : nat) : string :=
  NilEmpty.string_of_uint (Nat.to_uint n).

(** [xs.indexOf(x)], [None] for [-1]. *)
Fixpoint indexOf (x : string) (xs : list string) : option nat :=
  match xs with
  | [] => None
  | y :: rest => if y =? x then Some 0 else option_map S (indexOf x rest)
  end.

(** A string-or-undefined value used as a condition: [undefined] and the
    empty string are falsy. *)
Definition truthy (v : option string) : option string :=
  match v with
  | Some EmptyString => None
  | _ => v
  end.

(** ** Data *)

(** The move record of the rules engine, with the fields the program reads
    ([from], [to], [flags], [san], [promotion]) and the ones that say what
    moved ([color], [piece], [captured]). *)
Record Move : Type := mkMove {
  m_color : string;
  m_from : string;
  m_to : string;
  m_piece : string;
  m_captured : option string;
  m_promotion : option string;
  m_flags : string;
  m_san : string
}.

(** The argument of [game.move]. *)
Record MoveRequest : Type := mkRequest {
  r_from : string;
  r_to : string;
  r_promotion : string
}.

(** Coordinates are exact rationals standing for the scene's doubles. *)
Record Vector3 : Type := mkVector3 { vx : Q; vy : Q; vz : Q }.

(** A child of [scene.children[0]]: a piece or a square.  [emissive] stands
    for the emissive colour of the object's mesh materials. *)
Record Object3D : Type := mkObject {
  name : string;
  visible : bool;
  frustumCulled : bool;
  position : Vector3;
  emissive : Z
}.

(** The DOM nodes the program touches; [None] is a node that is not in the
    document.  The modals hold their [style.display], the verdict node its
    [textContent]. *)
Record Dom : Type := mkDom {
  promotion_modal : option string;
  verdict_modal : option string;
  game_verdict : option string
}.

(** [boardState]: a JavaScript object used as a dictionary from piece
    identity to square.  [Object.entries] lists it in insertion order, and
    the program searches it with [find], so it is an association list. *)
Definition BoardState : Type := list (string * string).

(** [boardState[k] = v]: an existing key keeps its place, a new one goes
    last. *)
Fixpoint assign (k v : string) (bs : BoardState) : BoardState :=
  match bs with
  | [] => [(k, v)]
  | (k', v') :: rest =>
      if k' =? k then (k', v) :: rest else (k', v') :: assign k v rest
  end.

(** [delete boardState[k]]. *)
Definition delete (k : string) (bs : BoardState) : BoardState :=
  filter (fun e => negb (fst e =? k)) bs.

(** The flow suspended on the promotion modal: what the closure stored in
    [deferredResolve] resumes, the rest of [moveSelectedPiece] with its
    [from] and [to]. *)
Record Suspended : Type := mkSuspended { sus_from : string; sus_to : string }.

(** ** The rules engine

    [game_move] is [game.move(request)]: [None] when the engine throws,
    otherwise the move record and the engine after the move.  [game_get]
    observes the engine's own board ([game.get(square)] is a piece). *)
Class RulesEngine (G : Type) : Type := {
  game_move : G -> MoveRequest -> option (Move * G);
  game_moves : G -> string -> list Move;
  game_isCheckmate : G -> bool;
  game_isDraw : G -> bool;
  game_fen : G -> string;
  game_get : G -> string -> bool
}.

(** ** The program state *)

Record State (G : Type) : Type := mkState {
  boardState : BoardState;
  scene : list Object3D;
  selectedPiece : option string;
  validMoves : list Move;
  previousMove : option Move;
  isPlayerTurn : bool;
  deferredResolve : option Suspended;
  dom : Dom;
  game : G;
  (* what was posted to the search process, oldest first *)
  botMessages : list string;
  (* the requests passed to game.move, oldest first *)
  submissions : list MoveRequest
}.

Arguments mkState {G}.
Arguments boardState {G}.
Arguments scene {G}.
Arguments selectedPiece {G}.
Arguments validMoves {G}.
Arguments previousMove {G}.
Arguments isPlayerTurn {G}.
Arguments deferredResolve {G}.
Arguments dom {G}.
Arguments game {G}.
Arguments botMessages {G}.
Arguments submissions {G}.

(** ** The board registry and the scene, as the lookups read them *)

Definition getPiecePosition (pieceName : string) (bs : BoardState) : option string :=
  option_map snd (find (fun e => fst e =? pieceName) bs).

Definition getPieceAt (position : string) (bs : BoardState) : option string :=
  option_map fst (find (fun e => snd e =? position) bs).

(** [getSceneObject(objectName)]: the first child with that name; no child
    is named [undefined]. *)
Definition getSceneObject (objectName : option string) (sc : list Object3D)
  : option Object3D :=
  match objectName with
  | None => None
  | Some n => find (fun o => name o =? n) sc
  end.

Definition getPositionObject (position : string) (sc : list Object3D)
  : option Object3D :=
  getSceneObject (Some position) sc.

(** A write through a reference obtained from [getSceneObject]: it lands on
    the first child of that name. *)
Fixpoint updateObject (n : string) (f : Object3D -> Object3D)
  (sc : list Object3D) : list Object3D :=
  match sc with
  | [] => []
  | o :: rest =>
      if name o =? n then f o :: rest else o :: updateObject n f rest
  end.

Definition hide (o : Object3D) : Object3D :=
  mkObject (name o) false false (position o) (emissive o).

Definition removePieceFromBoard (pieceObject : option Object3D)
  (sc : list Object3D) : list Object3D :=
  match pieceObject with
  | None => sc
  | Some o => updateObject (name o) hide sc
  end.

Definition setEmissive (color : Z) (o : Object3D) : Object3D :=
  mkObject (name o) (visible o) (frustumCulled o) (position o) color.

Definition illuminateObject (object : option Object3D) (color : Z)
  (sc : list Object3D) : list Object3D :=
  match object with
  | None => sc
  | Some o => updateObject (name o) (setEmissive color) sc
  end.

Definition deilluminateObject (object : option Object3D)
  (sc : list Object3D) : list Object3D :=
  illuminateObject object 0%Z sc.

(** The vertical offset that rests a piece on its square: 0.01475. *)
Definition pieceLift : Q := 59 # 4000.

Definition onSquare (anchor : Vector3) : Vector3 :=
  mkVector3 (vx anchor) (vy anchor + pieceLift)%Q (vz anchor).

Definition setPosition (p : Vector3) (o : Object3D) : Object3D :=
  mkObject (name o) (visible o) (frustumCulled o) p (emissive o).

(** The square a move's [to] illuminates:
    [position.length === 3 ? position.substring(1) : position]. *)
Definition squareName (position : string) : string :=
  if (String.length position =? 3)%nat then dropFirst position else position.

(** ** Pure helpers of the move executor *)

Definition isKingSideCastling (move : Move) : bool := m_san move =? "O-O".

Definition isQueenSideCastling (move : Move) : bool := m_san move =? "O-O-O".

Definition isCastlingMove (move : Move) : bool :=
  isKingSideCastling move || isQueenSideCastling move.

Definition isEnPassantMove (move : Move) : bool := m_flags move =? "e".

Definition isPromotionMove (move : Move) : bool :=
  match truthy (m_promotion move) with
  | Some _ => true
  | None => false
  end.

Definition shouldPromote (piece to : string) : bool :=
  let rank := charAt 1 to in
  let isPawn := includes "pawn" piece in
  isPawn &&
  (match rank with Some r => r =? "8" | None => false end
   || match rank with Some r => r =? "1" | None => false end).

(** [getPromotionPieceMoveCharacter(promotionPiece = "queen")]: the table
    lookup with its [?? "q"] default (no form value names an inherited
    property of the table). *)
Definition getPromotionPieceMoveCharacter (promotionPiece : option string)
  : string :=
  let promotionPiece := match promotionPiece with Some p => p | None => "queen" end in
  if promotionPiece =? "queen" then "q"
  else if promotionPiece =? "knight" then "n"
  else if promotionPiece =? "bishop" then "b"
  else if promotionPiece =? "rook" then "r"
  else "q".

Definition files : list string := ["a"; "b"; "c"; "d"; "e"; "f"; "g"; "h"].

Definition getPreviousFileSameRankPosition (position : string) : string :=
  if position =? "" then "a1"
  else
    let positionFile := charAt 0 position in
    let positionRank := charAt 1 position in
    match indexOf (template positionFile) files with
    | None => "a1"
    | Some positionFileIndex =>
        template (match positionFileIndex with
                  | O => None
                  | S i => nth_error files i
                  end)
        ++ template positionRank
    end.

Definition getNextFileSameRankPosition (position : string) : string :=
  if position =? "" then "a1"
  else
    let positionFile := charAt 0 position in
    let positionRank := charAt 1 position in
    match indexOf (template positionFile) files with
    | None => "a1"
    | Some positionFileIndex =>
        template (nth_error files (positionFileIndex + 1)) ++ template positionRank
    end.

(** [originalPieces[originalPieces.length - 1]]. *)
Definition lastOf {A : Type} (xs : list A) : option A :=
  match xs with
  | [] => None
  | x :: rest => Some (last rest x)
  end.

Definition rename (n : string) (o : Object3D) : Object3D :=
  mkObject n (visible o) (frustumCulled o) (position o) (emissive o).

(** [getPromotionPieceObject(promotionPiece)]: a clone of the latest white
    piece of that type, named with the next instance number.  [None] is the
    [TypeError] of cloning [undefined] when no such piece is in the scene. *)
Definition getPromotionPieceObject (promotionPiece : string)
  (sc : list Object3D) : option Object3D :=
  let originalPieces :=
    filter (fun o => includes (promotionPiece ++ "_white") (name o)) sc in
  match lastOf originalPieces with
  | None => None
  | Some latestBuiltPiece =>
      Some (rename (promotionPiece ++ "_white_"
                      ++ numToString (List.length originalPieces + 1))
                   latestBuiltPiece)
  end.

(** [getPieceCharacterToPiece(pieceCharacter)], the opponent's counterpart:
    the letter picks the type, queen when it is none of q, n, b, r, and the
    colour follows [isPlayerTurn]. *)
Definition pieceOfCharacter (pieceCharacter : string) (playerTurn : bool) : string :=
  let colour := if playerTurn then "white" else "black" in
  if pieceCharacter =? "q" then "queen_" ++ colour
  else if pieceCharacter =? "n" then "knight_" ++ colour
  else if pieceCharacter =? "b" then "bishop_" ++ colour
  else if pieceCharacter =? "r" then "rook_" ++ colour
  else "queen_" ++ colour.

Definition getPieceCharacterToPiece (pieceCharacter : string)
  (playerTurn : bool) (sc : list Object3D) : option Object3D :=
  let piece := pieceOfCharacter pieceCharacter playerTurn in
  let originalPieces := filter (fun o => includes piece (name o)) sc in
  match lastOf originalPieces with
  | None => None
  | Some latestBuiltPiece =>
      Some (rename (piece ++ "_" ++ numToString (List.length originalPieces + 1))
                   latestBuiltPiece)
  end.

(** [getBestMoveDetails(bestMoveMessage)]; [None] is the [TypeError] of
    slicing [undefined] when the message has no second word. *)
Definition getBestMoveDetails (bestMoveMessage : string)
  : option (string * string * string) :=
  match nth_error (splitOn " "%char bestMoveMessage) 1 with
  | None => None
  | Some bestMove =>
      Some (slice 0 2 bestMove, slice 2 4 bestMove, slice 4 5 bestMove)
  end.

Definition pieceNames : list string :=
  ["rook"; "bishop"; "knight"; "queen"; "king"; "pawn"].

Definition checkAndGetIfPiece (object : Object3D) (bs : BoardState)
  : option string :=
  match find (fun pieceName => includes pieceName (name object)) pieceNames with
  | Some _ => Some (name object)
  | None => getPieceAt (name object) bs
  end.

Definition initBoardState : BoardState :=
  [ ("pawn_white_1", "a2"); ("pawn_white_2", "b2"); ("pawn_white_3", "c2");
    ("pawn_white_4", "d2"); ("pawn_white_5", "e2"); ("pawn_white_6", "f2");
    ("pawn_white_7", "g2"); ("pawn_white_8", "h2");
    ("pawn_black_1", "a7"); ("pawn_black_2", "b7"); ("pawn_black_3", "c7");
    ("pawn_black_4", "d7"); ("pawn_black_5", "e7"); ("pawn_black_6", "f7");
    ("pawn_black_7", "g7"); ("pawn_black_8", "h7");
    ("rook_white_2", "a1"); ("knight_white_2", "b1"); ("bishop_white_2", "c1");
    ("queen_white_1", "d1"); ("king_white", "e1"); ("bishop_white_1", "f1");
    ("knight_white_1", "g1"); ("rook_white_1", "h1");
    ("rook_black_2", "a8"); ("knight_black_2", "b8"); ("bishop_black_2", "c8");
    ("queen_black_1", "d8"); ("king_black", "e8"); ("bishop_black_1", "f8");
    ("knight_black_1", "g8"); ("rook_black_1", "h8") ].

(** ** The program on its state *)

Section Program.

Context {G : Type} {engine : RulesEngine G}.

(** Assignments to the module-level variables. *)

Definition set_boardState (v : BoardState) (s : State G) : State G :=
  mkState v (scene s) (selectedPiece s) (validMoves s) (previousMove s)
    (isPlayerTurn s) (deferredResolve s) (dom s) (game s) (botMessages s)
    (submissions s).

Definition set_scene (v : list Object3D) (s : State G) : State G :=
  mkState (boardState s) v (selectedPiece s) (validMoves s) (previousMove s)
    (isPlayerTurn s) (deferredResolve s) (dom s) (game s) (botMessages s)
    (submissions s).

Definition set_selectedPiece (v : option string) (s : State G) : State G :=
  mkState (boardState s) (scene s) v (validMoves s) (previousMove s)
    (isPlayerTurn s) (deferredResolve s) (dom s) (game s) (botMessages s)
    (submissions s).

Definition set_validMoves (v : list Move) (s : State G) : State G :=
  mkState (boardState s) (scene s) (selectedPiece s) v (previousMove s)
    (isPlayerTurn s) (deferredResolve s) (dom s) (game s) (botMessages s)
    (submissions s).

Definition set_previousMove (v : option Move) (s : State G) : State G :=
  mkState (boardState s) (scene s) (selectedPiece s) (validMoves s) v
    (isPlayerTurn s) (deferredResolve s) (dom s) (game s) (botMessages s)
    (submissions s).

Definition set_isPlayerTurn (v : bool) (s : State G) : State G :=
  mkState (boardState s) (scene s) (selectedPiece s) (validMoves s)
    (previousMove s) v (deferredResolve s) (dom s) (game s) (botMessages s)
    (submissions s).

Definition set_deferredResolve (v : option Suspended) (s : State G) : State G :=
  mkState (boardState s) (scene s) (selectedPiece s) (validMoves s)
    (previousMove s) (isPlayerTurn s) v (dom s) (game s) (botMessages s)
    (submissions s).

Definition set_dom (v : Dom) (s : State G) : State G :=
  mkState (boardState s) (scene s) (selectedPiece s) (validMoves s)
    (previousMove s) (isPlayerTurn s) (deferredResolve s) v (game s)
    (botMessages s) (submissions s).

Definition set_game (v : G) (s : State G) : State G :=
  mkState (boardState s) (scene s) (selectedPiece s) (validMoves s)
    (previousMove s) (isPlayerTurn s) (deferredResolve s) (dom s) v
    (botMessages s) (submissions s).

Definition postMessage (message : string) (s : State G) : State G :=
  mkState (boardState s) (scene s) (selectedPiece s) (validMoves s)
    (previousMove s) (isPlayerTurn s) (deferredResolve s) (dom s) (game s)
    (botMessages s ++ [message])%list (submissions s).

Definition logSubmission (r : MoveRequest) (s : State G) : State G :=
  mkState (boardState s) (scene s) (selectedPiece s) (validMoves s)
    (previousMove s) (isPlayerTurn s) (deferredResolve s) (dom s) (game s)
    (botMessages s) (submissions s ++ [r])%list.

(** *** Relocation, capture, castling, en passant *)

Definition movePieceOnBoard (from to : string) (s : State G) : State G :=
  let fromPiece := getPieceAt from (boardState s) in
  let toPiece := getPieceAt to (boardState s) in
  match truthy fromPiece with
  | None => s
  | Some fromPiece =>
      let fromPieceObject := getSceneObject (Some fromPiece) (scene s) in
      let s1 :=
        match truthy toPiece with
        | Some toPiece =>
            let toPieceObject := getSceneObject (Some toPiece) (scene s) in
            set_boardState (delete toPiece (boardState s))
              (set_scene (removePieceFromBoard toPieceObject (scene s)) s)
        | None => s
        end in
      match getPositionObject to (scene s1) with
      | None => s1
      | Some positionObject =>
          let s2 := set_boardState (assign fromPiece to (boardState s1)) s1 in
          match fromPieceObject with
          | Some o =>
              set_scene
                (updateObject (name o)
                   (setPosition (onSquare (position positionObject)))
                   (scene s2)) s2
          | None => s2
          end
      end
  end.

Definition castleRook (move : Move) (to : string) (s : State G) : State G :=
  let pieceColour := if isPlayerTurn s then "white" else "black" in
  let queenSide (s' : State G) : State G :=
    if isQueenSideCastling move then
      let queenSideRookPosition :=
        getPiecePosition ("rook_" ++ pieceColour ++ "_2") (boardState s') in
      let queenSideRookToPosition := getNextFileSameRankPosition to in
      match truthy queenSideRookPosition with
      | None => s'
      | Some p => movePieceOnBoard p queenSideRookToPosition s'
      end
    else s' in
  if isKingSideCastling move then
    let kingSideRookPosition :=
      getPiecePosition ("rook_" ++ pieceColour ++ "_1") (boardState s) in
    let kingSideRookToPosition := getPreviousFileSameRankPosition to in
    match truthy kingSideRookPosition with
    | None => s
    | Some p => queenSide (movePieceOnBoard p kingSideRookToPosition s)
    end
  else queenSide s.

Definition captureEnPassantPawn (s : State G) : State G :=
  match previousMove s with
  | None => s
  | Some previous =>
      let capturedPiece := getPieceAt (m_to previous) (boardState s) in
      let capturedPieceObject := getSceneObject capturedPiece (scene s) in
      let s1 :=
        match truthy capturedPiece with
        | Some c => set_boardState (delete c (boardState s)) s
        | None => s
        end in
      set_scene (removePieceFromBoard capturedPieceObject (scene s1)) s1
  end.

(** *** Promotion *)

Definition addPieceAt (pieceObject : option Object3D) (to : string)
  (s : State G) : State G :=
  match pieceObject with
  | None => s
  | Some o =>
      let s1 := set_boardState (assign (name o) to (boardState s)) s in
      match getSceneObject (Some to) (scene s1) with
      | Some positionObject =>
          set_scene
            (scene s1 ++
             [mkObject (name o) true true
                (onSquare (position positionObject)) (emissive o)])%list s1
      | None => s1
      end
  end.

Definition removePawn (s : State G) : State G :=
  match truthy (selectedPiece s) with
  | None => s
  | Some sel =>
      let s1 := set_boardState (delete sel (boardState s)) s in
      let selectedPieceObject := getSceneObject (Some sel) (scene s1) in
      set_scene (removePieceFromBoard selectedPieceObject (scene s1)) s1
  end.

Definition removePawnPiece (pawnPiece : Object3D) (s : State G) : State G :=
  let s1 := set_boardState (delete (name pawnPiece) (boardState s)) s in
  set_scene (removePieceFromBoard (Some pawnPiece) (scene s1)) s1.

(** *** Highlights *)

Definition illuminatePiece (pieceName : option string) (s : State G) : State G :=
  let selectedPieceObject := getSceneObject pieceName (scene s) in
  set_scene (illuminateObject selectedPieceObject 65280%Z (scene s)) s.

Definition deilluminatePiece (pieceName : string) (s : State G) : State G :=
  let selectedPieceObject := getSceneObject (Some pieceName) (scene s) in
  set_scene (deilluminateObject selectedPieceObject (scene s)) s.

(** Each square of [positions], in order, gets the colour. *)
Definition illuminateSquares (positions : list string) (color : Z)
  (sc : list Object3D) : list Object3D :=
  fold_left
    (fun acc position =>
       illuminateObject (getSceneObject (Some (squareName position)) acc) color acc)
    positions sc.

Definition illuminateValidMoves (s : State G) : State G :=
  match truthy (selectedPiece s) with
  | None => s
  | Some _ =>
      set_scene (illuminateSquares (map m_to (validMoves s)) 65280%Z (scene s)) s
  end.

Definition deilluminateValidMoves (s : State G) : State G :=
  set_scene (illuminateSquares (map m_to (validMoves s)) 0%Z (scene s)) s.

Definition illuminatePreviousMove (s : State G) : State G :=
  match previousMove s with
  | None => s
  | Some previous =>
      set_scene
        (illuminateSquares [m_from previous; m_to previous] 16776960%Z (scene s)) s
  end.

Definition deilluminateOlderPreviousMove (s : State G) : State G :=
  match previousMove s with
  | None => s
  | Some previous =>
      set_scene
        (illuminateSquares [m_from previous; m_to previous] 0%Z (scene s)) s
  end.

Definition setAndIlluminatePreviousMove (move : option Move) (s : State G)
  : State G :=
  illuminatePreviousMove (set_previousMove move (deilluminateOlderPreviousMove s)).

Definition unsetSelectedPiece (s : State G) : State G :=
  match truthy (selectedPiece s) with
  | None => s
  | Some sel => set_selectedPiece None (deilluminatePiece sel s)
  end.

Definition unsetValidMoves (s : State G) : State G :=
  set_validMoves [] (deilluminateValidMoves s).

Definition unsetSelectedPieceAndValidMoves (s : State G) : State G :=
  unsetValidMoves (unsetSelectedPiece s).

(** *** The verdict surface *)

Definition showDrawVerdict (s : State G) : State G :=
  match game_verdict (dom s) with
  | None => s
  | Some _ =>
      let d1 := mkDom (promotion_modal (dom s)) (verdict_modal (dom s))
                  (Some "Draw!") in
      match verdict_modal d1 with
      | None => set_dom d1 s
      | Some _ =>
          set_dom (mkDom (promotion_modal d1) (Some "block") (game_verdict d1)) s
      end
  end.

Definition showCheckmateVerdict (s : State G) : State G :=
  let didPlayerWin := negb (isPlayerTurn s) in
  match game_verdict (dom s) with
  | None => s
  | Some _ =>
      let d1 := mkDom (promotion_modal (dom s)) (verdict_modal (dom s))
                  (Some ("Checkmate! ("
                         ++ (if didPlayerWin then "Player" else "Computer")
                         ++ " wins)")) in
      match verdict_modal d1 with
      | None => set_dom d1 s
      | Some _ =>
          set_dom (mkDom (promotion_modal d1) (Some "block") (game_verdict d1)) s
      end
  end.

Definition isGameOver (s : State G) : bool :=
  game_isCheckmate (game s) || game_isDraw (game s).

Definition showGameVerdict (s : State G) : State G :=
  let s1 := if game_isCheckmate (game s) then showCheckmateVerdict s else s in
  if game_isDraw (game s1) then showDrawVerdict s1 else s1.

Definition showVerdictIfNecessary (s : State G) : State G :=
  if isGameOver s then showGameVerdict s else s.

Definition makeBotMove (s : State G) : State G :=
  let fen := game_fen (game s) in
  postMessage "go depth 15" (postMessage ("position fen " ++ fen) s).

(** *** Exceptions

    A computation that may throw: the state it leaves is kept either way,
    as the mutations made before a JavaScript exception are. *)

Inductive Completion (A : Type) : Type :=
| Normal (a : A)
| Thrown.

#[global] Arguments Normal {A}.
#[global] Arguments Thrown {A}.

Definition M (A : Type) : Type := State G -> Completion A * State G.

Definition ret {A : Type} (a : A) : M A := fun s => (Normal a, s).

Definition bind {A B : Type} (m : M A) (k : A -> M B) : M B :=
  fun s =>
    match m s with
    | (Normal a, s') => k a s'
    | (Thrown, s') => (Thrown, s')
    end.

Definition throw {A : Type} : M A := fun s => (Thrown, s).

Definition run (f : State G -> State G) : M unit := fun s => (Normal tt, f s).

Definition when (b : bool) (m : M unit) : M unit := if b then m else ret tt.

(** [try { body } catch { throw "Invalid move" } finally { cleanup }]: the
    completion of the body stands, the cleanup runs in both cases. *)
Definition tryFinally {A : Type} (body : M A) (cleanup : State G -> State G)
  : M A :=
  fun s => let (c, s') := body s in (c, cleanup s').

Notation "x <- m ;; k" := (bind m (fun x => k))
  (at level 61, m at next level, right associativity).
Notation "m ;;; k" := (bind m (fun _ => k))
  (at level 61, right associativity).

(** [game.move(request)]. *)
Definition gameMove (request : MoveRequest) : M Move :=
  fun s =>
    let s1 := logSubmission request s in
    match game_move (game s) request with
    | None => (Thrown, s1)
    | Some (move, g') => (Normal move, set_game g' s1)
    end.

Definition addPromotedPiece (promotionPiece to : string) : M unit :=
  fun s =>
    match getPromotionPieceObject promotionPiece (scene s) with
    | None => (Thrown, s)
    | Some promotionPieceObject =>
        (Normal tt, addPieceAt (Some promotionPieceObject) to s)
    end.

Definition removePawnAndAddPromotedPiece (promotionPiece : option string)
  (to : string) : M unit :=
  fun s =>
    match truthy promotionPiece, truthy (selectedPiece s) with
    | Some piece, Some _ => addPromotedPiece piece to (removePawn s)
    | _, _ => (Normal tt, s)
    end.

Definition removePawnPieceAndAddPromotedPiece (promotionPiece : option Object3D)
  (to : string) (pawnPiece : option Object3D) (s : State G) : State G :=
  match promotionPiece, pawnPiece with
  | Some promoted, Some pawn => addPieceAt (Some promoted) to (removePawnPiece pawn s)
  | _, _ => s
  end.

Definition promotePiece (promotionPiece from to : string) : M unit :=
  fun s =>
    match getPieceCharacterToPiece promotionPiece (isPlayerTurn s) (scene s) with
    | None => (Thrown, s)
    | Some promotionPieceObject =>
        let piece := getPieceAt from (boardState s) in
        let pieceObject := getSceneObject piece (scene s) in
        (Normal tt,
         removePawnPieceAndAddPromotedPiece (Some promotionPieceObject) to
           pieceObject s)
    end.

(** *** The human move

    [moveSelectedPiece] is an [async] function with one [await], the
    promotion choice.  [moveSelectedPiece_submit] is its [try] block from
    the call of [game.move] on; [moveSelectedPiece_resume] adds the [catch]
    and the [finally]; [moveSelectedPiece] is the function up to the
    [await], where it either goes on at once or leaves the flow suspended
    in [deferredResolve]. *)

Definition moveSelectedPiece_submit (promotionPiece : option string)
  (from to : string) : M unit :=
  move <- gameMove (mkRequest from to
                      (getPromotionPieceMoveCharacter promotionPiece)) ;;
  when (isCastlingMove move) (run (castleRook move to)) ;;;
  when (isEnPassantMove move) (run captureEnPassantPawn) ;;;
  when (isPromotionMove move) (removePawnAndAddPromotedPiece promotionPiece to) ;;;
  run (movePieceOnBoard from to) ;;;
  run (setAndIlluminatePreviousMove (Some move)) ;;;
  run (set_isPlayerTurn false) ;;;
  run showVerdictIfNecessary.

Definition moveSelectedPiece_resume (promotionPiece : option string)
  (from to : string) : M unit :=
  tryFinally (moveSelectedPiece_submit promotionPiece from to)
    unsetSelectedPieceAndValidMoves.

(** How a call of the [async] function stands when control returns to the
    event loop. *)
Inductive Outcome : Type :=
| Fulfilled
| Rejected
| Pending.

Definition outcomeOf (c : Completion unit) : Outcome :=
  match c with
  | Normal _ => Fulfilled
  | Thrown => Rejected
  end.

Definition moveSelectedPiece (to : string) (s : State G) : Outcome * State G :=
  match truthy (selectedPiece s) with
  | None => (Fulfilled, s)
  | Some sel =>
      match truthy (getPiecePosition sel (boardState s)) with
      | None => (Fulfilled, s)
      | Some from =>
          if shouldPromote sel to then
            (* getPromotionPiece *)
            match promotion_modal (dom s) with
            | None =>
                let (c, s') := moveSelectedPiece_resume None from to s in
                (outcomeOf c, s')
            | Some _ =>
                let shown := mkDom (Some "block") (verdict_modal (dom s))
                               (game_verdict (dom s)) in
                (* deferredPromise *)
                (Pending,
                 set_deferredResolve (Some (mkSuspended from to))
                   (set_dom shown s))
            end
          else
            let (c, s') := moveSelectedPiece_resume None from to s in
            (outcomeOf c, s')
      end
  end.

(** The rest of [moveSelectedPieceAndTriggerBotMove] once
    [moveSelectedPiece] has settled. *)
Definition triggerBotMove (o : Outcome) (s : State G) : State G :=
  match o with
  | Fulfilled => makeBotMove s
  | Rejected => s
  | Pending => s
  end.

Definition moveSelectedPieceAndTriggerBotMove (to : string) (s : State G)
  : State G :=
  let (o, s') := moveSelectedPiece to s in triggerBotMove o s'.

(** [window.onPromote(event)]: [target] is [event.target] being set,
    [choice] the form's [promotion-piece] value.  The resolver clears
    [deferredResolve]; the promise's [then] callback hides the modal and
    hands the choice to the suspended flow, which runs to its end. *)
Definition onPromote (target : bool) (choice : option string) (s : State G)
  : State G :=
  match deferredResolve s with
  | None => s
  | Some suspended =>
      if negb target then s
      else
        let s1 := set_deferredResolve None s in
        let (piece, s2) :=
          match promotion_modal (dom s1) with
          | None => (None, s1)
          | Some _ =>
              (choice,
               set_dom (mkDom (Some "none") (verdict_modal (dom s1))
                          (game_verdict (dom s1))) s1)
          end in
        let (c, s3) :=
          moveSelectedPiece_resume piece (sus_from suspended)
            (sus_to suspended) s2 in
        triggerBotMove (outcomeOf c) s3
  end.

(** *** The opponent's move *)

Definition onBotMessage_move (from to promotion : string) : M unit :=
  move <- gameMove (mkRequest from to promotion) ;;
  when (isCastlingMove move) (run (castleRook move to)) ;;;
  when (isEnPassantMove move) (run captureEnPassantPawn) ;;;
  when (negb (promotion =? "")) (promotePiece promotion from to) ;;;
  run (movePieceOnBoard from to) ;;;
  run (setAndIlluminatePreviousMove (Some move)) ;;;
  run (set_isPlayerTurn true) ;;;
  run showVerdictIfNecessary.

Definition onBotMessage (message : string) : M unit :=
  if negb (includes "bestmove" message) then ret tt
  else
    match getBestMoveDetails message with
    | None => throw
    | Some (from, to, promotion) => onBotMessage_move from to promotion
    end.

(** *** Pointer picks

    A click comes with [hits], the names of the children the ray meets,
    nearest first. *)

Definition getInteractedObject (hits : list string) (s : State G)
  : option Object3D :=
  find visible
    (flat_map (fun n => match getSceneObject (Some n) (scene s) with
                        | Some o => [o]
                        | None => []
                        end) hits).

Definition getValidMovesFor (piecePosition : option string) (s : State G)
  : list Move :=
  match truthy piecePosition with
  | None => []
  | Some square => game_moves (game s) square
  end.

Definition setAndIlluminateSelectedPiece (object : Object3D) (s : State G)
  : State G :=
  let s1 := set_selectedPiece (checkAndGetIfPiece object (boardState s)) s in
  match truthy (selectedPiece s1) with
  | None => s1
  | Some sel => illuminatePiece (Some sel) s1
  end.

Definition setAndIlluminateValidMovesFor (pieceName : option string)
  (s : State G) : State G :=
  match truthy pieceName with
  | None => s
  | Some p =>
      let piecePosition := getPiecePosition p (boardState s) in
      illuminateValidMoves (set_validMoves (getValidMovesFor piecePosition s) s)
  end.

Definition handleFirstPlayerInteraction (hits : list string) (s : State G)
  : State G :=
  match getInteractedObject hits s with
  | None => s
  | Some interactedObject =>
      let s1 := setAndIlluminateSelectedPiece interactedObject s in
      setAndIlluminateValidMovesFor (selectedPiece s1) s1
  end.

Definition checkAndGetValidMoveForSelectedPiece (to : option string)
  (s : State G) : option Move :=
  find (fun move => match to with
                    | Some t => m_to move =? t
                    | None => false
                    end) (validMoves s).

Definition handleSecondPieceInteraction (piece : string) (s : State G)
  : State G :=
  let to := getPiecePosition piece (boardState s) in
  let pieceObject := getSceneObject (Some piece) (scene s) in
  let move := checkAndGetValidMoveForSelectedPiece to s in
  match move, pieceObject with
  | None, Some o =>
      let s1 := unsetSelectedPieceAndValidMoves s in
      let s2 := setAndIlluminateSelectedPiece o s1 in
      setAndIlluminateValidMovesFor (selectedPiece s2) s2
  | _, _ =>
      match truthy to, move with
      | Some t, Some _ => moveSelectedPieceAndTriggerBotMove t s
      | _, _ => s
      end
  end.

Definition handleSecondPlayerInteraction (hits : list string) (s : State G)
  : State G :=
  match truthy (selectedPiece s) with
  | None => s
  | Some _ =>
      match getInteractedObject hits s with
      | None => s
      | Some interactedObject =>
          match truthy (checkAndGetIfPiece interactedObject (boardState s)) with
          | Some piece => handleSecondPieceInteraction piece s
          | None => moveSelectedPieceAndTriggerBotMove (name interactedObject) s
          end
      end
  end.

Definition onClick (hits : list string) (s : State G) : State G :=
  if negb (isPlayerTurn s) then s
  else
    match truthy (selectedPiece s) with
    | Some _ => handleSecondPlayerInteraction hits s
    | None => handleFirstPlayerInteraction hits s
    end.

End Program.

(** ** A recorded game as rules engine

    An engine for running the program on concrete games: it holds a board
    and the moves of a recorded game still to come, with the record chess.js
    returns for each.  A request is accepted when it names the next recorded
    move by origin and destination and, for a promotion, by piece letter
    (chess.js compares the letter only for promotions); anything else is
    rejected.  The board follows the record the way chess.js makes a move:
    the piece goes from [from] to [to], a promotion replaces it, an en
    passant capture (flag [e]) empties the square beside the origin on the
    destination's file, a castle (flag [k] or [q]) brings the rook over the
    king. *)

Record Recorded : Type := mkRecorded {
  rec_move : Move;
  rec_checkmate : bool;
  rec_draw : bool
}.

Record Replay : Type := mkReplay {
  rp_board : list (string * string);
  rp_script : list Recorded;
  rp_checkmate : bool;
  rp_draw : bool
}.

Definition boardGet (square : string) (b : list (string * string)) : option string :=
  option_map snd (find (fun e => fst e =? square) b).

Definition boardRemove (square : string) (b : list (string * string))
  : list (string * string) :=
  filter (fun e => negb (fst e =? square)) b.

Definition boardPut (square piece : string) (b : list (string * string))
  : list (string * string) :=
  (square, piece) :: boardRemove square b.

Definition boardMove (from to : string) (b : list (string * string))
  : list (string * string) :=
  match boardGet from b with
  | Some piece => boardPut to piece (boardRemove from b)
  | None => b
  end.

(** The square [k] files to the right ([right]) or left of [square], on its
    rank. *)
Definition besideOnRank (right : bool) (k : nat) (square : string) : string :=
  match indexOf (template (charAt 0 square)) files with
  | None => square
  | Some i =>
      template (nth_error files (if right then i + k else i - k))
      ++ template (charAt 1 square)
  end.

Definition makeMove (move : Move) (b : list (string * string))
  : list (string * string) :=
  let b1 := boardMove (m_from move) (m_to move) b in
  let b2 :=
    if includes "e" (m_flags move) then
      boardRemove (template (charAt 0 (m_to move))
                   ++ template (charAt 1 (m_from move))) b1
    else b1 in
  let b3 :=
    match m_promotion move with
    | Some letter => boardPut (m_to move) (m_color move ++ letter) b2
    | None => b2
    end in
  if includes "k" (m_flags move) then
    boardMove (besideOnRank true 1 (m_to move)) (besideOnRank false 1 (m_to move)) b3
  else if includes "q" (m_flags move) then
    boardMove (besideOnRank false 2 (m_to move)) (besideOnRank true 1 (m_to move)) b3
  else b3.

Definition accepts (request : MoveRequest) (move : Move) : bool :=
  (r_from request =? m_from move) && (r_to request =? m_to move)
  && match m_promotion move with
     | Some letter => r_promotion request =? letter
     | None => true
     end.

Definition replayMove (g : Replay) (request : MoveRequest) : option (Move * Replay) :=
  match rp_script g with
  | [] => None
  | next :: rest =>
      if accepts request (rec_move next) then
        Some (rec_move next,
              mkReplay (makeMove (rec_move next) (rp_board g)) rest
                (rec_checkmate next) (rec_draw next))
      else None
  end.

Definition replayMoves (g : Replay) (square : string) : list Move :=
  match rp_script g with
  | [] => []
  | next :: _ => if m_from (rec_move next) =? square then [rec_move next] else []
  end.

#[export] Instance replayEngine : RulesEngine Replay := {
  game_move := replayMove;
  game_moves := replayMoves;
  game_isCheckmate := rp_checkmate;
  game_isDraw := rp_draw;
  game_fen := fun _ => "(position)";
  game_get := fun g square =>
    match boardGet square (rp_board g) with Some _ => true | None => false end
}.

(** The pieces of the starting position, by square. *)
Definition startBoard : list (string * string) :=
  [ ("a1", "wr"); ("b1", "wn"); ("c1", "wb"); ("d1", "wq");
    ("e1", "wk"); ("f1", "wb"); ("g1", "wn"); ("h1", "wr");
    ("a2", "wp"); ("b2", "wp"); ("c2", "wp"); ("d2", "wp");
    ("e2", "wp"); ("f2", "wp"); ("g2", "wp"); ("h2", "wp");
    ("a7", "bp"); ("b7", "bp"); ("c7", "bp"); ("d7", "bp");
    ("e7", "bp"); ("f7", "bp"); ("g7", "bp"); ("h7", "bp");
    ("a8", "br"); ("b8", "bn"); ("c8", "bb"); ("d8", "bq");
    ("e8", "bk"); ("f8", "bb"); ("g8", "bn"); ("h8", "br") ].

(** ** A scene for the starting position

    The model file of the scene is an asset, not code: the program needs of
    it one child per piece identity of [initBoardState] and one per square,
    each under its name.  Square [fr] is anchored at [(file, 0, rank)]. *)

Definition ranks : list string := ["1"; "2"; "3"; "4"; "5"; "6"; "7"; "8"].

Definition allSquares : list string :=
  flat_map (fun r => map (fun f => f ++ r) files) ranks.

Definition anchorOf (square : string) : Vector3 :=
  let coordinate (xs : list string) (c : option string) : Q :=
    match indexOf (template c) xs with
    | Some i => inject_Z (Z.of_nat i)
    | None => 0%Q
    end in
  mkVector3 (coordinate files (charAt 0 square)) 0%Q
    (coordinate ranks (charAt 1 square)).

Definition squareObject (square : string) : Object3D :=
  mkObject square true true (anchorOf square) 0%Z.

Definition pieceObject (entry : string * string) : Object3D :=
  mkObject (fst entry) true true (onSquare (anchorOf (snd entry))) 0%Z.

Definition startScene : list Object3D :=
  (map pieceObject initBoardState ++ map squareObject allSquares)%list.

Definition startDom : Dom := mkDom (Some "none") (Some "none") (Some "").

(** The program once the scene is loaded, playing against the recorded
    game [script]. *)
Definition startState (script : list Recorded) : State Replay :=
  mkState initBoardState startScene None [] None true None startDom
    (mkReplay startBoard script false false) [] [].

(** ** Whole moves

    A human move from the click that commits it to its end: the flow, and
    the answer of the promotion modal when the flow waits for one. *)
Definition playHumanMove {G : Type} {engine : RulesEngine G} (to : string)
  (choice : option string) (s : State G) : State G :=
  let (o, s1) := moveSelectedPiece to s in
  match o with
  | Pending => onPromote true choice s1
  | _ => triggerBotMove o s1
  end.

(** The opponent's reply, whatever its completion. *)
Definition playBotMessage {G : Type} {engine : RulesEngine G} (message : string)
  (s : State G) : State G :=
  snd (onBotMessage message s).

(** A square is occupied in the registry when some identity maps to it. *)
Definition occupied (square : string) (bs : BoardState) : bool :=
  existsb (fun e => snd e =? square) bs.

(** The registry is injective: no two identities share a square. *)
Definition injective (bs : BoardState) : Prop := NoDup (map snd bs).

(** The registry and the engine's board occupy the same squares. *)
Definition sameOccupancy {G : Type} {engine : RulesEngine G} (s : State G) : Prop :=
  forall square, In square allSquares ->
    occupied square (boardState s) = game_get (game s) square.

Definition sameOccupancyb {G : Type} {engine : RulesEngine G} (s : State G) : bool :=
  forallb (fun square =>
             Bool.eqb (occupied square (boardState s)) (game_get (game s) square))
    allSquares.

(** ** Events and recorded games

    The browser delivers clicks, the promotion form's submission and the
    search process's messages one at a time. *)

Inductive Event : Type :=
| Click (hits : list string)
| Promote (choice : option string)
| BotMessage (message : string).

Definition deliver {G : Type} {engine : RulesEngine G} (e : Event) (s : State G)
  : State G :=
  match e with
  | Click hits => onClick hits s
  | Promote choice => onPromote true choice s
  | BotMessage message => playBotMessage message s
  end.

Definition deliverAll {G : Type} {engine : RulesEngine G} (es : list Event)
  (s : State G) : State G :=
  fold_left (fun s' e => deliver e s') es s.

(** A move of a recorded game that ends neither in mate nor in a draw. *)
Definition played (color from to piece : string) (captured promotion : option string)
  (flags san : string) : Recorded :=
  mkRecorded (mkMove color from to piece captured promotion flags san) false false.

(** 1. a4 b5 2. axb5 a6 3. bxa6 Bb7 4. axb7 h6 5. bxa8=Q h5 6. Qa4:
    white's a-pawn captures its way to a8 and promotes on the rook. *)
Definition capturePromotionGame : list Recorded :=
  [ played "w" "a2" "a4" "p" None None "b" "a4";
    played "b" "b7" "b5" "p" None None "b" "b5";
    played "w" "a4" "b5" "p" (Some "p") None "c" "axb5";
    played "b" "a7" "a6" "p" None None "n" "a6";
    played "w" "b5" "a6" "p" (Some "p") None "c" "bxa6";
    played "b" "c8" "b7" "b" None None "n" "Bb7";
    played "w" "a6" "b7" "p" (Some "b") None "c" "axb7";
    played "b" "h7" "h6" "p" None None "n" "h6";
    played "w" "b7" "a8" "p" (Some "r") (Some "q") "cp" "bxa8=Q";
    played "b" "h6" "h5" "p" None None "n" "h5";
    played "w" "a8" "a4" "q" None None "n" "Qa4" ].

(** The events of that game up to and including 5. bxa8=Q: each capture is
    a click on the piece taken. *)
Definition capturePromotionEvents : list Event :=
  [ Click ["pawn_white_1"; "a2"]; Click ["a4"];
    BotMessage "bestmove b7b5 ponder a4b5";
    Click ["pawn_white_1"; "a4"]; Click ["pawn_black_2"; "b5"];
    BotMessage "bestmove a7a6";
    Click ["pawn_white_1"; "b5"]; Click ["pawn_black_1"; "a6"];
    BotMessage "bestmove c8b7";
    Click ["pawn_white_1"; "a6"]; Click ["bishop_black_2"; "b7"];
    BotMessage "bestmove h7h6";
    Click ["pawn_white_1"; "b7"]; Click ["rook_black_2"; "a8"];
    Promote (Some "queen") ].

Definition afterCapturePromotion : State Replay :=
  Eval vm_compute in
  deliverAll capturePromotionEvents (startState capturePromotionGame).

(** ... 5... h5 6. Qa4: the new queen is picked and sent to a4. *)
Definition queenLeavesEvents : list Event :=
  [ BotMessage "bestmove h6h5";
    Click ["queen_white_2"; "a8"]; Click ["a4"] ].

Definition afterQueenLeaves : State Replay :=
  Eval vm_compute in
  deliverAll queenLeavesEvents afterCapturePromotion.

(** 1. f4 e5 2. fxe5 f6 3. exf6 Kf7 4. fxg7 Bxg7 5. Nh3 a6 6. e4 a5
    7. Be2 a4 8. O-O+: the f-file is open and the black king stands on it,
    so castling gives check and its notation carries the check sign. *)
Definition castleWithCheckGame : list Recorded :=
  [ played "w" "f2" "f4" "p" None None "b" "f4";
    played "b" "e7" "e5" "p" None None "b" "e5";
    played "w" "f4" "e5" "p" (Some "p") None "c" "fxe5";
    played "b" "f7" "f6" "p" None None "n" "f6";
    played "w" "e5" "f6" "p" (Some "p") None "c" "exf6";
    played "b" "e8" "f7" "k" None None "n" "Kf7";
    played "w" "f6" "g7" "p" (Some "p") None "c" "fxg7";
    played "b" "f8" "g7" "b" (Some "p") None "c" "Bxg7";
    played "w" "g1" "h3" "n" None None "n" "Nh3";
    played "b" "a7" "a6" "p" None None "n" "a6";
    played "w" "e2" "e4" "p" None None "b" "e4";
    played "b" "a6" "a5" "p" None None "n" "a5";
    played "w" "f1" "e2" "b" None None "n" "Be2";
    played "b" "a5" "a4" "p" None None "n" "a4";
    played "w" "e1" "g1" "k" None None "k" "O-O+" ].

Definition beforeCastleEvents : list Event :=
  [ Click ["pawn_white_6"; "f2"]; Click ["f4"];
    BotMessage "bestmove e7e5";
    Click ["pawn_white_6"; "f4"]; Click ["pawn_black_5"; "e5"];
    BotMessage "bestmove f7f6";
    Click ["pawn_white_6"; "e5"]; Click ["pawn_black_6"; "f6"];
    BotMessage "bestmove e8f7";
    Click ["pawn_white_6"; "f6"]; Click ["pawn_black_7"; "g7"];
    BotMessage "bestmove f8g7";
    Click ["knight_white_1"; "g1"]; Click ["h3"];
    BotMessage "bestmove a7a6";
    Click ["pawn_white_5"; "e2"]; Click ["e4"];
    BotMessage "bestmove a6a5";
    Click ["bishop_white_1"; "f1"]; Click ["e2"];
    BotMessage "bestmove a5a4" ].

Definition beforeCastle : State Replay :=
  Eval vm_compute in
  deliverAll beforeCastleEvents (startState castleWithCheckGame).

(** 8. O-O+: the king is picked and g1 is clicked. *)
Definition afterCastle : State Replay :=
  Eval vm_compute in
  deliverAll [ Click ["king_white"; "e1"]; Click ["g1"] ] beforeCastle.

(** 1. b4 a5 2. a3 axb4 3. h3 bxa3 4. Bb2 axb2 5. h4 bxa1=Q: black's
    a-pawn promotes on a1. *)
Definition blackPromotionGame : list Recorded :=
  [ played "w" "b2" "b4" "p" None None "b" "b4";
    played "b" "a7" "a5" "p" None None "b" "a5";
    played "w" "a2" "a3" "p" None None "n" "a3";
    played "b" "a5" "b4" "p" (Some "p") None "c" "axb4";
    played "w" "h2" "h3" "p" None None "n" "h3";
    played "b" "b4" "a3" "p" (Some "p") None "c" "bxa3";
    played "w" "c1" "b2" "b" None None "n" "Bb2";
    played "b" "a3" "b2" "p" (Some "b") None "c" "axb2";
    played "w" "h3" "h4" "p" None None "n" "h4";
    played "b" "b2" "a1" "p" (Some "r") (Some "q") "cp" "bxa1=Q" ].

Definition beforeBlackPromotion : State Replay :=
  Eval vm_compute in
  deliverAll
    [ Click ["pawn_white_2"; "b2"]; Click ["b4"];
      BotMessage "bestmove a7a5";
      Click ["pawn_white_1"; "a2"]; Click ["a3"];
      BotMessage "bestmove a5b4";
      Click ["pawn_white_8"; "h2"]; Click ["h3"];
      BotMessage "bestmove b4a3";
      Click ["bishop_white_2"; "c1"]; Click ["b2"];
      BotMessage "bestmove a3b2";
      Click ["pawn_white_8"; "h3"]; Click ["h4"] ]
    (startState blackPromotionGame).

(** ** Observations used in the statements *)

(** What of a renderable is its place in the scene: name, visibility,
    pickability and position.  The highlight colour is not. *)
Definition geometry (o : Object3D) : string * bool * bool * Vector3 :=
  (name o, visible o, frustumCulled o, position o).

(** The variables other than the registry and the scene. *)
Definition outside {G : Type} (s : State G) :=
  (selectedPiece s, validMoves s, previousMove s, isPlayerTurn s,
   deferredResolve s, dom s, game s, botMessages s, submissions s).

(** The promotion piece the flow holds when it calls [game.move]: the
    modal's answer when the flow asked, [undefined] otherwise. *)
Definition knownPromotionPiece {G : Type} (sel to : string) (choice : option string)
  (s : State G) : option string :=
  if shouldPromote sel to then
    match promotion_modal (dom s) with
    | Some _ => choice
    | None => None
    end
  else None.

(** The request a human move submits. *)
Definition humanRequest {G : Type} (sel from to : string) (choice : option string)
  (s : State G) : MoveRequest :=
  mkRequest from to
    (getPromotionPieceMoveCharacter (knownPromotionPiece sel to choice s)).


(** What the executor's steps never touch: the pending wait, the promotion
    modal, the outbox and the log of submissions. *)
Definition kept {G : Type} (s : State G) :=
  (deferredResolve s, promotion_modal (dom s), botMessages s, submissions s).

(** The executor's steps once the engine has answered with [move], for the
    human path: the state after them and whether they completed. *)
Definition executeHuman {G : Type} {engine : RulesEngine G}
  (promotionPiece : option string) (from to : string) (move : Move)
  (s : State G) : Completion unit * State G :=
  let s2 := if isCastlingMove move then castleRook move to s else s in
  let s3 := if isEnPassantMove move then captureEnPassantPawn s2 else s2 in
  match (if isPromotionMove move
         then removePawnAndAddPromotedPiece promotionPiece to s3
         else (Normal tt, s3)) with
  | (Normal _, s4) =>
      (Normal tt,
       showVerdictIfNecessary
         (set_isPlayerTurn false
            (setAndIlluminatePreviousMove (Some move)
               (movePieceOnBoard from to s4))))
  | (Thrown, s4) => (Thrown, s4)
  end.

(** The same for the opponent's path. *)
Definition executeBot {G : Type} {engine : RulesEngine G}
  (from to promotion : string) (move : Move) (s : State G)
  : Completion unit * State G :=
  let s2 := if isCastlingMove move then castleRook move to s else s in
  let s3 := if isEnPassantMove move then captureEnPassantPawn s2 else s2 in
  match (if negb (promotion =? "")
         then promotePiece promotion from to s3
         else (Normal tt, s3)) with
  | (Normal _, s4) =>
      (Normal tt,
       showVerdictIfNecessary
         (set_isPlayerTurn true
            (setAndIlluminatePreviousMove (Some move)
               (movePieceOnBoard from to s4))))
  | (Thrown, s4) => (Thrown, s4)
  end.


(** The eligibility rule in the specification's words, to compare with
    [shouldPromote]: a pawn identity whose destination rank is the farthest
    rank for its colour, rank 8 for white and rank 1 for black. *)
Definition farthestRank (piece : string) : option string :=
  if includes "white" piece then Some "8"
  else if includes "black" piece then Some "1"
  else None.

Definition promotionEligible (piece to : string) : bool :=
  includes "pawn" piece
  && match farthestRank piece, charAt 1 to with
     | Some far, Some rank => rank =? far
     | _, _ => false
     end.

(** 1. Nc3 e5: the queen's knight leaves b1 empty behind the b-pawn. *)
Definition knightOutGame : list Recorded :=
  [ played "w" "b1" "c3" "n" None None "n" "Nc3";
    played "b" "e7" "e5" "p" None None "b" "e5" ].

(** After 1. Nc3 e5 the b-pawn is picked. *)
Definition pawnPickedBehindKnight : State Replay :=
  Eval vm_compute in
  deliverAll
    [ Click ["knight_white_2"; "b1"]; Click ["c3"];
      BotMessage "bestmove e7e5 ponder e2e4";
      Click ["pawn_white_2"; "b2"] ]
    (startState knightOutGame).


(** The registry is a dictionary: a JavaScript object holds a key once. *)
Definition isDictionary (bs : BoardState) : Prop := NoDup (map fst bs).

(** Whether a renderable is shown, by name. *)
Definition shown (o : Object3D) : string * bool := (name o, visible o).


(** ** Identity numbering

    A promoted piece is named after its family (type and colour) and the
    number of scene children of that family. *)

Definition isDigit (c : ascii) : bool :=
  (48 <=? nat_of_ascii c)%nat && (nat_of_ascii c <=? 57)%nat.

Fixpoint allDigits (s : string) : bool :=
  match s with
  | EmptyString => true
  | String c rest => isDigit c && allDigits rest
  end.

Fixpoint endsWithNonDigit (s : string) : bool :=
  match s with
  | EmptyString => false
  | String c EmptyString => negb (isDigit c)
  | String _ rest => endsWithNonDigit rest
  end.

(** [originalPieces.length] for a family, over the children's names. *)
Definition countNamed (family : string) (names : list string) : nat :=
  List.length (filter (includes family) names).

(** The children of a family are there and carry the numbers 1 to their
    count. *)
Definition numbered (family : string) (names : list string) : Prop :=
  countNamed family names <> 0 /\
  forall n, In n names -> includes family n = true ->
    exists i, 1 <= i <= countNamed family names /\
              n = family ++ "_" ++ numToString i.

Definition numberedb (family : string) (names : list string) : bool :=
  negb (countNamed family names =? 0)%nat
  && forallb
       (fun n =>
          implb (includes family n)
            (existsb (fun i => n =? family ++ "_" ++ numToString i)
               (seq 1 (countNamed family names))))
       names.

Definition promotionTypes : list string := ["queen"; "knight"; "bishop"; "rook"].

(** The families a promotion can mint into. *)
Definition families : list string :=
  (map (fun t => (t ++ "_white")%string) promotionTypes
   ++ map (fun t => (t ++ "_black")%string) promotionTypes)%list.

Definition sceneNumbered (sc : list Object3D) : Prop :=
  forall family, In family families -> numbered family (map name sc).

(** Every identity of the registry has its renderable. *)
Definition inLockstep (bs : BoardState) (sc : list Object3D) : Prop :=
  forall k, In k (map fst bs) -> In k (map name sc).


(** ** Decidable forms of the invariants, for concrete states *)

Fixpoint nodupb (l : list string) : bool :=
  match l with
  | [] => true
  | x :: rest => negb (existsb (String.eqb x) rest) && nodupb rest
  end.

Definition injectiveb (bs : BoardState) : bool := nodupb (map snd bs).

Definition isDictionaryb (bs : BoardState) : bool := nodupb (map fst bs).

Definition inLockstepb (bs : BoardState) (sc : list Object3D) : bool :=
  forallb (fun k => existsb (String.eqb k) (map name sc)) (map fst bs).

Definition sceneNumberedb (sc : list Object3D) : bool :=
  forallb (fun family => numberedb family (map name sc)) families.

(** ** More recorded games *)

(** 1. e4 a6 2. e5 d5 3. exd6: white takes en passant. *)
Definition enPassantGame : list Recorded :=
  [ played "w" "e2" "e4" "p" None None "b" "e4";
    played "b" "a7" "a6" "p" None None "n" "a6";
    played "w" "e4" "e5" "p" None None "n" "e5";
    played "b" "d7" "d5" "p" None None "b" "d5";
    played "w" "e5" "d6" "p" (Some "p") None "e" "exd6" ].

(** After 2... d5, with the e-pawn picked. *)
Definition beforeEnPassant : State Replay :=
  Eval vm_compute in
  deliverAll
    [ Click ["pawn_white_5"; "e2"]; Click ["e4"];
      BotMessage "bestmove a7a6";
      Click ["pawn_white_5"; "e4"]; Click ["e5"];
      BotMessage "bestmove d7d5";
      Click ["pawn_white_5"; "e5"] ]
    (startState enPassantGame).

(** 1. h3 e5 2. h4 e4 3. d4 exd3: black takes en passant. *)
Definition enPassantByBlackGame : list Recorded :=
  [ played "w" "h2" "h3" "p" None None "n" "h3";
    played "b" "e7" "e5" "p" None None "b" "e5";
    played "w" "h3" "h4" "p" None None "n" "h4";
    played "b" "e5" "e4" "p" None None "n" "e4";
    played "w" "d2" "d4" "p" None None "b" "d4";
    played "b" "e4" "d3" "p" (Some "p") None "e" "exd3" ].

(** After 3. d4, the opponent to move. *)
Definition beforeEnPassantByBlack : State Replay :=
  Eval vm_compute in
  deliverAll
    [ Click ["pawn_white_8"; "h2"]; Click ["h3"];
      BotMessage "bestmove e7e5";
      Click ["pawn_white_8"; "h3"]; Click ["h4"];
      BotMessage "bestmove e5e4";
      Click ["pawn_white_4"; "d2"]; Click ["d4"] ]
    (startState enPassantByBlackGame).

(** 1. a4 b5 2. axb5 a6 3. bxa6 Nc6 4. a7 Rb8 5. a8=N: white's a-pawn
    walks to the empty a8 and becomes a knight. *)
Definition knightPromotionGame : list Recorded :=
  [ played "w" "a2" "a4" "p" None None "b" "a4";
    played "b" "b7" "b5" "p" None None "b" "b5";
    played "w" "a4" "b5" "p" (Some "p") None "c" "axb5";
    played "b" "a7" "a6" "p" None None "n" "a6";
    played "w" "b5" "a6" "p" (Some "p") None "c" "bxa6";
    played "b" "b8" "c6" "n" None None "n" "Nc6";
    played "w" "a6" "a7" "p" None None "n" "a7";
    played "b" "a8" "b8" "r" None None "n" "Rb8";
    played "w" "a7" "a8" "p" None (Some "n") "np" "a8=N" ].

(** After 4... Rb8, with the a-pawn picked. *)
Definition beforeKnightPromotion : State Replay :=
  Eval vm_compute in
  deliverAll
    [ Click ["pawn_white_1"; "a2"]; Click ["a4"];
      BotMessage "bestmove b7b5";
      Click ["pawn_white_1"; "a4"]; Click ["pawn_black_2"; "b5"];
      BotMessage "bestmove a7a6";
      Click ["pawn_white_1"; "b5"]; Click ["pawn_black_1"; "a6"];
      BotMessage "bestmove b8c6";
      Click ["pawn_white_1"; "a6"]; Click ["a7"];
      BotMessage "bestmove a8b8";
      Click ["pawn_white_1"; "a7"] ]
    (startState knightPromotionGame).

(** The starting position with the e-pawn picked; the recorded game goes
    on with 1. e4, so any other destination is rejected. *)
Definition kingPawnPicked : State Replay :=
  Eval vm_compute in
  deliverAll [ Click ["pawn_white_5"; "e2"] ]
    (startState [ played "w" "e2" "e4" "p" None None "b" "e4" ]).

(** 1. e4 e5 2. Qh5 Nc6 3. Bc4 Nf6 4. Qxf7#: the human mates. *)
Definition scholarsMateGame : list Recorded :=
  [ played "w" "e2" "e4" "p" None None "b" "e4";
    played "b" "e7" "e5" "p" None None "b" "e5";
    played "w" "d1" "h5" "q" None None "n" "Qh5";
    played "b" "b8" "c6" "n" None None "n" "Nc6";
    played "w" "f1" "c4" "b" None None "n" "Bc4";
    played "b" "g8" "f6" "n" None None "n" "Nf6";
    mkRecorded (mkMove "w" "h5" "f7" "q" (Some "p") None "c" "Qxf7#") true false ].

(** After 3... Nf6, with the queen picked. *)
Definition beforeScholarsMate : State Replay :=
  Eval vm_compute in
  deliverAll
    [ Click ["pawn_white_5"; "e2"]; Click ["e4"];
      BotMessage "bestmove e7e5";
      Click ["queen_white_1"; "d1"]; Click ["h5"];
      BotMessage "bestmove b8c6";
      Click ["bishop_white_1"; "f1"]; Click ["c4"];
      BotMessage "bestmove g8f6";
      Click ["queen_white_1"; "h5"] ]
    (startState scholarsMateGame).

(** 1. f3 e5 2. g4 Qh4#: the opponent mates. *)
Definition foolsMateGame : list Recorded :=
  [ played "w" "f2" "f3" "p" None None "n" "f3";
    played "b" "e7" "e5" "p" None None "b" "e5";
    played "w" "g2" "g4" "p" None None "b" "g4";
    mkRecorded (mkMove "b" "d8" "h4" "q" None None "n" "Qh4#") true false ].

(** After 2. g4, the opponent to move. *)
Definition beforeFoolsMate : State Replay :=
  Eval vm_compute in
  deliverAll
    [ Click ["pawn_white_6"; "f2"]; Click ["f3"];
      BotMessage "bestmove e7e5";
      Click ["pawn_white_7"; "g2"]; Click ["g4"] ]
    (startState foolsMateGame).

(** 1. Nc3 Nf6 2. Nf3 Ng8 3. Ng1 Nf6 4. Nf3 Ng8 5. Ng1: the position
    after 1. Nc3 stands for the third time, a draw by repetition. *)
Definition repetitionGame : list Recorded :=
  [ played "w" "b1" "c3" "n" None None "n" "Nc3";
    played "b" "g8" "f6" "n" None None "n" "Nf6";
    played "w" "g1" "f3" "n" None None "n" "Nf3";
    played "b" "f6" "g8" "n" None None "n" "Ng8";
    played "w" "f3" "g1" "n" None None "n" "Ng1";
    played "b" "g8" "f6" "n" None None "n" "Nf6";
    played "w" "g1" "f3" "n" None None "n" "Nf3";
    played "b" "f6" "g8" "n" None None "n" "Ng8";
    mkRecorded (mkMove "w" "f3" "g1" "n" None None "n" "Ng1") false true ].

(** After 4... Ng8, with the king's knight picked on f3. *)
Definition beforeRepetition : State Replay :=
  Eval vm_compute in
  deliverAll
    [ Click ["knight_white_2"; "b1"]; Click ["c3"];
      BotMessage "bestmove g8f6";
      Click ["knight_white_1"; "g1"]; Click ["f3"];
      BotMessage "bestmove f6g8";
      Click ["knight_white_1"; "f3"]; Click ["g1"];
      BotMessage "bestmove g8f6";
      Click ["knight_white_1"; "g1"]; Click ["f3"];
      BotMessage "bestmove f6g8";
      Click ["knight_white_1"; "f3"] ]
    (startState repetitionGame).

(** The capture-promotion game with the rook on a8 clicked and the modal
    still open. *)
Definition waitingForChoice : State Replay :=
  Eval vm_compute in
  deliverAll (removelast capturePromotionEvents)
    (startState capturePromotionGame).


(** The engine of a recorded game after it has accepted [request], and the
    child of a scene under a name, for naming them in concrete runs. *)
Definition replayAfter (g : Replay) (request : MoveRequest) : Replay :=
  match replayMove g request with
  | Some (_, g') => g'
  | None => g
  end.

Definition childNamed (n : string) (sc : list Object3D) : Object3D :=
  match getSceneObject (Some n) sc with
  | Some o => o
  | None => squareObject n
  end.


(** No identity is the empty string. *)
Definition properKeys (bs : BoardState) : Prop := ~ In "" (map fst bs).

(** The registry as the program expects it: a dictionary of proper keys,
    injective. *)
Definition wellFormed (bs : BoardState) : Prop :=
  isDictionary bs /\ injective bs /\ properKeys bs.

Definition wellFormedb (bs : BoardState) : bool :=
  isDictionaryb bs && injectiveb bs
  && negb (existsb (String.eqb "") (map fst bs)).


(** How the engine's board changes on a move that is neither a castle nor
    an en passant capture: the destination is occupied, the origin is
    vacated, every other square is as before. *)
Definition plainBoardChange {G : Type} {engine : RulesEngine G}
  (g g' : G) (from to : string) : Prop :=
  forall square, In square allSquares ->
    game_get g' square
    = (square =? to) || (game_get g square && negb (square =? from)).

Definition plainBoardChangeb {G : Type} {engine : RulesEngine G}
  (g g' : G) (from to : string) : bool :=
  forallb
    (fun square =>
       Bool.eqb (game_get g' square)
         ((square =? to) || (game_get g square && negb (square =? from))))
    allSquares.

(** 1. e4 d5 2. exd5: a plain move, a plain reply and a capture. *)
Definition centreGame : list Recorded :=
  [ played "w" "e2" "e4" "p" None None "b" "e4";
    played "b" "d7" "d5" "p" None None "b" "d5";
    played "w" "e4" "d5" "p" (Some "p") None "c" "exd5" ].

(** After 1. e4, the opponent to move. *)
Definition afterKingPawn : State Replay :=
  Eval vm_compute in
  deliverAll [ Click ["pawn_white_5"; "e2"]; Click ["e4"] ]
    (startState centreGame).

(** After 1... d5, with the e-pawn picked. *)
Definition beforeCentreCapture : State Replay :=
  Eval vm_compute in
  deliverAll [ BotMessage "bestmove d7d5"; Click ["pawn_white_5"; "e4"] ]
    afterKingPawn.


(** 1. e4 e5 2. Nf3 Nc6 3. Bc4 Bc5 4. O-O: white castles short, without
    check. *)
Definition shortCastleGame : list Recorded :=
  [ played "w" "e2" "e4" "p" None None "b" "e4";
    played "b" "e7" "e5" "p" None None "b" "e5";
    played "w" "g1" "f3" "n" None None "n" "Nf3";
    played "b" "b8" "c6" "n" None None "n" "Nc6";
    played "w" "f1" "c4" "b" None None "n" "Bc4";
    played "b" "f8" "c5" "b" None None "n" "Bc5";
    played "w" "e1" "g1" "k" None None "k" "O-O" ].

(** After 3... Bc5, with the king picked. *)
Definition beforeShortCastle : State Replay :=
  Eval vm_compute in
  deliverAll
    [ Click ["pawn_white_5"; "e2"]; Click ["e4"];
      BotMessage "bestmove e7e5";
      Click ["knight_white_1"; "g1"]; Click ["f3"];
      BotMessage "bestmove b8c6";
      Click ["bishop_white_1"; "f1"]; Click ["c4"];
      BotMessage "bestmove f8c5";
      Click ["king_white"; "e1"] ]
    (startState shortCastleGame).

(** 1. e4 d5 2. d3 Be6 3. h3 Nc6 4. g3 Qd7 5. a3 O-O-O: black castles
    long. *)
Definition longCastleGame : list Recorded :=
  [ played "w" "e2" "e4" "p" None None "b" "e4";
    played "b" "d7" "d5" "p" None None "b" "d5";
    played "w" "d2" "d3" "p" None None "n" "d3";
    played "b" "c8" "e6" "b" None None "n" "Be6";
    played "w" "h2" "h3" "p" None None "n" "h3";
    played "b" "b8" "c6" "n" None None "n" "Nc6";
    played "w" "g2" "g3" "p" None None "n" "g3";
    played "b" "d8" "d7" "q" None None "n" "Qd7";
    played "w" "a2" "a3" "p" None None "n" "a3";
    played "b" "e8" "c8" "k" None None "q" "O-O-O" ].

(** After 5. a3, the opponent to move. *)
Definition beforeLongCastle : State Replay :=
  Eval vm_compute in
  deliverAll
    [ Click ["pawn_white_5"; "e2"]; Click ["e4"];
      BotMessage "bestmove d7d5";
      Click ["pawn_white_4"; "d2"]; Click ["d3"];
      BotMessage "bestmove c8e6";
      Click ["pawn_white_8"; "h2"]; Click ["h3"];
      BotMessage "bestmove b8c6";
      Click ["pawn_white_7"; "g2"]; Click ["g3"];
      BotMessage "bestmove d8d7";
      Click ["pawn_white_1"; "a2"]; Click ["a3"] ]
    (startState longCastleGame).


(** What an event may do to the names in the scene: nothing, or add the
    next name of one family. *)
Definition namesStep (ns ns' : list string) : Prop :=
  ns' = ns \/
  exists family,
    In family families /\
    ns' = (ns ++ [(family ++ "_"
                   ++ numToString (countNamed family ns + 1))%string])%list.

(** The promotion form offers the four piece types. *)
Definition properChoice (e : Event) : Prop :=
  match e with
  | Promote (Some t) => In t promotionTypes
  | _ => True
  end.


(** ** Words of a message *)

(** A word: a string with no space in it, what [split(" ")] does not cut. *)
Definition isWord (s : string) : bool :=
  forallb (fun c => negb (Ascii.eqb c " ")) (list_ascii_of_string s).


(** ** The scene over time *)

(** [sc'] is what became of [sc]: every child of [sc] is still there, in
    its place and under its name, and is shown only if it was; the children
    added since come after them. *)
Fixpoint evolves (sc sc' : list Object3D) : Prop :=
  match sc, sc' with
  | [], _ => True
  | _ :: _, [] => False
  | o :: rest, o' :: rest' =>
      name o' = name o /\ (visible o' = true -> visible o = true) /\
      evolves rest rest'
  end.


(** ** Picks and highlights *)

(** Whether a name is a piece's, as [checkAndGetIfPiece] decides it: one of
    the six piece words occurs in it. *)
Definition namesPiece (n : string) : bool :=
  existsb (fun pieceName => includes pieceName n) pieceNames.

(** A child with the highlight [color] if its name is one of [names], as it
    is otherwise. *)
Definition lit (color : Z) (names : list string) (o : Object3D) : Object3D :=
  if existsb (String.eqb (name o)) names then setEmissive color o else o.

(** The squares a list of moves highlights. *)
Definition targets (moves : list Move) : list string :=
  map squareName (map m_to moves).


(** The variables a pick or the clearing of a pick leaves alone. *)
Definition beyondSelection {G : Type} (s : State G) :=
  (boardState s, previousMove s, isPlayerTurn s, deferredResolve s, dom s,
   game s, botMessages s, submissions s).


(** What of a renderable is its highlight: its name and its emissive
    colour. *)
Definition glow (o : Object3D) : string * Z := (name o, emissive o).

(** The squares the highlight of a previous move covers. *)
Definition endsOf (move : option Move) : list string :=
  match move with
  | Some m => [squareName (m_from m); squareName (m_to m)]
  | None => []
  end.


(** The capture-promotion game with the b-pawn picked on b7, before the
    click on a8. *)
Definition beforePromotionClick : State Replay :=
  Eval vm_compute in
  deliverAll (removelast (removelast capturePromotionEvents))
    (startState capturePromotionGame).


(** How the engine's board changes on an en passant capture: as on a plain
    move, and the square of the captured pawn is vacated too. *)
Definition enPassantBoardChange {G : Type} {engine : RulesEngine G}
  (g g' : G) (from to captured : string) : Prop :=
  forall square, In square allSquares ->
    game_get g' square
    = (square =? to)
      || (game_get g square && negb (square =? from)
          && negb (square =? captured)).

Definition enPassantBoardChangeb {G : Type} {engine : RulesEngine G}
  (g g' : G) (from to captured : string) : bool :=
  forallb
    (fun square =>
       Bool.eqb (game_get g' square)
         ((square =? to)
          || (game_get g square && negb (square =? from)
              && negb (square =? captured))))
    allSquares.

(** How the engine's board changes on a castle: the king goes from [from]
    to [to] and the rook from [rookFrom] to [rookTo]. *)
Definition castleBoardChange {G : Type} {engine : RulesEngine G}
  (g g' : G) (from to rookFrom rookTo : string) : Prop :=
  forall square, In square allSquares ->
    game_get g' square
    = (square =? to) || (square =? rookTo)
      || (game_get g square && negb (square =? from)
          && negb (square =? rookFrom)).

Definition castleBoardChangeb {G : Type} {engine : RulesEngine G}
  (g g' : G) (from to rookFrom rookTo : string) : bool :=
  forallb
    (fun square =>
       Bool.eqb (game_get g' square)
         ((square =? to) || (square =? rookTo)
          || (game_get g square && negb (square =? from)
              && negb (square =? rookFrom))))
    allSquares.


(** ** Restarting the game

    [restartGame] and the callback of the model loader.  [new Chess()] is
    one more thing asked of the engine.  The scene that [resetScene]
    installs has no child until the loader calls back: it is the empty list
    here, and nothing below looks a child up in it.  The listeners that the
    callback adds and the canvas it appends are outside the state. *)

Class FreshEngine (G : Type) : Type := { game_new : G }.

Definition closeVerdictModal {G : Type} {engine : RulesEngine G} (s : State G)
  : State G :=
  match verdict_modal (dom s) with
  | None => s
  | Some _ =>
      set_dom (mkDom (promotion_modal (dom s)) (Some "none")
                 (game_verdict (dom s))) s
  end.

Definition resetScene {G : Type} {engine : RulesEngine G}
  {fresh : FreshEngine G} (s : State G) : State G :=
  set_previousMove None
    (set_validMoves []
       (set_selectedPiece None
          (set_isPlayerTurn true (set_game game_new (set_scene [] s))))).

(** [game.reset()] leaves the old engine in the starting position, as a
    new one is. *)
Definition restartGame {G : Type} {engine : RulesEngine G}
  {fresh : FreshEngine G} (s : State G) : State G :=
  closeVerdictModal
    (resetScene (set_boardState initBoardState (set_game game_new s))).

(** [initStockfish]: a new search process, with its first three
    messages. *)
Definition initStockfish {G : Type} {engine : RulesEngine G} (s : State G)
  : State G :=
  mkState (boardState s) (scene s) (selectedPiece s) (validMoves s)
    (previousMove s) (isPlayerTurn s) (deferredResolve s) (dom s) (game s)
    ["uci"; "ucinewgame"; "isready"] (submissions s).

(** The loader's callback, with the children of the loaded model. *)
Definition onSceneLoaded {G : Type} {engine : RulesEngine G}
  (children : list Object3D) (s : State G) : State G :=
  initStockfish (set_boardState initBoardState (set_scene children s)).

#[export] Instance replayFresh : FreshEngine Replay :=
  {| game_new := mkReplay startBoard [] false false |}.


(** ** The identities of the registry over time *)

(** Every identity of the registry satisfies [P]. *)
Definition within (P : string -> Prop) (bs : BoardState) : Prop :=
  forall k, In k (map fst bs) -> P k.

(** The names a promotion can mint in a scene with the names [names]: the
    next name of a family. *)
Definition minted (names : list string) (k : string) : Prop :=
  exists family,
    In family families /\
    k = family ++ "_" ++ numToString (countNamed family names + 1).


(** ** A mate on the hundredth half-move

    The engine counts the half-moves since the last pawn move or capture
    and reports a draw from the hundredth on, also when that half-move
    mates.  In the game below the last pawn move is 3. e4; both sides then
    move pieces to and fro, White in a round of five moves and Black in a
    round of six so that no position stands a third time, and White's
    fiftieth move after 3. e4 is 53. Qh5#. *)

(** The first [n] elements of [rest] followed by [cycle] over and over. *)
Fixpoint cycled {A : Type} (n : nat) (cycle rest : list A) : list A :=
  match n with
  | O => []
  | S n' =>
      match rest with
      | x :: more => x :: cycled n' cycle more
      | [] =>
          match cycle with
          | x :: more => x :: cycled n' cycle more
          | [] => []
          end
      end
  end.

Fixpoint alternate {A : Type} (xs ys : list A) : list A :=
  match xs, ys with
  | x :: xs', y :: ys' => x :: y :: alternate xs' ys'
  | _, [] => xs
  | [], _ => ys
  end.

Definition whiteShuffle : list Recorded :=
  [ played "w" "f1" "e2" "b" None None "n" "Be2";
    played "w" "g1" "h3" "n" None None "n" "Nh3";
    played "w" "e2" "d3" "b" None None "n" "Bd3";
    played "w" "h3" "g1" "n" None None "n" "Ng1";
    played "w" "d3" "f1" "b" None None "n" "Bf1" ].

Definition blackShuffle : list Recorded :=
  [ played "b" "b8" "c6" "n" None None "n" "Nc6";
    played "b" "a8" "b8" "r" None None "n" "Rb8";
    played "b" "c6" "b4" "n" None None "n" "Nb4";
    played "b" "b4" "a6" "n" None None "n" "Na6";
    played "b" "b8" "a8" "r" None None "n" "Ra8";
    played "b" "a6" "b8" "n" None None "n" "Nb8" ].

(** 1. Nc3 f6 2. Nb1 g5 3. e4 Nc6 4. Be2 Rb8 5. Nh3 Nb4 6. Bd3 Na6
    7. Ng1 Ra8 8. Bf1 Nb8 9. Be2 Nc6 ... 52. Ng1 Rb8 53. Qh5#: fifty moves
    of Black and forty-nine of White after 3. e4, then the mate. *)
Definition fiftyMoveGame : list Recorded :=
  [ played "w" "b1" "c3" "n" None None "n" "Nc3";
    played "b" "f7" "f6" "p" None None "n" "f6";
    played "w" "c3" "b1" "n" None None "n" "Nb1";
    played "b" "g7" "g5" "p" None None "b" "g5";
    played "w" "e2" "e4" "p" None None "b" "e4" ]
  ++ alternate (cycled 50 blackShuffle blackShuffle)
       (cycled 49 whiteShuffle whiteShuffle)
  ++ [ mkRecorded (mkMove "w" "d1" "h5" "q" None None "n" "Qh5#") true true ].

(** The half-moves since the last pawn move or capture. *)
Definition halfMoveClock (script : list Recorded) : nat :=
  fold_left
    (fun n r =>
       if (m_piece (rec_move r) =? "p")
          || match m_captured (rec_move r) with Some _ => true | None => false end
       then 0 else S n)
    script 0.

(** A position: the side that moved last and what stands on each square. *)
Definition placement (b : list (string * string)) : list (option string) :=
  map (fun square => boardGet square b) allSquares.

Fixpoint positionsAfter (b : list (string * string)) (script : list Recorded)
  : list (string * list (option string)) :=
  match script with
  | [] => []
  | r :: rest =>
      let b' := makeMove (rec_move r) b in
      (m_color (rec_move r), placement b') :: positionsAfter b' rest
  end.

Definition positionsOf (script : list Recorded)
  : list (string * list (option string)) :=
  ("b", placement startBoard) :: positionsAfter startBoard script.

Definition samePiece (x y : option string) : bool :=
  match x, y with
  | Some a, Some b => a =? b
  | None, None => true
  | _, _ => false
  end.

Fixpoint samePlacement (xs ys : list (option string)) : bool :=
  match xs, ys with
  | [], [] => true
  | x :: xs', y :: ys' => samePiece x y && samePlacement xs' ys'
  | _, _ => false
  end.

(** How often the position that stands most often stands. *)
Definition mostRepeated (ps : list (string * list (option string))) : nat :=
  fold_right Nat.max 0
    (map (fun p =>
            length (filter (fun q => (fst p =? fst q)
                                     && samePlacement (snd p) (snd q)) ps))
       ps).

(** The events of a recorded move: the player clicks the square the piece
    stands on and then the destination; the search process sends the
    opponent's move. *)
Definition eventsOf (r : Recorded) : list Event :=
  if m_color (rec_move r) =? "w"
  then [ Click [m_from (rec_move r)]; Click [m_to (rec_move r)] ]
  else [ BotMessage ("bestmove " ++ m_from (rec_move r) ++ m_to (rec_move r)) ].

Definition fiftyMoveEvents : list Event := flat_map eventsOf fiftyMoveGame.

(** * Properties *)

(** ** Strings *)

Lemma truthy_Some (v : option string) (x : string) :
  truthy v = Some x -> v = Some x /\ x <> "".
Proof.
  destruct v as [[|c r]|]; simpl; intros H; inversion H; subst.
  split; [reflexivity | discriminate].
Qed.

Lemma truthy_intro (v : option string) (x : string) :
  v = Some x -> x <> "" -> truthy v = Some x.
Proof.
  intros -> Hx. destruct x; [contradiction | reflexivity].
Qed.

Lemma eqb_neq_false (a b : string) : a <> b -> (a =? b) = false.
Proof. intros H; apply String.eqb_neq; exact H. Qed.

(** ** The registry as a dictionary *)

Lemma getPieceAt_In (v k : string) (bs : BoardState) :
  getPieceAt v bs = Some k -> In (k, v) bs.
Proof.
  unfold getPieceAt. induction bs as [|[a b] rest IH]; simpl; [discriminate|].
  destruct (String.eqb_spec b v) as [->|Hne]; simpl.
  - intros H; inversion H; subst; left; reflexivity.
  - intros H; right; apply IH; exact H.
Qed.

Lemma getPieceAt_None (v : string) (bs : BoardState) :
  getPieceAt v bs = None <-> ~ In v (map snd bs).
Proof.
  unfold getPieceAt. induction bs as [|[a b] rest IH]; simpl.
  - split; [intros _ [] | reflexivity].
  - destruct (String.eqb_spec b v) as [->|Hne]; simpl.
    + split; [discriminate | intros H; exfalso; apply H; left; reflexivity].
    + rewrite IH. split.
      * intros H [Heq|Hin]; [contradiction | apply H; exact Hin].
      * intros H Hin; apply H; right; exact Hin.
Qed.

Lemma getPiecePosition_In (k v : string) (bs : BoardState) :
  getPiecePosition k bs = Some v -> In (k, v) bs.
Proof.
  unfold getPiecePosition. induction bs as [|[a b] rest IH]; simpl; [discriminate|].
  destruct (String.eqb_spec a k) as [->|Hne]; simpl.
  - intros H; inversion H; subst; left; reflexivity.
  - intros H; right; apply IH; exact H.
Qed.

Lemma getPiecePosition_None (k : string) (bs : BoardState) :
  getPiecePosition k bs = None <-> ~ In k (map fst bs).
Proof.
  unfold getPiecePosition. induction bs as [|[a b] rest IH]; simpl.
  - split; [intros _ [] | reflexivity].
  - destruct (String.eqb_spec a k) as [->|Hne]; simpl.
    + split; [discriminate | intros H; exfalso; apply H; left; reflexivity].
    + rewrite IH. split.
      * intros H [Heq|Hin]; [contradiction | apply H; exact Hin].
      * intros H Hin; apply H; right; exact Hin.
Qed.

Lemma injective_unique (bs : BoardState) (k k' v : string) :
  injective bs -> In (k, v) bs -> In (k', v) bs -> k = k'.
Proof.
  unfold injective. induction bs as [|[a b] rest IH]; simpl; [intros _ []|].
  intros Hnd H1 H2. inversion Hnd as [|x l Hnotin Hnd']; subst.
  destruct H1 as [H1|H1], H2 as [H2|H2].
  - congruence.
  - inversion H1; subst. exfalso; apply Hnotin.
    change v with (snd (k', v)). apply in_map; exact H2.
  - inversion H2; subst. exfalso; apply Hnotin.
    change v with (snd (k, v)). apply in_map; exact H1.
  - apply IH; assumption.
Qed.

Lemma getPieceAt_of_position (bs : BoardState) (k v : string) :
  injective bs -> getPiecePosition k bs = Some v -> getPieceAt v bs = Some k.
Proof.
  intros Hinj Hpos. apply getPiecePosition_In in Hpos.
  destruct (getPieceAt v bs) as [k'|] eqn:Hat.
  - apply getPieceAt_In in Hat. f_equal.
    eapply injective_unique; eassumption.
  - apply getPieceAt_None in Hat. exfalso; apply Hat.
    change v with (snd (k, v)). apply in_map; exact Hpos.
Qed.

Lemma In_delete (k k' v : string) (bs : BoardState) :
  In (k', v) (delete k bs) <-> In (k', v) bs /\ k' <> k.
Proof.
  unfold delete. rewrite filter_In. simpl.
  destruct (String.eqb_spec k' k) as [->|Hne]; simpl.
  - split; [intros [_ H]; discriminate | intros [_ H]; contradiction].
  - split; [intros [H _]; split; assumption | intros [H _]; split; [assumption | reflexivity]].
Qed.

Lemma In_assign (k v k' v' : string) (bs : BoardState) :
  In (k', v') (assign k v bs) -> (k' = k /\ v' = v) \/ In (k', v') bs.
Proof.
  induction bs as [|[a b] rest IH]; simpl.
  - intros [H|[]]; inversion H; subst; left; split; reflexivity.
  - destruct (String.eqb_spec a k) as [->|Hne]; simpl.
    + intros [H|H]; [inversion H; subst; left; split; reflexivity | right; right; exact H].
    + intros [H|H]; [right; left; exact H|].
      destruct (IH H) as [Heq|Hin]; [left; exact Heq | right; right; exact Hin].
Qed.

Lemma getPiecePosition_assign_same (k v : string) (bs : BoardState) :
  getPiecePosition k (assign k v bs) = Some v.
Proof.
  unfold getPiecePosition. induction bs as [|[a b] rest IH]; simpl.
  - rewrite String.eqb_refl; reflexivity.
  - destruct (String.eqb_spec a k) as [->|Hne]; simpl.
    + rewrite String.eqb_refl; reflexivity.
    + rewrite (eqb_neq_false _ _ Hne). exact IH.
Qed.

Lemma getPiecePosition_assign_other (k k' v : string) (bs : BoardState) :
  k' <> k -> getPiecePosition k' (assign k v bs) = getPiecePosition k' bs.
Proof.
  intros Hne. unfold getPiecePosition.
  induction bs as [|[a b] rest IH]; simpl.
  - rewrite (eqb_neq_false k k'); [reflexivity | congruence].
  - destruct (String.eqb_spec a k) as [->|Hak]; simpl.
    + rewrite (eqb_neq_false k k'); [reflexivity | congruence].
    + destruct (a =? k'); [reflexivity | exact IH].
Qed.

Lemma getPiecePosition_delete_same (k : string) (bs : BoardState) :
  getPiecePosition k (delete k bs) = None.
Proof.
  apply getPiecePosition_None. intros Hin.
  apply in_map_iff in Hin. destruct Hin as [[a b] [Hfst Hin]]; simpl in Hfst; subst.
  apply In_delete in Hin. destruct Hin as [_ Hne]; apply Hne; reflexivity.
Qed.

Lemma getPieceAt_delete_other (v k k' : string) (bs : BoardState) :
  getPieceAt v bs = Some k -> k <> k' -> getPieceAt v (delete k' bs) = Some k.
Proof.
  unfold getPieceAt, delete. induction bs as [|[a b] rest IH]; simpl; [discriminate|].
  destruct (String.eqb_spec b v) as [->|Hbv]; simpl.
  - intros H Hne; inversion H; subst.
    rewrite (eqb_neq_false k k' Hne); simpl. rewrite String.eqb_refl; reflexivity.
  - intros H Hne. destruct (a =? k'); simpl.
    + apply IH; assumption.
    + rewrite (eqb_neq_false b v Hbv). apply IH; assumption.
Qed.

Lemma getPieceAt_delete_None (v k : string) (bs : BoardState) :
  getPieceAt v bs = None -> getPieceAt v (delete k bs) = None.
Proof.
  rewrite !getPieceAt_None. intros H Hin; apply H.
  apply in_map_iff in Hin. destruct Hin as [[a b] [Hsnd Hin]]; simpl in Hsnd; subst.
  apply In_delete in Hin. destruct Hin as [Hin _].
  change v with (snd (a, v)). apply in_map; exact Hin.
Qed.

(** Deleting the identity found on a square of an injective registry
    empties the square. *)
Lemma getPieceAt_delete_found (v k : string) (bs : BoardState) :
  injective bs -> getPieceAt v bs = Some k -> getPieceAt v (delete k bs) = None.
Proof.
  intros Hinj Hat. apply getPieceAt_In in Hat.
  apply getPieceAt_None. intros Hin.
  apply in_map_iff in Hin. destruct Hin as [[a b] [Hsnd Hin]]; simpl in Hsnd; subst.
  apply In_delete in Hin. destruct Hin as [Hin Hne]. apply Hne.
  eapply injective_unique; eassumption.
Qed.

Lemma getPieceAt_assign_None (v k v' : string) (bs : BoardState) :
  getPieceAt v' bs = None -> v' <> v -> getPieceAt v' (assign k v bs) = None.
Proof.
  rewrite !getPieceAt_None. intros H Hne Hin; apply H.
  apply in_map_iff in Hin. destruct Hin as [[a b] [Hsnd Hin]]; simpl in Hsnd; subst.
  apply In_assign in Hin. destruct Hin as [[_ Hv]|Hin]; [contradiction|].
  change v' with (snd (a, v')). apply in_map; exact Hin.
Qed.

(** ** The scene *)

Lemma updateObject_names (n : string) (f : Object3D -> Object3D)
  (sc : list Object3D) :
  (forall o, name (f o) = name o) ->
  map name (updateObject n f sc) = map name sc.
Proof.
  intros Hf. induction sc as [|o rest IH]; simpl; [reflexivity|].
  destruct (name o =? n); simpl; [rewrite Hf; reflexivity | rewrite IH; reflexivity].
Qed.

Lemma updateObject_geometry (n : string) (f : Object3D -> Object3D)
  (sc : list Object3D) :
  (forall o, geometry (f o) = geometry o) ->
  map geometry (updateObject n f sc) = map geometry sc.
Proof.
  intros Hf. induction sc as [|o rest IH]; simpl; [reflexivity|].
  destruct (name o =? n); simpl; [rewrite Hf; reflexivity | rewrite IH; reflexivity].
Qed.

Lemma illuminateObject_geometry (object : option Object3D) (color : Z)
  (sc : list Object3D) :
  map geometry (illuminateObject object color sc) = map geometry sc.
Proof.
  destruct object as [o|]; simpl; [|reflexivity].
  apply updateObject_geometry. intros x; reflexivity.
Qed.

Lemma illuminateSquares_geometry (positions : list string) (color : Z)
  (sc : list Object3D) :
  map geometry (illuminateSquares positions color sc) = map geometry sc.
Proof.
  unfold illuminateSquares. revert sc.
  induction positions as [|p rest IH]; intros sc; simpl; [reflexivity|].
  rewrite IH. apply illuminateObject_geometry.
Qed.

Lemma getSceneObject_name (n : string) (sc : list Object3D) (o : Object3D) :
  getSceneObject (Some n) sc = Some o -> name o = n.
Proof.
  simpl. intros H. apply find_some in H. destruct H as [_ H].
  apply String.eqb_eq; exact H.
Qed.

Lemma getSceneObject_update_same (n : string) (f : Object3D -> Object3D)
  (sc : list Object3D) (o : Object3D) :
  (forall x, name (f x) = name x) ->
  getSceneObject (Some n) sc = Some o ->
  getSceneObject (Some n) (updateObject n f sc) = Some (f o).
Proof.
  intros Hf. simpl. induction sc as [|x rest IH]; simpl; [discriminate|].
  destruct (name x =? n) eqn:Hx; simpl.
  - intros H; inversion H; subst. rewrite Hf, Hx; reflexivity.
  - intros H. rewrite Hx. apply IH; exact H.
Qed.

Lemma getSceneObject_update_other (n n' : string) (f : Object3D -> Object3D)
  (sc : list Object3D) :
  (forall x, name (f x) = name x) -> n <> n' ->
  getSceneObject (Some n) (updateObject n' f sc) = getSceneObject (Some n) sc.
Proof.
  intros Hf Hne. simpl. induction sc as [|x rest IH]; simpl; [reflexivity|].
  destruct (String.eqb_spec (name x) n') as [Hx|Hx]; simpl.
  - rewrite Hf. rewrite (eqb_neq_false (name x) n); [reflexivity | congruence].
  - destruct (name x =? n); [reflexivity | exact IH].
Qed.

(** ** What the executor's helpers leave alone *)

Section Frames.

Context {G : Type} {engine : RulesEngine G}.

Ltac frame :=
  repeat match goal with
         | |- context [match ?x with _ => _ end] => destruct x
         | |- context [if ?b then _ else _] => destruct b
         end;
  reflexivity.

Lemma movePieceOnBoard_outside (from to : string) (s : State G) :
  outside (movePieceOnBoard from to s) = outside s.
Proof. unfold movePieceOnBoard. frame. Qed.

Lemma castleRook_outside (move : Move) (to : string) (s : State G) :
  outside (castleRook move to s) = outside s.
Proof.
  unfold castleRook.
  destruct (isKingSideCastling move), (isQueenSideCastling move);
    repeat match goal with
           | |- context [match truthy ?x with _ => _ end] => destruct (truthy x)
           end;
    rewrite ?movePieceOnBoard_outside; reflexivity.
Qed.

Lemma captureEnPassantPawn_outside (s : State G) :
  outside (captureEnPassantPawn s) = outside s.
Proof. unfold captureEnPassantPawn. frame. Qed.

Lemma addPieceAt_outside (o : option Object3D) (to : string) (s : State G) :
  outside (addPieceAt o to s) = outside s.
Proof. unfold addPieceAt. frame. Qed.

Lemma removePawn_outside (s : State G) : outside (removePawn s) = outside s.
Proof. unfold removePawn. frame. Qed.

Lemma removePawnPiece_outside (o : Object3D) (s : State G) :
  outside (removePawnPiece o s) = outside s.
Proof. reflexivity. Qed.

End Frames.

(** ** A rejected submission *)

Section Rejection.

Context {G : Type} {engine : RulesEngine G}.

Lemma unsetSelectedPieceAndValidMoves_effect (s : State G) :
  let s' := unsetSelectedPieceAndValidMoves s in
  boardState s' = boardState s /\
  map geometry (scene s') = map geometry (scene s) /\
  truthy (selectedPiece s') = None /\
  (truthy (selectedPiece s) <> None -> selectedPiece s' = None) /\
  validMoves s' = [] /\
  previousMove s' = previousMove s /\
  isPlayerTurn s' = isPlayerTurn s /\
  deferredResolve s' = deferredResolve s /\
  dom s' = dom s /\
  game s' = game s /\
  botMessages s' = botMessages s /\
  submissions s' = submissions s.
Proof.
  unfold unsetSelectedPieceAndValidMoves, unsetValidMoves, unsetSelectedPiece,
    deilluminateValidMoves, deilluminatePiece, deilluminateObject.
  destruct (truthy (selectedPiece s)) as [sel|] eqn:Hsel; simpl.
  - rewrite illuminateSquares_geometry, illuminateObject_geometry.
    repeat split; reflexivity.
  - rewrite illuminateSquares_geometry, Hsel.
    repeat split; try reflexivity. intros H; contradiction.
Qed.

Lemma moveSelectedPiece_resume_rejected (piece : option string)
  (from to : string) (s : State G) :
  game_move (game s)
    (mkRequest from to (getPromotionPieceMoveCharacter piece)) = None ->
  moveSelectedPiece_resume piece from to s
  = (Thrown,
     unsetSelectedPieceAndValidMoves
       (logSubmission
          (mkRequest from to (getPromotionPieceMoveCharacter piece)) s)).
Proof.
  intros Hrej.
  unfold moveSelectedPiece_resume, tryFinally, moveSelectedPiece_submit, bind,
    gameMove.
  rewrite Hrej. reflexivity.
Qed.

(** C6.  When the engine rejects the submission of a human move, the
    registry is unchanged, no renderable is moved, hidden or added, the
    selection and the legal destinations are cleared, the turn stays with
    the player, the engine is as before and nothing is posted to the
    search process. *)
Theorem rejected_move_changes_nothing (s : State G) (to sel from : string)
  (choice : option string) :
  truthy (selectedPiece s) = Some sel ->
  truthy (getPiecePosition sel (boardState s)) = Some from ->
  game_move (game s) (humanRequest sel from to choice s) = None ->
  let s' := playHumanMove to choice s in
  boardState s' = boardState s /\
  map geometry (scene s') = map geometry (scene s) /\
  selectedPiece s' = None /\
  validMoves s' = [] /\
  isPlayerTurn s' = isPlayerTurn s /\
  game s' = game s /\
  botMessages s' = botMessages s.
Proof.
  intros Hsel Hfrom Hrej.
  unfold playHumanMove, moveSelectedPiece, humanRequest, knownPromotionPiece in *.
  rewrite Hsel, Hfrom.
  assert (Hdone : forall x : State G,
             (boardState x, scene x, selectedPiece x, isPlayerTurn x, game x,
              botMessages x)
             = (boardState s, scene s, selectedPiece s, isPlayerTurn s, game s,
                botMessages s) ->
             let y := unsetSelectedPieceAndValidMoves x in
             boardState y = boardState s /\
             map geometry (scene y) = map geometry (scene s) /\
             selectedPiece y = None /\ validMoves y = [] /\
             isPlayerTurn y = isPlayerTurn s /\ game y = game s /\
             botMessages y = botMessages s).
  { intros x Hx. cbv zeta. injection Hx as Hxb Hxs Hxsel Hxt Hxg Hxm.
    destruct (unsetSelectedPieceAndValidMoves_effect x)
      as (Hb & Hg & _ & Hs & Hv & _ & Ht & _ & _ & Hgame & Hmsg & _).
    rewrite Hb, Hg, Ht, Hgame, Hmsg, Hxb, Hxs, Hxt, Hxg, Hxm.
    repeat split; try assumption.
    apply Hs. rewrite Hxsel, Hsel; discriminate. }
  destruct (shouldPromote sel to) eqn:Hpromote;
    [destruct (promotion_modal (dom s)) as [display|] eqn:Hmodal|].
  - (* the flow waits on the modal, then resumes with the choice *)
    unfold onPromote.
    cbn -[moveSelectedPiece_resume unsetSelectedPieceAndValidMoves].
    rewrite moveSelectedPiece_resume_rejected by exact Hrej.
    cbn -[unsetSelectedPieceAndValidMoves].
    apply Hdone; reflexivity.
  - rewrite moveSelectedPiece_resume_rejected by exact Hrej.
    cbn -[unsetSelectedPieceAndValidMoves].
    apply Hdone; reflexivity.
  - rewrite moveSelectedPiece_resume_rejected by exact Hrej.
    cbn -[unsetSelectedPieceAndValidMoves].
    apply Hdone; reflexivity.
Qed.

End Rejection.

(** ** The shape of a submission *)

Section Submission.

Context {G : Type} {engine : RulesEngine G}.

Lemma moveSelectedPiece_submit_accepted (piece : option string)
  (from to : string) (s : State G) (move : Move) (g' : G) :
  let request := mkRequest from to (getPromotionPieceMoveCharacter piece) in
  game_move (game s) request = Some (move, g') ->
  moveSelectedPiece_submit piece from to s
  = executeHuman piece from to move (set_game g' (logSubmission request s)).
Proof.
  intros request Hok.
  unfold moveSelectedPiece_submit, executeHuman, bind, gameMove, when, run, ret.
  fold request. rewrite Hok.
  destruct (isCastlingMove move), (isEnPassantMove move), (isPromotionMove move);
    try reflexivity;
    match goal with
    | |- context [removePawnAndAddPromotedPiece ?p ?t ?x] =>
        destruct (removePawnAndAddPromotedPiece p t x) as [[[]|] s4]; reflexivity
    end.
Qed.

Lemma onBotMessage_move_accepted (from to promotion : string) (s : State G)
  (move : Move) (g' : G) :
  game_move (game s) (mkRequest from to promotion) = Some (move, g') ->
  onBotMessage_move from to promotion s
  = executeBot from to promotion move
      (set_game g' (logSubmission (mkRequest from to promotion) s)).
Proof.
  intros Hok.
  unfold onBotMessage_move, executeBot, bind, gameMove, when, run, ret.
  rewrite Hok.
  destruct (isCastlingMove move), (isEnPassantMove move), (negb (promotion =? ""));
    try reflexivity;
    match goal with
    | |- context [promotePiece ?p ?f ?t ?x] =>
        destruct (promotePiece p f t x) as [[[]|] s4]; reflexivity
    end.
Qed.

Lemma onBotMessage_move_rejected (from to promotion : string) (s : State G) :
  game_move (game s) (mkRequest from to promotion) = None ->
  onBotMessage_move from to promotion s
  = (Thrown, logSubmission (mkRequest from to promotion) s).
Proof.
  intros Hrej. unfold onBotMessage_move, bind, gameMove.
  rewrite Hrej. reflexivity.
Qed.

Lemma kept_of_outside (s s' : State G) : outside s' = outside s -> kept s' = kept s.
Proof.
  unfold outside, kept. intros H.
  injection H as H1 H2 H3 H4 H5 H6 H7 H8 H9. rewrite H5, H6, H8, H9. reflexivity.
Qed.

Lemma removePawnAndAddPromotedPiece_outside (piece : option string)
  (to : string) (s : State G) :
  outside (snd (removePawnAndAddPromotedPiece piece to s)) = outside s.
Proof.
  unfold removePawnAndAddPromotedPiece, addPromotedPiece.
  destruct (truthy piece) as [p|], (truthy (selectedPiece s)); try reflexivity.
  destruct (getPromotionPieceObject p (scene (removePawn s))); cbn [snd].
  - rewrite addPieceAt_outside. apply removePawn_outside.
  - apply removePawn_outside.
Qed.

Lemma promotePiece_outside (promotion from to : string) (s : State G) :
  outside (snd (promotePiece promotion from to s)) = outside s.
Proof.
  unfold promotePiece, removePawnPieceAndAddPromotedPiece.
  destruct (getPieceCharacterToPiece promotion (isPlayerTurn s) (scene s));
    [|reflexivity].
  destruct (getSceneObject (getPieceAt from (boardState s)) (scene s)); cbn [snd];
    [|reflexivity].
  rewrite addPieceAt_outside. apply removePawnPiece_outside.
Qed.

Lemma setAndIlluminatePreviousMove_kept (move : option Move) (s : State G) :
  kept (setAndIlluminatePreviousMove move s) = kept s.
Proof.
  unfold setAndIlluminatePreviousMove, illuminatePreviousMove,
    deilluminateOlderPreviousMove.
  destruct move, (previousMove s); reflexivity.
Qed.

Lemma showDrawVerdict_kept (s : State G) :
  kept (showDrawVerdict s) = kept s /\ game (showDrawVerdict s) = game s.
Proof.
  unfold showDrawVerdict.
  destruct (game_verdict (dom s)), (verdict_modal (dom s)); split; reflexivity.
Qed.

Lemma showCheckmateVerdict_kept (s : State G) :
  kept (showCheckmateVerdict s) = kept s /\ game (showCheckmateVerdict s) = game s.
Proof.
  unfold showCheckmateVerdict.
  destruct (game_verdict (dom s)), (verdict_modal (dom s)); split; reflexivity.
Qed.

Lemma showVerdictIfNecessary_kept (s : State G) :
  kept (showVerdictIfNecessary s) = kept s.
Proof.
  unfold showVerdictIfNecessary, showGameVerdict.
  destruct (isGameOver s); [|reflexivity].
  destruct (game_isCheckmate (game s)).
  - destruct (game_isDraw (game (showCheckmateVerdict s))).
    + rewrite (proj1 (showDrawVerdict_kept _)).
      apply (proj1 (showCheckmateVerdict_kept s)).
    + apply (proj1 (showCheckmateVerdict_kept s)).
  - destruct (game_isDraw (game s)); [|reflexivity].
    apply (proj1 (showDrawVerdict_kept s)).
Qed.

Lemma finish_kept (b : bool) (move : Move) (from to : string) (s : State G) :
  kept (showVerdictIfNecessary
          (set_isPlayerTurn b
             (setAndIlluminatePreviousMove (Some move)
                (movePieceOnBoard from to s))))
  = kept s.
Proof.
  rewrite showVerdictIfNecessary_kept.
  change (kept (setAndIlluminatePreviousMove (Some move)
                  (movePieceOnBoard from to s)) = kept s).
  rewrite setAndIlluminatePreviousMove_kept.
  apply kept_of_outside, movePieceOnBoard_outside.
Qed.

Lemma special_moves_kept (move : Move) (to : string) (s : State G) :
  kept (let s2 := if isCastlingMove move then castleRook move to s else s in
        if isEnPassantMove move then captureEnPassantPawn s2 else s2)
  = kept s.
Proof.
  cbv zeta.
  destruct (isEnPassantMove move), (isCastlingMove move);
    repeat first [ rewrite (kept_of_outside _ _ (captureEnPassantPawn_outside _))
                 | rewrite (kept_of_outside _ _ (castleRook_outside _ _ _)) ];
    reflexivity.
Qed.

Lemma executeHuman_kept (piece : option string) (from to : string)
  (move : Move) (s : State G) :
  kept (snd (executeHuman piece from to move s)) = kept s.
Proof.
  unfold executeHuman.
  pose proof (special_moves_kept move to s) as H3. cbv zeta in H3 |- *.
  destruct (isPromotionMove move).
  - match goal with
    | |- context [removePawnAndAddPromotedPiece ?p ?t ?x] =>
        pose proof (kept_of_outside _ _ (removePawnAndAddPromotedPiece_outside p t x)) as H4;
        destruct (removePawnAndAddPromotedPiece p t x) as [[[]|] s4]
    end; cbn [snd] in *.
    + rewrite finish_kept. congruence.
    + congruence.
  - cbn [snd]. rewrite finish_kept. exact H3.
Qed.

Lemma executeBot_kept (from to promotion : string) (move : Move) (s : State G) :
  kept (snd (executeBot from to promotion move s)) = kept s.
Proof.
  unfold executeBot.
  pose proof (special_moves_kept move to s) as H3. cbv zeta in H3 |- *.
  destruct (negb (promotion =? "")).
  - match goal with
    | |- context [promotePiece ?p ?f ?t ?x] =>
        pose proof (kept_of_outside _ _ (promotePiece_outside p f t x)) as H4;
        destruct (promotePiece p f t x) as [[[]|] s4]
    end; cbn [snd] in *.
    + rewrite finish_kept. congruence.
    + congruence.
  - cbn [snd]. rewrite finish_kept. exact H3.
Qed.

(** A resumed human move submits exactly once and leaves the wait, the
    modal and the outbox as they were. *)
Lemma moveSelectedPiece_resume_kept (piece : option string) (from to : string)
  (s : State G) :
  let s' := snd (moveSelectedPiece_resume piece from to s) in
  deferredResolve s' = deferredResolve s /\
  promotion_modal (dom s') = promotion_modal (dom s) /\
  botMessages s' = botMessages s /\
  submissions s'
  = (submissions s
     ++ [mkRequest from to (getPromotionPieceMoveCharacter piece)])%list.
Proof.
  cbv zeta.
  destruct (game_move (game s)
              (mkRequest from to (getPromotionPieceMoveCharacter piece)))
    as [[move g']|] eqn:Hengine.
  - unfold moveSelectedPiece_resume, tryFinally.
    rewrite (moveSelectedPiece_submit_accepted piece from to s move g' Hengine).
    match goal with
    | |- context [executeHuman ?p ?f ?t ?m ?x] =>
        pose proof (executeHuman_kept p f t m x) as Hk;
        destruct (executeHuman p f t m x) as [c s4]
    end.
    cbn [snd] in *.
    destruct (unsetSelectedPieceAndValidMoves_effect s4)
      as (_ & _ & _ & _ & _ & _ & _ & Hd & Hdom & _ & Hmsg & Hs).
    rewrite Hd, Hdom, Hmsg, Hs.
    unfold kept in Hk. injection Hk as H1 H2 H3 H4.
    repeat split; assumption.
  - rewrite (moveSelectedPiece_resume_rejected piece from to s Hengine).
    cbn [snd].
    match goal with
    | |- context [unsetSelectedPieceAndValidMoves ?x] =>
        destruct (unsetSelectedPieceAndValidMoves_effect x)
          as (_ & _ & _ & _ & _ & _ & _ & Hd & Hdom & _ & Hmsg & Hs)
    end.
    rewrite Hd, Hdom, Hmsg, Hs. repeat split; reflexivity.
Qed.

End Submission.

(** ** The promotion wait *)

Section PromotionWait.

Context {G : Type} {engine : RulesEngine G}.

Lemma triggerBotMove_deferredResolve (o : Outcome) (s : State G) :
  deferredResolve (triggerBotMove o s) = deferredResolve s.
Proof. destruct o; reflexivity. Qed.

Lemma onPromote_clears (choice : option string) (s : State G) :
  deferredResolve (onPromote true choice s) = None.
Proof.
  unfold onPromote.
  destruct (deferredResolve s) as [suspended|] eqn:Hwait; [|exact Hwait].
  cbn [negb].
  match goal with
  | |- context [let (piece, s2) := ?e in _] => destruct e as [piece s2] eqn:Hthen
  end.
  assert (Hs2 : deferredResolve s2 = None).
  { destruct (promotion_modal (dom (set_deferredResolve None s)));
      inversion Hthen; reflexivity. }
  pose proof (moveSelectedPiece_resume_kept piece (sus_from suspended)
                (sus_to suspended) s2) as Hk.
  cbv zeta in Hk. destruct Hk as (Hd & _).
  destruct (moveSelectedPiece_resume piece (sus_from suspended)
              (sus_to suspended) s2) as [c s3].
  cbn [snd] in Hd.
  rewrite triggerBotMove_deferredResolve, Hd. exact Hs2.
Qed.

(** C10.  The promotion wait is single-shot: a wait installed by a move
    that needs a choice is cleared by the first submission of the form,
    whatever the move then does, and a submission that finds no wait
    pending (or carries no target) changes nothing; so a second submission
    after the first is a no-op. *)
Theorem promotion_wait_is_single_shot (s : State G) :
  (forall to s1, moveSelectedPiece to s = (Pending, s1) ->
     exists from, deferredResolve s1 = Some (mkSuspended from to)) /\
  (forall choice, deferredResolve (onPromote true choice s) = None) /\
  (forall target choice,
     deferredResolve s = None -> onPromote target choice s = s) /\
  (forall choice, onPromote false choice s = s) /\
  (forall choice target' choice',
     onPromote target' choice' (onPromote true choice s)
     = onPromote true choice s).
Proof.
  assert (Hnone : forall (x : State G) target choice,
             deferredResolve x = None -> onPromote target choice x = x).
  { intros x target choice Hx. unfold onPromote. rewrite Hx. reflexivity. }
  repeat split.
  - intros to s1. unfold moveSelectedPiece.
    destruct (truthy (selectedPiece s)) as [sel|]; [|discriminate].
    destruct (truthy (getPiecePosition sel (boardState s))) as [from|];
      [|discriminate].
    destruct (shouldPromote sel to);
      [destruct (promotion_modal (dom s))|];
      try (destruct (moveSelectedPiece_resume None from to s) as [[[]|] s'];
           discriminate).
    intros H; inversion H; subst. exists from. reflexivity.
  - intros choice. apply onPromote_clears.
  - intros target choice. apply Hnone.
  - intros choice. unfold onPromote.
    destruct (deferredResolve s); reflexivity.
  - intros choice target' choice'. apply Hnone, onPromote_clears.
Qed.

(** C7, as the code has it.  A human move whose selected identity contains
    "pawn" and whose destination has rank character 8 or 1, whatever the
    pawn's colour, opens the promotion modal and suspends before anything
    is submitted: the engine and the registry are untouched, and the one
    submission is made when the modal answers, with the chosen letter.  Any
    other move submits at once, with letter q, and never opens the modal
    or installs a wait. *)
Theorem promotion_choice_precedes_submission (s : State G)
  (to sel from display : string) :
  truthy (selectedPiece s) = Some sel ->
  truthy (getPiecePosition sel (boardState s)) = Some from ->
  promotion_modal (dom s) = Some display ->
  (shouldPromote sel to = true <->
   includes "pawn" sel = true /\
   (charAt 1 to = Some "8" \/ charAt 1 to = Some "1")) /\
  (shouldPromote sel to = true ->
   exists s1,
     moveSelectedPiece to s = (Pending, s1) /\
     promotion_modal (dom s1) = Some "block" /\
     deferredResolve s1 = Some (mkSuspended from to) /\
     submissions s1 = submissions s /\
     game s1 = game s /\
     boardState s1 = boardState s /\
     forall choice,
       submissions (onPromote true choice s1)
       = (submissions s
          ++ [mkRequest from to (getPromotionPieceMoveCharacter choice)])%list) /\
  (shouldPromote sel to = false ->
   fst (moveSelectedPiece to s) <> Pending /\
   promotion_modal (dom (snd (moveSelectedPiece to s))) = Some display /\
   deferredResolve (snd (moveSelectedPiece to s)) = deferredResolve s /\
   submissions (snd (moveSelectedPiece to s))
   = (submissions s ++ [mkRequest from to "q"])%list).
Proof.
  intros Hsel Hfrom Hmodal. split; [|split].
  - unfold shouldPromote.
    destruct (includes "pawn" sel); cbn [andb].
    + destruct (charAt 1 to) as [rank|].
      * rewrite Bool.orb_true_iff, !String.eqb_eq. split.
        -- intros [H|H]; subst; split; auto.
        -- intros [_ [H|H]]; inversion H; auto.
      * split; [discriminate | intros [_ [H|H]]; discriminate].
    + split; [discriminate | intros [H _]; discriminate].
  - intros Hpromote. unfold moveSelectedPiece.
    rewrite Hsel, Hfrom, Hpromote, Hmodal.
    eexists. split; [reflexivity|].
    repeat split.
    intros choice. unfold onPromote. cbn [deferredResolve set_deferredResolve negb].
    cbn [dom set_dom set_deferredResolve promotion_modal sus_from sus_to].
    match goal with
    | |- context [moveSelectedPiece_resume ?p ?f ?t ?x] =>
        pose proof (moveSelectedPiece_resume_kept p f t x) as Hk;
        destruct (moveSelectedPiece_resume p f t x) as [c s3]
    end.
    cbv zeta in Hk. cbn [snd] in Hk. destruct Hk as (_ & _ & _ & Hs).
    destruct c; cbn [outcomeOf triggerBotMove]; [|exact Hs].
    unfold makeBotMove, postMessage. cbn [submissions]. exact Hs.
  - intros Hpromote. unfold moveSelectedPiece.
    rewrite Hsel, Hfrom, Hpromote.
    pose proof (moveSelectedPiece_resume_kept None from to s) as Hk.
    destruct (moveSelectedPiece_resume None from to s) as [c s3].
    cbv zeta in Hk. cbn [snd fst] in *. destruct Hk as (Hd & Hm & _ & Hs).
    repeat split.
    + destruct c; discriminate.
    + rewrite Hm; exact Hmodal.
    + exact Hd.
    + exact Hs.
Qed.

End PromotionWait.

(** C7 as stated fails: after 1. Nc3 e5 the player picks the b-pawn and
    clicks the empty square b1.  Rank 1 is not the farthest rank of a white
    pawn, yet the modal opens and the flow waits for a choice, nothing
    having been submitted. *)
Lemma promotion_requested_for_white_pawn_on_rank_1 :
  selectedPiece pawnPickedBehindKnight = Some "pawn_white_2" /\
  promotionEligible "pawn_white_2" "b1" = false /\
  shouldPromote "pawn_white_2" "b1" = true /\
  deferredResolve (onClick ["b1"] pawnPickedBehindKnight)
  = Some (mkSuspended "b2" "b1") /\
  promotion_modal (dom (onClick ["b1"] pawnPickedBehindKnight)) = Some "block" /\
  submissions (onClick ["b1"] pawnPickedBehindKnight)
  = submissions pawnPickedBehindKnight.
Proof. vm_compute. repeat split; reflexivity. Qed.

(** ** The verdict *)

Section Verdict.

Context {G : Type} {engine : RulesEngine G}.

Lemma dom_game_of_outside (s s' : State G) :
  outside s' = outside s -> dom s' = dom s /\ game s' = game s.
Proof.
  unfold outside. intros H.
  injection H as H1 H2 H3 H4 H5 H6 H7 H8 H9. split; assumption.
Qed.

Lemma setAndIlluminatePreviousMove_dom_game (move : option Move) (s : State G) :
  dom (setAndIlluminatePreviousMove move s) = dom s /\
  game (setAndIlluminatePreviousMove move s) = game s.
Proof.
  unfold setAndIlluminatePreviousMove, illuminatePreviousMove,
    deilluminateOlderPreviousMove.
  destruct move, (previousMove s); split; reflexivity.
Qed.

Lemma special_moves_dom_game (move : Move) (to : string) (s : State G) :
  let s3 := (let s2 := if isCastlingMove move then castleRook move to s else s in
             if isEnPassantMove move then captureEnPassantPawn s2 else s2) in
  dom s3 = dom s /\ game s3 = game s.
Proof.
  cbv zeta.
  destruct (isEnPassantMove move), (isCastlingMove move).
  - destruct (dom_game_of_outside _ _ (captureEnPassantPawn_outside (castleRook move to s))) as [-> ->].
    apply dom_game_of_outside, castleRook_outside.
  - apply dom_game_of_outside, captureEnPassantPawn_outside.
  - apply dom_game_of_outside, castleRook_outside.
  - split; reflexivity.
Qed.

Lemma finish_shape (b : bool) (move : Move) (from to : string) (s : State G) :
  let x := set_isPlayerTurn b
             (setAndIlluminatePreviousMove (Some move)
                (movePieceOnBoard from to s)) in
  isPlayerTurn x = b /\ dom x = dom s /\ game x = game s.
Proof.
  cbv zeta. split; [reflexivity|].
  change (dom (setAndIlluminatePreviousMove (Some move) (movePieceOnBoard from to s))
          = dom s /\
          game (setAndIlluminatePreviousMove (Some move) (movePieceOnBoard from to s))
          = game s).
  destruct (setAndIlluminatePreviousMove_dom_game (Some move)
              (movePieceOnBoard from to s)) as [-> ->].
  apply dom_game_of_outside, movePieceOnBoard_outside.
Qed.

(** A completed human execution ends in the verdict check, made with the
    turn already passed to the opponent and the DOM as it was. *)
Lemma executeHuman_completed (piece : option string) (from to : string)
  (move : Move) (s s' : State G) :
  executeHuman piece from to move s = (Normal tt, s') ->
  exists x, s' = showVerdictIfNecessary x /\
            isPlayerTurn x = false /\ dom x = dom s /\ game x = game s.
Proof.
  unfold executeHuman.
  pose proof (special_moves_dom_game move to s) as H3. cbv zeta in H3 |- *.
  destruct H3 as [Hd3 Hg3].
  destruct (isPromotionMove move).
  - match goal with
    | |- context [removePawnAndAddPromotedPiece ?p ?t ?x] =>
        pose proof (dom_game_of_outside _ _
                      (removePawnAndAddPromotedPiece_outside p t x)) as [Hd4 Hg4];
        destruct (removePawnAndAddPromotedPiece p t x) as [[[]|] s4]
    end; cbn [snd] in *; [|discriminate].
    intros H; inversion H; subst. eexists; split; [reflexivity|].
    destruct (finish_shape false move from to s4) as (Ht & Hd & Hg).
    cbv zeta in *. rewrite Hd, Hg. repeat split; congruence.
  - intros H; inversion H; subst. eexists; split; [reflexivity|].
    match goal with
    | |- context [movePieceOnBoard from to ?y] =>
        destruct (finish_shape false move from to y) as (Ht & Hd & Hg)
    end.
    cbv zeta in *. rewrite Hd, Hg. repeat split; congruence.
Qed.

Lemma executeBot_completed (from to promotion : string) (move : Move)
  (s s' : State G) :
  executeBot from to promotion move s = (Normal tt, s') ->
  exists x, s' = showVerdictIfNecessary x /\
            isPlayerTurn x = true /\ dom x = dom s /\ game x = game s.
Proof.
  unfold executeBot.
  pose proof (special_moves_dom_game move to s) as H3. cbv zeta in H3 |- *.
  destruct H3 as [Hd3 Hg3].
  destruct (negb (promotion =? "")).
  - match goal with
    | |- context [promotePiece ?p ?f ?t ?x] =>
        pose proof (dom_game_of_outside _ _ (promotePiece_outside p f t x)) as [Hd4 Hg4];
        destruct (promotePiece p f t x) as [[[]|] s4]
    end; cbn [snd] in *; [|discriminate].
    intros H; inversion H; subst. eexists; split; [reflexivity|].
    destruct (finish_shape true move from to s4) as (Ht & Hd & Hg).
    cbv zeta in *. rewrite Hd, Hg. repeat split; congruence.
  - intros H; inversion H; subst. eexists; split; [reflexivity|].
    match goal with
    | |- context [movePieceOnBoard from to ?y] =>
        destruct (finish_shape true move from to y) as (Ht & Hd & Hg)
    end.
    cbv zeta in *. rewrite Hd, Hg. repeat split; congruence.
Qed.

(** What the verdict check writes, by the engine's answers. *)
Lemma showVerdictIfNecessary_effect (x : State G) (text display : string) :
  game_verdict (dom x) = Some text ->
  verdict_modal (dom x) = Some display ->
  let s' := showVerdictIfNecessary x in
  game s' = game x /\
  (game_isCheckmate (game x) = true -> game_isDraw (game x) = false ->
   game_verdict (dom s')
   = Some ("Checkmate! ("
           ++ (if negb (isPlayerTurn x) then "Player" else "Computer")
           ++ " wins)") /\
   verdict_modal (dom s') = Some "block") /\
  (game_isDraw (game x) = true ->
   game_verdict (dom s') = Some "Draw!" /\
   verdict_modal (dom s') = Some "block").
Proof.
  intros Htext Hmodal. cbv zeta.
  unfold showVerdictIfNecessary, showGameVerdict, isGameOver.
  destruct (game_isCheckmate (game x)) eqn:Hmate;
    destruct (game_isDraw (game x)) eqn:Hdraw; cbn [orb].
  - rewrite (proj2 (showCheckmateVerdict_kept x)), Hdraw.
    unfold showDrawVerdict, showCheckmateVerdict.
    rewrite Htext, Hmodal. cbn.
    repeat split; try discriminate; reflexivity.
  - rewrite (proj2 (showCheckmateVerdict_kept x)), Hdraw.
    unfold showCheckmateVerdict. rewrite Htext, Hmodal. cbn.
    repeat split; try discriminate; reflexivity.
  - unfold showDrawVerdict. rewrite Htext, Hmodal. cbn.
    repeat split; try discriminate; reflexivity.
  - repeat split; discriminate.
Qed.

End Verdict.

Section VerdictTheorem.

Context {G : Type} {engine : RulesEngine G}.

(** The verdict when the engine reports one outcome.  After a completed
    move that the engine reports as checkmate and not as a draw, the
    verdict node reads that the Player wins when the move was the human's
    and that the Computer wins when it was the opponent's, and the verdict
    modal is displayed; after a completed move that the engine reports as
    a draw the node reads "Draw!" and the modal is displayed. *)
Theorem verdict_names_the_side_that_mated :
  (forall (s s' : State G) (piece : option string) (from to text display : string),
     moveSelectedPiece_resume piece from to s = (Normal tt, s') ->
     game_verdict (dom s) = Some text ->
     verdict_modal (dom s) = Some display ->
     (game_isCheckmate (game s') = true -> game_isDraw (game s') = false ->
      game_verdict (dom s') = Some "Checkmate! (Player wins)" /\
      verdict_modal (dom s') = Some "block") /\
     (game_isDraw (game s') = true ->
      game_verdict (dom s') = Some "Draw!" /\
      verdict_modal (dom s') = Some "block")) /\
  (forall (s s' : State G) (message text display : string),
     includes "bestmove" message = true ->
     onBotMessage message s = (Normal tt, s') ->
     game_verdict (dom s) = Some text ->
     verdict_modal (dom s) = Some display ->
     (game_isCheckmate (game s') = true -> game_isDraw (game s') = false ->
      game_verdict (dom s') = Some "Checkmate! (Computer wins)" /\
      verdict_modal (dom s') = Some "block") /\
     (game_isDraw (game s') = true ->
      game_verdict (dom s') = Some "Draw!" /\
      verdict_modal (dom s') = Some "block")).
Proof.
  split.
  - intros s s' piece from to text display Hrun Htext Hmodal.
    unfold moveSelectedPiece_resume, tryFinally in Hrun.
    destruct (game_move (game s)
                (mkRequest from to (getPromotionPieceMoveCharacter piece)))
      as [[move g']|] eqn:Hengine.
    + rewrite (moveSelectedPiece_submit_accepted piece from to s move g' Hengine)
        in Hrun.
      match type of Hrun with
      | context [executeHuman ?p ?f ?t ?m ?x] =>
          destruct (executeHuman p f t m x) as [c s4] eqn:Hexec
      end.
      inversion Hrun; subst c s'.
      apply executeHuman_completed in Hexec.
      destruct Hexec as (x & -> & Hturn & Hdom & Hgame).
      cbn [dom game set_game logSubmission] in Hdom, Hgame.
      destruct (unsetSelectedPieceAndValidMoves_effect (showVerdictIfNecessary x))
        as (_ & _ & _ & _ & _ & _ & _ & _ & Hd & Hg & _).
      rewrite Hd, Hg.
      destruct (showVerdictIfNecessary_effect x text display) as (Hgx & Hmate & Hdraw);
        [rewrite Hdom; exact Htext | rewrite Hdom; exact Hmodal|].
      cbv zeta in *. rewrite Hgx. rewrite Hturn in Hmate. split; assumption.
    + unfold moveSelectedPiece_submit, bind, gameMove in Hrun.
      rewrite Hengine in Hrun. discriminate.
  - intros s s' message text display Hbest Hrun Htext Hmodal.
    unfold onBotMessage in Hrun. rewrite Hbest in Hrun. cbn [negb] in Hrun.
    destruct (getBestMoveDetails message) as [[[from to] promotion]|];
      [|discriminate].
    destruct (game_move (game s) (mkRequest from to promotion))
      as [[move g']|] eqn:Hengine.
    + rewrite (onBotMessage_move_accepted from to promotion s move g' Hengine)
        in Hrun.
      apply executeBot_completed in Hrun.
      destruct Hrun as (x & -> & Hturn & Hdom & Hgame).
      cbn [dom game set_game logSubmission] in Hdom, Hgame.
      destruct (showVerdictIfNecessary_effect x text display) as (Hgx & Hmate & Hdraw);
        [rewrite Hdom; exact Htext | rewrite Hdom; exact Hmodal|].
      cbv zeta in *. rewrite Hgx. rewrite Hturn in Hmate. split; assumption.
    + rewrite (onBotMessage_move_rejected from to promotion s Hengine) in Hrun.
      discriminate.
Qed.

End VerdictTheorem.

(** ** En passant *)

Lemma dictionary_unique (bs : BoardState) (k v v' : string) :
  isDictionary bs -> In (k, v) bs -> In (k, v') bs -> v = v'.
Proof.
  unfold isDictionary. induction bs as [|[a b] rest IH]; simpl; [intros _ []|].
  intros Hnd H1 H2. inversion Hnd as [|x l Hnotin Hnd']; subst.
  destruct H1 as [H1|H1], H2 as [H2|H2].
  - congruence.
  - inversion H1; subst. exfalso; apply Hnotin.
    change k with (fst (k, v')). apply in_map; exact H2.
  - inversion H2; subst. exfalso; apply Hnotin.
    change k with (fst (k, v)). apply in_map; exact H1.
  - apply IH; assumption.
Qed.

Lemma updateObject_shown (n : string) (f : Object3D -> Object3D)
  (sc : list Object3D) :
  (forall o, shown (f o) = shown o) ->
  map shown (updateObject n f sc) = map shown sc.
Proof.
  intros Hf. induction sc as [|o rest IH]; simpl; [reflexivity|].
  destruct (name o =? n); simpl; [rewrite Hf; reflexivity | rewrite IH; reflexivity].
Qed.

Lemma shown_of_geometry (sc sc' : list Object3D) :
  map geometry sc = map geometry sc' -> map shown sc = map shown sc'.
Proof.
  revert sc'. induction sc as [|o rest IH]; intros [|o' rest'] H; simpl in *;
    try discriminate; [reflexivity|].
  injection H as Hn Hv Hf Hp Hrest.
  unfold shown. rewrite Hn, Hv. f_equal. apply IH; exact Hrest.
Qed.

Lemma getSceneObject_shown (x : option string) (sc sc' : list Object3D) :
  map shown sc = map shown sc' ->
  option_map visible (getSceneObject x sc)
  = option_map visible (getSceneObject x sc').
Proof.
  destruct x as [n|]; simpl; [|reflexivity].
  revert sc'. induction sc as [|o rest IH]; intros [|o' rest'] H; simpl in *;
    try discriminate; [reflexivity|].
  injection H as Hn Hv Hrest.
  rewrite Hn. destruct (name o' =? n); simpl.
  - rewrite Hv; reflexivity.
  - apply IH; exact Hrest.
Qed.

(** A write through one reference does not remove what another name
    finds. *)
Lemma getSceneObject_update (n n' : string) (f : Object3D -> Object3D)
  (sc : list Object3D) :
  (forall x, name (f x) = name x) ->
  getSceneObject (Some n) (updateObject n' f sc)
  = option_map (fun o => if n =? n' then f o else o) (getSceneObject (Some n) sc).
Proof.
  intros Hf.
  destruct (String.eqb_spec n n') as [->|Hne].
  - destruct (getSceneObject (Some n') sc) as [o|] eqn:Hfind.
    + rewrite (getSceneObject_update_same n' f sc o Hf Hfind). reflexivity.
    + simpl in *. induction sc as [|x rest IH]; simpl in *; [reflexivity|].
      destruct (name x =? n') eqn:Hx; [discriminate|].
      simpl. rewrite Hx. apply IH; exact Hfind.
  - rewrite (getSceneObject_update_other n n' f sc Hf Hne).
    destruct (getSceneObject (Some n) sc); reflexivity.
Qed.

Section EnPassant.

Context {G : Type} {engine : RulesEngine G}.

(** What the steps after the relocation leave of the board: the registry
    and the geometry of the scene. *)
Lemma setAndIlluminatePreviousMove_board (move : option Move) (s : State G) :
  boardState (setAndIlluminatePreviousMove move s) = boardState s /\
  map geometry (scene (setAndIlluminatePreviousMove move s))
  = map geometry (scene s).
Proof.
  unfold setAndIlluminatePreviousMove, illuminatePreviousMove,
    deilluminateOlderPreviousMove.
  destruct move, (previousMove s); cbn;
    rewrite ?illuminateSquares_geometry; try (split; reflexivity).
  all: rewrite ?illuminateObject_geometry; split; reflexivity.
Qed.

Lemma showDrawVerdict_board (s : State G) :
  boardState (showDrawVerdict s) = boardState s /\
  scene (showDrawVerdict s) = scene s.
Proof.
  unfold showDrawVerdict.
  destruct (game_verdict (dom s)), (verdict_modal (dom s)); split; reflexivity.
Qed.

Lemma showCheckmateVerdict_board (s : State G) :
  boardState (showCheckmateVerdict s) = boardState s /\
  scene (showCheckmateVerdict s) = scene s.
Proof.
  unfold showCheckmateVerdict.
  destruct (game_verdict (dom s)), (verdict_modal (dom s)); split; reflexivity.
Qed.

Lemma showVerdictIfNecessary_board (s : State G) :
  boardState (showVerdictIfNecessary s) = boardState s /\
  scene (showVerdictIfNecessary s) = scene s.
Proof.
  unfold showVerdictIfNecessary, showGameVerdict.
  destruct (isGameOver s); [|split; reflexivity].
  destruct (game_isCheckmate (game s)).
  - destruct (game_isDraw (game (showCheckmateVerdict s))).
    + destruct (showDrawVerdict_board (showCheckmateVerdict s)) as [-> ->].
      apply showCheckmateVerdict_board.
    + apply showCheckmateVerdict_board.
  - destruct (game_isDraw (game s)); [|split; reflexivity].
    apply showDrawVerdict_board.
Qed.

Lemma finish_board (b : bool) (move : Move) (s : State G) :
  let x := showVerdictIfNecessary
             (set_isPlayerTurn b (setAndIlluminatePreviousMove (Some move) s)) in
  boardState x = boardState s /\
  map geometry (scene x) = map geometry (scene s).
Proof.
  cbv zeta.
  match goal with
  | |- context [showVerdictIfNecessary ?y] =>
      destruct (showVerdictIfNecessary_board y) as [-> ->]
  end.
  exact (setAndIlluminatePreviousMove_board (Some move) s).
Qed.

Lemma makeBotMove_board (s : State G) :
  boardState (makeBotMove s) = boardState s /\ scene (makeBotMove s) = scene s.
Proof. split; reflexivity. Qed.

(** The capture and the relocation of an en passant move. *)
Lemma en_passant_core (s : State G) (from to p cap : string)
  (previous : Move) (o anchor : Object3D) :
  isDictionary (boardState s) ->
  injective (boardState s) ->
  previousMove s = Some previous ->
  truthy (getPieceAt (m_to previous) (boardState s)) = Some cap ->
  truthy (getPieceAt from (boardState s)) = Some p ->
  getPieceAt to (boardState s) = None ->
  m_to previous <> from ->
  m_to previous <> to ->
  getPositionObject to (scene s) = Some anchor ->
  getSceneObject (Some cap) (scene s) = Some o ->
  let s' := movePieceOnBoard from to (captureEnPassantPawn s) in
  getPiecePosition p (boardState s') = Some to /\
  getPieceAt (m_to previous) (boardState s') = None /\
  getPiecePosition cap (boardState s') = None /\
  option_map visible (getSceneObject (Some cap) (scene s')) = Some false.
Proof.
  intros Hdict Hinj Hprev Hcap Hmover Hempty Hne1 Hne2 Hsq Hobj.
  apply truthy_Some in Hcap. destruct Hcap as [Hcap Hcapne].
  apply truthy_Some in Hmover. destruct Hmover as [Hmover Hpne].
  assert (Hpc : p <> cap).
  { intros ->. apply Hne1.
    eapply dictionary_unique; [exact Hdict | |];
      [apply getPieceAt_In; exact Hcap | apply getPieceAt_In; exact Hmover]. }
  pose proof (getSceneObject_name cap (scene s) o Hobj) as Hname.
  cbv zeta. unfold captureEnPassantPawn. rewrite Hprev, Hcap.
  rewrite (truthy_intro _ cap eq_refl Hcapne). rewrite Hobj.
  unfold movePieceOnBoard.
  cbn [boardState scene set_boardState set_scene removePieceFromBoard].
  rewrite Hname.
  rewrite (getPieceAt_delete_other from p cap _ Hmover Hpc).
  rewrite (truthy_intro _ p eq_refl Hpne).
  rewrite (getPieceAt_delete_None to cap _ Hempty). cbn [truthy].
  unfold getPositionObject in *.
  cbn [boardState scene set_boardState set_scene].
  rewrite (getSceneObject_update to cap hide (scene s) (fun x => eq_refl)).
  rewrite Hsq. cbn [option_map].
  cbn [boardState scene set_boardState set_scene].
  assert (Hvis : forall sc : list Object3D,
             map shown sc = map shown (updateObject cap hide (scene s)) ->
             option_map visible (getSceneObject (Some cap) sc) = Some false).
  { intros sc Hsc. rewrite (getSceneObject_shown (Some cap) _ _ Hsc).
    rewrite (getSceneObject_update_same cap hide (scene s) o (fun x => eq_refl) Hobj).
    reflexivity. }
  assert (Hboard :
            getPiecePosition p (assign p to (delete cap (boardState s))) = Some to /\
            getPieceAt (m_to previous) (assign p to (delete cap (boardState s))) = None /\
            getPiecePosition cap (assign p to (delete cap (boardState s))) = None).
  { split; [apply getPiecePosition_assign_same|]. split.
    - apply getPieceAt_assign_None; [|exact Hne2].
      apply getPieceAt_delete_found; assumption.
    - rewrite getPiecePosition_assign_other by congruence.
      apply getPiecePosition_delete_same. }
  destruct Hboard as (Hb1 & Hb2 & Hb3).
  destruct (getSceneObject (Some p) (updateObject cap hide (scene s))) as [po|];
    cbn [boardState scene set_boardState set_scene];
    repeat split; try assumption; apply Hvis;
    [apply updateObject_shown; intros x; reflexivity | reflexivity].
Qed.

End EnPassant.

Section EnPassantTheorem.

Context {G : Type} {engine : RulesEngine G}.

(** C4.  An en passant capture, made by the human or by the opponent, on
    a registry that is an injective dictionary: the mover ends on the
    destination square, no identity is left on the square where the
    previous move ended, the captured identity is out of the registry and
    its renderable is hidden. *)
Theorem en_passant_removes_the_captured_pawn :
  (forall (s : State G) (to sel from cap : string) (previous move : Move)
          (g' : G) (o anchor : Object3D),
     isDictionary (boardState s) ->
     injective (boardState s) ->
     truthy (selectedPiece s) = Some sel ->
     truthy (getPiecePosition sel (boardState s)) = Some from ->
     shouldPromote sel to = false ->
     previousMove s = Some previous ->
     truthy (getPieceAt (m_to previous) (boardState s)) = Some cap ->
     getPieceAt to (boardState s) = None ->
     m_to previous <> from ->
     m_to previous <> to ->
     getPositionObject to (scene s) = Some anchor ->
     getSceneObject (Some cap) (scene s) = Some o ->
     game_move (game s) (mkRequest from to "q") = Some (move, g') ->
     isEnPassantMove move = true ->
     isCastlingMove move = false ->
     isPromotionMove move = false ->
     let s' := moveSelectedPieceAndTriggerBotMove to s in
     getPiecePosition sel (boardState s') = Some to /\
     getPieceAt (m_to previous) (boardState s') = None /\
     getPiecePosition cap (boardState s') = None /\
     option_map visible (getSceneObject (Some cap) (scene s')) = Some false) /\
  (forall (s : State G) (message from to p cap : string) (previous move : Move)
          (g' : G) (o anchor : Object3D),
     includes "bestmove" message = true ->
     getBestMoveDetails message = Some (from, to, "") ->
     isDictionary (boardState s) ->
     injective (boardState s) ->
     truthy (getPieceAt from (boardState s)) = Some p ->
     previousMove s = Some previous ->
     truthy (getPieceAt (m_to previous) (boardState s)) = Some cap ->
     getPieceAt to (boardState s) = None ->
     m_to previous <> from ->
     m_to previous <> to ->
     getPositionObject to (scene s) = Some anchor ->
     getSceneObject (Some cap) (scene s) = Some o ->
     game_move (game s) (mkRequest from to "") = Some (move, g') ->
     isEnPassantMove move = true ->
     isCastlingMove move = false ->
     let s' := playBotMessage message s in
     getPiecePosition p (boardState s') = Some to /\
     getPieceAt (m_to previous) (boardState s') = None /\
     getPiecePosition cap (boardState s') = None /\
     option_map visible (getSceneObject (Some cap) (scene s')) = Some false).
Proof.
  split.
  - intros s to sel from cap previous move g' o anchor
      Hdict Hinj Hsel Hfrom Hpromote Hprev Hcap Hempty Hne1 Hne2 Hsq Hobj
      Hengine Hep Hcastle Hpromotion.
    assert (Hmover : truthy (getPieceAt from (boardState s)) = Some sel).
    { apply truthy_Some in Hsel. destruct Hsel as [_ Hselne].
      apply truthy_Some in Hfrom. destruct Hfrom as [Hfrom _].
      apply truthy_intro; [|exact Hselne].
      apply getPieceAt_of_position; assumption. }
    set (s0 := set_game g' (logSubmission (mkRequest from to "q") s)).
    pose proof (en_passant_core s0 from to sel cap previous o anchor
                  Hdict Hinj Hprev Hcap Hmover Hempty Hne1 Hne2 Hsq Hobj)
      as Hcore.
    cbv zeta in Hcore |- *.
    unfold moveSelectedPieceAndTriggerBotMove, moveSelectedPiece.
    rewrite Hsel, Hfrom, Hpromote.
    unfold moveSelectedPiece_resume, tryFinally.
    rewrite (moveSelectedPiece_submit_accepted None from to s move g' Hengine).
    change (getPromotionPieceMoveCharacter None) with "q".
    fold s0. unfold executeHuman. rewrite Hcastle, Hep, Hpromotion.
    cbn [outcomeOf triggerBotMove].
    set (moved := movePieceOnBoard from to (captureEnPassantPawn s0)) in *.
    destruct (finish_board false move moved) as [Hb Hg]. cbv zeta in Hb, Hg.
    match goal with
    | |- context [unsetSelectedPieceAndValidMoves ?x] =>
        destruct (unsetSelectedPieceAndValidMoves_effect x)
          as (Hub & Hug & _);
        set (final := unsetSelectedPieceAndValidMoves x) in *
    end.
    destruct (makeBotMove_board final) as [-> ->].
    rewrite Hub, Hb.
    rewrite (getSceneObject_shown (Some cap) (scene final) (scene moved)).
    + exact Hcore.
    + apply shown_of_geometry. rewrite Hug. exact Hg.
  - intros s message from to p cap previous move g' o anchor
      Hbest Hdetails Hdict Hinj Hmover Hprev Hcap Hempty Hne1 Hne2 Hsq Hobj
      Hengine Hep Hcastle.
    set (s0 := set_game g' (logSubmission (mkRequest from to "") s)).
    pose proof (en_passant_core s0 from to p cap previous o anchor
                  Hdict Hinj Hprev Hcap Hmover Hempty Hne1 Hne2 Hsq Hobj)
      as Hcore.
    cbv zeta in Hcore |- *.
    unfold playBotMessage, onBotMessage. rewrite Hbest, Hdetails. cbn [negb].
    rewrite (onBotMessage_move_accepted from to "" s move g' Hengine).
    fold s0. unfold executeBot. rewrite Hcastle, Hep.
    cbn [String.eqb negb snd].
    set (moved := movePieceOnBoard from to (captureEnPassantPawn s0)) in *.
    destruct (finish_board true move moved) as [Hb Hg]. cbv zeta in Hb, Hg.
    rewrite Hb.
    match goal with
    | |- context [scene ?x] =>
        rewrite (getSceneObject_shown (Some cap) (scene x) (scene moved))
    end.
    + exact Hcore.
    + apply shown_of_geometry. exact Hg.
Qed.

End EnPassantTheorem.

(** ** Names of promoted pieces *)

Lemma prefix_empty (s : string) : prefix "" s = true.
Proof. destruct s; reflexivity. Qed.

Lemma prefix_append (p x : string) : prefix p (p ++ x) = true.
Proof.
  induction p as [|c p IH]; simpl; [apply prefix_empty|].
  destruct (ascii_dec c c) as [_|Hne]; [exact IH | contradiction].
Qed.

Lemma includes_unfold (sub s : string) :
  includes sub s
  = prefix sub s || match s with
                    | EmptyString => false
                    | String _ rest => includes sub rest
                    end.
Proof. destruct s; reflexivity. Qed.

Lemma includes_prefix (p x : string) : includes p (p ++ x) = true.
Proof. rewrite includes_unfold, prefix_append. reflexivity. Qed.

Lemma append_inj_l (p a b : string) : p ++ a = p ++ b -> a = b.
Proof.
  induction p as [|c p IH]; simpl; intros H; [exact H|].
  inversion H; apply IH; assumption.
Qed.

Lemma numToString_inj (n m : nat) : numToString n = numToString m -> n = m.
Proof.
  unfold numToString. intros H.
  apply (f_equal NilEmpty.uint_of_string) in H.
  rewrite !NilEmpty.usu in H. inversion H as [Huint].
  apply (f_equal Nat.of_uint) in Huint.
  rewrite !Unsigned.of_to in Huint. exact Huint.
Qed.

Lemma string_of_uint_digits (u : Decimal.uint) :
  allDigits (NilEmpty.string_of_uint u) = true.
Proof. induction u; simpl; try exact IHu; reflexivity. Qed.

Lemma numToString_digits (n : nat) : allDigits (numToString n) = true.
Proof. apply string_of_uint_digits. Qed.

Lemma endsWithNonDigit_cons (c : ascii) (p : string) :
  endsWithNonDigit (String c p) = true ->
  (p = "" /\ isDigit c = false) \/ (p <> "" /\ endsWithNonDigit p = true).
Proof.
  destruct p as [|c' p']; simpl.
  - intros H; left; split; [reflexivity|].
    destruct (isDigit c); [discriminate | reflexivity].
  - intros H; right; split; [discriminate | exact H].
Qed.

Lemma prefix_digits (p d : string) :
  endsWithNonDigit p = true -> allDigits d = true -> prefix p d = false.
Proof.
  revert d. induction p as [|c p IH]; intros d Hp Hd; [discriminate|].
  destruct d as [|x d]; [reflexivity|].
  simpl in Hd. apply andb_prop in Hd. destruct Hd as [Hx Hd].
  simpl. destruct (ascii_dec c x) as [->|Hne]; [|reflexivity].
  apply endsWithNonDigit_cons in Hp. destruct Hp as [[-> Hc]|[_ Hp]].
  - congruence.
  - apply IH; assumption.
Qed.

Lemma prefix_append_digits (p a d : string) :
  endsWithNonDigit p = true -> allDigits d = true ->
  prefix p (a ++ d) = prefix p a.
Proof.
  revert p. induction a as [|x a IH]; intros p Hp Hd.
  - simpl. rewrite (prefix_digits p d Hp Hd).
    destruct p; [discriminate | reflexivity].
  - destruct p as [|c p]; [discriminate|].
    simpl. destruct (ascii_dec c x) as [->|Hne]; [|reflexivity].
    apply endsWithNonDigit_cons in Hp. destruct Hp as [[-> Hc]|[_ Hp]].
    + rewrite !prefix_empty. reflexivity.
    + apply IH; assumption.
Qed.

Lemma includes_digits (p d : string) :
  endsWithNonDigit p = true -> allDigits d = true -> includes p d = false.
Proof.
  intros Hp. induction d as [|x d IH]; intros Hd.
  - simpl. destruct p; [discriminate | reflexivity].
  - rewrite includes_unfold, (prefix_digits p _ Hp Hd).
    simpl in Hd. apply andb_prop in Hd. destruct Hd as [_ Hd].
    apply IH; exact Hd.
Qed.

(** A family name that ends in a letter occurs in a name with a number
    appended only where it occurs before the number. *)
Lemma includes_append_digits (p a d : string) :
  endsWithNonDigit p = true -> allDigits d = true ->
  includes p (a ++ d) = includes p a.
Proof.
  intros Hp Hd. induction a as [|x a IH].
  - simpl append. rewrite (includes_digits p d Hp Hd).
    simpl. destruct p; [discriminate | reflexivity].
  - rewrite (includes_unfold p (String x a)).
    change (String x a ++ d) with (String x (a ++ d)).
    rewrite (includes_unfold p (String x (a ++ d))).
    change (String x (a ++ d)) with (String x a ++ d) at 1.
    rewrite (prefix_append_digits p (String x a) d Hp Hd), IH.
    reflexivity.
Qed.

Lemma countNamed_objects (family : string) (sc : list Object3D) :
  List.length (filter (fun o => includes family (name o)) sc)
  = countNamed family (map name sc).
Proof.
  unfold countNamed. induction sc as [|o rest IH]; simpl; [reflexivity|].
  destruct (includes family (name o)); simpl; rewrite IH; reflexivity.
Qed.

Lemma countNamed_app (family n : string) (names : list string) :
  countNamed family (names ++ [n])
  = countNamed family names + (if includes family n then 1 else 0).
Proof.
  unfold countNamed. rewrite filter_app, length_app. simpl.
  destruct (includes family n); reflexivity.
Qed.

(** The next number of a family names no child of the scene. *)
Lemma numbered_fresh (family : string) (names : list string) :
  numbered family names ->
  ~ In (family ++ "_" ++ numToString (countNamed family names + 1)) names.
Proof.
  intros [_ Hnum] Hin.
  destruct (Hnum _ Hin) as (i & Hi & Heq).
  - apply includes_prefix.
  - apply append_inj_l, append_inj_l, numToString_inj in Heq. lia.
Qed.

Lemma numbered_mint (family : string) (names : list string) :
  numbered family names ->
  numbered family
    (names ++ [family ++ "_" ++ numToString (countNamed family names + 1)]).
Proof.
  intros [Hcount Hnum]. unfold numbered.
  rewrite countNamed_app, includes_prefix. split; [lia|].
  intros n Hin Hinc. apply in_app_or in Hin. destruct Hin as [Hin|[<-|[]]].
  - destruct (Hnum n Hin Hinc) as (i & Hi & Heq). exists i. split; [lia | exact Heq].
  - exists (countNamed family names + 1). split; [lia | reflexivity].
Qed.

Lemma numbered_other (family n : string) (names : list string) :
  includes family n = false ->
  numbered family names -> numbered family (names ++ [n]).
Proof.
  intros Hn [Hcount Hnum]. unfold numbered.
  rewrite countNamed_app, Hn, Nat.add_0_r. split; [exact Hcount|].
  intros m Hin Hinc. apply in_app_or in Hin. destruct Hin as [Hin|[<-|[]]].
  - apply Hnum; assumption.
  - congruence.
Qed.

Lemma numberedb_sound (family : string) (names : list string) :
  numberedb family names = true -> numbered family names.
Proof.
  unfold numberedb, numbered. intros H.
  apply andb_prop in H. destruct H as [Hcount Hall]. split.
  - intros Hzero. rewrite Hzero in Hcount. discriminate.
  - intros n Hin Hinc. rewrite forallb_forall in Hall.
    specialize (Hall n Hin). rewrite Hinc in Hall. simpl in Hall.
    apply existsb_exists in Hall. destruct Hall as (i & Hi & Heq).
    apply in_seq in Hi. apply String.eqb_eq in Heq.
    exists i. split; [lia | exact Heq].
Qed.

(** A name minted into one family belongs to no other. *)
Lemma family_names_disjoint (family family' : string) (i : nat) :
  In family families -> In family' families -> family <> family' ->
  includes family' (family ++ "_" ++ numToString i) = false.
Proof.
  intros Hf Hf' Hne.
  assert (Hsplit : family ++ "_" ++ numToString i
                   = (family ++ "_") ++ numToString i).
  { clear. induction family as [|c f IH]; [reflexivity|].
    change (String c (f ++ "_" ++ numToString i)
            = String c ((f ++ "_") ++ numToString i)).
    f_equal. exact IH. }
  rewrite Hsplit.
  assert (Hend : endsWithNonDigit family' = true).
  { simpl in Hf'.
    repeat (destruct Hf' as [<-|Hf']; [reflexivity|]). contradiction. }
  rewrite (includes_append_digits family' _ _ Hend (numToString_digits i)).
  simpl in Hf, Hf'.
  repeat (destruct Hf as [<-|Hf];
          [repeat (destruct Hf' as [<-|Hf'];
                   [first [reflexivity | contradiction]|]);
           contradiction|]).
  contradiction.
Qed.

Lemma sceneNumbered_mint (family : string) (sc : list Object3D)
  (names' : list string) :
  In family families ->
  sceneNumbered sc ->
  names' = (map name sc
            ++ [(family ++ "_"
                 ++ numToString (countNamed family (map name sc) + 1))%string])%list ->
  forall family', In family' families -> numbered family' names'.
Proof.
  intros Hf Hnum -> family' Hf'.
  destruct (string_dec family family') as [<-|Hne].
  - apply numbered_mint, Hnum, Hf.
  - apply numbered_other; [|apply Hnum, Hf'].
    apply family_names_disjoint; assumption.
Qed.

(** The scene of the starting position numbers its families. *)
Lemma startScene_numbered : sceneNumbered startScene.
Proof.
  intros family Hf. apply numberedb_sound.
  simpl in Hf.
  repeat (destruct Hf as [<-|Hf]; [vm_compute; reflexivity|]).
  contradiction.
Qed.

(** ** Promotion by the human *)

Lemma names_of_geometry (sc sc' : list Object3D) :
  map geometry sc = map geometry sc' -> map name sc = map name sc'.
Proof.
  revert sc'. induction sc as [|o rest IH]; intros [|o' rest'] H; simpl in *;
    try discriminate; [reflexivity|].
  injection H as Hn Hv Hf Hp Hrest. rewrite Hn. f_equal. apply IH; exact Hrest.
Qed.

Lemma removePieceFromBoard_names (object : option Object3D) (sc : list Object3D) :
  map name (removePieceFromBoard object sc) = map name sc.
Proof.
  destruct object as [o|]; simpl; [|reflexivity].
  apply updateObject_names. intros x; reflexivity.
Qed.

Lemma getSceneObject_Some_iff (n : string) (sc : list Object3D) :
  (exists o, getSceneObject (Some n) sc = Some o) <-> In n (map name sc).
Proof.
  simpl. induction sc as [|x rest IH]; simpl.
  - split; [intros [o H]; discriminate | intros []].
  - destruct (String.eqb_spec (name x) n) as [Hx|Hx].
    + split; [intros _; left; exact Hx | intros _; exists x; reflexivity].
    + rewrite IH. split; [intros H; right; exact H | intros [H|H]; [contradiction | exact H]].
Qed.

Lemma lastOf_nonempty {A : Type} (xs : list A) :
  List.length xs <> 0 -> exists x, lastOf xs = Some x.
Proof.
  destruct xs as [|x rest]; simpl; [intros H; contradiction|].
  intros _. eexists; reflexivity.
Qed.

Lemma family_of_type (t : string) :
  In t promotionTypes ->
  In (t ++ "_white") families /\ t <> "" /\
  forall i, t ++ "_white_" ++ numToString i
            = (t ++ "_white") ++ "_" ++ numToString i.
Proof.
  simpl. intros H.
  repeat (destruct H as [<-|H];
          [split; [simpl; tauto | split; [discriminate | intros i; reflexivity]]|]).
  contradiction.
Qed.

Section Promotion.

Context {G : Type} {engine : RulesEngine G}.

Lemma movePieceOnBoard_no_mover (from to : string) (s : State G) :
  getPieceAt from (boardState s) = None -> movePieceOnBoard from to s = s.
Proof. intros H. unfold movePieceOnBoard. rewrite H. reflexivity. Qed.

(** The pawn leaves the registry and the clone enters it under the next
    name of its family; the scene gains the clone and loses no name. *)
Lemma promotion_core (s : State G) (t to sel : string) (anchor : Object3D) :
  truthy (selectedPiece s) = Some sel ->
  In t promotionTypes ->
  countNamed (t ++ "_white") (map name (scene s)) <> 0 ->
  getSceneObject (Some to) (scene s) = Some anchor ->
  let fresh := t ++ "_white_"
               ++ numToString (countNamed (t ++ "_white") (map name (scene s)) + 1) in
  exists s4,
    removePawnAndAddPromotedPiece (Some t) to s = (Normal tt, s4) /\
    boardState s4 = assign fresh to (delete sel (boardState s)) /\
    map name (scene s4) = (map name (scene s) ++ [fresh])%list.
Proof.
  intros Hsel Ht Hcount Hanchor fresh.
  destruct (family_of_type t Ht) as (_ & Htne & _).
  unfold removePawnAndAddPromotedPiece.
  rewrite (truthy_intro (Some t) t eq_refl Htne), Hsel.
  unfold addPromotedPiece, removePawn. rewrite Hsel.
  cbn [scene boardState set_scene set_boardState].
  set (sc1 := removePieceFromBoard (getSceneObject (Some sel) (scene s)) (scene s)).
  assert (Hnames : map name sc1 = map name (scene s))
    by apply removePieceFromBoard_names.
  unfold getPromotionPieceObject.
  rewrite countNamed_objects, Hnames.
  destruct (lastOf_nonempty
              (filter (fun o => includes (t ++ "_white") (name o)) sc1))
    as [latest Hlast].
  { rewrite countNamed_objects, Hnames. exact Hcount. }
  rewrite Hlast. fold fresh.
  unfold addPieceAt. cbn [scene boardState set_scene set_boardState name rename].
  assert (Hto : exists a, getSceneObject (Some to) sc1 = Some a).
  { apply getSceneObject_Some_iff. rewrite Hnames.
    apply getSceneObject_Some_iff. exists anchor; exact Hanchor. }
  destruct Hto as [a Ha]. rewrite Ha.
  eexists. split; [reflexivity|].
  cbn [scene boardState set_scene set_boardState].
  split; [reflexivity|].
  rewrite map_app, Hnames. reflexivity.
Qed.

End Promotion.

Section PromotionTheorem.

Context {G : Type} {engine : RulesEngine G}.

(** C5.  A human promotion to a chosen type, on a registry that is an
    injective dictionary in lockstep with a scene whose families are
    numbered: the pawn identity leaves the registry; the identity
    [<type>_white_<n+1>], with [n] the number of scene children of that
    type and colour, is in the registry on the destination square; that
    identity named nothing before, neither in the registry nor in the
    scene; and the scene, now holding it, is numbered again, so that the
    next promotion mints a different identity. *)
Theorem promotion_mints_a_new_identity (s : State G)
  (to sel from t display : string) (move : Move) (g' : G) (anchor : Object3D) :
  isDictionary (boardState s) ->
  injective (boardState s) ->
  inLockstep (boardState s) (scene s) ->
  sceneNumbered (scene s) ->
  truthy (selectedPiece s) = Some sel ->
  truthy (getPiecePosition sel (boardState s)) = Some from ->
  shouldPromote sel to = true ->
  promotion_modal (dom s) = Some display ->
  In t promotionTypes ->
  from <> to ->
  getSceneObject (Some to) (scene s) = Some anchor ->
  game_move (game s)
    (mkRequest from to (getPromotionPieceMoveCharacter (Some t)))
  = Some (move, g') ->
  isPromotionMove move = true ->
  isCastlingMove move = false ->
  isEnPassantMove move = false ->
  let fresh := t ++ "_white_"
               ++ numToString (countNamed (t ++ "_white") (map name (scene s)) + 1) in
  let s' := playHumanMove to (Some t) s in
  getPiecePosition sel (boardState s') = None /\
  getPiecePosition fresh (boardState s') = Some to /\
  includes (t ++ "_white") fresh = true /\
  ~ In fresh (map fst (boardState s)) /\
  ~ In fresh (map name (scene s)) /\
  In fresh (map name (scene s')) /\
  sceneNumbered (scene s').
Proof.
  intros Hdict Hinj Hlock Hnum Hsel Hfrom Hpromote Hmodal Ht Hft Hanchor
    Hengine Hpromotion Hcastle Hep fresh s'.
  destruct (family_of_type t Ht) as (Hfam & Htne & Hname).
  assert (Hfresh : fresh = (t ++ "_white") ++ "_"
                           ++ numToString (countNamed (t ++ "_white")
                                             (map name (scene s)) + 1))
    by apply Hname.
  assert (Hnew : ~ In fresh (map name (scene s))).
  { rewrite Hfresh. apply numbered_fresh, Hnum, Hfam. }
  assert (Hnewkey : ~ In fresh (map fst (boardState s))).
  { intros Hin. apply Hnew, Hlock, Hin. }
  pose proof Hsel as Hsel'. apply truthy_Some in Hsel'. destruct Hsel' as [_ Hselne].
  pose proof Hfrom as Hfrom'. apply truthy_Some in Hfrom'.
  destruct Hfrom' as [Hposition _].
  assert (Hselkey : sel <> fresh).
  { intros ->. apply Hnewkey.
    apply getPiecePosition_In in Hposition.
    change fresh with (fst (fresh, from)). apply in_map; exact Hposition. }
  (* the run, up to the executor *)
  subst s'. unfold playHumanMove, moveSelectedPiece.
  rewrite Hsel, Hfrom, Hpromote, Hmodal.
  unfold onPromote.
  cbn [deferredResolve set_deferredResolve set_dom dom promotion_modal negb
       sus_from sus_to].
  unfold moveSelectedPiece_resume, tryFinally.
  match goal with
  | |- context [moveSelectedPiece_submit (Some t) from to ?x] =>
      rewrite (moveSelectedPiece_submit_accepted (Some t) from to x move g' Hengine);
      set (s0 := set_game g'
                   (logSubmission
                      (mkRequest from to
                         (getPromotionPieceMoveCharacter (Some t))) x))
  end.
  unfold executeHuman. rewrite Hcastle, Hep, Hpromotion.
  (* the promotion itself *)
  destruct (promotion_core s0 t to sel anchor Hsel Ht) as (s4 & Hrun & Hboard & Hscene);
    [exact (proj1 (Hnum _ Hfam)) | exact Hanchor |].
  unfold s0 in Hboard, Hscene.
  cbn [scene boardState set_game logSubmission set_dom set_deferredResolve]
    in Hboard, Hscene.
  fold fresh in Hboard, Hscene.
  rewrite Hrun.
  (* nothing stands on the origin any more, so the relocation is skipped *)
  assert (Hgone : getPieceAt from (boardState s4) = None).
  { rewrite Hboard. apply getPieceAt_assign_None; [|exact Hft].
    apply getPieceAt_delete_found; [exact Hinj|].
    apply getPieceAt_of_position; assumption. }
  rewrite (movePieceOnBoard_no_mover from to s4 Hgone).
  destruct (finish_board false move s4) as [Hb Hg]. cbv zeta in Hb, Hg.
  match goal with
  | |- context [unsetSelectedPieceAndValidMoves ?x] =>
      destruct (unsetSelectedPieceAndValidMoves_effect x) as (Hub & Hug & _);
      set (final := unsetSelectedPieceAndValidMoves x) in *
  end.
  cbn [outcomeOf triggerBotMove].
  destruct (makeBotMove_board final) as [-> ->].
  assert (Hfinalnames : map name (scene final)
                        = (map name (scene s) ++ [fresh])%list).
  { rewrite <- Hscene. apply names_of_geometry. rewrite Hug. exact Hg. }
  rewrite Hub, Hb, Hboard.
  split; [|split; [|split; [|split; [|split; [|split]]]]].
  - rewrite getPiecePosition_assign_other by exact Hselkey.
    apply getPiecePosition_delete_same.
  - apply getPiecePosition_assign_same.
  - rewrite Hfresh. apply includes_prefix.
  - exact Hnewkey.
  - exact Hnew.
  - rewrite Hfinalnames. apply in_or_app. right. left. reflexivity.
  - intros family' Hf'.
    apply (sceneNumbered_mint (t ++ "_white") (scene s) _ Hfam Hnum); [|exact Hf'].
    rewrite Hfinalnames, Hfresh. reflexivity.
Qed.

End PromotionTheorem.

(** ** Checking the invariants of a concrete state *)

Lemma nodupb_sound (l : list string) : nodupb l = true -> NoDup l.
Proof.
  induction l as [|x rest IH]; simpl; intros H; [constructor|].
  apply andb_prop in H. destruct H as [Hx Hrest].
  constructor; [|apply IH; exact Hrest].
  intros Hin. apply Bool.negb_true_iff in Hx.
  assert (Hex : existsb (String.eqb x) rest = true).
  { apply existsb_exists. exists x. split; [exact Hin | apply String.eqb_refl]. }
  congruence.
Qed.

Lemma injectiveb_sound (bs : BoardState) : injectiveb bs = true -> injective bs.
Proof. apply nodupb_sound. Qed.

Lemma isDictionaryb_sound (bs : BoardState) :
  isDictionaryb bs = true -> isDictionary bs.
Proof. apply nodupb_sound. Qed.

Lemma injectiveb_complete (bs : BoardState) : injective bs -> injectiveb bs = true.
Proof.
  unfold injective, injectiveb. generalize (map snd bs). intros l.
  induction l as [|x rest IH]; intros H; [reflexivity|].
  inversion H as [|y l' Hnotin Hnd]; subst. simpl.
  rewrite (IH Hnd), Bool.andb_true_r. apply Bool.negb_true_iff.
  destruct (existsb (String.eqb x) rest) eqn:Hex; [|reflexivity].
  apply existsb_exists in Hex. destruct Hex as (y & Hin & Heq).
  apply String.eqb_eq in Heq. subst y. contradiction.
Qed.

Lemma inLockstepb_sound (bs : BoardState) (sc : list Object3D) :
  inLockstepb bs sc = true -> inLockstep bs sc.
Proof.
  unfold inLockstepb, inLockstep. rewrite forallb_forall.
  intros H k Hk. specialize (H k Hk).
  apply existsb_exists in H. destruct H as (n & Hin & Heq).
  apply String.eqb_eq in Heq. subst n. exact Hin.
Qed.

Lemma sceneNumberedb_sound (sc : list Object3D) :
  sceneNumberedb sc = true -> sceneNumbered sc.
Proof.
  unfold sceneNumberedb, sceneNumbered. rewrite forallb_forall.
  intros H family Hf. apply numberedb_sound, H, Hf.
Qed.

Lemma sameOccupancyb_spec {G : Type} {engine : RulesEngine G} (s : State G) :
  sameOccupancyb s = true <-> sameOccupancy s.
Proof.
  unfold sameOccupancyb, sameOccupancy. rewrite forallb_forall.
  split; intros H square Hin.
  - apply Bool.eqb_prop, H, Hin.
  - rewrite (H square Hin). apply Bool.eqb_reflx.
Qed.

(** ** The properties on concrete games *)

(** C6 at work: with the e-pawn picked in the starting position, a click
    on e5 is rejected by the engine, whose game goes on with 1. e4. *)
Lemma rejected_move_witness :
  boardState (playHumanMove "e5" None kingPawnPicked) = boardState kingPawnPicked /\
  map geometry (scene (playHumanMove "e5" None kingPawnPicked))
  = map geometry (scene kingPawnPicked) /\
  selectedPiece (playHumanMove "e5" None kingPawnPicked) = None /\
  validMoves (playHumanMove "e5" None kingPawnPicked) = [] /\
  isPlayerTurn (playHumanMove "e5" None kingPawnPicked) = isPlayerTurn kingPawnPicked /\
  game (playHumanMove "e5" None kingPawnPicked) = game kingPawnPicked /\
  botMessages (playHumanMove "e5" None kingPawnPicked) = botMessages kingPawnPicked.
Proof.
  apply (rejected_move_changes_nothing kingPawnPicked "e5" "pawn_white_5" "e2" None);
    reflexivity.
Defined.

(** C7 at work on the b-pawn behind the departed knight: a click on b1
    suspends on the modal, a click on b3 submits at once. *)
Lemma promotion_choice_witness :
  (exists s1,
     moveSelectedPiece "b1" pawnPickedBehindKnight = (Pending, s1) /\
     promotion_modal (dom s1) = Some "block" /\
     submissions s1 = submissions pawnPickedBehindKnight) /\
  fst (moveSelectedPiece "b3" pawnPickedBehindKnight) <> Pending.
Proof.
  split.
  - destruct (proj1 (proj2 (promotion_choice_precedes_submission
                              pawnPickedBehindKnight "b1" "pawn_white_2" "b2" "none"
                              eq_refl eq_refl eq_refl)) eq_refl)
      as (s1 & Hrun & Hmodal & _ & Hsub & _).
    exists s1. repeat split; assumption.
  - exact (proj1 (proj2 (proj2 (promotion_choice_precedes_submission
                                  pawnPickedBehindKnight "b3" "pawn_white_2" "b2" "none"
                                  eq_refl eq_refl eq_refl)) eq_refl)).
Defined.

(** C10 at work on the wait opened by the click on a8: the form resolves
    it once, and a second submission changes nothing. *)
Lemma promotion_wait_witness :
  deferredResolve waitingForChoice = Some (mkSuspended "b7" "a8") /\
  deferredResolve (onPromote true (Some "queen") waitingForChoice) = None /\
  onPromote true (Some "rook") (onPromote true (Some "queen") waitingForChoice)
  = onPromote true (Some "queen") waitingForChoice.
Proof.
  split; [reflexivity|]. split.
  - exact (proj1 (proj2 (promotion_wait_is_single_shot waitingForChoice))
             (Some "queen")).
  - exact (proj2 (proj2 (proj2 (proj2 (promotion_wait_is_single_shot waitingForChoice))))
             (Some "queen") true (Some "rook")).
Defined.


(** C4 at work: 3. exd6 by the human after 2... d5, and 3... exd3 by the
    opponent after 3. d4. *)
Lemma en_passant_witness :
  (getPiecePosition "pawn_white_5"
     (boardState (moveSelectedPieceAndTriggerBotMove "d6" beforeEnPassant))
   = Some "d6" /\
   getPieceAt "d5"
     (boardState (moveSelectedPieceAndTriggerBotMove "d6" beforeEnPassant))
   = None /\
   getPiecePosition "pawn_black_4"
     (boardState (moveSelectedPieceAndTriggerBotMove "d6" beforeEnPassant))
   = None /\
   option_map visible
     (getSceneObject (Some "pawn_black_4")
        (scene (moveSelectedPieceAndTriggerBotMove "d6" beforeEnPassant)))
   = Some false) /\
  (getPiecePosition "pawn_black_5"
     (boardState (playBotMessage "bestmove e4d3" beforeEnPassantByBlack))
   = Some "d3" /\
   getPieceAt "d4"
     (boardState (playBotMessage "bestmove e4d3" beforeEnPassantByBlack))
   = None /\
   getPiecePosition "pawn_white_4"
     (boardState (playBotMessage "bestmove e4d3" beforeEnPassantByBlack))
   = None /\
   option_map visible
     (getSceneObject (Some "pawn_white_4")
        (scene (playBotMessage "bestmove e4d3" beforeEnPassantByBlack)))
   = Some false).
Proof.
  split.
  - apply (proj1 en_passant_removes_the_captured_pawn
             beforeEnPassant "d6" "pawn_white_5" "e5" "pawn_black_4"
             (mkMove "b" "d7" "d5" "p" None None "b" "d5")
             (mkMove "w" "e5" "d6" "p" (Some "p") None "e" "exd6")
             (replayAfter (game beforeEnPassant) (mkRequest "e5" "d6" "q"))
             (childNamed "pawn_black_4" (scene beforeEnPassant))
             (childNamed "d6" (scene beforeEnPassant))).
    + apply isDictionaryb_sound; vm_compute; reflexivity.
    + apply injectiveb_sound; vm_compute; reflexivity.
    + vm_compute; reflexivity.
    + vm_compute; reflexivity.
    + vm_compute; reflexivity.
    + vm_compute; reflexivity.
    + vm_compute; reflexivity.
    + vm_compute; reflexivity.
    + vm_compute; discriminate.
    + vm_compute; discriminate.
    + vm_compute; reflexivity.
    + vm_compute; reflexivity.
    + vm_compute; reflexivity.
    + vm_compute; reflexivity.
    + vm_compute; reflexivity.
    + vm_compute; reflexivity.
  - apply (proj2 en_passant_removes_the_captured_pawn
             beforeEnPassantByBlack "bestmove e4d3" "e4" "d3" "pawn_black_5"
             "pawn_white_4"
             (mkMove "w" "d2" "d4" "p" None None "b" "d4")
             (mkMove "b" "e4" "d3" "p" (Some "p") None "e" "exd3")
             (replayAfter (game beforeEnPassantByBlack) (mkRequest "e4" "d3" ""))
             (childNamed "pawn_white_4" (scene beforeEnPassantByBlack))
             (childNamed "d3" (scene beforeEnPassantByBlack))).
    + vm_compute; reflexivity.
    + vm_compute; reflexivity.
    + apply isDictionaryb_sound; vm_compute; reflexivity.
    + apply injectiveb_sound; vm_compute; reflexivity.
    + vm_compute; reflexivity.
    + vm_compute; reflexivity.
    + vm_compute; reflexivity.
    + vm_compute; reflexivity.
    + vm_compute; discriminate.
    + vm_compute; discriminate.
    + vm_compute; reflexivity.
    + vm_compute; reflexivity.
    + vm_compute; reflexivity.
    + vm_compute; reflexivity.
    + vm_compute; reflexivity.
Defined.

(** C5 at work: 5. a8=N with the choice knight mints [knight_white_3]. *)
Lemma promotion_witness :
  "knight" ++ "_white_"
  ++ numToString (countNamed ("knight" ++ "_white")
                    (map name (scene beforeKnightPromotion)) + 1)
  = "knight_white_3" /\
  getPiecePosition "pawn_white_1"
    (boardState (playHumanMove "a8" (Some "knight") beforeKnightPromotion))
  = None /\
  getPiecePosition
    ("knight" ++ "_white_"
     ++ numToString (countNamed ("knight" ++ "_white")
                       (map name (scene beforeKnightPromotion)) + 1))
    (boardState (playHumanMove "a8" (Some "knight") beforeKnightPromotion))
  = Some "a8" /\
  ~ In ("knight" ++ "_white_"
        ++ numToString (countNamed ("knight" ++ "_white")
                          (map name (scene beforeKnightPromotion)) + 1))
       (map name (scene beforeKnightPromotion)) /\
  sceneNumbered (scene (playHumanMove "a8" (Some "knight") beforeKnightPromotion)).
Proof.
  split; [vm_compute; reflexivity|].
  pose proof (promotion_mints_a_new_identity beforeKnightPromotion
                "a8" "pawn_white_1" "a7" "knight" "none"
                (mkMove "w" "a7" "a8" "p" None (Some "n") "np" "a8=N")
                (replayAfter (game beforeKnightPromotion) (mkRequest "a7" "a8" "n"))
                (childNamed "a8" (scene beforeKnightPromotion))) as H.
  cbv zeta in H.
  refine (let H' := H _ _ _ _ _ _ _ _ _ _ _ _ _ _ _ in
          conj (proj1 H')
            (conj (proj1 (proj2 H'))
               (conj (proj1 (proj2 (proj2 (proj2 (proj2 H')))))
                  (proj2 (proj2 (proj2 (proj2 (proj2 (proj2 H'))))))))).
  - apply isDictionaryb_sound; vm_compute; reflexivity.
  - apply injectiveb_sound; vm_compute; reflexivity.
  - apply inLockstepb_sound; vm_compute; reflexivity.
  - apply sceneNumberedb_sound; vm_compute; reflexivity.
  - vm_compute; reflexivity.
  - vm_compute; reflexivity.
  - vm_compute; reflexivity.
  - vm_compute; reflexivity.
  - simpl; tauto.
  - vm_compute; discriminate.
  - vm_compute; reflexivity.
  - vm_compute; reflexivity.
  - vm_compute; reflexivity.
  - vm_compute; reflexivity.
  - vm_compute; reflexivity.
Defined.

(** The verdicts at work: 4. Qxf7# by the human, 2... Qh4# by the
    opponent, and the human's 5. Ng1 that repeats the position for the
    third time. *)
Lemma verdict_witness :
  game_verdict (dom (snd (moveSelectedPiece_resume None "h5" "f7" beforeScholarsMate)))
  = Some "Checkmate! (Player wins)" /\
  game_verdict (dom (snd (onBotMessage "bestmove d8h4" beforeFoolsMate)))
  = Some "Checkmate! (Computer wins)" /\
  game_verdict (dom (snd (moveSelectedPiece_resume None "f3" "g1" beforeRepetition)))
  = Some "Draw!".
Proof.
  split; [|split].
  - refine (proj1 (proj1 (proj1 verdict_names_the_side_that_mated
                            beforeScholarsMate _ None "h5" "f7" "" "none"
                            _ eq_refl eq_refl) _ _)).
    + vm_compute; reflexivity.
    + vm_compute; reflexivity.
    + vm_compute; reflexivity.
  - refine (proj1 (proj1 (proj2 verdict_names_the_side_that_mated
                            beforeFoolsMate _ "bestmove d8h4" "" "none"
                            eq_refl _ eq_refl eq_refl) _ _)).
    + vm_compute; reflexivity.
    + vm_compute; reflexivity.
    + vm_compute; reflexivity.
  - refine (proj1 (proj2 (proj1 verdict_names_the_side_that_mated
                            beforeRepetition _ None "f3" "g1" "" "none"
                            _ eq_refl eq_refl) _)).
    + vm_compute; reflexivity.
    + vm_compute; reflexivity.
Defined.

(** ** A mate that reads as a draw *)

(** C9.  A mate on the hundredth half-move reads as a draw.  The game
    1. Nc3 f6 2. Nb1 g5 3. e4 and fifty moves on 53. Qh5# is played through
    clicks and messages of the search process from the start.  The mating
    move is the hundredth half-move since the last pawn move and no
    position has stood three times, so no verdict shows before it: the
    text is empty and the modal closed, with the queen picked.  The click
    on h5 completes the move; the engine reports checkmate and, for the
    hundred half-moves, a draw; [showGameVerdict] writes that the Player
    wins and then overwrites it, and the verdict reads [Draw!]. *)
Theorem mate_on_the_hundredth_half_move_reads_draw :
  let before := deliverAll (removelast fiftyMoveEvents)
                  (startState fiftyMoveGame) in
  let after := deliverAll fiftyMoveEvents (startState fiftyMoveGame) in
  (halfMoveClock (removelast fiftyMoveGame) = 99 /\
   halfMoveClock fiftyMoveGame = 100 /\
   mostRepeated (positionsOf fiftyMoveGame) = 2) /\
  (selectedPiece before = Some "queen_white_1" /\
   isPlayerTurn before = true /\
   length (rp_script (game before)) = 1 /\
   isGameOver before = false /\
   game_verdict (dom before) = Some "" /\
   verdict_modal (dom before) = Some "none") /\
  (after = onClick ["h5"] before /\
   fst (moveSelectedPiece_resume None "d1" "h5" before) = Normal tt /\
   rp_script (game after) = [] /\
   game_isCheckmate (game after) = true /\
   game_isDraw (game after) = true /\
   isPlayerTurn after = false) /\
  game_verdict (dom after) = Some "Draw!" /\
  verdict_modal (dom after) = Some "block" /\
  game_verdict (dom after) <> Some "Checkmate! (Player wins)".
Proof.
  vm_compute.
  repeat split; try reflexivity; discriminate.
Qed.

(** ** Where the registry leaves the engine's board *)

(** C2.  A capture that promotes leaves two identities on one square.
    After 5. bxa8=Q, played through the clicks and the promotion form, the
    registry is no longer injective: the new queen is on a8 and the
    captured rook, which the relocation step was to remove, is still
    registered there (the pawn being already gone from the origin, the
    step returns before its capture branch).  The opponent's path does the
    same on 5... bxa1=Q. *)
Theorem capture_promotion_leaves_two_identities_on_a_square :
  afterCapturePromotion
  = deliverAll capturePromotionEvents (startState capturePromotionGame) /\
  injective (boardState waitingForChoice) /\
  getPiecePosition "queen_white_2" (boardState afterCapturePromotion) = Some "a8" /\
  getPiecePosition "rook_black_2" (boardState afterCapturePromotion) = Some "a8" /\
  option_map visible
    (getSceneObject (Some "rook_black_2") (scene afterCapturePromotion))
  = Some true /\
  ~ injective (boardState afterCapturePromotion) /\
  injective (boardState beforeBlackPromotion) /\
  fst (onBotMessage "bestmove b2a1q" beforeBlackPromotion) = Normal tt /\
  ~ injective (boardState (playBotMessage "bestmove b2a1q" beforeBlackPromotion)).
Proof.
  split; [vm_compute; reflexivity|].
  split; [apply injectiveb_sound; vm_compute; reflexivity|].
  split; [vm_compute; reflexivity|].
  split; [vm_compute; reflexivity|].
  split; [vm_compute; reflexivity|].
  split.
  { intros H. apply injectiveb_complete in H. vm_compute in H. discriminate. }
  split; [apply injectiveb_sound; vm_compute; reflexivity|].
  split; [vm_compute; reflexivity|].
  intros H. apply injectiveb_complete in H. vm_compute in H. discriminate.
Qed.

(** C1.  The registry and the engine's board part ways.  The position
    after 5. bxa8=Q still occupies the same squares, but when the new queen
    then moves, 6. Qa4, the relocation step finds the stale rook identity
    first on a8 and moves that one: the registry keeps a8 occupied, which
    the engine has empty.  And after 8. O-O+ the registry has the rook on
    h1 and nothing on f1, the engine the reverse. *)
Theorem registry_and_engine_disagree_on_occupancy :
  afterQueenLeaves
  = deliverAll (capturePromotionEvents ++ queenLeavesEvents)
      (startState capturePromotionGame) /\
  sameOccupancy afterCapturePromotion /\
  isPlayerTurn afterQueenLeaves = false /\
  getPiecePosition "queen_white_2" (boardState afterQueenLeaves) = Some "a8" /\
  getPiecePosition "rook_black_2" (boardState afterQueenLeaves) = Some "a4" /\
  occupied "a8" (boardState afterQueenLeaves) = true /\
  game_get (game afterQueenLeaves) "a8" = false /\
  ~ sameOccupancy afterQueenLeaves /\
  sameOccupancy beforeCastle /\
  occupied "f1" (boardState afterCastle) = false /\
  game_get (game afterCastle) "f1" = true /\
  occupied "h1" (boardState afterCastle) = true /\
  game_get (game afterCastle) "h1" = false /\
  ~ sameOccupancy afterCastle.
Proof.
  split; [vm_compute; reflexivity|].
  split; [apply sameOccupancyb_spec; vm_compute; reflexivity|].
  split; [vm_compute; reflexivity|].
  split; [vm_compute; reflexivity|].
  split; [vm_compute; reflexivity|].
  split; [vm_compute; reflexivity|].
  split; [vm_compute; reflexivity|].
  split.
  { intros H. apply sameOccupancyb_spec in H. vm_compute in H. discriminate. }
  split; [apply sameOccupancyb_spec; vm_compute; reflexivity|].
  split; [vm_compute; reflexivity|].
  split; [vm_compute; reflexivity|].
  split; [vm_compute; reflexivity|].
  split; [vm_compute; reflexivity|].
  intros H. apply sameOccupancyb_spec in H. vm_compute in H. discriminate.
Qed.

(** C3.  A castle that gives check is not seen as a castle.  8. O-O+ comes
    back from the engine with flag [k] and notation [O-O+]; the test
    compares the notation with [O-O], so the rook is not relocated: the
    king is registered on g1, the rook still on h1 with its renderable
    where it was, while the engine has the rook on f1. *)
Theorem castle_with_check_leaves_the_rook_at_home :
  afterCastle
  = deliverAll (beforeCastleEvents ++ [Click ["king_white"; "e1"]; Click ["g1"]])
      (startState castleWithCheckGame) /\
  option_map (fun m => (m_from m, m_to m, m_flags m, m_san m))
    (previousMove afterCastle)
  = Some ("e1", "g1", "k", "O-O+") /\
  option_map isCastlingMove (previousMove afterCastle) = Some false /\
  isPlayerTurn afterCastle = false /\
  getPiecePosition "king_white" (boardState afterCastle) = Some "g1" /\
  getPiecePosition "rook_white_1" (boardState afterCastle) = Some "h1" /\
  getPreviousFileSameRankPosition "g1" = "f1" /\
  getPieceAt "f1" (boardState afterCastle) = None /\
  option_map position (getSceneObject (Some "rook_white_1") (scene afterCastle))
  = option_map position (getSceneObject (Some "rook_white_1") (scene beforeCastle)) /\
  boardGet "f1" (rp_board (game afterCastle)) = Some "wr" /\
  boardGet "h1" (rp_board (game afterCastle)) = None.
Proof. vm_compute. repeat split; reflexivity. Qed.

(** C8.  The opponent's letter reaches the engine as it came.  With
    black to promote on a1, the reply [bestmove b2a1x] submits the letter
    [x]; the engine, which would accept [q], rejects it, the handler throws
    and nothing is executed: the registry is as before and the turn stays
    with the opponent.  The same happens when the letter is absent. *)
Theorem unrecognised_promotion_letter_fails_the_move :
  getBestMoveDetails "bestmove b2a1x" = Some ("b2", "a1", "x") /\
  option_map name (getPieceCharacterToPiece "x" false (scene beforeBlackPromotion))
  = Some "queen_black_2" /\
  fst (onBotMessage "bestmove b2a1q" beforeBlackPromotion) = Normal tt /\
  onBotMessage "bestmove b2a1x" beforeBlackPromotion
  = (Thrown, logSubmission (mkRequest "b2" "a1" "x") beforeBlackPromotion) /\
  isPlayerTurn (playBotMessage "bestmove b2a1x" beforeBlackPromotion) = false /\
  boardState (playBotMessage "bestmove b2a1x" beforeBlackPromotion)
  = boardState beforeBlackPromotion /\
  onBotMessage "bestmove b2a1" beforeBlackPromotion
  = (Thrown, logSubmission (mkRequest "b2" "a1" "") beforeBlackPromotion).
Proof. vm_compute. repeat split; reflexivity. Qed.

(** ** Relocation keeps the registry well formed *)

Lemma wellFormedb_sound (bs : BoardState) : wellFormedb bs = true -> wellFormed bs.
Proof.
  unfold wellFormedb, wellFormed, properKeys. intros H.
  apply andb_prop in H. destruct H as [H Hkeys].
  apply andb_prop in H. destruct H as [Hdict Hinj].
  split; [apply isDictionaryb_sound; exact Hdict|].
  split; [apply injectiveb_sound; exact Hinj|].
  intros Hin. apply Bool.negb_true_iff in Hkeys.
  assert (Hex : existsb (String.eqb "") (map fst bs) = true).
  { apply existsb_exists. exists "". split; [exact Hin | reflexivity]. }
  congruence.
Qed.

Lemma delete_incl (k : string) (bs : BoardState) (e : string * string) :
  In e (delete k bs) -> In e bs.
Proof. unfold delete. intros H. apply filter_In in H. exact (proj1 H). Qed.

(** Deleting a key leaves every projection of the registry without
    duplicates when it had none. *)
Lemma delete_NoDup {B : Type} (proj : string * string -> B) (k : string)
  (bs : BoardState) :
  NoDup (map proj bs) -> NoDup (map proj (delete k bs)).
Proof.
  unfold delete. induction bs as [|e rest IH]; simpl; intros H; [constructor|].
  inversion H as [|y l' Hnotin Hnd]; subst.
  destruct (negb (fst e =? k)); simpl; [|apply IH; exact Hnd].
  constructor; [|apply IH; exact Hnd].
  intros Hin. apply Hnotin.
  apply in_map_iff in Hin. destruct Hin as (z & Hz & Hin).
  apply filter_In in Hin. rewrite <- Hz. apply in_map. exact (proj1 Hin).
Qed.

Lemma delete_wellFormed (k : string) (bs : BoardState) :
  wellFormed bs -> wellFormed (delete k bs).
Proof.
  intros (Hdict & Hinj & Hkeys). unfold wellFormed, isDictionary, injective,
    properKeys, delete in *.
  split; [apply delete_NoDup; exact Hdict|].
  split; [apply delete_NoDup; exact Hinj|].
  intros Hin. apply Hkeys.
  apply in_map_iff in Hin. destruct Hin as (e & He & Hin).
  apply filter_In in Hin. rewrite <- He. apply in_map. exact (proj1 Hin).
Qed.

Lemma assign_keys (k v : string) (bs : BoardState) (k' : string) :
  In k' (map fst (assign k v bs)) -> k' = k \/ In k' (map fst bs).
Proof.
  intros Hin. apply in_map_iff in Hin. destruct Hin as ([a b] & Ha & Hin).
  simpl in Ha. subst a. apply In_assign in Hin.
  destruct Hin as [[-> _]|Hin]; [left; reflexivity|].
  right. change k' with (fst (k', b)). apply in_map; exact Hin.
Qed.

Lemma assign_isDictionary (k v : string) (bs : BoardState) :
  isDictionary bs -> isDictionary (assign k v bs).
Proof.
  unfold isDictionary. induction bs as [|[a b] rest IH]; simpl; intros H.
  - constructor; [intros [] | constructor].
  - inversion H as [|x l Hnotin Hnd]; subst.
    destruct (String.eqb_spec a k) as [->|Hne]; simpl.
    + constructor; assumption.
    + constructor; [|apply IH; exact Hnd].
      intros Hin. apply assign_keys in Hin. destruct Hin as [Hin|Hin];
        [congruence | contradiction].
Qed.

Lemma assign_injective (k v : string) (bs : BoardState) :
  isDictionary bs -> injective bs ->
  (forall k', In (k', v) bs -> k' = k) ->
  injective (assign k v bs).
Proof.
  unfold isDictionary, injective.
  induction bs as [|[a b] rest IH]; simpl; intros Hdict Hinj Honly.
  - constructor; [intros [] | constructor].
  - inversion Hdict as [|x l Hka Hdict']; subst.
    inversion Hinj as [|x l Hvb Hinj']; subst.
    destruct (String.eqb_spec a k) as [->|Hne]; simpl.
    + constructor; [|exact Hinj'].
      intros Hin. apply in_map_iff in Hin. destruct Hin as ([a' b'] & Hb & Hin).
      simpl in Hb. subst b'. apply Hka.
      rewrite <- (Honly a' (or_intror Hin)).
      change a' with (fst (a', v)). apply in_map; exact Hin.
    + constructor.
      * intros Hin. apply in_map_iff in Hin. destruct Hin as ([a' b'] & Hb & Hin).
        simpl in Hb. subst b'. apply In_assign in Hin.
        destruct Hin as [[_ ->]|Hin].
        -- apply Hne. apply Honly. left; reflexivity.
        -- apply Hvb. change b with (snd (a', b)). apply in_map; exact Hin.
      * apply IH; [exact Hdict' | exact Hinj'|].
        intros k' Hin. apply Honly. right; exact Hin.
Qed.

Section Relocation.

Context {G : Type} {engine : RulesEngine G}.

(** The registry after a relocation that finds its mover and the
    destination's square object. *)
Lemma movePieceOnBoard_boardState (from to p : string) (s : State G)
  (anchor : Object3D) :
  truthy (getPieceAt from (boardState s)) = Some p ->
  getPositionObject to (scene s) = Some anchor ->
  boardState (movePieceOnBoard from to s)
  = assign p to
      (match truthy (getPieceAt to (boardState s)) with
       | Some toPiece => delete toPiece (boardState s)
       | None => boardState s
       end).
Proof.
  intros Hp Hanchor. unfold movePieceOnBoard. rewrite Hp.
  assert (Hsq : forall sc, map name sc = map name (scene s) ->
                  exists a, getPositionObject to sc = Some a).
  { intros sc Hsc. apply getSceneObject_Some_iff. rewrite Hsc.
    apply getSceneObject_Some_iff. exists anchor; exact Hanchor. }
  destruct (truthy (getPieceAt to (boardState s))) as [toPiece|].
  - cbn [scene boardState set_scene set_boardState].
    destruct (Hsq (removePieceFromBoard
                     (getSceneObject (Some toPiece) (scene s)) (scene s)))
      as [a Ha]; [apply removePieceFromBoard_names|].
    rewrite Ha.
    destruct (getSceneObject (Some p) (scene s)); reflexivity.
  - rewrite Hanchor.
    destruct (getSceneObject (Some p) (scene s)); reflexivity.
Qed.

(** A relocation, with or without capture, keeps the registry a
    dictionary of proper keys and injective. *)
Lemma movePieceOnBoard_wellFormed (from to : string) (s : State G) :
  wellFormed (boardState s) ->
  wellFormed (boardState (movePieceOnBoard from to s)).
Proof.
  intros Hwf.
  destruct (truthy (getPieceAt from (boardState s))) as [p|] eqn:Hp.
  2: { unfold movePieceOnBoard. rewrite Hp. exact Hwf. }
  destruct (getPositionObject to
              (scene (match truthy (getPieceAt to (boardState s)) with
                      | Some toPiece =>
                          set_boardState (delete toPiece (boardState s))
                            (set_scene
                               (removePieceFromBoard
                                  (getSceneObject (Some toPiece) (scene s))
                                  (scene s)) s)
                      | None => s
                      end))) as [a|] eqn:Hsq.
  2: { unfold movePieceOnBoard. rewrite Hp. cbv zeta. rewrite Hsq.
       destruct (truthy (getPieceAt to (boardState s)));
         [apply delete_wellFormed; exact Hwf | exact Hwf]. }
  assert (Hanchor : exists anchor, getPositionObject to (scene s) = Some anchor).
  { apply getSceneObject_Some_iff.
    destruct (truthy (getPieceAt to (boardState s))) as [toPiece|].
    - cbn [scene set_scene set_boardState] in Hsq.
      rewrite <- (removePieceFromBoard_names
                    (getSceneObject (Some toPiece) (scene s)) (scene s)).
      apply getSceneObject_Some_iff. exists a; exact Hsq.
    - apply getSceneObject_Some_iff. exists a; exact Hsq. }
  destruct Hanchor as [anchor Hanchor].
  rewrite (movePieceOnBoard_boardState from to p s anchor Hp Hanchor).
  apply truthy_Some in Hp. destruct Hp as [Hp Hpne].
  assert (Hrest : wellFormed
                    (match truthy (getPieceAt to (boardState s)) with
                     | Some toPiece => delete toPiece (boardState s)
                     | None => boardState s
                     end) /\
                  forall k', In (k', to)
                    (match truthy (getPieceAt to (boardState s)) with
                     | Some toPiece => delete toPiece (boardState s)
                     | None => boardState s
                     end) -> k' = p).
  { destruct Hwf as (Hdict & Hinj & Hkeys).
    destruct (truthy (getPieceAt to (boardState s))) as [toPiece|] eqn:Hto.
    - split; [apply delete_wellFormed; repeat split; assumption|].
      intros k' Hin. apply In_delete in Hin. destruct Hin as [Hin Hne].
      apply truthy_Some in Hto. destruct Hto as [Hto _].
      apply getPieceAt_In in Hto. exfalso. apply Hne.
      eapply injective_unique; eassumption.
    - split; [repeat split; assumption|].
      intros k' Hin. exfalso.
      destruct (getPieceAt to (boardState s)) as [[|c r]|] eqn:Hat;
        try discriminate.
      + apply Hkeys. apply getPieceAt_In in Hat.
        change "" with (fst ("", to)). apply in_map; exact Hat.
      + apply getPieceAt_None in Hat. apply Hat.
        change to with (snd (k', to)). apply in_map; exact Hin. }
  destruct Hrest as ((Hdict & Hinj & Hkeys) & Honly).
  split; [apply assign_isDictionary; exact Hdict|].
  split; [apply assign_injective; assumption|].
  intros Hin. apply assign_keys in Hin. destruct Hin as [Hin|Hin];
    [congruence | contradiction].
Qed.

(** X1.  The executor's steps on pieces already on the board keep the
    registry a dictionary of proper keys and injective: the relocation,
    with or without capture, the rook's relocation of a castle and the
    removal of the pawn captured en passant. *)
Theorem executor_steps_keep_registry_well_formed (s : State G)
  (from to : string) (move : Move) :
  wellFormed (boardState s) ->
  wellFormed (boardState (movePieceOnBoard from to s)) /\
  wellFormed (boardState (castleRook move to s)) /\
  wellFormed (boardState (captureEnPassantPawn s)).
Proof.
  intros Hwf. split; [|split].
  - apply movePieceOnBoard_wellFormed, Hwf.
  - unfold castleRook.
    destruct (isKingSideCastling move), (isQueenSideCastling move);
      repeat match goal with
             | |- context [match truthy ?x with _ => _ end] => destruct (truthy x)
             end;
      repeat apply movePieceOnBoard_wellFormed; exact Hwf.
  - unfold captureEnPassantPawn.
    destruct (previousMove s) as [previous|]; [|exact Hwf].
    cbv zeta.
    destruct (truthy (getPieceAt (m_to previous) (boardState s))) as [c|];
      cbn [boardState set_scene set_boardState]; [|exact Hwf].
    apply delete_wellFormed, Hwf.
Qed.

End Relocation.

(** ** Plain moves and captures keep the two boards together *)

Lemma occupied_true_iff (square : string) (bs : BoardState) :
  occupied square bs = true <-> exists k, In (k, square) bs.
Proof.
  unfold occupied. rewrite existsb_exists. split.
  - intros ([k v] & Hin & Heq). simpl in Heq. apply String.eqb_eq in Heq.
    subst v. exists k; exact Hin.
  - intros [k Hin]. exists (k, square). split; [exact Hin | apply String.eqb_refl].
Qed.

Lemma In_assign_iff (k v k' v' : string) (bs : BoardState) :
  isDictionary bs ->
  (In (k', v') (assign k v bs)
   <-> (k' = k /\ v' = v) \/ (In (k', v') bs /\ k' <> k)).
Proof.
  unfold isDictionary. induction bs as [|[a b] rest IH]; simpl; intros Hdict.
  - split.
    + intros [H|[]]. inversion H; subst. left; split; reflexivity.
    + intros [[-> ->]|[[] _]]. left; reflexivity.
  - inversion Hdict as [|x l Hka Hdict']; subst.
    destruct (String.eqb_spec a k) as [->|Hne]; simpl.
    + split.
      * intros [H|H]; [inversion H; subst; left; split; reflexivity|].
        right. split; [right; exact H|].
        intros ->. apply Hka. change k with (fst (k, v')). apply in_map; exact H.
      * intros [[-> ->]|[[H|H] Hk]]; [left; reflexivity | | right; exact H].
        inversion H; subst. contradiction.
    + rewrite (IH Hdict'). split.
      * intros [H|[H|[H Hk]]].
        -- inversion H; subst. right. split; [left; reflexivity | exact Hne].
        -- left; exact H.
        -- right. split; [right; exact H | exact Hk].
      * intros [H|[[H|H] Hk]].
        -- right; left; exact H.
        -- left; exact H.
        -- right; right; split; assumption.
Qed.

(** The squares occupied after a relocation: the destination, and the
    squares occupied before other than the origin. *)
Lemma occupied_after_relocation (bs : BoardState) (from to p square : string) :
  wellFormed bs ->
  truthy (getPieceAt from bs) = Some p ->
  occupied square
    (assign p to
       (match truthy (getPieceAt to bs) with
        | Some toPiece => delete toPiece bs
        | None => bs
        end))
  = (square =? to) || (occupied square bs && negb (square =? from)).
Proof.
  intros (Hdict & Hinj & Hkeys) Hp.
  apply truthy_Some in Hp. destruct Hp as [Hp Hpne].
  apply getPieceAt_In in Hp.
  apply Bool.eq_iff_eq_true.
  rewrite Bool.orb_true_iff, Bool.andb_true_iff, Bool.negb_true_iff,
    String.eqb_eq, String.eqb_neq, !occupied_true_iff.
  assert (Hwf1 : isDictionary
                   (match truthy (getPieceAt to bs) with
                    | Some toPiece => delete toPiece bs
                    | None => bs
                    end)).
  { destruct (truthy (getPieceAt to bs));
      [apply (delete_wellFormed _ bs); repeat split; assumption | exact Hdict]. }
  split.
  - intros [k Hin]. apply (In_assign_iff p to k square _ Hwf1) in Hin.
    destruct Hin as [[_ ->]|[Hin Hk]]; [left; reflexivity|].
    right.
    assert (Hbs : In (k, square) bs).
    { destruct (truthy (getPieceAt to bs)); [eapply delete_incl|]; exact Hin. }
    split; [exists k; exact Hbs|].
    intros ->. apply Hk. apply (injective_unique bs k p from); assumption.
  - intros [->|[[k Hin] Hsq]].
    + exists p. apply (In_assign_iff p to p to _ Hwf1). left; split; reflexivity.
    + destruct (String.eqb_spec square to) as [->|Hto].
      * exists p. apply (In_assign_iff p to p to _ Hwf1). left; split; reflexivity.
      * exists k. apply (In_assign_iff p to k square _ Hwf1). right.
        assert (Hkp : k <> p).
        { intros ->. apply Hsq. apply (dictionary_unique bs p); assumption. }
        split; [|exact Hkp].
        destruct (truthy (getPieceAt to bs)) as [toPiece|] eqn:Hat; [|exact Hin].
        apply In_delete. split; [exact Hin|].
        intros ->. apply Hto.
        apply truthy_Some in Hat. destruct Hat as [Hat _].
        apply getPieceAt_In in Hat.
        apply (dictionary_unique bs toPiece); assumption.
Qed.

Section PlainMoves.

Context {G : Type} {engine : RulesEngine G}.

Lemma showVerdictIfNecessary_game (s : State G) :
  game (showVerdictIfNecessary s) = game s.
Proof.
  unfold showVerdictIfNecessary, showGameVerdict.
  destruct (isGameOver s); [|reflexivity].
  destruct (game_isCheckmate (game s)).
  - destruct (game_isDraw (game (showCheckmateVerdict s))).
    + rewrite (proj2 (showDrawVerdict_kept _)).
      apply (proj2 (showCheckmateVerdict_kept s)).
    + apply (proj2 (showCheckmateVerdict_kept s)).
  - destruct (game_isDraw (game s)); [|reflexivity].
    apply (proj2 (showDrawVerdict_kept s)).
Qed.

Lemma finish_game (b : bool) (move : Move) (from to : string) (s : State G) :
  game (showVerdictIfNecessary
          (set_isPlayerTurn b
             (setAndIlluminatePreviousMove (Some move)
                (movePieceOnBoard from to s))))
  = game s.
Proof.
  rewrite showVerdictIfNecessary_game.
  change (game (setAndIlluminatePreviousMove (Some move)
                  (movePieceOnBoard from to s)) = game s).
  rewrite (proj2 (setAndIlluminatePreviousMove_dom_game _ _)).
  apply (proj2 (dom_game_of_outside _ _ (movePieceOnBoard_outside from to s))).
Qed.

(** The two boards after the relocation of a plain move. *)
Lemma plain_move_core (s : State G) (from to p : string) (g : G)
  (anchor : Object3D) :
  wellFormed (boardState s) ->
  (forall square, In square allSquares ->
     occupied square (boardState s) = game_get g square) ->
  truthy (getPieceAt from (boardState s)) = Some p ->
  getPositionObject to (scene s) = Some anchor ->
  plainBoardChange g (game s) from to ->
  forall square, In square allSquares ->
    occupied square (boardState (movePieceOnBoard from to s))
    = game_get (game s) square.
Proof.
  intros Hwf Hsame Hp Hanchor Hlaw square Hsq.
  rewrite (movePieceOnBoard_boardState from to p s anchor Hp Hanchor).
  rewrite (occupied_after_relocation _ from to p square Hwf Hp).
  rewrite (Hlaw square Hsq), (Hsame square Hsq). reflexivity.
Qed.

(** X2.  A move that is neither castle, en passant nor promotion, capture
    or not, made by the human or by the opponent on a well-formed registry
    that occupies the engine's squares, leaves the registry well formed and
    on the engine's squares again. *)
Theorem plain_moves_keep_the_boards_together :
  (forall (s : State G) (to sel from : string) (move : Move) (g' : G)
          (anchor : Object3D),
     wellFormed (boardState s) ->
     sameOccupancy s ->
     truthy (selectedPiece s) = Some sel ->
     truthy (getPiecePosition sel (boardState s)) = Some from ->
     shouldPromote sel to = false ->
     getPositionObject to (scene s) = Some anchor ->
     game_move (game s) (mkRequest from to "q") = Some (move, g') ->
     isCastlingMove move = false ->
     isEnPassantMove move = false ->
     isPromotionMove move = false ->
     plainBoardChange (game s) g' from to ->
     let s' := moveSelectedPieceAndTriggerBotMove to s in
     sameOccupancy s' /\ wellFormed (boardState s')) /\
  (forall (s : State G) (message from to p : string) (move : Move) (g' : G)
          (anchor : Object3D),
     includes "bestmove" message = true ->
     getBestMoveDetails message = Some (from, to, "") ->
     wellFormed (boardState s) ->
     sameOccupancy s ->
     truthy (getPieceAt from (boardState s)) = Some p ->
     getPositionObject to (scene s) = Some anchor ->
     game_move (game s) (mkRequest from to "") = Some (move, g') ->
     isCastlingMove move = false ->
     isEnPassantMove move = false ->
     plainBoardChange (game s) g' from to ->
     let s' := playBotMessage message s in
     sameOccupancy s' /\ wellFormed (boardState s')).
Proof.
  split.
  - intros s to sel from move g' anchor Hwf Hsame Hsel Hfrom Hpromote Hanchor
      Hengine Hcastle Hep Hpromotion Hlaw.
    assert (Hmover : truthy (getPieceAt from (boardState s)) = Some sel).
    { apply truthy_Some in Hsel. destruct Hsel as [_ Hselne].
      apply truthy_Some in Hfrom. destruct Hfrom as [Hfrom _].
      apply truthy_intro; [|exact Hselne].
      apply getPieceAt_of_position; [exact (proj1 (proj2 Hwf)) | exact Hfrom]. }
    set (s0 := set_game g' (logSubmission (mkRequest from to "q") s)).
    pose proof (plain_move_core s0 from to sel (game s) anchor Hwf Hsame Hmover
                  Hanchor Hlaw) as Hcore.
    pose proof (movePieceOnBoard_wellFormed from to s0 Hwf) as Hwf'.
    cbv zeta.
    unfold moveSelectedPieceAndTriggerBotMove, moveSelectedPiece.
    rewrite Hsel, Hfrom, Hpromote.
    unfold moveSelectedPiece_resume, tryFinally.
    rewrite (moveSelectedPiece_submit_accepted None from to s move g' Hengine).
    change (getPromotionPieceMoveCharacter None) with "q".
    fold s0. unfold executeHuman. rewrite Hcastle, Hep, Hpromotion.
    cbn [outcomeOf triggerBotMove].
    set (moved := movePieceOnBoard from to s0) in *.
    destruct (finish_board false move moved) as [Hb _]. cbv zeta in Hb.
    pose proof (finish_game false move from to s0) as Hg. fold moved in Hg.
    match goal with
    | |- context [unsetSelectedPieceAndValidMoves ?x] =>
        destruct (unsetSelectedPieceAndValidMoves_effect x)
          as (Hub & _ & _ & _ & _ & _ & _ & _ & _ & Hug & _);
        set (final := unsetSelectedPieceAndValidMoves x) in *
    end.
    unfold sameOccupancy.
    destruct (makeBotMove_board final) as [-> _].
    change (game (makeBotMove final)) with (game final).
    rewrite Hub, Hb, Hug, Hg. split; assumption.
  - intros s message from to p move g' anchor Hbest Hdetails Hwf Hsame Hmover
      Hanchor Hengine Hcastle Hep Hlaw.
    set (s0 := set_game g' (logSubmission (mkRequest from to "") s)).
    pose proof (plain_move_core s0 from to p (game s) anchor Hwf Hsame Hmover
                  Hanchor Hlaw) as Hcore.
    pose proof (movePieceOnBoard_wellFormed from to s0 Hwf) as Hwf'.
    cbv zeta.
    unfold playBotMessage, onBotMessage. rewrite Hbest, Hdetails. cbn [negb].
    rewrite (onBotMessage_move_accepted from to "" s move g' Hengine).
    fold s0. unfold executeBot. rewrite Hcastle, Hep.
    cbn [String.eqb negb snd].
    set (moved := movePieceOnBoard from to s0) in *.
    destruct (finish_board true move moved) as [Hb _]. cbv zeta in Hb.
    pose proof (finish_game true move from to s0) as Hg. fold moved in Hg.
    unfold sameOccupancy. rewrite Hb, Hg. split; assumption.
Qed.

End PlainMoves.

Lemma plainBoardChangeb_sound {G : Type} {engine : RulesEngine G}
  (g g' : G) (from to : string) :
  plainBoardChangeb g g' from to = true -> plainBoardChange g g' from to.
Proof.
  unfold plainBoardChangeb, plainBoardChange. rewrite forallb_forall.
  intros H square Hin. apply Bool.eqb_prop, H, Hin.
Qed.

(** X1 at work before the capture 2. exd5. *)
Lemma relocation_witness :
  wellFormed (boardState beforeCentreCapture) /\
  (wellFormed (boardState (movePieceOnBoard "e4" "d5" beforeCentreCapture)) /\
   wellFormed
     (boardState
        (castleRook (mkMove "w" "e4" "d5" "p" (Some "p") None "c" "exd5") "d5"
           beforeCentreCapture)) /\
   wellFormed (boardState (captureEnPassantPawn beforeCentreCapture))).
Proof.
  assert (Hwf : wellFormed (boardState beforeCentreCapture))
    by (apply wellFormedb_sound; vm_compute; reflexivity).
  split; [exact Hwf|].
  exact (executor_steps_keep_registry_well_formed beforeCentreCapture
           "e4" "d5" (mkMove "w" "e4" "d5" "p" (Some "p") None "c" "exd5") Hwf).
Defined.

(** X2 at work: the capture 2. exd5 by the human and the reply 1... d5 by
    the opponent. *)
Lemma plain_moves_witness :
  (sameOccupancy (moveSelectedPieceAndTriggerBotMove "d5" beforeCentreCapture) /\
   wellFormed (boardState (moveSelectedPieceAndTriggerBotMove "d5" beforeCentreCapture))) /\
  (sameOccupancy (playBotMessage "bestmove d7d5" afterKingPawn) /\
   wellFormed (boardState (playBotMessage "bestmove d7d5" afterKingPawn))).
Proof.
  split.
  - apply (proj1 plain_moves_keep_the_boards_together
             beforeCentreCapture "d5" "pawn_white_5" "e4"
             (mkMove "w" "e4" "d5" "p" (Some "p") None "c" "exd5")
             (replayAfter (game beforeCentreCapture) (mkRequest "e4" "d5" "q"))
             (childNamed "d5" (scene beforeCentreCapture))).
    + apply wellFormedb_sound; vm_compute; reflexivity.
    + apply sameOccupancyb_spec; vm_compute; reflexivity.
    + vm_compute; reflexivity.
    + vm_compute; reflexivity.
    + vm_compute; reflexivity.
    + vm_compute; reflexivity.
    + vm_compute; reflexivity.
    + vm_compute; reflexivity.
    + vm_compute; reflexivity.
    + vm_compute; reflexivity.
    + apply plainBoardChangeb_sound; vm_compute; reflexivity.
  - apply (proj2 plain_moves_keep_the_boards_together
             afterKingPawn "bestmove d7d5" "d7" "d5" "pawn_black_4"
             (mkMove "b" "d7" "d5" "p" None None "b" "d5")
             (replayAfter (game afterKingPawn) (mkRequest "d7" "d5" ""))
             (childNamed "d5" (scene afterKingPawn))).
    + vm_compute; reflexivity.
    + vm_compute; reflexivity.
    + apply wellFormedb_sound; vm_compute; reflexivity.
    + apply sameOccupancyb_spec; vm_compute; reflexivity.
    + vm_compute; reflexivity.
    + vm_compute; reflexivity.
    + vm_compute; reflexivity.
    + vm_compute; reflexivity.
    + vm_compute; reflexivity.
    + apply plainBoardChangeb_sound; vm_compute; reflexivity.
Defined.

(** ** Castling under its plain notation *)

Section Castling.

Context {G : Type} {engine : RulesEngine G}.

(** X3.  When the engine's record carries the notation [O-O] exactly, the
    rook [rook_<colour>_1] of the side to move is relocated to the file
    before the king's destination, on its rank; with [O-O-O] the rook
    [rook_<colour>_2] goes to the file after it.  For the usual
    destinations these are f1, d1, f8 and d8. *)
Theorem castleRook_relocates_the_rook :
  (forall (s : State G) (move : Move) (to rookFrom : string) (anchor : Object3D),
     m_san move = "O-O" ->
     wellFormed (boardState s) ->
     truthy (getPiecePosition
               ("rook_" ++ (if isPlayerTurn s then "white" else "black") ++ "_1")
               (boardState s)) = Some rookFrom ->
     getPositionObject (getPreviousFileSameRankPosition to) (scene s)
     = Some anchor ->
     getPiecePosition
       ("rook_" ++ (if isPlayerTurn s then "white" else "black") ++ "_1")
       (boardState (castleRook move to s))
     = Some (getPreviousFileSameRankPosition to)) /\
  (forall (s : State G) (move : Move) (to rookFrom : string) (anchor : Object3D),
     m_san move = "O-O-O" ->
     wellFormed (boardState s) ->
     truthy (getPiecePosition
               ("rook_" ++ (if isPlayerTurn s then "white" else "black") ++ "_2")
               (boardState s)) = Some rookFrom ->
     getPositionObject (getNextFileSameRankPosition to) (scene s)
     = Some anchor ->
     getPiecePosition
       ("rook_" ++ (if isPlayerTurn s then "white" else "black") ++ "_2")
       (boardState (castleRook move to s))
     = Some (getNextFileSameRankPosition to)) /\
  getPreviousFileSameRankPosition "g1" = "f1" /\
  getNextFileSameRankPosition "c1" = "d1" /\
  getPreviousFileSameRankPosition "g8" = "f8" /\
  getNextFileSameRankPosition "c8" = "d8".
Proof.
  assert (Hrook : forall (s : State G) (rook rookFrom rookTo : string)
                         (anchor : Object3D),
             wellFormed (boardState s) ->
             rook <> "" ->
             truthy (getPiecePosition rook (boardState s)) = Some rookFrom ->
             getPositionObject rookTo (scene s) = Some anchor ->
             getPiecePosition rook (boardState (movePieceOnBoard rookFrom rookTo s))
             = Some rookTo).
  { intros s rook rookFrom rookTo anchor (_ & Hinj & _) Hne Hfrom Hanchor.
    apply truthy_Some in Hfrom. destruct Hfrom as [Hfrom _].
    rewrite (movePieceOnBoard_boardState rookFrom rookTo rook s anchor).
    - apply getPiecePosition_assign_same.
    - apply truthy_intro; [|exact Hne].
      apply getPieceAt_of_position; assumption.
    - exact Hanchor. }
  split; [|split; [|repeat split]].
  - intros s move to rookFrom anchor Hsan Hwf Hfrom Hanchor.
    unfold castleRook, isKingSideCastling, isQueenSideCastling.
    rewrite Hsan. cbn [String.eqb Ascii.eqb Bool.eqb].
    rewrite Hfrom.
    apply (Hrook s _ rookFrom _ anchor Hwf); [|exact Hfrom | exact Hanchor].
    destruct (isPlayerTurn s); discriminate.
  - intros s move to rookFrom anchor Hsan Hwf Hfrom Hanchor.
    unfold castleRook, isKingSideCastling, isQueenSideCastling.
    rewrite Hsan. cbn [String.eqb Ascii.eqb Bool.eqb].
    rewrite Hfrom.
    apply (Hrook s _ rookFrom _ anchor Hwf); [|exact Hfrom | exact Hanchor].
    destruct (isPlayerTurn s); discriminate.
Qed.

(** X4.  The opponent's path submits the letter of the message as it
    came, and a submission the engine rejects stops the handler there. *)
Theorem onBotMessage_submits_the_raw_letter (s : State G)
  (message from to promotion : string) :
  includes "bestmove" message = true ->
  getBestMoveDetails message = Some (from, to, promotion) ->
  submissions (playBotMessage message s)
  = (submissions s ++ [mkRequest from to promotion])%list /\
  (game_move (game s) (mkRequest from to promotion) = None ->
   onBotMessage message s
   = (Thrown, logSubmission (mkRequest from to promotion) s)).
Proof.
  intros Hbest Hdetails.
  unfold playBotMessage, onBotMessage. rewrite Hbest, Hdetails. cbn [negb].
  destruct (game_move (game s) (mkRequest from to promotion))
    as [[move g']|] eqn:Hengine.
  - split; [|discriminate].
    rewrite (onBotMessage_move_accepted from to promotion s move g' Hengine).
    match goal with
    | |- context [executeBot ?f ?t ?p ?m ?x] =>
        pose proof (executeBot_kept f t p m x) as Hk
    end.
    unfold kept in Hk. injection Hk as _ _ _ Hsub. exact Hsub.
  - rewrite (onBotMessage_move_rejected from to promotion s Hengine).
    split; reflexivity.
Qed.

End Castling.

(** X3 at work: 4. O-O by the human and 5... O-O-O by the opponent, the
    first through [castleRook] alone, both through the whole move. *)
Lemma castling_witness :
  getPiecePosition "rook_white_1"
    (boardState
       (castleRook (mkMove "w" "e1" "g1" "k" None None "k" "O-O") "g1"
          beforeShortCastle))
  = Some "f1" /\
  getPiecePosition "rook_white_1" (boardState (onClick ["g1"] beforeShortCastle))
  = Some "f1" /\
  getPiecePosition "king_white" (boardState (onClick ["g1"] beforeShortCastle))
  = Some "g1" /\
  getPiecePosition "rook_black_2"
    (boardState (playBotMessage "bestmove e8c8" beforeLongCastle))
  = Some "d8" /\
  getPiecePosition "king_black"
    (boardState (playBotMessage "bestmove e8c8" beforeLongCastle))
  = Some "c8" /\
  sameOccupancy (onClick ["g1"] beforeShortCastle) /\
  sameOccupancy (playBotMessage "bestmove e8c8" beforeLongCastle).
Proof.
  split.
  - apply (proj1 castleRook_relocates_the_rook beforeShortCastle
             (mkMove "w" "e1" "g1" "k" None None "k" "O-O") "g1" "h1"
             (childNamed "f1" (scene beforeShortCastle))).
    + reflexivity.
    + apply wellFormedb_sound; vm_compute; reflexivity.
    + vm_compute; reflexivity.
    + vm_compute; reflexivity.
  - split; [vm_compute; reflexivity|].
    split; [vm_compute; reflexivity|].
    split; [vm_compute; reflexivity|].
    split; [vm_compute; reflexivity|].
    split; apply sameOccupancyb_spec; vm_compute; reflexivity.
Defined.

(** X4 at work on the reply with the letter x. *)
Lemma raw_letter_witness :
  submissions (playBotMessage "bestmove b2a1x" beforeBlackPromotion)
  = (submissions beforeBlackPromotion ++ [mkRequest "b2" "a1" "x"])%list.
Proof.
  apply (onBotMessage_submits_the_raw_letter beforeBlackPromotion
           "bestmove b2a1x" "b2" "a1" "x"); vm_compute; reflexivity.
Defined.

(** ** The numbering of the scene is an invariant *)

Lemma names_hide (n : string) (sc : list Object3D) :
  map name (updateObject n hide sc) = map name sc.
Proof. apply updateObject_names. intros o; reflexivity. Qed.

Lemma names_setPosition (n : string) (p : Vector3) (sc : list Object3D) :
  map name (updateObject n (setPosition p) sc) = map name sc.
Proof. apply updateObject_names. intros o; reflexivity. Qed.

Lemma names_illuminateObject (object : option Object3D) (color : Z)
  (sc : list Object3D) :
  map name (illuminateObject object color sc) = map name sc.
Proof. apply names_of_geometry, illuminateObject_geometry. Qed.

Lemma names_illuminateSquares (positions : list string) (color : Z)
  (sc : list Object3D) :
  map name (illuminateSquares positions color sc) = map name sc.
Proof. apply names_of_geometry, illuminateSquares_geometry. Qed.

Lemma namesStep_refl (ns : list string) : namesStep ns ns.
Proof. left; reflexivity. Qed.

Lemma namesStep_numbered (sc sc' : list Object3D) :
  sceneNumbered sc -> namesStep (map name sc) (map name sc') -> sceneNumbered sc'.
Proof.
  intros Hnum [Hsame|(family & Hf & Hstep)] family' Hf'.
  - rewrite Hsame. apply Hnum, Hf'.
  - exact (sceneNumbered_mint family sc _ Hf Hnum Hstep family' Hf').
Qed.

Section Numbering.

Context {G : Type} {engine : RulesEngine G}.

Ltac names :=
  cbv zeta;
  repeat first
    [ progress cbn [scene set_scene set_boardState set_selectedPiece
                    set_validMoves set_previousMove set_isPlayerTurn
                    set_deferredResolve set_dom set_game postMessage
                    logSubmission]
    | progress rewrite ?removePieceFromBoard_names, ?names_setPosition,
        ?names_hide,
        ?names_illuminateObject, ?names_illuminateSquares
    | match goal with
      | |- context [match ?x with _ => _ end] => destruct x
      end ];
  try reflexivity.

Lemma names_movePieceOnBoard (from to : string) (s : State G) :
  map name (scene (movePieceOnBoard from to s)) = map name (scene s).
Proof. unfold movePieceOnBoard. names. Qed.

Lemma names_castleRook (move : Move) (to : string) (s : State G) :
  map name (scene (castleRook move to s)) = map name (scene s).
Proof.
  unfold castleRook.
  destruct (isKingSideCastling move), (isQueenSideCastling move);
    repeat match goal with
           | |- context [match truthy ?x with _ => _ end] => destruct (truthy x)
           end;
    rewrite ?names_movePieceOnBoard; reflexivity.
Qed.

Lemma names_captureEnPassantPawn (s : State G) :
  map name (scene (captureEnPassantPawn s)) = map name (scene s).
Proof. unfold captureEnPassantPawn. names. Qed.

Lemma names_removePawn (s : State G) :
  map name (scene (removePawn s)) = map name (scene s).
Proof. unfold removePawn. names. Qed.

Lemma names_setAndIlluminatePreviousMove (move : option Move) (s : State G) :
  map name (scene (setAndIlluminatePreviousMove move s)) = map name (scene s).
Proof.
  apply names_of_geometry. apply setAndIlluminatePreviousMove_board.
Qed.

Lemma names_unsetSelectedPieceAndValidMoves (s : State G) :
  map name (scene (unsetSelectedPieceAndValidMoves s)) = map name (scene s).
Proof.
  apply names_of_geometry.
  exact (proj1 (proj2 (unsetSelectedPieceAndValidMoves_effect s))).
Qed.

Lemma names_finish (b : bool) (move : Move) (from to : string) (s : State G) :
  map name
    (scene (showVerdictIfNecessary
              (set_isPlayerTurn b
                 (setAndIlluminatePreviousMove (Some move)
                    (movePieceOnBoard from to s)))))
  = map name (scene s).
Proof.
  rewrite (proj2 (showVerdictIfNecessary_board _)).
  change (map name (scene (setAndIlluminatePreviousMove (Some move)
                             (movePieceOnBoard from to s)))
          = map name (scene s)).
  rewrite names_setAndIlluminatePreviousMove. apply names_movePieceOnBoard.
Qed.

Lemma names_special_moves (move : Move) (to : string) (s : State G) :
  map name
    (scene (let s2 := if isCastlingMove move then castleRook move to s else s in
            if isEnPassantMove move then captureEnPassantPawn s2 else s2))
  = map name (scene s).
Proof.
  cbv zeta. destruct (isEnPassantMove move), (isCastlingMove move);
    rewrite ?names_captureEnPassantPawn, ?names_castleRook; reflexivity.
Qed.

(** Adding a clone named with the next number of [family]. *)
Lemma namesStep_addPieceAt (o : Object3D) (to family : string) (s s0 : State G) :
  In family families ->
  map name (scene s) = map name (scene s0) ->
  name o = family ++ "_"
           ++ numToString (countNamed family (map name (scene s)) + 1) ->
  namesStep (map name (scene s0)) (map name (scene (addPieceAt (Some o) to s))).
Proof.
  intros Hf Hsame Hname. unfold addPieceAt.
  cbn [scene set_boardState].
  destruct (getSceneObject (Some to) (scene s)) as [a|].
  - right. exists family. split; [exact Hf|].
    cbn [scene set_scene]. rewrite map_app. cbn [map name].
    rewrite Hname, Hsame. reflexivity.
  - left. cbn [scene set_boardState]. exact Hsame.
Qed.

Lemma namesStep_removePawnAndAddPromotedPiece (piece : option string)
  (to : string) (s : State G) :
  match piece with Some t => In t promotionTypes | None => True end ->
  namesStep (map name (scene s))
    (map name (scene (snd (removePawnAndAddPromotedPiece piece to s)))).
Proof.
  intros Hpiece. unfold removePawnAndAddPromotedPiece.
  destruct (truthy piece) as [t|] eqn:Ht; [|apply namesStep_refl].
  destruct (truthy (selectedPiece s)); [|apply namesStep_refl].
  apply truthy_Some in Ht. destruct Ht as [-> _].
  destruct (family_of_type t Hpiece) as (Hfam & _ & Hname).
  unfold addPromotedPiece, getPromotionPieceObject.
  destruct (lastOf (filter (fun o => includes (t ++ "_white") (name o))
                      (scene (removePawn s)))) as [latest|]; cbn [snd].
  - apply (namesStep_addPieceAt _ to (t ++ "_white")); [exact Hfam | |].
    + apply names_removePawn.
    + cbn [name rename]. rewrite countNamed_objects. apply Hname.
  - left. apply names_removePawn.
Qed.

Lemma pieceOfCharacter_family (c : string) (turn : bool) :
  In (pieceOfCharacter c turn) families.
Proof.
  unfold pieceOfCharacter.
  destruct turn, (c =? "q"), (c =? "n"), (c =? "b"), (c =? "r");
    simpl; tauto.
Qed.

Lemma namesStep_promotePiece (promotion from to : string) (s : State G) :
  namesStep (map name (scene s))
    (map name (scene (snd (promotePiece promotion from to s)))).
Proof.
  unfold promotePiece, getPieceCharacterToPiece.
  destruct (lastOf (filter (fun o => includes
                                       (pieceOfCharacter promotion (isPlayerTurn s))
                                       (name o)) (scene s))) as [latest|];
    cbn [snd]; [|apply namesStep_refl].
  unfold removePawnPieceAndAddPromotedPiece.
  destruct (getSceneObject (getPieceAt from (boardState s)) (scene s)) as [pawn|];
    [|apply namesStep_refl].
  apply (namesStep_addPieceAt _ to (pieceOfCharacter promotion (isPlayerTurn s))).
  - apply pieceOfCharacter_family.
  - unfold removePawnPiece. cbn [scene set_scene set_boardState removePieceFromBoard].
    apply names_hide.
  - cbn [name rename]. rewrite countNamed_objects.
    unfold removePawnPiece. cbn [scene set_scene set_boardState removePieceFromBoard].
    rewrite names_hide. reflexivity.
Qed.

Lemma namesStep_executeHuman (piece : option string) (from to : string)
  (move : Move) (s : State G) :
  match piece with Some t => In t promotionTypes | None => True end ->
  namesStep (map name (scene s))
    (map name (scene (snd (executeHuman piece from to move s)))).
Proof.
  intros Hpiece. unfold executeHuman.
  pose proof (names_special_moves move to s) as Hs3. cbv zeta in *.
  set (s3 := if isEnPassantMove move
             then captureEnPassantPawn
                    (if isCastlingMove move then castleRook move to s else s)
             else if isCastlingMove move then castleRook move to s else s) in *.
  rewrite <- Hs3.
  destruct (isPromotionMove move).
  - pose proof (namesStep_removePawnAndAddPromotedPiece piece to s3 Hpiece) as Hstep.
    destruct (removePawnAndAddPromotedPiece piece to s3) as [[[]|] s4];
      cbn [snd] in *; [rewrite names_finish|]; exact Hstep.
  - cbn [snd]. rewrite names_finish. apply namesStep_refl.
Qed.

Lemma namesStep_executeBot (from to promotion : string) (move : Move)
  (s : State G) :
  namesStep (map name (scene s))
    (map name (scene (snd (executeBot from to promotion move s)))).
Proof.
  unfold executeBot.
  pose proof (names_special_moves move to s) as Hs3. cbv zeta in *.
  set (s3 := if isEnPassantMove move
             then captureEnPassantPawn
                    (if isCastlingMove move then castleRook move to s else s)
             else if isCastlingMove move then castleRook move to s else s) in *.
  rewrite <- Hs3.
  destruct (negb (promotion =? "")).
  - pose proof (namesStep_promotePiece promotion from to s3) as Hstep.
    destruct (promotePiece promotion from to s3) as [[[]|] s4];
      cbn [snd] in *; [rewrite names_finish|]; exact Hstep.
  - cbn [snd]. rewrite names_finish. apply namesStep_refl.
Qed.

Lemma namesStep_moveSelectedPiece_resume (piece : option string)
  (from to : string) (s : State G) :
  match piece with Some t => In t promotionTypes | None => True end ->
  namesStep (map name (scene s))
    (map name (scene (snd (moveSelectedPiece_resume piece from to s)))).
Proof.
  intros Hpiece. unfold moveSelectedPiece_resume, tryFinally.
  assert (Hsubmit : namesStep (map name (scene s))
            (map name (scene (snd (moveSelectedPiece_submit piece from to s))))).
  { destruct (game_move (game s)
                (mkRequest from to (getPromotionPieceMoveCharacter piece)))
      as [[move g']|] eqn:Hmove.
    - rewrite (moveSelectedPiece_submit_accepted piece from to s move g' Hmove).
      exact (namesStep_executeHuman piece from to move _ Hpiece).
    - unfold moveSelectedPiece_submit, bind, gameMove. rewrite Hmove.
      apply namesStep_refl. }
  destruct (moveSelectedPiece_submit piece from to s) as [c s'].
  cbn [snd] in *. rewrite names_unsetSelectedPieceAndValidMoves. exact Hsubmit.
Qed.

Lemma names_triggerBotMove (o : Outcome) (s : State G) :
  scene (triggerBotMove o s) = scene s.
Proof. destruct o; reflexivity. Qed.

Lemma namesStep_moveSelectedPieceAndTriggerBotMove (to : string) (s : State G) :
  namesStep (map name (scene s))
    (map name (scene (moveSelectedPieceAndTriggerBotMove to s))).
Proof.
  unfold moveSelectedPieceAndTriggerBotMove, moveSelectedPiece.
  destruct (truthy (selectedPiece s)) as [sel|]; [|apply namesStep_refl].
  destruct (truthy (getPiecePosition sel (boardState s))) as [from|];
    [|apply namesStep_refl].
  pose proof (namesStep_moveSelectedPiece_resume None from to s I) as Hstep.
  destruct (shouldPromote sel to); [destruct (promotion_modal (dom s))|];
    try (destruct (moveSelectedPiece_resume None from to s) as [c s'];
         rewrite names_triggerBotMove; exact Hstep).
  apply namesStep_refl.
Qed.

Lemma namesStep_onPromote (choice : option string) (s : State G) :
  properChoice (Promote choice) ->
  namesStep (map name (scene s)) (map name (scene (onPromote true choice s))).
Proof.
  intros Hchoice. unfold onPromote.
  destruct (deferredResolve s) as [suspended|]; [|apply namesStep_refl].
  cbn [negb]. cbv zeta.
  destruct (promotion_modal (dom (set_deferredResolve None s))).
  - match goal with
    | |- context [moveSelectedPiece_resume ?p ?f ?t ?x] =>
        pose proof (namesStep_moveSelectedPiece_resume p f t x Hchoice) as Hstep;
        destruct (moveSelectedPiece_resume p f t x) as [c s3]
    end.
    rewrite names_triggerBotMove. exact Hstep.
  - match goal with
    | |- context [moveSelectedPiece_resume ?p ?f ?t ?x] =>
        pose proof (namesStep_moveSelectedPiece_resume p f t x I) as Hstep;
        destruct (moveSelectedPiece_resume p f t x) as [c s3]
    end.
    rewrite names_triggerBotMove. exact Hstep.
Qed.

Lemma namesStep_playBotMessage (message : string) (s : State G) :
  namesStep (map name (scene s)) (map name (scene (playBotMessage message s))).
Proof.
  unfold playBotMessage, onBotMessage.
  destruct (negb (includes "bestmove" message)); [apply namesStep_refl|].
  destruct (getBestMoveDetails message) as [[[from to] promotion]|];
    [|apply namesStep_refl].
  destruct (game_move (game s) (mkRequest from to promotion))
    as [[move g']|] eqn:Hmove.
  - rewrite (onBotMessage_move_accepted from to promotion s move g' Hmove).
    exact (namesStep_executeBot from to promotion move _).
  - unfold onBotMessage_move, bind, gameMove. rewrite Hmove.
    apply namesStep_refl.
Qed.

Lemma names_setAndIlluminateSelectedPiece (o : Object3D) (s : State G) :
  map name (scene (setAndIlluminateSelectedPiece o s)) = map name (scene s).
Proof. unfold setAndIlluminateSelectedPiece, illuminatePiece. names. Qed.

Lemma names_setAndIlluminateValidMovesFor (p : option string) (s : State G) :
  map name (scene (setAndIlluminateValidMovesFor p s)) = map name (scene s).
Proof. unfold setAndIlluminateValidMovesFor, illuminateValidMoves. names. Qed.

Lemma namesStep_onClick (hits : list string) (s : State G) :
  namesStep (map name (scene s)) (map name (scene (onClick hits s))).
Proof.
  unfold onClick.
  destruct (negb (isPlayerTurn s)); [apply namesStep_refl|].
  destruct (truthy (selectedPiece s)) as [sel|] eqn:Hsel.
  - unfold handleSecondPlayerInteraction. rewrite Hsel.
    destruct (getInteractedObject hits s) as [o|]; [|apply namesStep_refl].
    destruct (truthy (checkAndGetIfPiece o (boardState s))) as [piece|];
      [|apply namesStep_moveSelectedPieceAndTriggerBotMove].
    unfold handleSecondPieceInteraction. cbv zeta.
    destruct (checkAndGetValidMoveForSelectedPiece
                (getPiecePosition piece (boardState s)) s) as [move|],
             (getSceneObject (Some piece) (scene s)) as [pieceObject|],
             (truthy (getPiecePosition piece (boardState s))) as [t|];
      try apply namesStep_refl;
      try apply namesStep_moveSelectedPieceAndTriggerBotMove;
      left;
      rewrite names_setAndIlluminateValidMovesFor,
        names_setAndIlluminateSelectedPiece;
      apply names_unsetSelectedPieceAndValidMoves.
  - unfold handleFirstPlayerInteraction.
    destruct (getInteractedObject hits s) as [o|]; [|apply namesStep_refl].
    left. cbv zeta.
    rewrite names_setAndIlluminateValidMovesFor.
    apply names_setAndIlluminateSelectedPiece.
Qed.

(** X5.  The numbering of the scene is an invariant of the program: from a
    scene whose piece families carry the numbers 1..count, the families
    still do after any sequence of clicks, promotion choices among queen,
    knight, bishop and rook, and messages of the search process. *)
Theorem scene_numbering_is_invariant (es : list Event) (s : State G) :
  sceneNumbered (scene s) ->
  Forall properChoice es ->
  sceneNumbered (scene (deliverAll es s)).
Proof.
  unfold deliverAll. revert s.
  induction es as [|e rest IH]; intros s Hnum Hes; [exact Hnum|].
  inversion Hes as [|e' rest' He Hrest]; subst.
  cbn [fold_left]. apply IH; [|exact Hrest].
  apply (namesStep_numbered (scene s)); [exact Hnum|].
  destruct e as [hits|choice|message]; cbn [deliver].
  - apply namesStep_onClick.
  - apply namesStep_onPromote, He.
  - apply namesStep_playBotMessage.
Qed.

End Numbering.

Lemma scene_numbering_witness :
  sceneNumbered (scene (startState capturePromotionGame)) /\
  Forall properChoice capturePromotionEvents /\
  sceneNumbered
    (scene (deliverAll capturePromotionEvents (startState capturePromotionGame))).
Proof.
  assert (Hstart : sceneNumbered (scene (startState capturePromotionGame)))
    by exact startScene_numbered.
  assert (Hes : Forall properChoice capturePromotionEvents)
    by (repeat constructor).
  split; [exact Hstart|]. split; [exact Hes|].
  exact (scene_numbering_is_invariant capturePromotionEvents
           (startState capturePromotionGame) Hstart Hes).
Defined.

(** ** The search process's answer *)

Lemma splitOn_word (w : string) : isWord w = true -> splitOn " " w = [w].
Proof.
  unfold isWord. induction w as [|c w IH]; simpl; [reflexivity|].
  intros H. apply andb_prop in H. destruct H as [Hc Hw].
  apply Bool.negb_true_iff in Hc. rewrite Hc, (IH Hw). reflexivity.
Qed.

Lemma splitOn_word_then (w rest : string) :
  isWord w = true -> splitOn " " (w ++ " " ++ rest) = w :: splitOn " " rest.
Proof.
  change (" " ++ rest) with (String " " rest).
  unfold isWord. induction w as [|c w IH]; simpl; [reflexivity|].
  intros H. apply andb_prop in H. destruct H as [Hc Hw].
  apply Bool.negb_true_iff in Hc. rewrite Hc, (IH Hw). reflexivity.
Qed.

Lemma substring_nothing (s : string) : substring 0 0 s = "".
Proof. destruct s; reflexivity. Qed.

(** The three slices of a word made of two squares and a letter. *)
Lemma slices_of_move (from to promotion : string) :
  String.length from = 2 -> String.length to = 2 ->
  String.length promotion <= 1 ->
  let bestMove := from ++ to ++ promotion in
  slice 0 2 bestMove = from /\ slice 2 4 bestMove = to /\
  slice 4 5 bestMove = promotion.
Proof.
  intros Hf Ht Hp.
  destruct from as [|a [|b [|x from]]]; try discriminate.
  destruct to as [|c [|d [|x to]]]; try discriminate.
  destruct promotion as [|e [|x promotion]]; simpl in Hp; try lia;
    repeat split; reflexivity.
Qed.

Section BestMove.

Context {G : Type} {engine : RulesEngine G}.

(** X6.  [getBestMoveDetails] reads the second word of the message, whatever
    the first word is and whatever follows: its first two characters are
    the origin, the next two the destination, the fifth, if any, the
    promotion letter; the handler then runs the move with exactly these.
    A message of one word has no second word: the handler throws before
    anything is submitted to the engine. *)
Theorem getBestMoveDetails_reads_the_second_word :
  (forall (first from to promotion tail : string),
     isWord first = true ->
     isWord (from ++ to ++ promotion) = true ->
     String.length from = 2 -> String.length to = 2 ->
     String.length promotion <= 1 ->
     tail = "" \/ (exists rest, tail = " " ++ rest) ->
     let message := first ++ " " ++ (from ++ to ++ promotion) ++ tail in
     getBestMoveDetails message = Some (from, to, promotion) /\
     forall s : State G,
       includes "bestmove" message = true ->
       onBotMessage message s = onBotMessage_move from to promotion s) /\
  (forall (message : string) (s : State G),
     isWord message = true ->
     getBestMoveDetails message = None /\
     (includes "bestmove" message = true ->
      onBotMessage message s = (Thrown, s))).
Proof.
  split.
  - intros first from to promotion tail Hfirst Hword Hf Ht Hp Htail message.
    assert (Hdetails : getBestMoveDetails message = Some (from, to, promotion)).
    { unfold getBestMoveDetails, message.
      rewrite (splitOn_word_then first _ Hfirst).
      assert (Hsecond : exists more,
                 splitOn " " ((from ++ to ++ promotion) ++ tail)
                 = (from ++ to ++ promotion) :: more).
      { destruct Htail as [->|[rest ->]].
        - exists []. rewrite <- (splitOn_word _ Hword). f_equal.
          generalize (from ++ to ++ promotion). intros w.
          induction w as [|c w IH]; simpl; [reflexivity | rewrite IH; reflexivity].
        - exists (splitOn " " rest). apply splitOn_word_then, Hword. }
      destruct Hsecond as [more ->]. cbn [nth_error].
      destruct (slices_of_move from to promotion Hf Ht Hp) as (-> & -> & ->).
      reflexivity. }
    split; [exact Hdetails|].
    intros s Hbest. unfold onBotMessage. rewrite Hbest, Hdetails. reflexivity.
  - intros message s Hword.
    assert (Hnone : getBestMoveDetails message = None).
    { unfold getBestMoveDetails. rewrite (splitOn_word _ Hword). reflexivity. }
    split; [exact Hnone|].
    intros Hbest. unfold onBotMessage. rewrite Hbest, Hnone. reflexivity.
Qed.

End BestMove.

(** X6 at work on an answer with a ponder move, on one that promotes, and
    on the bare word. *)
Lemma best_move_witness :
  getBestMoveDetails "bestmove e7e5 ponder g1f3" = Some ("e7", "e5", "") /\
  getBestMoveDetails "bestmove b2a1q" = Some ("b2", "a1", "q") /\
  getBestMoveDetails "bestmove" = None.
Proof.
  split; [|split].
  - exact (proj1 (proj1 (@getBestMoveDetails_reads_the_second_word
                           Replay replayEngine)
                    "bestmove" "e7" "e5" "" " ponder g1f3"
                    eq_refl eq_refl eq_refl eq_refl (le_S _ _ (le_n 0))
                    (or_intror (ex_intro _ "ponder g1f3" eq_refl)))).
  - exact (proj1 (proj1 (@getBestMoveDetails_reads_the_second_word
                           Replay replayEngine)
                    "bestmove" "b2" "a1" "q" ""
                    eq_refl eq_refl eq_refl eq_refl (le_n 1)
                    (or_introl eq_refl))).
  - exact (proj1 (proj2 (@getBestMoveDetails_reads_the_second_word
                           Replay replayEngine)
                    "bestmove" (startState []) eq_refl)).
Defined.

(** ** Neighbouring files *)

(** X7.  On a square given as a file letter and one more character, the
    two file neighbours undo each other wherever the file has such a
    neighbour; past the board's edge the file reads [undefined], and a
    position that is empty or starts with no file letter gives [a1]. *)
Theorem file_neighbours_undo_each_other :
  (forall (file : string) (rank : ascii),
     In file files -> file <> "a" ->
     getNextFileSameRankPosition
       (getPreviousFileSameRankPosition (file ++ String rank ""))
     = file ++ String rank "") /\
  (forall (file : string) (rank : ascii),
     In file files -> file <> "h" ->
     getPreviousFileSameRankPosition
       (getNextFileSameRankPosition (file ++ String rank ""))
     = file ++ String rank "") /\
  (forall rank : ascii,
     getPreviousFileSameRankPosition (String "a" (String rank ""))
     = "undefined" ++ String rank "" /\
     getNextFileSameRankPosition (String "h" (String rank ""))
     = "undefined" ++ String rank "") /\
  (forall (c : ascii) (rest : string),
     ~ In (String c "") files ->
     getPreviousFileSameRankPosition (String c rest) = "a1" /\
     getNextFileSameRankPosition (String c rest) = "a1") /\
  getPreviousFileSameRankPosition "" = "a1" /\
  getNextFileSameRankPosition "" = "a1".
Proof.
  split; [|split; [|split; [|split; [|split]]]].
  - intros file rank Hin Hne. simpl in Hin.
    repeat (destruct Hin as [<-|Hin]; [try contradiction; reflexivity|]).
    contradiction.
  - intros file rank Hin Hne. simpl in Hin.
    repeat (destruct Hin as [<-|Hin]; [try contradiction; reflexivity|]).
    contradiction.
  - intros rank. split; reflexivity.
  - intros c rest Hnot.
    assert (Hindex : indexOf (String c "") files = None).
    { simpl in Hnot. unfold files. cbn [indexOf].
      repeat match goal with
             | |- context [String.eqb ?a ?b] =>
                 destruct (String.eqb_spec a b) as [Heq|_];
                 [exfalso; apply Hnot; tauto|]
             end.
      reflexivity. }
    unfold getPreviousFileSameRankPosition, getNextFileSameRankPosition.
    cbn [String.eqb charAt get template].
    rewrite Hindex. split; reflexivity.
  - reflexivity.
  - reflexivity.
Qed.

(** ** What a relocation does *)

Lemma getPiecePosition_delete_other (k k' : string) (bs : BoardState) :
  k' <> k -> getPiecePosition k' (delete k bs) = getPiecePosition k' bs.
Proof.
  intros Hne. unfold getPiecePosition, delete.
  induction bs as [|[a b] rest IH]; simpl; [reflexivity|].
  destruct (String.eqb_spec a k) as [->|Hak]; simpl.
  - rewrite (eqb_neq_false k k'); [exact IH | congruence].
  - destruct (a =? k'); [reflexivity | exact IH].
Qed.

(** On a registry of proper keys every identity found is a condition that
    holds. *)
Lemma truthy_getPieceAt (bs : BoardState) (square : string) :
  properKeys bs -> truthy (getPieceAt square bs) = getPieceAt square bs.
Proof.
  intros Hkeys. destruct (getPieceAt square bs) as [[|c k]|] eqn:Hat;
    try reflexivity.
  exfalso. apply Hkeys. apply getPieceAt_In in Hat.
  change "" with (fst ("", square)). apply in_map; exact Hat.
Qed.

Section RelocationEffect.

Context {G : Type} {engine : RulesEngine G}.

(** The scene after a relocation that finds its mover, the mover's
    renderable and the destination's square object. *)
Lemma movePieceOnBoard_scene (from to p : string) (s : State G)
  (o anchor : Object3D) :
  truthy (getPieceAt from (boardState s)) = Some p ->
  getSceneObject (Some p) (scene s) = Some o ->
  getPositionObject to (scene s) = Some anchor ->
  scene (movePieceOnBoard from to s)
  = updateObject p (setPosition (onSquare (position anchor)))
      (match truthy (getPieceAt to (boardState s)) with
       | Some toPiece =>
           removePieceFromBoard (getSceneObject (Some toPiece) (scene s)) (scene s)
       | None => scene s
       end).
Proof.
  intros Hp Ho Hanchor. unfold movePieceOnBoard. rewrite Hp, Ho.
  pose proof (getSceneObject_name p (scene s) o Ho) as Hname.
  unfold getPositionObject in *.
  destruct (truthy (getPieceAt to (boardState s))) as [toPiece|].
  - cbn [scene boardState set_scene set_boardState].
    destruct (getSceneObject (Some toPiece) (scene s)) as [co|] eqn:Hco;
      cbn [removePieceFromBoard].
    + rewrite (getSceneObject_update to (name co) hide (scene s) (fun x => eq_refl)).
      rewrite Hanchor. cbn [option_map].
      cbn [scene boardState set_scene set_boardState].
      rewrite Hname. destruct (to =? name co); reflexivity.
    + rewrite Hanchor. cbn [scene boardState set_scene set_boardState].
      rewrite Hname. reflexivity.
  - rewrite Hanchor. cbn [scene boardState set_scene set_boardState].
    rewrite Hname. reflexivity.
Qed.

(** X8.  What [movePieceOnBoard] does when a piece stands on the origin of
    a well-formed registry and both its renderable and the destination's
    square object are in the scene: the mover is registered on the
    destination and its renderable rests on that square; the origin is
    empty; an identity that stood on the destination is out of the registry
    and its renderable is hidden; every other identity keeps its square and
    every other child of the scene is untouched, as are the variables
    outside the registry and the scene. *)
Theorem movePieceOnBoard_relocates_and_captures (s : State G)
  (from to p : string) (o anchor : Object3D) :
  wellFormed (boardState s) ->
  truthy (getPieceAt from (boardState s)) = Some p ->
  from <> to ->
  getSceneObject (Some p) (scene s) = Some o ->
  getPositionObject to (scene s) = Some anchor ->
  let s' := movePieceOnBoard from to s in
  getPiecePosition p (boardState s') = Some to /\
  getPieceAt to (boardState s') = Some p /\
  getPieceAt from (boardState s') = None /\
  getSceneObject (Some p) (scene s')
  = Some (setPosition (onSquare (position anchor)) o) /\
  (forall c, getPieceAt to (boardState s) = Some c ->
     getPiecePosition c (boardState s') = None /\
     getSceneObject (Some c) (scene s')
     = option_map hide (getSceneObject (Some c) (scene s))) /\
  (forall k, k <> p -> getPieceAt to (boardState s) <> Some k ->
     getPiecePosition k (boardState s') = getPiecePosition k (boardState s) /\
     getSceneObject (Some k) (scene s') = getSceneObject (Some k) (scene s)) /\
  outside s' = outside s.
Proof.
  intros Hwf Hp Hft Ho Hanchor s'.
  pose proof (movePieceOnBoard_wellFormed from to s Hwf) as Hwf'.
  fold s' in Hwf'.
  pose proof (movePieceOnBoard_boardState from to p s anchor Hp Hanchor) as Hb.
  pose proof (movePieceOnBoard_scene from to p s o anchor Hp Ho Hanchor) as Hs.
  fold s' in Hb, Hs.
  destruct Hwf as (Hdict & Hinj & Hkeys).
  rewrite (truthy_getPieceAt _ to Hkeys) in Hb, Hs.
  apply truthy_Some in Hp. destruct Hp as [Hp Hpne].
  pose proof (getPieceAt_In _ _ _ Hp) as Hpin.
  assert (Hmoved : getPiecePosition p (boardState s') = Some to)
    by (rewrite Hb; apply getPiecePosition_assign_same).
  assert (Hcp : forall c, getPieceAt to (boardState s) = Some c -> c <> p).
  { intros c Hc ->. apply Hft. apply getPieceAt_In in Hc.
    apply (dictionary_unique (boardState s) p); assumption. }
  split; [exact Hmoved|].
  split; [apply getPieceAt_of_position;
          [exact (proj1 (proj2 Hwf')) | exact Hmoved]|].
  assert (Hdict1 : isDictionary
                     (match getPieceAt to (boardState s) with
                      | Some toPiece => delete toPiece (boardState s)
                      | None => boardState s
                      end)).
  { destruct (getPieceAt to (boardState s));
      [apply delete_NoDup; exact Hdict | exact Hdict]. }
  split.
  { apply getPieceAt_None. intros Hin.
    apply in_map_iff in Hin. destruct Hin as ([k v] & Hv & Hin).
    simpl in Hv. subst v. rewrite Hb in Hin.
    apply (In_assign_iff p to k from _ Hdict1) in Hin.
    destruct Hin as [[_ Heq]|[Hin Hk]]; [contradiction|].
    apply Hk. apply (injective_unique (boardState s) k p from);
      [exact Hinj | | exact Hpin].
    destruct (getPieceAt to (boardState s)); [eapply delete_incl|]; exact Hin. }
  pose proof (getSceneObject_name p (scene s) o Ho) as Hname.
  split.
  { rewrite Hs.
    rewrite (getSceneObject_update p p (setPosition (onSquare (position anchor)))
               _ (fun x => eq_refl)).
    rewrite String.eqb_refl.
    destruct (getPieceAt to (boardState s)) as [c|] eqn:Hc;
      [|rewrite Ho; reflexivity].
    destruct (getSceneObject (Some c) (scene s)) as [co|] eqn:Hco;
      cbn [removePieceFromBoard]; [|rewrite Ho; reflexivity].
    rewrite (getSceneObject_update_other p (name co) hide (scene s)
               (fun x => eq_refl)).
    - rewrite Ho. reflexivity.
    - rewrite (getSceneObject_name c (scene s) co Hco).
      intros Heq. exact (Hcp c eq_refl (eq_sym Heq)). }
  split.
  { intros c Hc. pose proof (Hcp c Hc) as Hne. split.
    - rewrite Hb, Hc.
      rewrite (getPiecePosition_assign_other p c to) by exact Hne.
      apply getPiecePosition_delete_same.
    - rewrite Hs, Hc.
      rewrite (getSceneObject_update_other c p
                 (setPosition (onSquare (position anchor))) _
                 (fun x => eq_refl) Hne).
      destruct (getSceneObject (Some c) (scene s)) as [co|] eqn:Hco;
        cbn [removePieceFromBoard option_map]; [|exact Hco].
      rewrite (getSceneObject_name c (scene s) co Hco).
      apply (getSceneObject_update_same c hide (scene s) co (fun x => eq_refl) Hco). }
  split.
  { intros k Hkp Hkc. split.
    - rewrite Hb.
      rewrite (getPiecePosition_assign_other p k to) by exact Hkp.
      destruct (getPieceAt to (boardState s)) as [c|]; [|reflexivity].
      apply getPiecePosition_delete_other. intros ->. apply Hkc; reflexivity.
    - rewrite Hs.
      rewrite (getSceneObject_update_other k p
                 (setPosition (onSquare (position anchor))) _
                 (fun x => eq_refl) Hkp).
      destruct (getPieceAt to (boardState s)) as [c|]; [|reflexivity].
      destruct (getSceneObject (Some c) (scene s)) as [co|] eqn:Hco;
        cbn [removePieceFromBoard]; [|reflexivity].
      apply (getSceneObject_update_other k (name co) hide (scene s)
               (fun x => eq_refl)).
      rewrite (getSceneObject_name c (scene s) co Hco).
      intros ->. apply Hkc; reflexivity. }
  apply movePieceOnBoard_outside.
Qed.

End RelocationEffect.

(** X8 at work on the capture 2. exd5: the e-pawn takes the d-pawn. *)
Lemma relocation_effect_witness :
  let s := beforeCentreCapture in
  let s' := movePieceOnBoard "e4" "d5" s in
  getPiecePosition "pawn_white_5" (boardState s') = Some "d5" /\
  getPieceAt "d5" (boardState s') = Some "pawn_white_5" /\
  getPieceAt "e4" (boardState s') = None /\
  getSceneObject (Some "pawn_white_5") (scene s')
  = Some (setPosition (onSquare (position (childNamed "d5" (scene s))))
            (childNamed "pawn_white_5" (scene s))) /\
  (forall c, getPieceAt "d5" (boardState s) = Some c ->
     getPiecePosition c (boardState s') = None /\
     getSceneObject (Some c) (scene s')
     = option_map hide (getSceneObject (Some c) (scene s))) /\
  (forall k, k <> "pawn_white_5" -> getPieceAt "d5" (boardState s) <> Some k ->
     getPiecePosition k (boardState s') = getPiecePosition k (boardState s) /\
     getSceneObject (Some k) (scene s') = getSceneObject (Some k) (scene s)) /\
  outside s' = outside s.
Proof.
  apply (movePieceOnBoard_relocates_and_captures beforeCentreCapture
           "e4" "d5" "pawn_white_5"
           (childNamed "pawn_white_5" (scene beforeCentreCapture))
           (childNamed "d5" (scene beforeCentreCapture))).
  - apply wellFormedb_sound; vm_compute; reflexivity.
  - vm_compute; reflexivity.
  - discriminate.
  - vm_compute; reflexivity.
  - vm_compute; reflexivity.
Defined.

(** ** Nothing leaves the scene *)

Lemma evolves_refl (sc : list Object3D) : evolves sc sc.
Proof.
  induction sc as [|o rest IH]; simpl; [exact I|].
  split; [reflexivity|]. split; [intros H; exact H | exact IH].
Qed.

Lemma evolves_trans (a b c : list Object3D) :
  evolves a b -> evolves b c -> evolves a c.
Proof.
  revert b c. induction a as [|x a IH]; intros [|y b] [|z c]; simpl;
    try tauto.
  intros (Hn & Hv & Hrest) (Hn' & Hv' & Hrest').
  split; [congruence|]. split; [intros H; apply Hv, Hv', H|].
  exact (IH b c Hrest Hrest').
Qed.

Lemma evolves_app (sc extra : list Object3D) : evolves sc (sc ++ extra).
Proof.
  induction sc as [|o rest IH]; simpl; [exact I|].
  split; [reflexivity|]. split; [intros H; exact H | exact IH].
Qed.

Lemma evolves_updateObject (n : string) (f : Object3D -> Object3D)
  (sc : list Object3D) :
  (forall o, name (f o) = name o) ->
  (forall o, visible (f o) = true -> visible o = true) ->
  evolves sc (updateObject n f sc).
Proof.
  intros Hname Hvisible. induction sc as [|o rest IH]; simpl; [exact I|].
  destruct (name o =? n); simpl.
  - split; [apply Hname|]. split; [apply Hvisible | apply evolves_refl].
  - split; [reflexivity|]. split; [intros H; exact H | exact IH].
Qed.

Lemma evolves_hide (sc0 sc : list Object3D) (n : string) :
  evolves sc0 sc -> evolves sc0 (updateObject n hide sc).
Proof.
  intros H. apply (evolves_trans _ sc); [exact H|].
  apply evolves_updateObject; [intros o; reflexivity|].
  intros o Hv; discriminate.
Qed.

Lemma evolves_removePieceFromBoard (sc0 sc : list Object3D)
  (object : option Object3D) :
  evolves sc0 sc -> evolves sc0 (removePieceFromBoard object sc).
Proof.
  destruct object as [o|]; [apply evolves_hide | intros H; exact H].
Qed.

Lemma evolves_setPosition (sc0 sc : list Object3D) (n : string) (p : Vector3) :
  evolves sc0 sc -> evolves sc0 (updateObject n (setPosition p) sc).
Proof.
  intros H. apply (evolves_trans _ sc); [exact H|].
  apply evolves_updateObject; [intros o; reflexivity|].
  intros o Hv; exact Hv.
Qed.

Lemma evolves_illuminateObject (sc0 sc : list Object3D)
  (object : option Object3D) (color : Z) :
  evolves sc0 sc -> evolves sc0 (illuminateObject object color sc).
Proof.
  intros H. destruct object as [o|]; [|exact H].
  apply (evolves_trans _ sc); [exact H|].
  apply evolves_updateObject; [intros x; reflexivity|].
  intros x Hv; exact Hv.
Qed.

Lemma evolves_illuminateSquares (sc0 sc : list Object3D)
  (positions : list string) (color : Z) :
  evolves sc0 sc -> evolves sc0 (illuminateSquares positions color sc).
Proof.
  unfold illuminateSquares. revert sc.
  induction positions as [|p rest IH]; intros sc H; simpl; [exact H|].
  apply IH, evolves_illuminateObject, H.
Qed.

Lemma evolves_added (sc0 sc extra : list Object3D) :
  evolves sc0 sc -> evolves sc0 (sc ++ extra).
Proof.
  intros H. apply (evolves_trans _ sc); [exact H | apply evolves_app].
Qed.

(** What was found under a name is still found under it, and stays hidden
    if it was. *)
Lemma evolves_getSceneObject (sc sc' : list Object3D) (n : string)
  (o : Object3D) :
  evolves sc sc' ->
  getSceneObject (Some n) sc = Some o ->
  exists o', getSceneObject (Some n) sc' = Some o' /\
             (visible o = false -> visible o' = false).
Proof.
  simpl. revert sc'. induction sc as [|x rest IH]; intros [|x' rest']; simpl;
    try discriminate; try tauto.
  intros (Hn & Hv & Hrest). rewrite Hn.
  destruct (name x =? n).
  - intros Hfound. inversion Hfound; subst. exists x'. split; [reflexivity|].
    intros Hhidden. destruct (visible x') eqn:Hx'; [|reflexivity].
    rewrite (Hv eq_refl) in Hhidden. discriminate.
  - apply IH; exact Hrest.
Qed.

Section SceneOverTime.

Context {G : Type} {engine : RulesEngine G}.

Ltac evolve :=
  cbv zeta;
  repeat first
    [ progress cbn [scene set_scene set_boardState set_selectedPiece
                    set_validMoves set_previousMove set_isPlayerTurn
                    set_deferredResolve set_dom set_game postMessage
                    logSubmission]
    | apply evolves_removePieceFromBoard
    | apply evolves_hide
    | apply evolves_setPosition
    | apply evolves_illuminateObject
    | apply evolves_illuminateSquares
    | apply evolves_added
    | match goal with
      | H : evolves ?a ?b |- evolves ?a ?b => exact H
      | |- context [match ?x with _ => _ end] => destruct x
      end ].

Lemma evolves_movePieceOnBoard (from to : string) (sc0 : list Object3D)
  (s : State G) :
  evolves sc0 (scene s) -> evolves sc0 (scene (movePieceOnBoard from to s)).
Proof. intros H. unfold movePieceOnBoard. evolve. Qed.

Lemma evolves_castleRook (move : Move) (to : string) (sc0 : list Object3D)
  (s : State G) :
  evolves sc0 (scene s) -> evolves sc0 (scene (castleRook move to s)).
Proof.
  intros H. unfold castleRook.
  destruct (isKingSideCastling move), (isQueenSideCastling move);
    repeat match goal with
           | |- context [match truthy ?x with _ => _ end] => destruct (truthy x)
           end;
    repeat apply evolves_movePieceOnBoard; exact H.
Qed.

Lemma evolves_captureEnPassantPawn (sc0 : list Object3D) (s : State G) :
  evolves sc0 (scene s) -> evolves sc0 (scene (captureEnPassantPawn s)).
Proof. intros H. unfold captureEnPassantPawn. evolve. Qed.

Lemma evolves_removePawn (sc0 : list Object3D) (s : State G) :
  evolves sc0 (scene s) -> evolves sc0 (scene (removePawn s)).
Proof. intros H. unfold removePawn. evolve. Qed.

Lemma evolves_addPieceAt (object : option Object3D) (to : string)
  (sc0 : list Object3D) (s : State G) :
  evolves sc0 (scene s) -> evolves sc0 (scene (addPieceAt object to s)).
Proof. intros H. unfold addPieceAt. evolve. Qed.

Lemma evolves_setAndIlluminatePreviousMove (move : option Move)
  (sc0 : list Object3D) (s : State G) :
  evolves sc0 (scene s) ->
  evolves sc0 (scene (setAndIlluminatePreviousMove move s)).
Proof.
  intros H. unfold setAndIlluminatePreviousMove, illuminatePreviousMove,
    deilluminateOlderPreviousMove.
  destruct move, (previousMove s); evolve.
Qed.

Lemma evolves_unsetSelectedPieceAndValidMoves (sc0 : list Object3D)
  (s : State G) :
  evolves sc0 (scene s) ->
  evolves sc0 (scene (unsetSelectedPieceAndValidMoves s)).
Proof.
  intros H. unfold unsetSelectedPieceAndValidMoves, unsetValidMoves,
    unsetSelectedPiece, deilluminateValidMoves, deilluminatePiece,
    deilluminateObject.
  evolve.
Qed.

Lemma evolves_finish (b : bool) (move : Move) (from to : string)
  (sc0 : list Object3D) (s : State G) :
  evolves sc0 (scene s) ->
  evolves sc0
    (scene (showVerdictIfNecessary
              (set_isPlayerTurn b
                 (setAndIlluminatePreviousMove (Some move)
                    (movePieceOnBoard from to s))))).
Proof.
  intros H. rewrite (proj2 (showVerdictIfNecessary_board _)).
  change (evolves sc0 (scene (setAndIlluminatePreviousMove (Some move)
                                (movePieceOnBoard from to s)))).
  apply evolves_setAndIlluminatePreviousMove, evolves_movePieceOnBoard, H.
Qed.

Lemma evolves_special_moves (move : Move) (to : string) (sc0 : list Object3D)
  (s : State G) :
  evolves sc0 (scene s) ->
  evolves sc0
    (scene (let s2 := if isCastlingMove move then castleRook move to s else s in
            if isEnPassantMove move then captureEnPassantPawn s2 else s2)).
Proof.
  intros H. cbv zeta. destruct (isEnPassantMove move), (isCastlingMove move);
    repeat first [apply evolves_captureEnPassantPawn | apply evolves_castleRook];
    exact H.
Qed.

Lemma evolves_removePawnAndAddPromotedPiece (piece : option string)
  (to : string) (sc0 : list Object3D) (s : State G) :
  evolves sc0 (scene s) ->
  evolves sc0 (scene (snd (removePawnAndAddPromotedPiece piece to s))).
Proof.
  intros H. unfold removePawnAndAddPromotedPiece, addPromotedPiece.
  destruct (truthy piece) as [t|]; [|exact H].
  destruct (truthy (selectedPiece s)); [|exact H].
  destruct (getPromotionPieceObject t (scene (removePawn s))); cbn [snd].
  - apply evolves_addPieceAt, evolves_removePawn, H.
  - apply evolves_removePawn, H.
Qed.

Lemma evolves_promotePiece (promotion from to : string) (sc0 : list Object3D)
  (s : State G) :
  evolves sc0 (scene s) ->
  evolves sc0 (scene (snd (promotePiece promotion from to s))).
Proof.
  intros H. unfold promotePiece, removePawnPieceAndAddPromotedPiece.
  destruct (getPieceCharacterToPiece promotion (isPlayerTurn s) (scene s));
    cbn [snd]; [|exact H].
  destruct (getSceneObject (getPieceAt from (boardState s)) (scene s));
    [|exact H].
  apply evolves_addPieceAt. unfold removePawnPiece. evolve.
Qed.

Lemma evolves_executeHuman (piece : option string) (from to : string)
  (move : Move) (sc0 : list Object3D) (s : State G) :
  evolves sc0 (scene s) ->
  evolves sc0 (scene (snd (executeHuman piece from to move s))).
Proof.
  intros H. unfold executeHuman.
  pose proof (evolves_special_moves move to sc0 s H) as Hs3. cbv zeta in *.
  set (s3 := if isEnPassantMove move
             then captureEnPassantPawn
                    (if isCastlingMove move then castleRook move to s else s)
             else if isCastlingMove move then castleRook move to s else s) in *.
  destruct (isPromotionMove move).
  - pose proof (evolves_removePawnAndAddPromotedPiece piece to sc0 s3 Hs3) as Hstep.
    destruct (removePawnAndAddPromotedPiece piece to s3) as [[[]|] s4];
      cbn [snd] in *; [apply evolves_finish|]; exact Hstep.
  - cbn [snd]. apply evolves_finish, Hs3.
Qed.

Lemma evolves_executeBot (from to promotion : string) (move : Move)
  (sc0 : list Object3D) (s : State G) :
  evolves sc0 (scene s) ->
  evolves sc0 (scene (snd (executeBot from to promotion move s))).
Proof.
  intros H. unfold executeBot.
  pose proof (evolves_special_moves move to sc0 s H) as Hs3. cbv zeta in *.
  set (s3 := if isEnPassantMove move
             then captureEnPassantPawn
                    (if isCastlingMove move then castleRook move to s else s)
             else if isCastlingMove move then castleRook move to s else s) in *.
  destruct (negb (promotion =? "")).
  - pose proof (evolves_promotePiece promotion from to sc0 s3 Hs3) as Hstep.
    destruct (promotePiece promotion from to s3) as [[[]|] s4];
      cbn [snd] in *; [apply evolves_finish|]; exact Hstep.
  - cbn [snd]. apply evolves_finish, Hs3.
Qed.

Lemma evolves_moveSelectedPiece_resume (piece : option string)
  (from to : string) (sc0 : list Object3D) (s : State G) :
  evolves sc0 (scene s) ->
  evolves sc0 (scene (snd (moveSelectedPiece_resume piece from to s))).
Proof.
  intros H. unfold moveSelectedPiece_resume, tryFinally.
  assert (Hsubmit : evolves sc0
            (scene (snd (moveSelectedPiece_submit piece from to s)))).
  { destruct (game_move (game s)
                (mkRequest from to (getPromotionPieceMoveCharacter piece)))
      as [[move g']|] eqn:Hmove.
    - rewrite (moveSelectedPiece_submit_accepted piece from to s move g' Hmove).
      apply evolves_executeHuman. exact H.
    - unfold moveSelectedPiece_submit, bind, gameMove. rewrite Hmove.
      exact H. }
  destruct (moveSelectedPiece_submit piece from to s) as [c s'].
  cbn [snd] in *. apply evolves_unsetSelectedPieceAndValidMoves, Hsubmit.
Qed.

Lemma evolves_moveSelectedPieceAndTriggerBotMove (to : string)
  (sc0 : list Object3D) (s : State G) :
  evolves sc0 (scene s) ->
  evolves sc0 (scene (moveSelectedPieceAndTriggerBotMove to s)).
Proof.
  intros H. unfold moveSelectedPieceAndTriggerBotMove, moveSelectedPiece.
  destruct (truthy (selectedPiece s)) as [sel|]; [|exact H].
  destruct (truthy (getPiecePosition sel (boardState s))) as [from|];
    [|exact H].
  pose proof (evolves_moveSelectedPiece_resume None from to sc0 s H) as Hstep.
  destruct (shouldPromote sel to); [destruct (promotion_modal (dom s))|];
    try (destruct (moveSelectedPiece_resume None from to s) as [c s'];
         rewrite names_triggerBotMove; exact Hstep).
  exact H.
Qed.

Lemma evolves_onPromote (choice : option string) (sc0 : list Object3D)
  (s : State G) :
  evolves sc0 (scene s) -> evolves sc0 (scene (onPromote true choice s)).
Proof.
  intros H. unfold onPromote.
  destruct (deferredResolve s) as [suspended|]; [|exact H].
  cbn [negb]. cbv zeta.
  destruct (promotion_modal (dom (set_deferredResolve None s)));
    match goal with
    | |- context [moveSelectedPiece_resume ?p ?f ?t ?x] =>
        pose proof (evolves_moveSelectedPiece_resume p f t sc0 x H) as Hstep;
        destruct (moveSelectedPiece_resume p f t x) as [c s3]
    end;
    rewrite names_triggerBotMove; exact Hstep.
Qed.

Lemma evolves_playBotMessage (message : string) (sc0 : list Object3D)
  (s : State G) :
  evolves sc0 (scene s) -> evolves sc0 (scene (playBotMessage message s)).
Proof.
  intros H. unfold playBotMessage, onBotMessage.
  destruct (negb (includes "bestmove" message)); [exact H|].
  destruct (getBestMoveDetails message) as [[[from to] promotion]|];
    [|exact H].
  destruct (game_move (game s) (mkRequest from to promotion))
    as [[move g']|] eqn:Hmove.
  - rewrite (onBotMessage_move_accepted from to promotion s move g' Hmove).
    apply evolves_executeBot. exact H.
  - unfold onBotMessage_move, bind, gameMove. rewrite Hmove. exact H.
Qed.

Lemma evolves_setAndIlluminateSelectedPiece (o : Object3D)
  (sc0 : list Object3D) (s : State G) :
  evolves sc0 (scene s) ->
  evolves sc0 (scene (setAndIlluminateSelectedPiece o s)).
Proof.
  intros H. unfold setAndIlluminateSelectedPiece, illuminatePiece. evolve.
Qed.

Lemma evolves_setAndIlluminateValidMovesFor (p : option string)
  (sc0 : list Object3D) (s : State G) :
  evolves sc0 (scene s) ->
  evolves sc0 (scene (setAndIlluminateValidMovesFor p s)).
Proof.
  intros H. unfold setAndIlluminateValidMovesFor, illuminateValidMoves. evolve.
Qed.

Lemma evolves_onClick (hits : list string) (sc0 : list Object3D)
  (s : State G) :
  evolves sc0 (scene s) -> evolves sc0 (scene (onClick hits s)).
Proof.
  intros H. unfold onClick.
  destruct (negb (isPlayerTurn s)); [exact H|].
  destruct (truthy (selectedPiece s)) as [sel|] eqn:Hsel.
  - unfold handleSecondPlayerInteraction. rewrite Hsel.
    destruct (getInteractedObject hits s) as [o|]; [|exact H].
    destruct (truthy (checkAndGetIfPiece o (boardState s))) as [piece|];
      [|apply evolves_moveSelectedPieceAndTriggerBotMove, H].
    unfold handleSecondPieceInteraction. cbv zeta.
    destruct (checkAndGetValidMoveForSelectedPiece
                (getPiecePosition piece (boardState s)) s) as [move|],
             (getSceneObject (Some piece) (scene s)) as [pieceObject|],
             (truthy (getPiecePosition piece (boardState s))) as [t|];
      try exact H;
      try (apply evolves_moveSelectedPieceAndTriggerBotMove, H);
      apply evolves_setAndIlluminateValidMovesFor,
        evolves_setAndIlluminateSelectedPiece,
        evolves_unsetSelectedPieceAndValidMoves, H.
  - unfold handleFirstPlayerInteraction.
    destruct (getInteractedObject hits s) as [o|]; [|exact H].
    cbv zeta.
    apply evolves_setAndIlluminateValidMovesFor,
      evolves_setAndIlluminateSelectedPiece, H.
Qed.

(** X9.  Nothing leaves the scene and nothing hidden comes back: after
    any sequence of clicks, promotion-form submissions and messages of the
    search process, every child the scene had is still in its place under
    its name, shown only if it was shown before, and the children added
    since come after them; so a name that found a child still finds one,
    and a hidden one (a captured piece, a promoted pawn) if it found a
    hidden one. *)
Theorem nothing_leaves_the_scene (es : list Event) (s : State G) :
  evolves (scene s) (scene (deliverAll es s)) /\
  forall (n : string) (o : Object3D),
    getSceneObject (Some n) (scene s) = Some o ->
    exists o', getSceneObject (Some n) (scene (deliverAll es s)) = Some o' /\
               (visible o = false -> visible o' = false).
Proof.
  assert (Hall : forall sc0, evolves sc0 (scene s) ->
                   evolves sc0 (scene (deliverAll es s))).
  { unfold deliverAll. revert s.
    induction es as [|e rest IH]; intros s sc0 H; [exact H|].
    cbn [fold_left]. apply IH.
    destruct e as [hits|choice|message]; cbn [deliver].
    - apply evolves_onClick, H.
    - apply evolves_onPromote, H.
    - apply evolves_playBotMessage, H. }
  pose proof (Hall (scene s) (evolves_refl (scene s))) as Hevolves.
  split; [exact Hevolves|].
  intros n o. apply evolves_getSceneObject, Hevolves.
Qed.

End SceneOverTime.

(** ** Picking a piece *)

Lemma checkAndGetIfPiece_piece (o : Object3D) (bs : BoardState) :
  namesPiece (name o) = true -> checkAndGetIfPiece o bs = Some (name o).
Proof.
  unfold namesPiece, checkAndGetIfPiece. intros H.
  destruct (find (fun pieceName => includes pieceName (name o)) pieceNames)
    eqn:Hfind; [reflexivity|].
  apply existsb_exists in H. destruct H as (w & Hin & Hw).
  rewrite (find_none _ _ Hfind w Hin) in Hw. discriminate.
Qed.

Lemma checkAndGetIfPiece_square (o : Object3D) (bs : BoardState) :
  namesPiece (name o) = false ->
  checkAndGetIfPiece o bs = getPieceAt (name o) bs.
Proof.
  unfold namesPiece, checkAndGetIfPiece. intros H.
  destruct (find (fun pieceName => includes pieceName (name o)) pieceNames)
    as [w|] eqn:Hfind; [|reflexivity].
  apply find_some in Hfind. destruct Hfind as [Hin Hw].
  assert (Hex : existsb (fun pieceName => includes pieceName (name o))
                  pieceNames = true)
    by (apply existsb_exists; exists w; split; assumption).
  congruence.
Qed.

Lemma namesPiece_nonempty (n : string) : namesPiece n = true -> n <> "".
Proof. intros H ->. discriminate. Qed.

Section Picking.

Context {G : Type} {engine : RulesEngine G}.

(** The nearest hit is the pick when it is a child that is shown. *)
Lemma getInteractedObject_first (n : string) (more : list string)
  (o : Object3D) (s : State G) :
  getSceneObject (Some n) (scene s) = Some o -> visible o = true ->
  getInteractedObject (n :: more) s = Some o.
Proof.
  intros Ho Hv. unfold getInteractedObject. cbn [flat_map].
  rewrite Ho. cbn [app find]. rewrite Hv. reflexivity.
Qed.

(** X10.  With no piece selected and the player to move, a click whose
    nearest shown hit is a square selects the piece the registry has on
    that square, exactly as a click on the piece itself does; on a square
    where the registry has no piece it changes nothing. *)
Theorem picking_by_square_is_picking_the_piece (s : State G)
  (square : string) (more : list string) (squareObject : Object3D) :
  isPlayerTurn s = true ->
  selectedPiece s = None ->
  namesPiece square = false ->
  getSceneObject (Some square) (scene s) = Some squareObject ->
  visible squareObject = true ->
  (getPieceAt square (boardState s) = None ->
   onClick (square :: more) s = s) /\
  (forall (piece : string) (more' : list string) (pieceObject : Object3D),
     injective (boardState s) ->
     getPiecePosition piece (boardState s) = Some square ->
     namesPiece piece = true ->
     getSceneObject (Some piece) (scene s) = Some pieceObject ->
     visible pieceObject = true ->
     onClick (square :: more) s = onClick (piece :: more') s /\
     selectedPiece (onClick (piece :: more') s) = Some piece).
Proof.
  intros Hturn Hnone Hsquare Hso Hsv.
  pose proof (getSceneObject_name _ _ _ Hso) as Hsname.
  assert (Hclick : forall hits,
            onClick hits s = handleFirstPlayerInteraction hits s).
  { intros hits. unfold onClick. rewrite Hturn, Hnone. reflexivity. }
  split.
  - intros Hempty. rewrite Hclick. unfold handleFirstPlayerInteraction.
    rewrite (getInteractedObject_first square more squareObject s Hso Hsv).
    cbv zeta. unfold setAndIlluminateSelectedPiece.
    rewrite checkAndGetIfPiece_square by (rewrite Hsname; exact Hsquare).
    rewrite Hsname, Hempty. cbn [selectedPiece set_selectedPiece truthy].
    unfold setAndIlluminateValidMovesFor. cbn [truthy].
    destruct s; cbn in Hnone |- *. rewrite Hnone. reflexivity.
  - intros piece more' pieceObject Hinj Hposition Hpiece Hpo Hpv.
    pose proof (getSceneObject_name _ _ _ Hpo) as Hpname.
    assert (Hsame : handleFirstPlayerInteraction (square :: more) s
                    = handleFirstPlayerInteraction (piece :: more') s).
    { unfold handleFirstPlayerInteraction.
      rewrite (getInteractedObject_first square more squareObject s Hso Hsv).
      rewrite (getInteractedObject_first piece more' pieceObject s Hpo Hpv).
      cbv zeta. unfold setAndIlluminateSelectedPiece.
      rewrite checkAndGetIfPiece_square by (rewrite Hsname; exact Hsquare).
      rewrite checkAndGetIfPiece_piece by (rewrite Hpname; exact Hpiece).
      rewrite Hsname, Hpname.
      rewrite (getPieceAt_of_position _ _ _ Hinj Hposition). reflexivity. }
    rewrite !Hclick. split; [exact Hsame|].
    unfold handleFirstPlayerInteraction.
    rewrite (getInteractedObject_first piece more' pieceObject s Hpo Hpv).
    cbv zeta. unfold setAndIlluminateSelectedPiece.
    rewrite checkAndGetIfPiece_piece by (rewrite Hpname; exact Hpiece).
    rewrite Hpname. cbn [selectedPiece set_selectedPiece].
    rewrite (truthy_intro (Some piece) piece eq_refl
               (namesPiece_nonempty piece Hpiece)).
    unfold setAndIlluminateValidMovesFor, illuminatePiece, illuminateValidMoves.
    cbn [selectedPiece set_selectedPiece set_scene set_validMoves].
    rewrite (truthy_intro (Some piece) piece eq_refl
               (namesPiece_nonempty piece Hpiece)).
    reflexivity.
Qed.

End Picking.

(** X10 at work at the start: the e-pawn by its square e2, and the empty
    square e4. *)
Lemma picking_witness :
  onClick ["e4"] (startState centreGame) = startState centreGame /\
  onClick ["e2"] (startState centreGame)
  = onClick ["pawn_white_5"; "e2"] (startState centreGame) /\
  selectedPiece (onClick ["pawn_white_5"; "e2"] (startState centreGame))
  = Some "pawn_white_5".
Proof.
  split.
  - apply (proj1 (picking_by_square_is_picking_the_piece
                    (startState centreGame) "e4" []
                    (childNamed "e4" (scene (startState centreGame)))
                    eq_refl eq_refl eq_refl eq_refl eq_refl)).
    vm_compute; reflexivity.
  - apply (proj2 (picking_by_square_is_picking_the_piece
                    (startState centreGame) "e2" []
                    (childNamed "e2" (scene (startState centreGame)))
                    eq_refl eq_refl eq_refl eq_refl eq_refl)
             "pawn_white_5" ["e2"]
             (childNamed "pawn_white_5" (scene (startState centreGame)))).
    + apply nodupb_sound; vm_compute; reflexivity.
    + vm_compute; reflexivity.
    + vm_compute; reflexivity.
    + vm_compute; reflexivity.
    + vm_compute; reflexivity.
Defined.

(** ** Highlights *)

Lemma lit_name (color : Z) (names : list string) (o : Object3D) :
  name (lit color names o) = name o.
Proof. unfold lit. destruct (existsb _ names); reflexivity. Qed.

Lemma lit_none (color : Z) (o : Object3D) : lit color [] o = o.
Proof. reflexivity. Qed.

Lemma lit_lit (color : Z) (first second : list string) (o : Object3D) :
  lit color second (lit color first o) = lit color (first ++ second) o.
Proof.
  unfold lit at 1. rewrite lit_name. unfold lit. rewrite existsb_app.
  destruct (existsb (String.eqb (name o)) first),
           (existsb (String.eqb (name o)) second); reflexivity.
Qed.

(** A later highlight of the same children covers an earlier one. *)
Lemma lit_over (color color' : Z) (names : list string) (o : Object3D) :
  lit color' names (lit color names o) = lit color' names o.
Proof.
  unfold lit at 1. rewrite lit_name. unfold lit.
  destruct (existsb (String.eqb (name o)) names); reflexivity.
Qed.

Lemma option_map_lit_lit (color : Z) (first second : list string)
  (x : option Object3D) :
  option_map (lit color second) (option_map (lit color first) x)
  = option_map (lit color (first ++ second)) x.
Proof. destruct x as [o|]; [simpl; rewrite lit_lit|]; reflexivity. Qed.

Lemma getSceneObject_illuminateObject (n m : string) (color : Z)
  (sc : list Object3D) :
  getSceneObject (Some n)
    (illuminateObject (getSceneObject (Some m) sc) color sc)
  = option_map (lit color [m]) (getSceneObject (Some n) sc).
Proof.
  destruct (getSceneObject (Some m) sc) as [mo|] eqn:Hm; cbn [illuminateObject].
  - rewrite (getSceneObject_name m sc mo Hm).
    rewrite (getSceneObject_update n m (setEmissive color) sc (fun x => eq_refl)).
    destruct (getSceneObject (Some n) sc) as [o|] eqn:Ho; [|reflexivity].
    cbn [option_map]. unfold lit. cbn [existsb].
    rewrite (getSceneObject_name n sc o Ho), Bool.orb_false_r. reflexivity.
  - destruct (getSceneObject (Some n) sc) as [o|] eqn:Ho; [|reflexivity].
    cbn [option_map]. unfold lit. cbn [existsb].
    rewrite (getSceneObject_name n sc o Ho), Bool.orb_false_r.
    destruct (String.eqb_spec n m) as [->|_]; [congruence | reflexivity].
Qed.

Lemma getSceneObject_illuminateSquares (n : string) (positions : list string)
  (color : Z) (sc : list Object3D) :
  getSceneObject (Some n) (illuminateSquares positions color sc)
  = option_map (lit color (map squareName positions))
      (getSceneObject (Some n) sc).
Proof.
  unfold illuminateSquares. revert sc.
  induction positions as [|p rest IH]; intros sc; cbn [fold_left map].
  - destruct (getSceneObject (Some n) sc); reflexivity.
  - rewrite IH, getSceneObject_illuminateObject, option_map_lit_lit.
    reflexivity.
Qed.

Section Highlights.

Context {G : Type} {engine : RulesEngine G}.

(** The pick of a piece, from a state with nothing picked. *)
Lemma pick_effect (s : State G) (piece : string) (o : Object3D) :
  namesPiece piece = true ->
  name o = piece ->
  let moves := getValidMovesFor (getPiecePosition piece (boardState s)) s in
  let s' := setAndIlluminateValidMovesFor (Some piece)
              (setAndIlluminateSelectedPiece o s) in
  selectedPiece s' = Some piece /\
  validMoves s' = moves /\
  (forall n, getSceneObject (Some n) (scene s')
             = option_map (lit 65280 (piece :: targets moves))
                 (getSceneObject (Some n) (scene s))) /\
  beyondSelection s' = beyondSelection s.
Proof.
  intros Hpiece Hname moves s'.
  pose proof (truthy_intro (Some piece) piece eq_refl
                (namesPiece_nonempty piece Hpiece)) as Htruthy.
  subst s'. unfold setAndIlluminateSelectedPiece.
  rewrite checkAndGetIfPiece_piece by (rewrite Hname; exact Hpiece).
  rewrite Hname. cbn [selectedPiece set_selectedPiece]. rewrite Htruthy.
  unfold setAndIlluminateValidMovesFor, illuminatePiece, illuminateValidMoves.
  rewrite Htruthy.
  cbn [selectedPiece set_selectedPiece set_scene set_validMoves scene
       validMoves boardState].
  rewrite Htruthy.
  cbn [selectedPiece set_selectedPiece set_scene set_validMoves scene
       validMoves boardState].
  split; [reflexivity|]. split; [reflexivity|]. split; [|reflexivity].
  intros n.
  change (getValidMovesFor (getPiecePosition piece (boardState s)) _)
    with moves.
  rewrite getSceneObject_illuminateSquares, getSceneObject_illuminateObject.
  apply (option_map_lit_lit 65280 [piece] (targets moves)).
Qed.

(** The clearing of a pick. *)
Lemma clear_effect (s : State G) :
  let picked := match truthy (selectedPiece s) with
                | Some piece => [piece]
                | None => []
                end in
  let s' := unsetSelectedPieceAndValidMoves s in
  truthy (selectedPiece s') = None /\
  validMoves s' = [] /\
  (forall n, getSceneObject (Some n) (scene s')
             = option_map (lit 0 (picked ++ targets (validMoves s)))
                 (getSceneObject (Some n) (scene s))) /\
  beyondSelection s' = beyondSelection s.
Proof.
  cbv zeta.
  unfold unsetSelectedPieceAndValidMoves, unsetValidMoves, unsetSelectedPiece,
    deilluminateValidMoves, deilluminatePiece, deilluminateObject.
  destruct (truthy (selectedPiece s)) as [piece|] eqn:Hsel;
    cbn [selectedPiece set_selectedPiece set_scene set_validMoves scene
         validMoves boardState truthy].
  - split; [reflexivity|]. split; [reflexivity|]. split; [|reflexivity].
    intros n.
    rewrite getSceneObject_illuminateSquares, getSceneObject_illuminateObject.
    apply option_map_lit_lit.
  - split; [exact Hsel|]. split; [reflexivity|]. split; [|reflexivity].
    intros n. apply getSceneObject_illuminateSquares.
Qed.

(** X11.  With the player to move and nothing picked, a click whose
    nearest shown hit is a child named as a piece, of either colour and
    whether or not the registry knows it, picks that piece: it is the
    selected piece, the valid moves are the engine's moves from its
    registered square (none when it has no square), the piece and the
    destination squares of those moves glow green, every other child and
    every other variable is as before. *)
Theorem picking_lights_the_piece_and_its_moves (s : State G)
  (piece : string) (more : list string) (pieceObject : Object3D) :
  isPlayerTurn s = true ->
  truthy (selectedPiece s) = None ->
  namesPiece piece = true ->
  getSceneObject (Some piece) (scene s) = Some pieceObject ->
  visible pieceObject = true ->
  let moves := match truthy (getPiecePosition piece (boardState s)) with
               | Some square => game_moves (game s) square
               | None => []
               end in
  let s' := onClick (piece :: more) s in
  selectedPiece s' = Some piece /\
  validMoves s' = moves /\
  (forall n, getSceneObject (Some n) (scene s')
             = option_map (lit 65280 (piece :: targets moves))
                 (getSceneObject (Some n) (scene s))) /\
  beyondSelection s' = beyondSelection s.
Proof.
  intros Hturn Hnone Hpiece Hpo Hpv moves s'.
  pose proof (getSceneObject_name _ _ _ Hpo) as Hname.
  pose proof (pick_effect s piece pieceObject Hpiece Hname) as Hpick.
  cbv zeta in Hpick.
  subst s'. unfold onClick. rewrite Hturn, Hnone. cbn [negb].
  unfold handleFirstPlayerInteraction.
  rewrite (getInteractedObject_first piece more pieceObject s Hpo Hpv).
  cbv zeta.
  assert (Hselected : selectedPiece (setAndIlluminateSelectedPiece pieceObject s)
                      = Some piece).
  { unfold setAndIlluminateSelectedPiece.
    rewrite checkAndGetIfPiece_piece by (rewrite Hname; exact Hpiece).
    rewrite Hname. cbn [selectedPiece set_selectedPiece].
    rewrite (truthy_intro (Some piece) piece eq_refl
               (namesPiece_nonempty piece Hpiece)).
    reflexivity. }
  rewrite Hselected. exact Hpick.
Qed.

(** X12.  With a piece picked and the player to move, a click on another
    piece that no valid move of the picked one reaches moves the pick over:
    the piece picked before and the destination squares of its moves go
    dark, whatever highlight they had, then the new piece and the
    destination squares of its moves glow green. *)
Theorem picking_another_piece_moves_the_pick (s : State G)
  (picked piece : string) (more : list string) (pieceObject : Object3D) :
  isPlayerTurn s = true ->
  truthy (selectedPiece s) = Some picked ->
  namesPiece piece = true ->
  getSceneObject (Some piece) (scene s) = Some pieceObject ->
  visible pieceObject = true ->
  checkAndGetValidMoveForSelectedPiece
    (getPiecePosition piece (boardState s)) s = None ->
  let moves := match truthy (getPiecePosition piece (boardState s)) with
               | Some square => game_moves (game s) square
               | None => []
               end in
  let s' := onClick (piece :: more) s in
  selectedPiece s' = Some piece /\
  validMoves s' = moves /\
  (forall n, getSceneObject (Some n) (scene s')
             = option_map
                 (fun o => lit 65280 (piece :: targets moves)
                             (lit 0 (picked :: targets (validMoves s)) o))
                 (getSceneObject (Some n) (scene s))) /\
  beyondSelection s' = beyondSelection s.
Proof.
  intros Hturn Hsel Hpiece Hpo Hpv Hnomove moves s'.
  pose proof (getSceneObject_name _ _ _ Hpo) as Hname.
  destruct (clear_effect s) as (_ & _ & Hcs & Hcb). cbv zeta in Hcs, Hcb.
  rewrite Hsel in Hcs. cbn [app] in Hcs.
  set (cleared := unsetSelectedPieceAndValidMoves s) in *.
  pose proof (pick_effect cleared piece pieceObject Hpiece Hname) as Hpick.
  cbv zeta in Hpick.
  assert (Hregistry : boardState cleared = boardState s)
    by (injection Hcb as H _; exact H).
  assert (Hgame : game cleared = game s)
    by (injection Hcb as _ _ _ _ _ H _ _; exact H).
  unfold getValidMovesFor in Hpick. rewrite Hregistry, Hgame in Hpick.
  fold moves in Hpick.
  subst s'. unfold onClick. rewrite Hturn, Hsel. cbn [negb].
  unfold handleSecondPlayerInteraction. rewrite Hsel.
  rewrite (getInteractedObject_first piece more pieceObject s Hpo Hpv).
  rewrite checkAndGetIfPiece_piece by (rewrite Hname; exact Hpiece).
  rewrite Hname.
  rewrite (truthy_intro (Some piece) piece eq_refl
             (namesPiece_nonempty piece Hpiece)).
  unfold handleSecondPieceInteraction. cbv zeta. rewrite Hnomove, Hpo.
  fold cleared.
  assert (Hselected : selectedPiece (setAndIlluminateSelectedPiece pieceObject cleared)
                      = Some piece).
  { unfold setAndIlluminateSelectedPiece.
    rewrite checkAndGetIfPiece_piece by (rewrite Hname; exact Hpiece).
    rewrite Hname. cbn [selectedPiece set_selectedPiece].
    rewrite (truthy_intro (Some piece) piece eq_refl
               (namesPiece_nonempty piece Hpiece)).
    reflexivity. }
  rewrite Hselected.
  destruct Hpick as (H1 & H2 & H3 & H4).
  split; [exact H1|]. split; [exact H2|]. split.
  - intros n. rewrite H3, Hcs.
    destruct (getSceneObject (Some n) (scene s)); reflexivity.
  - rewrite H4. exact Hcb.
Qed.

End Highlights.

(** X11 at work at the start of a game that goes on with 1. e4: the
    e-pawn, and a pawn of the opponent. *)
Lemma picking_lights_witness :
  (let s := startState centreGame in
   let s' := onClick ["pawn_white_5"; "e2"] s in
   selectedPiece s' = Some "pawn_white_5" /\
   validMoves s' = game_moves (game s) "e2" /\
   (forall n, getSceneObject (Some n) (scene s')
              = option_map
                  (lit 65280 ("pawn_white_5" :: targets (game_moves (game s) "e2")))
                  (getSceneObject (Some n) (scene s))) /\
   beyondSelection s' = beyondSelection s) /\
  (let s := startState centreGame in
   let s' := onClick ["pawn_black_5"; "e7"] s in
   selectedPiece s' = Some "pawn_black_5" /\
   validMoves s' = game_moves (game s) "e7" /\
   (forall n, getSceneObject (Some n) (scene s')
              = option_map
                  (lit 65280 ("pawn_black_5" :: targets (game_moves (game s) "e7")))
                  (getSceneObject (Some n) (scene s))) /\
   beyondSelection s' = beyondSelection s).
Proof.
  split.
  - apply (picking_lights_the_piece_and_its_moves (startState centreGame)
             "pawn_white_5" ["e2"]
             (childNamed "pawn_white_5" (scene (startState centreGame))));
      vm_compute; reflexivity.
  - apply (picking_lights_the_piece_and_its_moves (startState centreGame)
             "pawn_black_5" ["e7"]
             (childNamed "pawn_black_5" (scene (startState centreGame))));
      vm_compute; reflexivity.
Defined.

(** X12 at work: with the e-pawn picked, a click on the king's knight. *)
Lemma picking_another_witness :
  let s := kingPawnPicked in
  let s' := onClick ["knight_white_1"; "g1"] s in
  selectedPiece s' = Some "knight_white_1" /\
  validMoves s' = game_moves (game s) "g1" /\
  (forall n, getSceneObject (Some n) (scene s')
             = option_map
                 (fun o => lit 65280
                             ("knight_white_1" :: targets (game_moves (game s) "g1"))
                             (lit 0 ("pawn_white_5" :: targets (validMoves s)) o))
                 (getSceneObject (Some n) (scene s))) /\
  beyondSelection s' = beyondSelection s.
Proof.
  apply (picking_another_piece_moves_the_pick kingPawnPicked
           "pawn_white_5" "knight_white_1" ["g1"]
           (childNamed "knight_white_1" (scene kingPawnPicked)));
    vm_compute; reflexivity.
Defined.

(** ** The highlight of the last move *)

Lemma updateObject_glow (n : string) (f : Object3D -> Object3D)
  (sc : list Object3D) :
  (forall o, glow (f o) = glow o) ->
  map glow (updateObject n f sc) = map glow sc.
Proof.
  intros Hf. induction sc as [|o rest IH]; simpl; [reflexivity|].
  destruct (name o =? n); simpl; [rewrite Hf; reflexivity | rewrite IH; reflexivity].
Qed.

Lemma removePieceFromBoard_glow (object : option Object3D)
  (sc : list Object3D) :
  map glow (removePieceFromBoard object sc) = map glow sc.
Proof.
  destruct object as [o|]; [|reflexivity].
  apply updateObject_glow. intros x; reflexivity.
Qed.

Lemma setPosition_glow (n : string) (p : Vector3) (sc : list Object3D) :
  map glow (updateObject n (setPosition p) sc) = map glow sc.
Proof. apply updateObject_glow. intros x; reflexivity. Qed.

Lemma getSceneObject_glow (x : option string) (sc sc' : list Object3D) :
  map glow sc = map glow sc' ->
  option_map glow (getSceneObject x sc) = option_map glow (getSceneObject x sc').
Proof.
  destruct x as [n|]; simpl; [|reflexivity].
  revert sc'. induction sc as [|o rest IH]; intros [|o' rest'] H; simpl in *;
    try discriminate; [reflexivity|].
  injection H as Hn He Hrest.
  rewrite Hn. destruct (name o' =? n); simpl.
  - unfold glow. rewrite Hn, He; reflexivity.
  - apply IH; exact Hrest.
Qed.

Lemma lit_glow (color : Z) (names : list string) (o o' : Object3D) :
  glow o = glow o' -> glow (lit color names o) = glow (lit color names o').
Proof.
  unfold glow, lit. intros H. injection H as Hn He. rewrite Hn.
  destruct (existsb (String.eqb (name o')) names); cbn [name emissive setEmissive];
    congruence.
Qed.

(** A child named in [names] glows in [color] after [lit]. *)
Lemma lit_in (color : Z) (names : list string) (o : Object3D) :
  In (name o) names -> emissive (lit color names o) = color.
Proof.
  intros Hin. unfold lit.
  assert (Hex : existsb (String.eqb (name o)) names = true).
  { apply existsb_exists. exists (name o). split; [exact Hin | apply String.eqb_refl]. }
  rewrite Hex. reflexivity.
Qed.

Lemma lit_out (color : Z) (names : list string) (o : Object3D) :
  ~ In (name o) names -> lit color names o = o.
Proof.
  intros Hout. unfold lit.
  destruct (existsb (String.eqb (name o)) names) eqn:Hex; [|reflexivity].
  apply existsb_exists in Hex. destruct Hex as (x & Hin & Heq).
  apply String.eqb_eq in Heq. subst x. contradiction.
Qed.

Section LastMove.

Context {G : Type} {engine : RulesEngine G}.

Ltac glows :=
  cbv zeta;
  repeat first
    [ progress cbn [scene set_scene set_boardState set_selectedPiece
                    set_validMoves set_previousMove set_isPlayerTurn
                    set_deferredResolve set_dom set_game postMessage
                    logSubmission]
    | progress rewrite ?removePieceFromBoard_glow, ?setPosition_glow
    | match goal with
      | |- context [match ?x with _ => _ end] => destruct x
      end ];
  try reflexivity.

Lemma movePieceOnBoard_glow (from to : string) (s : State G) :
  map glow (scene (movePieceOnBoard from to s)) = map glow (scene s).
Proof. unfold movePieceOnBoard. glows. Qed.

Lemma castleRook_glow (move : Move) (to : string) (s : State G) :
  map glow (scene (castleRook move to s)) = map glow (scene s).
Proof.
  unfold castleRook.
  destruct (isKingSideCastling move), (isQueenSideCastling move);
    repeat match goal with
           | |- context [match truthy ?x with _ => _ end] => destruct (truthy x)
           end;
    rewrite ?movePieceOnBoard_glow; reflexivity.
Qed.

Lemma captureEnPassantPawn_glow (s : State G) :
  map glow (scene (captureEnPassantPawn s)) = map glow (scene s).
Proof. unfold captureEnPassantPawn. glows. Qed.

(** The relocation of a move with its special steps: the highlights and
    the variables outside the registry and the scene are as before. *)
Lemma relocation_glow (move : Move) (from to : string) (s : State G) :
  let moved :=
    movePieceOnBoard from to
      (let s2 := if isCastlingMove move then castleRook move to s else s in
       if isEnPassantMove move then captureEnPassantPawn s2 else s2) in
  map glow (scene moved) = map glow (scene s) /\ outside moved = outside s.
Proof.
  cbv zeta. rewrite movePieceOnBoard_glow, movePieceOnBoard_outside.
  destruct (isEnPassantMove move), (isCastlingMove move);
    rewrite ?captureEnPassantPawn_glow, ?captureEnPassantPawn_outside,
      ?castleRook_glow, ?castleRook_outside;
    split; reflexivity.
Qed.

(** The older highlight goes dark, then the ends of the new move glow
    yellow. *)
Lemma setAndIlluminatePreviousMove_effect (move : Move) (s : State G) :
  let s' := setAndIlluminatePreviousMove (Some move) s in
  previousMove s' = Some move /\
  selectedPiece s' = selectedPiece s /\
  validMoves s' = validMoves s /\
  forall n, getSceneObject (Some n) (scene s')
            = option_map
                (fun o => lit 16776960 (endsOf (Some move))
                            (lit 0 (endsOf (previousMove s)) o))
                (getSceneObject (Some n) (scene s)).
Proof.
  cbv zeta. unfold setAndIlluminatePreviousMove, illuminatePreviousMove,
    deilluminateOlderPreviousMove.
  destruct (previousMove s) as [older|];
    cbn [previousMove set_previousMove set_scene scene selectedPiece validMoves];
    (split; [reflexivity|]); (split; [reflexivity|]); (split; [reflexivity|]);
    intros n; rewrite !getSceneObject_illuminateSquares;
    destruct (getSceneObject (Some n) (scene s)); reflexivity.
Qed.

(** The verdict writes to the document only. *)
Lemma showVerdictIfNecessary_only_dom (s : State G) :
  showVerdictIfNecessary s = set_dom (dom (showVerdictIfNecessary s)) s.
Proof.
  destruct s as [bs sc sel vm pm turn dr [pmodal vmodal verdict] g bm sub].
  unfold showVerdictIfNecessary, showGameVerdict, isGameOver,
    showCheckmateVerdict, showDrawVerdict.
  cbn -[append].
  destruct (game_isCheckmate g), verdict, vmodal; cbn -[append];
    destruct (game_isDraw g); reflexivity.
Qed.

(** The highlights once a human move that asks for no promotion choice
    has been executed. *)
Lemma human_move_glow (s : State G) (from to : string) (move : Move) (g' : G) :
  game_move (game s) (mkRequest from to "q") = Some (move, g') ->
  let s' := snd (moveSelectedPiece_resume None from to s) in
  previousMove s' = Some move /\
  forall n, option_map glow (getSceneObject (Some n) (scene s'))
            = option_map
                (fun o => glow
                   (lit 0 (match truthy (selectedPiece s) with
                           | Some sel => [sel]
                           | None => []
                           end ++ targets (validMoves s))
                      (lit 16776960 (endsOf (Some move))
                         (lit 0 (endsOf (previousMove s)) o))))
                (getSceneObject (Some n) (scene s)).
Proof.
  intros Hengine. cbv zeta.
  unfold moveSelectedPiece_resume, tryFinally.
  rewrite (moveSelectedPiece_submit_accepted None from to s move g' Hengine).
  change (getPromotionPieceMoveCharacter None) with "q".
  set (s0 := set_game g' (logSubmission (mkRequest from to "q") s)).
  unfold executeHuman.
  assert (Hskip : (if isPromotionMove move
                   then removePawnAndAddPromotedPiece None to
                          (let s2 := if isCastlingMove move
                                     then castleRook move to s0 else s0 in
                           if isEnPassantMove move
                           then captureEnPassantPawn s2 else s2)
                   else (Normal tt,
                         let s2 := if isCastlingMove move
                                   then castleRook move to s0 else s0 in
                         if isEnPassantMove move
                         then captureEnPassantPawn s2 else s2))
                  = (Normal tt,
                     let s2 := if isCastlingMove move
                               then castleRook move to s0 else s0 in
                     if isEnPassantMove move
                     then captureEnPassantPawn s2 else s2))
    by (destruct (isPromotionMove move); reflexivity).
  cbv zeta in Hskip |- *. rewrite Hskip. clear Hskip.
  destruct (relocation_glow move from to s0) as [Hglow Hout].
  cbv zeta in Hglow, Hout.
  set (moved := movePieceOnBoard from to _) in *.
  destruct (setAndIlluminatePreviousMove_effect move moved)
    as (Hpm & Hsel & Hvm & Hlook).
  cbv zeta in Hpm, Hsel, Hvm, Hlook.
  set (marked := setAndIlluminatePreviousMove (Some move) moved) in *.
  rewrite (showVerdictIfNecessary_only_dom (set_isPlayerTurn false marked)).
  set (d := dom (showVerdictIfNecessary (set_isPlayerTurn false marked))).
  destruct (clear_effect (set_dom d (set_isPlayerTurn false marked)))
    as (_ & _ & Hclear & Hbeyond).
  cbv zeta in Hclear, Hbeyond.
  cbn [selectedPiece validMoves set_dom set_isPlayerTurn scene] in Hclear.
  destruct (unsetSelectedPieceAndValidMoves_effect
              (set_dom d (set_isPlayerTurn false marked)))
    as (_ & _ & _ & _ & _ & Hpmu & _).
  cbv zeta in Hpmu.
  cbn [snd].
  set (final := unsetSelectedPieceAndValidMoves _) in *.
  assert (Hsel0 : selectedPiece moved = selectedPiece s)
    by (injection Hout as H _; exact H).
  assert (Hvm0 : validMoves moved = validMoves s)
    by (injection Hout as _ H _; exact H).
  assert (Hpm0 : previousMove moved = previousMove s)
    by (injection Hout as _ _ H _; exact H).
  split.
  - rewrite Hpmu. exact Hpm.
  - intros n. rewrite Hclear, Hlook, Hsel, Hvm, Hsel0, Hvm0, Hpm0.
    pose proof (getSceneObject_glow (Some n) (scene moved) (scene s0) Hglow)
      as Hn.
    change (scene s0) with (scene s) in Hn.
    destruct (getSceneObject (Some n) (scene moved)) as [o|],
             (getSceneObject (Some n) (scene s)) as [o'|];
      cbn [option_map] in *; try discriminate; [|reflexivity].
    injection Hn as Hn He. f_equal. repeat apply lit_glow.
    unfold glow. rewrite Hn, He. reflexivity.
Qed.

(** The highlights once a move of the opponent without promotion letter
    has been executed. *)
Lemma bot_move_glow (s : State G) (from to : string) (move : Move) (g' : G) :
  game_move (game s) (mkRequest from to "") = Some (move, g') ->
  let s' := snd (onBotMessage_move from to "" s) in
  previousMove s' = Some move /\
  forall n, option_map glow (getSceneObject (Some n) (scene s'))
            = option_map
                (fun o => glow
                   (lit 16776960 (endsOf (Some move))
                      (lit 0 (endsOf (previousMove s)) o)))
                (getSceneObject (Some n) (scene s)).
Proof.
  intros Hengine. cbv zeta.
  rewrite (onBotMessage_move_accepted from to "" s move g' Hengine).
  set (s0 := set_game g' (logSubmission (mkRequest from to "") s)).
  unfold executeBot. cbn [String.eqb negb].
  destruct (relocation_glow move from to s0) as [Hglow Hout].
  cbv zeta in Hglow, Hout |- *.
  set (moved := movePieceOnBoard from to _) in *.
  destruct (setAndIlluminatePreviousMove_effect move moved)
    as (Hpm & _ & _ & Hlook).
  cbv zeta in Hpm, Hlook.
  set (marked := setAndIlluminatePreviousMove (Some move) moved) in *.
  rewrite (showVerdictIfNecessary_only_dom (set_isPlayerTurn true marked)).
  cbn [snd previousMove scene set_dom set_isPlayerTurn].
  assert (Hpm0 : previousMove moved = previousMove s)
    by (injection Hout as _ _ H _; exact H).
  split; [exact Hpm|].
  intros n. rewrite Hlook, Hpm0.
  pose proof (getSceneObject_glow (Some n) (scene moved) (scene s0) Hglow)
    as Hn.
  change (scene s0) with (scene s) in Hn.
  destruct (getSceneObject (Some n) (scene moved)) as [o|],
           (getSceneObject (Some n) (scene s)) as [o'|];
    cbn [option_map] in *; try discriminate; [|reflexivity].
  injection Hn as Hn He. f_equal. repeat apply lit_glow.
  unfold glow. rewrite Hn, He. reflexivity.
Qed.

Lemma emissive_of_glow (x : option Object3D) (o : Object3D)
  (f : Object3D -> Object3D) :
  option_map glow x = option_map (fun o => glow (f o)) (Some o) ->
  option_map emissive x = Some (emissive (f o)).
Proof.
  destruct x as [y|]; cbn [option_map]; [|discriminate].
  unfold glow. intros H. injection H as _ He. rewrite He. reflexivity.
Qed.

(** X13.  The highlight of the last move.  After a move of the opponent
    without promotion letter both ends of the move glow yellow, the older
    highlight having gone dark first.  After a move of the player that
    asks for no promotion choice the same is done, and then the clearing
    of the pick darkens the picked piece and every destination square of
    its valid moves: the destination of the move just made, being one of
    them, ends dark, and only the origin glows. *)
Theorem last_move_highlight :
  (forall (s : State G) (to sel from : string) (move : Move) (g' : G),
     truthy (selectedPiece s) = Some sel ->
     truthy (getPiecePosition sel (boardState s)) = Some from ->
     shouldPromote sel to = false ->
     game_move (game s) (mkRequest from to "q") = Some (move, g') ->
     let s' := moveSelectedPieceAndTriggerBotMove to s in
     previousMove s' = Some move /\
     (forall n, option_map glow (getSceneObject (Some n) (scene s'))
                = option_map
                    (fun o => glow
                       (lit 0 (sel :: targets (validMoves s))
                          (lit 16776960 (endsOf (Some move))
                             (lit 0 (endsOf (previousMove s)) o))))
                    (getSceneObject (Some n) (scene s))) /\
     (forall toObject,
        In (m_to move) (map m_to (validMoves s)) ->
        getSceneObject (Some (squareName (m_to move))) (scene s)
        = Some toObject ->
        option_map emissive
          (getSceneObject (Some (squareName (m_to move))) (scene s'))
        = Some 0%Z) /\
     (forall fromObject,
        ~ In (squareName (m_from move)) (sel :: targets (validMoves s)) ->
        getSceneObject (Some (squareName (m_from move))) (scene s)
        = Some fromObject ->
        option_map emissive
          (getSceneObject (Some (squareName (m_from move))) (scene s'))
        = Some 16776960%Z)) /\
  (forall (s : State G) (message from to : string) (move : Move) (g' : G),
     includes "bestmove" message = true ->
     getBestMoveDetails message = Some (from, to, "") ->
     game_move (game s) (mkRequest from to "") = Some (move, g') ->
     let s' := playBotMessage message s in
     previousMove s' = Some move /\
     (forall n, option_map glow (getSceneObject (Some n) (scene s'))
                = option_map
                    (fun o => glow
                       (lit 16776960 (endsOf (Some move))
                          (lit 0 (endsOf (previousMove s)) o)))
                    (getSceneObject (Some n) (scene s))) /\
     (forall n o,
        In n (endsOf (Some move)) ->
        getSceneObject (Some n) (scene s) = Some o ->
        option_map emissive (getSceneObject (Some n) (scene s'))
        = Some 16776960%Z)).
Proof.
  split.
  - intros s to sel from move g' Hsel Hfrom Hpromote Hengine s'.
    destruct (human_move_glow s from to move g' Hengine) as [Hpm Hlook].
    cbv zeta in Hpm, Hlook. rewrite Hsel in Hlook. cbn [app] in Hlook.
    assert (Hrun : previousMove s'
                   = previousMove (snd (moveSelectedPiece_resume None from to s))
                   /\ scene s'
                      = scene (snd (moveSelectedPiece_resume None from to s))).
    { subst s'. unfold moveSelectedPieceAndTriggerBotMove, moveSelectedPiece.
      rewrite Hsel, Hfrom, Hpromote.
      destruct (moveSelectedPiece_resume None from to s) as [[[]|] s1];
        split; reflexivity. }
    destruct Hrun as [-> ->].
    split; [exact Hpm|]. split; [exact Hlook|]. split.
    + intros toObject Hin Hto.
      pose proof (Hlook (squareName (m_to move))) as H. rewrite Hto in H.
      rewrite (emissive_of_glow _ _ _ H). f_equal.
      apply lit_in. rewrite !lit_name.
      rewrite (getSceneObject_name _ _ _ Hto).
      right. unfold targets. apply in_map. exact Hin.
    + intros fromObject Hout Hfromsq.
      pose proof (Hlook (squareName (m_from move))) as H. rewrite Hfromsq in H.
      rewrite (emissive_of_glow _ _ _ H). f_equal.
      rewrite lit_out.
      * apply lit_in. rewrite lit_name.
        rewrite (getSceneObject_name _ _ _ Hfromsq). left; reflexivity.
      * rewrite !lit_name. rewrite (getSceneObject_name _ _ _ Hfromsq).
        exact Hout.
  - intros s message from to move g' Hbest Hdetails Hengine s'.
    destruct (bot_move_glow s from to move g' Hengine) as [Hpm Hlook].
    cbv zeta in Hpm, Hlook.
    assert (Hrun : s' = snd (onBotMessage_move from to "" s)).
    { subst s'. unfold playBotMessage, onBotMessage.
      rewrite Hbest, Hdetails. reflexivity. }
    rewrite Hrun.
    split; [exact Hpm|]. split; [exact Hlook|].
    intros n o Hin Ho.
    pose proof (Hlook n) as H. rewrite Ho in H.
    rewrite (emissive_of_glow _ _ _ H). f_equal.
    apply lit_in. rewrite lit_name.
    rewrite (getSceneObject_name _ _ _ Ho). exact Hin.
Qed.

End LastMove.

(** X13 at work: 2. exd5 by the player leaves e4 yellow and d5 dark;
    1... d5 by the opponent leaves d7 and d5 yellow. *)
Lemma last_move_highlight_witness :
  (let s' := moveSelectedPieceAndTriggerBotMove "d5" beforeCentreCapture in
   option_map emissive (getSceneObject (Some "d5") (scene s')) = Some 0%Z /\
   option_map emissive (getSceneObject (Some "e4") (scene s'))
   = Some 16776960%Z) /\
  (let s' := playBotMessage "bestmove d7d5" afterKingPawn in
   option_map emissive (getSceneObject (Some "d7") (scene s'))
   = Some 16776960%Z /\
   option_map emissive (getSceneObject (Some "d5") (scene s'))
   = Some 16776960%Z).
Proof.
  pose proof (proj1 (@last_move_highlight Replay replayEngine)
                beforeCentreCapture "d5" "pawn_white_5" "e4"
                (mkMove "w" "e4" "d5" "p" (Some "p") None "c" "exd5")
                (replayAfter (game beforeCentreCapture) (mkRequest "e4" "d5" "q"))
                eq_refl eq_refl eq_refl eq_refl) as Hhuman.
  pose proof (proj2 (@last_move_highlight Replay replayEngine)
                afterKingPawn "bestmove d7d5" "d7" "d5"
                (mkMove "b" "d7" "d5" "p" None None "b" "d5")
                (replayAfter (game afterKingPawn) (mkRequest "d7" "d5" ""))
                eq_refl eq_refl eq_refl) as Hbot.
  cbv zeta in Hhuman, Hbot.
  destruct Hhuman as (_ & _ & Hto & Hfrom).
  destruct Hbot as (_ & _ & Hends).
  split; [split|split].
  - apply (Hto (childNamed "d5" (scene beforeCentreCapture)));
      [left; reflexivity | reflexivity].
  - apply (Hfrom (childNamed "e4" (scene beforeCentreCapture)));
      [|reflexivity].
    vm_compute. intros [H|[H|H]]; [discriminate | discriminate | exact H].
  - apply (Hends "d7" (childNamed "d7" (scene afterKingPawn)));
      [left; reflexivity | reflexivity].
  - apply (Hends "d5" (childNamed "d5" (scene afterKingPawn)));
      [right; left; reflexivity | reflexivity].
Defined.

(** ** Whose turn it is, and what is asked of the search process *)

Section Turns.

Context {G : Type} {engine : RulesEngine G}.

Lemma outside_fields (s s' : State G) :
  outside s' = outside s ->
  selectedPiece s' = selectedPiece s /\ validMoves s' = validMoves s /\
  previousMove s' = previousMove s /\ isPlayerTurn s' = isPlayerTurn s /\
  game s' = game s /\ botMessages s' = botMessages s.
Proof.
  unfold outside. intros H. injection H as H1 H2 H3 H4 H5 H6 H7 H8 H9.
  repeat split; assumption.
Qed.

Lemma kept_botMessages (s s' : State G) :
  kept s' = kept s -> botMessages s' = botMessages s.
Proof. unfold kept. intros H. injection H as H1 H2 H3 H4. exact H3. Qed.

(** A human move that asks for no promotion choice and that the engine
    accepts runs to its end. *)
Lemma human_move_completes (s : State G) (from to : string) (move : Move)
  (g' : G) :
  game_move (game s) (mkRequest from to "q") = Some (move, g') ->
  exists s', moveSelectedPiece_resume None from to s = (Normal tt, s') /\
             isPlayerTurn s' = false /\
             game s' = g' /\
             botMessages s' = botMessages s.
Proof.
  intros Hengine.
  unfold moveSelectedPiece_resume, tryFinally.
  rewrite (moveSelectedPiece_submit_accepted None from to s move g' Hengine).
  change (getPromotionPieceMoveCharacter None) with "q".
  set (s0 := set_game g' (logSubmission (mkRequest from to "q") s)).
  unfold executeHuman.
  destruct (relocation_glow move from to s0) as [_ Hout].
  cbv zeta in Hout |- *.
  set (s3 := if isEnPassantMove move
             then captureEnPassantPawn
                    (if isCastlingMove move then castleRook move to s0 else s0)
             else if isCastlingMove move then castleRook move to s0 else s0) in *.
  assert (Hskip : (if isPromotionMove move
                   then removePawnAndAddPromotedPiece None to s3
                   else (Normal tt, s3)) = (Normal tt, s3))
    by (destruct (isPromotionMove move); reflexivity).
  rewrite Hskip. clear Hskip.
  set (moved := movePieceOnBoard from to s3) in *.
  set (marked := setAndIlluminatePreviousMove (Some move) moved).
  rewrite (showVerdictIfNecessary_only_dom (set_isPlayerTurn false marked)).
  set (d := dom (showVerdictIfNecessary (set_isPlayerTurn false marked))).
  destruct (unsetSelectedPieceAndValidMoves_effect
              (set_dom d (set_isPlayerTurn false marked)))
    as (_ & _ & _ & _ & _ & _ & Hturn & _ & _ & Hgame & Hposted & _).
  cbv zeta in Hturn, Hgame, Hposted.
  eexists. split; [reflexivity|].
  rewrite Hturn, Hgame, Hposted.
  cbn [isPlayerTurn game botMessages set_dom set_isPlayerTurn].
  split; [reflexivity|].
  destruct (dom_game_of_outside _ _ Hout) as [_ Hg].
  pose proof (setAndIlluminatePreviousMove_kept (Some move) moved) as Hk.
  fold marked in Hk.
  split.
  - unfold marked.
    rewrite (proj2 (setAndIlluminatePreviousMove_dom_game (Some move) moved)).
    exact Hg.
  - rewrite (kept_botMessages _ _ Hk).
    exact (proj2 (proj2 (proj2 (proj2 (proj2 (outside_fields _ _ Hout)))))).
Qed.

(** A move of the opponent without promotion letter that the engine
    accepts runs to its end. *)
Lemma bot_move_completes (s : State G) (from to : string) (move : Move)
  (g' : G) :
  game_move (game s) (mkRequest from to "") = Some (move, g') ->
  exists s', onBotMessage_move from to "" s = (Normal tt, s') /\
             isPlayerTurn s' = true /\
             game s' = g' /\
             botMessages s' = botMessages s /\
             selectedPiece s' = selectedPiece s /\
             validMoves s' = validMoves s.
Proof.
  intros Hengine.
  rewrite (onBotMessage_move_accepted from to "" s move g' Hengine).
  set (s0 := set_game g' (logSubmission (mkRequest from to "") s)).
  unfold executeBot. cbn [String.eqb negb].
  destruct (relocation_glow move from to s0) as [_ Hout].
  cbv zeta in Hout |- *.
  set (moved := movePieceOnBoard from to _) in *.
  destruct (setAndIlluminatePreviousMove_effect move moved)
    as (_ & Hsel & Hvm & _).
  cbv zeta in Hsel, Hvm.
  set (marked := setAndIlluminatePreviousMove (Some move) moved) in *.
  rewrite (showVerdictIfNecessary_only_dom (set_isPlayerTurn true marked)).
  eexists. split; [reflexivity|].
  cbn [isPlayerTurn game botMessages selectedPiece validMoves set_dom
       set_isPlayerTurn].
  split; [reflexivity|].
  destruct (dom_game_of_outside _ _ Hout) as [_ Hg].
  pose proof (setAndIlluminatePreviousMove_kept (Some move) moved) as Hk.
  fold marked in Hk.
  destruct (outside_fields _ _ Hout) as (Hs0 & Hv0 & _ & _ & _ & Hb0).
  split; [|split; [|split]].
  - unfold marked.
    rewrite (proj2 (setAndIlluminatePreviousMove_dom_game (Some move) moved)).
    exact Hg.
  - rewrite (kept_botMessages _ _ Hk). exact Hb0.
  - rewrite Hsel. exact Hs0.
  - rewrite Hvm. exact Hv0.
Qed.

(** X14.  The turn and the search requests.  A move of the player that
    asks for no promotion choice and that the engine accepts hands the turn
    to the opponent and posts the position after the move and then
    [go depth 15], whether or not that move ended the game.  When nothing
    is picked, or the picked identity has no square in the registry, the
    flow makes no move and posts the same two messages for the position as
    it stands.  A move of the opponent that the engine accepts hands the
    turn to the player and posts nothing.  While the turn is not the
    player's, clicks change nothing. *)
Theorem turns_and_search_requests :
  (forall (s : State G) (to sel from : string) (move : Move) (g' : G),
     truthy (selectedPiece s) = Some sel ->
     truthy (getPiecePosition sel (boardState s)) = Some from ->
     shouldPromote sel to = false ->
     game_move (game s) (mkRequest from to "q") = Some (move, g') ->
     let s' := moveSelectedPieceAndTriggerBotMove to s in
     isPlayerTurn s' = false /\
     game s' = g' /\
     botMessages s'
     = (botMessages s
        ++ [("position fen " ++ game_fen g')%string; "go depth 15"])%list) /\
  (forall (s : State G) (to : string),
     truthy (selectedPiece s) = None \/
     (exists sel, truthy (selectedPiece s) = Some sel /\
                  truthy (getPiecePosition sel (boardState s)) = None) ->
     moveSelectedPieceAndTriggerBotMove to s
     = postMessage "go depth 15"
         (postMessage ("position fen " ++ game_fen (game s)) s)) /\
  (forall (s : State G) (message from to : string) (move : Move) (g' : G),
     includes "bestmove" message = true ->
     getBestMoveDetails message = Some (from, to, "") ->
     game_move (game s) (mkRequest from to "") = Some (move, g') ->
     let s' := playBotMessage message s in
     isPlayerTurn s' = true /\
     game s' = g' /\
     botMessages s' = botMessages s /\
     selectedPiece s' = selectedPiece s /\
     validMoves s' = validMoves s) /\
  (forall (s : State G) (clicks : list (list string)),
     isPlayerTurn s = false ->
     deliverAll (map Click clicks) s = s).
Proof.
  split; [|split; [|split]].
  - intros s to sel from move g' Hsel Hfrom Hpromote Hengine s'.
    destruct (human_move_completes s from to move g' Hengine)
      as (s1 & Hrun & Hturn & Hgame & Hposted).
    subst s'. unfold moveSelectedPieceAndTriggerBotMove, moveSelectedPiece.
    rewrite Hsel, Hfrom, Hpromote, Hrun.
    cbn [outcomeOf triggerBotMove]. unfold makeBotMove.
    cbn [isPlayerTurn game botMessages postMessage].
    rewrite Hturn, Hgame, Hposted, <- app_assoc. repeat split; reflexivity.
  - intros s to [Hnone|(sel & Hsel & Hnowhere)];
      unfold moveSelectedPieceAndTriggerBotMove, moveSelectedPiece.
    + rewrite Hnone. reflexivity.
    + rewrite Hsel, Hnowhere. reflexivity.
  - intros s message from to move g' Hbest Hdetails Hengine s'.
    destruct (bot_move_completes s from to move g' Hengine)
      as (s1 & Hrun & Hfacts).
    subst s'. unfold playBotMessage, onBotMessage.
    rewrite Hbest, Hdetails. cbn [negb]. rewrite Hrun. exact Hfacts.
  - intros s clicks Hturn. unfold deliverAll.
    induction clicks as [|hits rest IH]; [reflexivity|].
    cbn [map fold_left deliver].
    assert (Hlocked : onClick hits s = s)
      by (unfold onClick; rewrite Hturn; reflexivity).
    rewrite Hlocked. exact IH.
Qed.

End Turns.

(** X14 at work: 2. exd5 by the player, the reply 1... d5 of the opponent,
    and a move asked for with nothing picked. *)
Lemma turns_witness :
  (let s' := moveSelectedPieceAndTriggerBotMove "d5" beforeCentreCapture in
   isPlayerTurn s' = false /\
   botMessages s'
   = (botMessages beforeCentreCapture
      ++ ["position fen (position)"; "go depth 15"])%list) /\
  moveSelectedPieceAndTriggerBotMove "e4" (startState centreGame)
  = postMessage "go depth 15"
      (postMessage "position fen (position)" (startState centreGame)) /\
  isPlayerTurn (playBotMessage "bestmove d7d5" afterKingPawn) = true /\
  deliverAll (map Click [["pawn_white_4"; "d2"]; ["d4"]]) afterKingPawn
  = afterKingPawn.
Proof.
  split; [|split; [|split]].
  - destruct (proj1 (@turns_and_search_requests Replay replayEngine)
                beforeCentreCapture "d5" "pawn_white_5" "e4"
                (mkMove "w" "e4" "d5" "p" (Some "p") None "c" "exd5")
                (replayAfter (game beforeCentreCapture) (mkRequest "e4" "d5" "q"))
                eq_refl eq_refl eq_refl eq_refl) as (Hturn & _ & Hposted).
    split; [exact Hturn | exact Hposted].
  - exact (proj1 (proj2 (@turns_and_search_requests Replay replayEngine))
             (startState centreGame) "e4" (or_introl eq_refl)).
  - exact (proj1 (proj1 (proj2 (proj2 (@turns_and_search_requests
                                         Replay replayEngine)))
                    afterKingPawn "bestmove d7d5" "d7" "d5"
                    (mkMove "b" "d7" "d5" "p" None None "b" "d5")
                    (replayAfter (game afterKingPawn) (mkRequest "d7" "d5" ""))
                    eq_refl eq_refl eq_refl)).
  - exact (proj2 (proj2 (proj2 (@turns_and_search_requests
                                  Replay replayEngine)))
             afterKingPawn [["pawn_white_4"; "d2"]; ["d4"]] eq_refl).
Defined.

(** ** A promotion with no piece chosen *)

Section NoChoice.

Context {G : Type} {engine : RulesEngine G}.

Lemma kept_submissions (s s' : State G) :
  kept s' = kept s -> submissions s' = submissions s.
Proof. unfold kept. intros H. injection H as H1 H2 H3 H4. exact H4. Qed.

Lemma outside_submissions (s s' : State G) :
  outside s' = outside s -> submissions s' = submissions s.
Proof.
  unfold outside. intros H. injection H as H1 H2 H3 H4 H5 H6 H7 H8 H9.
  exact H9.
Qed.

(** A choice that is [undefined] or empty is no choice. *)
Lemma moveSelectedPiece_resume_no_choice (piece : option string)
  (from to : string) (s : State G) :
  truthy piece = None ->
  moveSelectedPiece_resume piece from to s
  = moveSelectedPiece_resume None from to s.
Proof.
  destruct piece as [[|c p]|]; intros H; try discriminate; reflexivity.
Qed.

(** X15.  A promotion with no piece chosen.  When the flow asks for a
    promotion choice and gets none (the form is submitted with no piece
    checked, or the promotion modal is not in the document), the move is
    submitted with letter [q], so the engine promotes to a queen; the
    program then skips its promotion step and relocates the pawn: the pawn
    identity stands on the destination in the registry and no child is
    added to the scene. *)
Theorem promotion_without_a_choice_moves_the_pawn (s : State G)
  (to sel from : string) (choice : option string) (move : Move) (g' : G)
  (anchor : Object3D) :
  injective (boardState s) ->
  truthy (selectedPiece s) = Some sel ->
  truthy (getPiecePosition sel (boardState s)) = Some from ->
  shouldPromote sel to = true ->
  truthy (knownPromotionPiece sel to choice s) = None ->
  getPositionObject to (scene s) = Some anchor ->
  game_move (game s) (mkRequest from to "q") = Some (move, g') ->
  isCastlingMove move = false ->
  isEnPassantMove move = false ->
  let s' := playHumanMove to choice s in
  submissions s' = (submissions s ++ [mkRequest from to "q"])%list /\
  game s' = g' /\
  getPiecePosition sel (boardState s') = Some to /\
  map name (scene s') = map name (scene s).
Proof.
  intros Hinj Hsel Hfrom Hpromote Hchoice Hanchor Hengine Hcastle Hep s'.
  assert (Hmover : truthy (getPieceAt from (boardState s)) = Some sel).
  { pose proof Hsel as H. apply truthy_Some in H. destruct H as [_ Hselne].
    pose proof Hfrom as H. apply truthy_Some in H. destruct H as [Hposition _].
    apply truthy_intro; [|exact Hselne].
    apply getPieceAt_of_position; assumption. }
  (* what the flow does once it holds no choice, from a state that differs
     from [s] in the document and the wait only *)
  assert (Hcore : forall x : State G,
            boardState x = boardState s -> scene x = scene s ->
            game x = game s -> submissions x = submissions s ->
            let y := snd (moveSelectedPiece_resume None from to x) in
            submissions y = (submissions s ++ [mkRequest from to "q"])%list /\
            game y = g' /\
            getPiecePosition sel (boardState y) = Some to /\
            map name (scene y) = map name (scene s)).
  { intros x Hxb Hxs Hxg Hxsub. cbv zeta.
    rewrite <- Hxg in Hengine.
    unfold moveSelectedPiece_resume, tryFinally.
    rewrite (moveSelectedPiece_submit_accepted None from to x move g' Hengine).
    change (getPromotionPieceMoveCharacter None) with "q".
    set (x0 := set_game g' (logSubmission (mkRequest from to "q") x)).
    unfold executeHuman. rewrite Hcastle, Hep.
    assert (Hskip : (if isPromotionMove move
                     then removePawnAndAddPromotedPiece None to x0
                     else (Normal tt, x0)) = (Normal tt, x0))
      by (destruct (isPromotionMove move); reflexivity).
    rewrite Hskip. clear Hskip. cbn [snd].
    set (moved := movePieceOnBoard from to x0).
    rewrite (showVerdictIfNecessary_only_dom
               (set_isPlayerTurn false
                  (setAndIlluminatePreviousMove (Some move) moved))).
    match goal with
    | |- context [unsetSelectedPieceAndValidMoves ?z] =>
        destruct (unsetSelectedPieceAndValidMoves_effect z)
          as (Hub & Hug & _ & _ & _ & _ & _ & _ & _ & Hgame & _ & Hsub);
        cbv zeta in Hub, Hug, Hgame, Hsub;
        rewrite Hub, Hgame, Hsub, (names_of_geometry _ _ Hug)
    end.
    cbn [boardState scene game submissions set_dom set_isPlayerTurn].
    rewrite (proj1 (setAndIlluminatePreviousMove_board (Some move) moved)).
    rewrite (names_of_geometry _ _
               (proj2 (setAndIlluminatePreviousMove_board (Some move) moved))).
    rewrite (proj2 (setAndIlluminatePreviousMove_dom_game (Some move) moved)).
    assert (Hsubmitted : submissions
                           (setAndIlluminatePreviousMove (Some move) moved)
                         = (submissions s ++ [mkRequest from to "q"])%list).
    { rewrite (kept_submissions _ _
                 (setAndIlluminatePreviousMove_kept (Some move) moved)).
      unfold moved.
      rewrite (outside_submissions _ _ (movePieceOnBoard_outside from to x0)).
      unfold x0. cbn [submissions set_game logSubmission]. rewrite Hxsub.
      reflexivity. }
    split; [exact Hsubmitted|].
    split.
    { destruct (dom_game_of_outside _ _ (movePieceOnBoard_outside from to x0))
        as [_ Hg].
      fold moved in Hg. rewrite Hg. reflexivity. }
    split.
    - unfold moved.
      rewrite (movePieceOnBoard_boardState from to sel x0 anchor).
      + apply getPiecePosition_assign_same.
      + unfold x0. cbn [boardState set_game logSubmission]. rewrite Hxb.
        exact Hmover.
      + unfold x0. cbn [scene set_game logSubmission]. rewrite Hxs.
        exact Hanchor.
    - unfold moved. rewrite names_movePieceOnBoard.
      unfold x0. cbn [scene set_game logSubmission]. rewrite Hxs.
      reflexivity. }
  subst s'. unfold playHumanMove, moveSelectedPiece.
  rewrite Hsel, Hfrom, Hpromote.
  unfold knownPromotionPiece in Hchoice. rewrite Hpromote in Hchoice.
  destruct (promotion_modal (dom s)) as [display|] eqn:Hmodal.
  - unfold onPromote.
    cbn [deferredResolve set_deferredResolve set_dom dom promotion_modal negb
         sus_from sus_to].
    rewrite (moveSelectedPiece_resume_no_choice choice from to _ Hchoice).
    match goal with
    | |- context [moveSelectedPiece_resume None from to ?x] =>
        pose proof (Hcore x eq_refl eq_refl eq_refl eq_refl) as H;
        cbv zeta in H;
        destruct (moveSelectedPiece_resume None from to x) as [c y]
    end.
    cbn [snd] in H. destruct c as [[]|]; exact H.
  - pose proof (Hcore s eq_refl eq_refl eq_refl eq_refl) as H.
    cbv zeta in H.
    destruct (moveSelectedPiece_resume None from to s) as [c y].
    cbn [snd] in H. destruct c as [[]|]; exact H.
Qed.

End NoChoice.

(** X15 at work on 5. bxa8 with the form submitted empty: the engine is
    asked for a queen, the registry has the pawn on a8. *)
Lemma no_choice_witness :
  let s' := playHumanMove "a8" None beforePromotionClick in
  submissions s'
  = (submissions beforePromotionClick ++ [mkRequest "b7" "a8" "q"])%list /\
  game s' = replayAfter (game beforePromotionClick) (mkRequest "b7" "a8" "q") /\
  getPiecePosition "pawn_white_1" (boardState s') = Some "a8" /\
  map name (scene s') = map name (scene beforePromotionClick).
Proof.
  apply (promotion_without_a_choice_moves_the_pawn beforePromotionClick
           "a8" "pawn_white_1" "b7" None
           (mkMove "w" "b7" "a8" "p" (Some "r") (Some "q") "cp" "bxa8=Q")
           (replayAfter (game beforePromotionClick) (mkRequest "b7" "a8" "q"))
           (childNamed "a8" (scene beforePromotionClick))).
  - apply injectiveb_sound; vm_compute; reflexivity.
  - vm_compute; reflexivity.
  - vm_compute; reflexivity.
  - vm_compute; reflexivity.
  - vm_compute; reflexivity.
  - vm_compute; reflexivity.
  - vm_compute; reflexivity.
  - vm_compute; reflexivity.
  - vm_compute; reflexivity.
Defined.

(** ** En passant and castling keep the two boards together *)

Lemma occupied_delete (bs : BoardState) (square v k : string) :
  isDictionary bs -> injective bs ->
  getPieceAt v bs = Some k ->
  occupied square (delete k bs) = occupied square bs && negb (square =? v).
Proof.
  intros Hdict Hinj Hat. apply getPieceAt_In in Hat.
  apply Bool.eq_iff_eq_true.
  rewrite Bool.andb_true_iff, Bool.negb_true_iff, String.eqb_neq,
    !occupied_true_iff.
  split.
  - intros [k' Hin]. apply In_delete in Hin. destruct Hin as [Hin Hne].
    split; [exists k'; exact Hin|].
    intros ->. apply Hne. apply (injective_unique bs k' k v); assumption.
  - intros [[k' Hin] Hsq]. exists k'. apply In_delete. split; [exact Hin|].
    intros ->. apply Hsq. apply (dictionary_unique bs k); assumption.
Qed.

(** What a relocation leaves on the squares it does not touch. *)
Lemma relocation_keeps_others (bs : BoardState) (to p k : string) :
  k <> p -> getPieceAt to bs <> Some k ->
  getPiecePosition k
    (assign p to
       (match truthy (getPieceAt to bs) with
        | Some toPiece => delete toPiece bs
        | None => bs
        end))
  = getPiecePosition k bs.
Proof.
  intros Hkp Hkc.
  rewrite (getPiecePosition_assign_other p k to) by exact Hkp.
  destruct (getPieceAt to bs) as [[|c r]|]; cbn [truthy]; try reflexivity.
  apply getPiecePosition_delete_other. intros ->. apply Hkc; reflexivity.
Qed.

Lemma enPassantBoardChangeb_sound {G : Type} {engine : RulesEngine G}
  (g g' : G) (from to captured : string) :
  enPassantBoardChangeb g g' from to captured = true ->
  enPassantBoardChange g g' from to captured.
Proof.
  unfold enPassantBoardChangeb, enPassantBoardChange. rewrite forallb_forall.
  intros H square Hin. apply Bool.eqb_prop, H, Hin.
Qed.

Lemma castleBoardChangeb_sound {G : Type} {engine : RulesEngine G}
  (g g' : G) (from to rookFrom rookTo : string) :
  castleBoardChangeb g g' from to rookFrom rookTo = true ->
  castleBoardChange g g' from to rookFrom rookTo.
Proof.
  unfold castleBoardChangeb, castleBoardChange. rewrite forallb_forall.
  intros H square Hin. apply Bool.eqb_prop, H, Hin.
Qed.

Section SpecialMoves.

Context {G : Type} {engine : RulesEngine G}.

(** The registry and the engine after a move of the player that asks for
    no promotion choice: the registry is the one the relocation leaves. *)
Lemma human_flow_boards (s : State G) (to sel from : string) (move : Move)
  (g' : G) :
  truthy (selectedPiece s) = Some sel ->
  truthy (getPiecePosition sel (boardState s)) = Some from ->
  shouldPromote sel to = false ->
  game_move (game s) (mkRequest from to "q") = Some (move, g') ->
  let s0 := set_game g' (logSubmission (mkRequest from to "q") s) in
  let s' := moveSelectedPieceAndTriggerBotMove to s in
  boardState s'
  = boardState
      (movePieceOnBoard from to
         (let s2 := if isCastlingMove move then castleRook move to s0 else s0 in
          if isEnPassantMove move then captureEnPassantPawn s2 else s2)) /\
  game s' = g'.
Proof.
  intros Hsel Hfrom Hpromote Hengine s0 s'.
  subst s'. unfold moveSelectedPieceAndTriggerBotMove, moveSelectedPiece.
  rewrite Hsel, Hfrom, Hpromote.
  unfold moveSelectedPiece_resume, tryFinally.
  rewrite (moveSelectedPiece_submit_accepted None from to s move g' Hengine).
  change (getPromotionPieceMoveCharacter None) with "q".
  fold s0. unfold executeHuman. cbv zeta.
  set (s3 := if isEnPassantMove move
             then captureEnPassantPawn
                    (if isCastlingMove move then castleRook move to s0 else s0)
             else if isCastlingMove move then castleRook move to s0 else s0).
  assert (Hskip : (if isPromotionMove move
                   then removePawnAndAddPromotedPiece None to s3
                   else (Normal tt, s3)) = (Normal tt, s3))
    by (destruct (isPromotionMove move); reflexivity).
  rewrite Hskip. clear Hskip.
  cbn [outcomeOf triggerBotMove].
  set (moved := movePieceOnBoard from to s3).
  destruct (finish_board false move moved) as [Hb _]. cbv zeta in Hb.
  pose proof (finish_game false move from to s3) as Hg. fold moved in Hg.
  match goal with
  | |- context [unsetSelectedPieceAndValidMoves ?x] =>
      destruct (unsetSelectedPieceAndValidMoves_effect x)
        as (Hub & _ & _ & _ & _ & _ & _ & _ & _ & Hug & _);
      set (final := unsetSelectedPieceAndValidMoves x) in *
  end.
  destruct (makeBotMove_board final) as [-> _].
  change (game (makeBotMove final)) with (game final).
  rewrite Hub, Hb, Hug, Hg. split; [reflexivity|].
  unfold s3.
  destruct (isEnPassantMove move), (isCastlingMove move);
    rewrite ?(proj2 (dom_game_of_outside _ _ (captureEnPassantPawn_outside _))),
      ?(proj2 (dom_game_of_outside _ _ (castleRook_outside _ _ _)));
    reflexivity.
Qed.

(** The same for a move of the opponent without promotion letter. *)
Lemma bot_flow_boards (s : State G) (message from to : string) (move : Move)
  (g' : G) :
  includes "bestmove" message = true ->
  getBestMoveDetails message = Some (from, to, "") ->
  game_move (game s) (mkRequest from to "") = Some (move, g') ->
  let s0 := set_game g' (logSubmission (mkRequest from to "") s) in
  let s' := playBotMessage message s in
  boardState s'
  = boardState
      (movePieceOnBoard from to
         (let s2 := if isCastlingMove move then castleRook move to s0 else s0 in
          if isEnPassantMove move then captureEnPassantPawn s2 else s2)) /\
  game s' = g'.
Proof.
  intros Hbest Hdetails Hengine s0 s'.
  subst s'. unfold playBotMessage, onBotMessage.
  rewrite Hbest, Hdetails. cbn [negb].
  rewrite (onBotMessage_move_accepted from to "" s move g' Hengine).
  fold s0. unfold executeBot. cbn [String.eqb negb snd]. cbv zeta.
  set (s3 := if isEnPassantMove move
             then captureEnPassantPawn
                    (if isCastlingMove move then castleRook move to s0 else s0)
             else if isCastlingMove move then castleRook move to s0 else s0).
  set (moved := movePieceOnBoard from to s3).
  destruct (finish_board true move moved) as [Hb _]. cbv zeta in Hb.
  pose proof (finish_game true move from to s3) as Hg. fold moved in Hg.
  rewrite Hb, Hg. split; [reflexivity|].
  unfold s3.
  destruct (isEnPassantMove move), (isCastlingMove move);
    rewrite ?(proj2 (dom_game_of_outside _ _ (captureEnPassantPawn_outside _))),
      ?(proj2 (dom_game_of_outside _ _ (castleRook_outside _ _ _)));
    reflexivity.
Qed.

(** The registry after the capture and the relocation of an en passant
    move, against the engine's board. *)
Lemma en_passant_boards (s : State G) (from to p cap : string)
  (previous : Move) (g : G) (anchor : Object3D) :
  wellFormed (boardState s) ->
  (forall square, In square allSquares ->
     occupied square (boardState s) = game_get g square) ->
  previousMove s = Some previous ->
  truthy (getPieceAt (m_to previous) (boardState s)) = Some cap ->
  truthy (getPieceAt from (boardState s)) = Some p ->
  getPieceAt to (boardState s) = None ->
  m_to previous <> from ->
  getPositionObject to (scene s) = Some anchor ->
  enPassantBoardChange g (game s) from to (m_to previous) ->
  let s' := movePieceOnBoard from to (captureEnPassantPawn s) in
  (forall square, In square allSquares ->
     occupied square (boardState s') = game_get (game s) square) /\
  wellFormed (boardState s').
Proof.
  intros Hwf Hsame Hprev Hcap Hmover Hempty Hne Hanchor Hlaw s'.
  pose proof Hwf as (Hdict & Hinj & Hkeys).
  apply truthy_Some in Hcap. destruct Hcap as [Hcap Hcapne].
  pose proof Hmover as Hmover'.
  apply truthy_Some in Hmover'. destruct Hmover' as [Hat Hpne].
  assert (Hpc : p <> cap).
  { intros ->. apply Hne.
    apply (dictionary_unique (boardState s) cap);
      [exact Hdict | apply getPieceAt_In; exact Hcap
       | apply getPieceAt_In; exact Hat]. }
  set (s1 := captureEnPassantPawn s).
  assert (Hb1 : boardState s1 = delete cap (boardState s)).
  { unfold s1, captureEnPassantPawn. rewrite Hprev, Hcap.
    rewrite (truthy_intro _ cap eq_refl Hcapne). reflexivity. }
  assert (Hwf1 : wellFormed (boardState s1))
    by (rewrite Hb1; apply delete_wellFormed; exact Hwf).
  assert (Hmover1 : truthy (getPieceAt from (boardState s1)) = Some p).
  { rewrite Hb1, (getPieceAt_delete_other from p cap _ Hat Hpc).
    apply truthy_intro; [reflexivity | exact Hpne]. }
  assert (Hempty1 : getPieceAt to (boardState s1) = None)
    by (rewrite Hb1; apply getPieceAt_delete_None; exact Hempty).
  assert (Hanchor1 : exists a, getPositionObject to (scene s1) = Some a).
  { apply getSceneObject_Some_iff. unfold s1.
    rewrite names_captureEnPassantPawn.
    apply getSceneObject_Some_iff. exists anchor; exact Hanchor. }
  destruct Hanchor1 as [anchor1 Hanchor1].
  split; [|exact (movePieceOnBoard_wellFormed from to s1 Hwf1)].
  intros square Hsq. subst s'. fold s1.
  rewrite (movePieceOnBoard_boardState from to p s1 anchor1 Hmover1 Hanchor1).
  rewrite (occupied_after_relocation _ from to p square Hwf1 Hmover1).
  rewrite Hb1, (occupied_delete _ square (m_to previous) cap Hdict Hinj Hcap).
  rewrite (Hlaw square Hsq), (Hsame square Hsq).
  destruct (square =? to), (game_get g square), (square =? from),
           (square =? m_to previous); reflexivity.
Qed.

(** X16.  An en passant capture, by the player or by the opponent, on a
    well-formed registry that occupies the engine's squares, with the
    captured pawn where the previous move ended: when the engine's board
    changes as on an en passant capture of that pawn, the registry is well
    formed and occupies the engine's squares again. *)
Theorem en_passant_keeps_the_boards_together :
  (forall (s : State G) (to sel from cap : string) (previous move : Move)
          (g' : G) (anchor : Object3D),
     wellFormed (boardState s) ->
     sameOccupancy s ->
     truthy (selectedPiece s) = Some sel ->
     truthy (getPiecePosition sel (boardState s)) = Some from ->
     shouldPromote sel to = false ->
     previousMove s = Some previous ->
     truthy (getPieceAt (m_to previous) (boardState s)) = Some cap ->
     getPieceAt to (boardState s) = None ->
     m_to previous <> from ->
     getPositionObject to (scene s) = Some anchor ->
     game_move (game s) (mkRequest from to "q") = Some (move, g') ->
     isEnPassantMove move = true ->
     isCastlingMove move = false ->
     enPassantBoardChange (game s) g' from to (m_to previous) ->
     let s' := moveSelectedPieceAndTriggerBotMove to s in
     sameOccupancy s' /\ wellFormed (boardState s')) /\
  (forall (s : State G) (message from to p cap : string)
          (previous move : Move) (g' : G) (anchor : Object3D),
     includes "bestmove" message = true ->
     getBestMoveDetails message = Some (from, to, "") ->
     wellFormed (boardState s) ->
     sameOccupancy s ->
     truthy (getPieceAt from (boardState s)) = Some p ->
     previousMove s = Some previous ->
     truthy (getPieceAt (m_to previous) (boardState s)) = Some cap ->
     getPieceAt to (boardState s) = None ->
     m_to previous <> from ->
     getPositionObject to (scene s) = Some anchor ->
     game_move (game s) (mkRequest from to "") = Some (move, g') ->
     isEnPassantMove move = true ->
     isCastlingMove move = false ->
     enPassantBoardChange (game s) g' from to (m_to previous) ->
     let s' := playBotMessage message s in
     sameOccupancy s' /\ wellFormed (boardState s')).
Proof.
  split.
  - intros s to sel from cap previous move g' anchor Hwf Hsame Hsel Hfrom
      Hpromote Hprev Hcap Hempty Hne Hanchor Hengine Hep Hcastle Hlaw s'.
    assert (Hmover : truthy (getPieceAt from (boardState s)) = Some sel).
    { pose proof Hsel as H. apply truthy_Some in H. destruct H as [_ Hselne].
      pose proof Hfrom as H. apply truthy_Some in H. destruct H as [Hposition _].
      apply truthy_intro; [|exact Hselne].
      apply getPieceAt_of_position; [exact (proj1 (proj2 Hwf)) | exact Hposition]. }
    destruct (human_flow_boards s to sel from move g' Hsel Hfrom Hpromote Hengine)
      as [Hb Hg].
    cbv zeta in Hb, Hg. rewrite Hcastle, Hep in Hb.
    destruct (en_passant_boards
                (set_game g' (logSubmission (mkRequest from to "q") s))
                from to sel cap previous (game s) anchor
                Hwf Hsame Hprev Hcap Hmover Hempty Hne Hanchor Hlaw)
      as [Hocc Hwf'].
    fold s' in Hb, Hg. unfold sameOccupancy. rewrite Hb, Hg.
    split; assumption.
  - intros s message from to p cap previous move g' anchor Hbest Hdetails
      Hwf Hsame Hmover Hprev Hcap Hempty Hne Hanchor Hengine Hep Hcastle
      Hlaw s'.
    destruct (bot_flow_boards s message from to move g' Hbest Hdetails Hengine)
      as [Hb Hg].
    cbv zeta in Hb, Hg. rewrite Hcastle, Hep in Hb.
    destruct (en_passant_boards
                (set_game g' (logSubmission (mkRequest from to "") s))
                from to p cap previous (game s) anchor
                Hwf Hsame Hprev Hcap Hmover Hempty Hne Hanchor Hlaw)
      as [Hocc Hwf'].
    fold s' in Hb, Hg. unfold sameOccupancy. rewrite Hb, Hg.
    split; assumption.
Qed.

(** The registry after the two relocations of a castle, against the
    engine's board. *)
Lemma castle_boards (s : State G) (from to king rook rookFrom rookTo : string)
  (g : G) (kingAnchor rookAnchor : Object3D) :
  wellFormed (boardState s) ->
  (forall square, In square allSquares ->
     occupied square (boardState s) = game_get g square) ->
  truthy (getPieceAt from (boardState s)) = Some king ->
  truthy (getPieceAt rookFrom (boardState s)) = Some rook ->
  from <> rookFrom ->
  rookTo <> from ->
  getPositionObject rookTo (scene s) = Some rookAnchor ->
  getPositionObject to (scene s) = Some kingAnchor ->
  castleBoardChange g (game s) from to rookFrom rookTo ->
  let s' := movePieceOnBoard from to (movePieceOnBoard rookFrom rookTo s) in
  (forall square, In square allSquares ->
     occupied square (boardState s') = game_get (game s) square) /\
  wellFormed (boardState s').
Proof.
  intros Hwf Hsame Hking Hrook Hne Hne' Hra Hka Hlaw s'.
  pose proof Hwf as (Hdict & Hinj & Hkeys).
  pose proof Hking as H. apply truthy_Some in H. destruct H as [Hkat Hkne].
  pose proof Hrook as H. apply truthy_Some in H. destruct H as [Hrat Hrne].
  pose proof (getPieceAt_In _ _ _ Hkat) as Hkin.
  pose proof (getPieceAt_In _ _ _ Hrat) as Hrin.
  assert (Hkr : king <> rook).
  { intros ->. apply Hne.
    apply (dictionary_unique (boardState s) rook); assumption. }
  set (s1 := movePieceOnBoard rookFrom rookTo s).
  pose proof (movePieceOnBoard_wellFormed rookFrom rookTo s Hwf) as Hwf1.
  fold s1 in Hwf1.
  pose proof (movePieceOnBoard_boardState rookFrom rookTo rook s rookAnchor
                Hrook Hra) as Hb1.
  fold s1 in Hb1.
  assert (Hkpos : getPiecePosition king (boardState s) = Some from).
  { destruct (getPiecePosition king (boardState s)) as [v|] eqn:Hv.
    - apply getPiecePosition_In in Hv. f_equal.
      apply (dictionary_unique (boardState s) king); assumption.
    - apply getPiecePosition_None in Hv. exfalso. apply Hv.
      change king with (fst (king, from)). apply in_map; exact Hkin. }
  assert (Hking1 : truthy (getPieceAt from (boardState s1)) = Some king).
  { apply truthy_intro; [|exact Hkne].
    apply getPieceAt_of_position; [exact (proj1 (proj2 Hwf1))|].
    rewrite Hb1, relocation_keeps_others; [exact Hkpos | exact Hkr |].
    intros Hat. apply Hne'. apply getPieceAt_In in Hat.
    apply (dictionary_unique (boardState s) king); assumption. }
  assert (Hka1 : exists a, getPositionObject to (scene s1) = Some a).
  { apply getSceneObject_Some_iff. unfold s1. rewrite names_movePieceOnBoard.
    apply getSceneObject_Some_iff. exists kingAnchor; exact Hka. }
  destruct Hka1 as [kingAnchor1 Hka1].
  split; [|exact (movePieceOnBoard_wellFormed from to s1 Hwf1)].
  intros square Hsq. subst s'. fold s1.
  rewrite (movePieceOnBoard_boardState from to king s1 kingAnchor1 Hking1 Hka1).
  rewrite (occupied_after_relocation _ from to king square Hwf1 Hking1).
  rewrite Hb1.
  rewrite (occupied_after_relocation _ rookFrom rookTo rook square Hwf Hrook).
  rewrite (Hlaw square Hsq), (Hsame square Hsq).
  assert (Hapart : (square =? rookTo) && (square =? from) = false).
  { destruct (String.eqb_spec square rookTo) as [Hr|_]; [|reflexivity].
    destruct (String.eqb_spec square from) as [Hf|_]; [|reflexivity].
    exfalso. apply Hne'. congruence. }
  revert Hapart.
  destruct (square =? to), (square =? rookTo), (game_get g square),
           (square =? from), (square =? rookFrom);
    intros Hapart; try reflexivity; discriminate.
Qed.

(** The rook's step of a castle under its plain notation. *)
Lemma castleRook_is_a_relocation (s : State G) (move : Move)
  (to rook rookFrom rookTo : string) :
  (m_san move = "O-O" /\
   rook = "rook_" ++ (if isPlayerTurn s then "white" else "black") ++ "_1" /\
   rookTo = getPreviousFileSameRankPosition to) \/
  (m_san move = "O-O-O" /\
   rook = "rook_" ++ (if isPlayerTurn s then "white" else "black") ++ "_2" /\
   rookTo = getNextFileSameRankPosition to) ->
  truthy (getPiecePosition rook (boardState s)) = Some rookFrom ->
  isCastlingMove move = true /\
  castleRook move to s = movePieceOnBoard rookFrom rookTo s.
Proof.
  intros [(Hsan & -> & ->)|(Hsan & -> & ->)] Hpos;
    unfold isCastlingMove, castleRook, isKingSideCastling, isQueenSideCastling;
    rewrite Hsan; cbn [String.eqb Ascii.eqb Bool.eqb orb];
    rewrite Hpos; split; reflexivity.
Qed.

(** X17.  A castle under its plain notation ([O-O] or [O-O-O], so one
    that gives no check), by the player or by the opponent, on a
    well-formed registry that occupies the engine's squares: when the
    engine's board changes as on a castle with the rook the program
    relocates, the registry is well formed and occupies the engine's
    squares again. *)
Theorem castling_keeps_the_boards_together :
  (forall (s : State G) (to sel from rook rookFrom rookTo : string)
          (move : Move) (g' : G) (kingAnchor rookAnchor : Object3D),
     wellFormed (boardState s) ->
     sameOccupancy s ->
     truthy (selectedPiece s) = Some sel ->
     truthy (getPiecePosition sel (boardState s)) = Some from ->
     shouldPromote sel to = false ->
     (m_san move = "O-O" /\
      rook = "rook_" ++ (if isPlayerTurn s then "white" else "black") ++ "_1" /\
      rookTo = getPreviousFileSameRankPosition to) \/
     (m_san move = "O-O-O" /\
      rook = "rook_" ++ (if isPlayerTurn s then "white" else "black") ++ "_2" /\
      rookTo = getNextFileSameRankPosition to) ->
     truthy (getPiecePosition rook (boardState s)) = Some rookFrom ->
     from <> rookFrom ->
     rookTo <> from ->
     getPositionObject rookTo (scene s) = Some rookAnchor ->
     getPositionObject to (scene s) = Some kingAnchor ->
     game_move (game s) (mkRequest from to "q") = Some (move, g') ->
     isEnPassantMove move = false ->
     castleBoardChange (game s) g' from to rookFrom rookTo ->
     let s' := moveSelectedPieceAndTriggerBotMove to s in
     sameOccupancy s' /\ wellFormed (boardState s')) /\
  (forall (s : State G) (message from to king rook rookFrom rookTo : string)
          (move : Move) (g' : G) (kingAnchor rookAnchor : Object3D),
     includes "bestmove" message = true ->
     getBestMoveDetails message = Some (from, to, "") ->
     wellFormed (boardState s) ->
     sameOccupancy s ->
     truthy (getPieceAt from (boardState s)) = Some king ->
     (m_san move = "O-O" /\
      rook = "rook_" ++ (if isPlayerTurn s then "white" else "black") ++ "_1" /\
      rookTo = getPreviousFileSameRankPosition to) \/
     (m_san move = "O-O-O" /\
      rook = "rook_" ++ (if isPlayerTurn s then "white" else "black") ++ "_2" /\
      rookTo = getNextFileSameRankPosition to) ->
     truthy (getPiecePosition rook (boardState s)) = Some rookFrom ->
     from <> rookFrom ->
     rookTo <> from ->
     getPositionObject rookTo (scene s) = Some rookAnchor ->
     getPositionObject to (scene s) = Some kingAnchor ->
     game_move (game s) (mkRequest from to "") = Some (move, g') ->
     isEnPassantMove move = false ->
     castleBoardChange (game s) g' from to rookFrom rookTo ->
     let s' := playBotMessage message s in
     sameOccupancy s' /\ wellFormed (boardState s')).
Proof.
  assert (Hrookat : forall (s : State G) (move : Move)
                      (to rook rookFrom rookTo : string),
            wellFormed (boardState s) ->
            (m_san move = "O-O" /\
             rook = "rook_" ++ (if isPlayerTurn s then "white" else "black")
                    ++ "_1" /\
             rookTo = getPreviousFileSameRankPosition to) \/
            (m_san move = "O-O-O" /\
             rook = "rook_" ++ (if isPlayerTurn s then "white" else "black")
                    ++ "_2" /\
             rookTo = getNextFileSameRankPosition to) ->
            truthy (getPiecePosition rook (boardState s)) = Some rookFrom ->
            truthy (getPieceAt rookFrom (boardState s)) = Some rook).
  { intros s move to rook rookFrom rookTo Hwf Hside Hpos.
    apply truthy_Some in Hpos. destruct Hpos as [Hpos _].
    apply truthy_intro;
      [apply getPieceAt_of_position; [exact (proj1 (proj2 Hwf)) | exact Hpos]|].
    destruct Hside as [(_ & -> & _)|(_ & -> & _)];
      destruct (isPlayerTurn s); discriminate. }
  split.
  - intros s to sel from rook rookFrom rookTo move g' kingAnchor rookAnchor
      Hwf Hsame Hsel Hfrom Hpromote Hside Hpos Hne Hne' Hra Hka Hengine Hep
      Hlaw s'.
    assert (Hking : truthy (getPieceAt from (boardState s)) = Some sel).
    { pose proof Hsel as H. apply truthy_Some in H. destruct H as [_ Hselne].
      pose proof Hfrom as H. apply truthy_Some in H. destruct H as [Hposition _].
      apply truthy_intro; [|exact Hselne].
      apply getPieceAt_of_position; [exact (proj1 (proj2 Hwf)) | exact Hposition]. }
    pose proof (Hrookat s move to rook rookFrom rookTo Hwf Hside Hpos) as Hrook.
    set (s0 := set_game g' (logSubmission (mkRequest from to "q") s)).
    destruct (castleRook_is_a_relocation s0 move to rook rookFrom rookTo
                Hside Hpos) as [Hcastle Hstep].
    destruct (human_flow_boards s to sel from move g' Hsel Hfrom Hpromote Hengine)
      as [Hb Hg].
    cbv zeta in Hb, Hg. fold s0 in Hb. rewrite Hcastle, Hep, Hstep in Hb.
    destruct (castle_boards s0 from to sel rook rookFrom rookTo (game s)
                kingAnchor rookAnchor Hwf Hsame Hking Hrook Hne Hne' Hra Hka
                Hlaw) as [Hocc Hwf'].
    fold s' in Hb, Hg. unfold sameOccupancy. rewrite Hb, Hg.
    split; assumption.
  - intros s message from to king rook rookFrom rookTo move g' kingAnchor
      rookAnchor Hbest Hdetails Hwf Hsame Hking Hside Hpos Hne Hne' Hra Hka
      Hengine Hep Hlaw s'.
    pose proof (Hrookat s move to rook rookFrom rookTo Hwf Hside Hpos) as Hrook.
    set (s0 := set_game g' (logSubmission (mkRequest from to "") s)).
    destruct (castleRook_is_a_relocation s0 move to rook rookFrom rookTo
                Hside Hpos) as [Hcastle Hstep].
    destruct (bot_flow_boards s message from to move g' Hbest Hdetails Hengine)
      as [Hb Hg].
    cbv zeta in Hb, Hg. fold s0 in Hb. rewrite Hcastle, Hep, Hstep in Hb.
    destruct (castle_boards s0 from to king rook rookFrom rookTo (game s)
                kingAnchor rookAnchor Hwf Hsame Hking Hrook Hne Hne' Hra Hka
                Hlaw) as [Hocc Hwf'].
    fold s' in Hb, Hg. unfold sameOccupancy. rewrite Hb, Hg.
    split; assumption.
Qed.

End SpecialMoves.

(** X16 at work: 3. exd6 by the player and 3... exd3 by the opponent. *)
Lemma en_passant_boards_witness :
  (sameOccupancy (moveSelectedPieceAndTriggerBotMove "d6" beforeEnPassant) /\
   wellFormed
     (boardState (moveSelectedPieceAndTriggerBotMove "d6" beforeEnPassant))) /\
  (sameOccupancy (playBotMessage "bestmove e4d3" beforeEnPassantByBlack) /\
   wellFormed
     (boardState (playBotMessage "bestmove e4d3" beforeEnPassantByBlack))).
Proof.
  split.
  - apply (proj1 en_passant_keeps_the_boards_together
             beforeEnPassant "d6" "pawn_white_5" "e5" "pawn_black_4"
             (mkMove "b" "d7" "d5" "p" None None "b" "d5")
             (mkMove "w" "e5" "d6" "p" (Some "p") None "e" "exd6")
             (replayAfter (game beforeEnPassant) (mkRequest "e5" "d6" "q"))
             (childNamed "d6" (scene beforeEnPassant))).
    + apply wellFormedb_sound; vm_compute; reflexivity.
    + apply sameOccupancyb_spec; vm_compute; reflexivity.
    + vm_compute; reflexivity.
    + vm_compute; reflexivity.
    + vm_compute; reflexivity.
    + vm_compute; reflexivity.
    + vm_compute; reflexivity.
    + vm_compute; reflexivity.
    + vm_compute; discriminate.
    + vm_compute; reflexivity.
    + vm_compute; reflexivity.
    + vm_compute; reflexivity.
    + vm_compute; reflexivity.
    + apply enPassantBoardChangeb_sound; vm_compute; reflexivity.
  - apply (proj2 en_passant_keeps_the_boards_together
             beforeEnPassantByBlack "bestmove e4d3" "e4" "d3" "pawn_black_5"
             "pawn_white_4"
             (mkMove "w" "d2" "d4" "p" None None "b" "d4")
             (mkMove "b" "e4" "d3" "p" (Some "p") None "e" "exd3")
             (replayAfter (game beforeEnPassantByBlack) (mkRequest "e4" "d3" ""))
             (childNamed "d3" (scene beforeEnPassantByBlack))).
    + vm_compute; reflexivity.
    + vm_compute; reflexivity.
    + apply wellFormedb_sound; vm_compute; reflexivity.
    + apply sameOccupancyb_spec; vm_compute; reflexivity.
    + vm_compute; reflexivity.
    + vm_compute; reflexivity.
    + vm_compute; reflexivity.
    + vm_compute; reflexivity.
    + vm_compute; discriminate.
    + vm_compute; reflexivity.
    + vm_compute; reflexivity.
    + vm_compute; reflexivity.
    + vm_compute; reflexivity.
    + apply enPassantBoardChangeb_sound; vm_compute; reflexivity.
Defined.

(** X17 at work: 4. O-O by the player and 5... O-O-O by the opponent. *)
Lemma castling_boards_witness :
  (sameOccupancy (moveSelectedPieceAndTriggerBotMove "g1" beforeShortCastle) /\
   wellFormed
     (boardState (moveSelectedPieceAndTriggerBotMove "g1" beforeShortCastle))) /\
  (sameOccupancy (playBotMessage "bestmove e8c8" beforeLongCastle) /\
   wellFormed (boardState (playBotMessage "bestmove e8c8" beforeLongCastle))).
Proof.
  split.
  - apply (proj1 castling_keeps_the_boards_together
             beforeShortCastle "g1" "king_white" "e1" "rook_white_1" "h1" "f1"
             (mkMove "w" "e1" "g1" "k" None None "k" "O-O")
             (replayAfter (game beforeShortCastle) (mkRequest "e1" "g1" "q"))
             (childNamed "g1" (scene beforeShortCastle))
             (childNamed "f1" (scene beforeShortCastle))).
    + apply wellFormedb_sound; vm_compute; reflexivity.
    + apply sameOccupancyb_spec; vm_compute; reflexivity.
    + vm_compute; reflexivity.
    + vm_compute; reflexivity.
    + vm_compute; reflexivity.
    + left. split; [reflexivity|]. split; vm_compute; reflexivity.
    + vm_compute; reflexivity.
    + discriminate.
    + discriminate.
    + vm_compute; reflexivity.
    + vm_compute; reflexivity.
    + vm_compute; reflexivity.
    + vm_compute; reflexivity.
    + apply castleBoardChangeb_sound; vm_compute; reflexivity.
  - apply (proj2 castling_keeps_the_boards_together
             beforeLongCastle "bestmove e8c8" "e8" "c8" "king_black"
             "rook_black_2" "a8" "d8"
             (mkMove "b" "e8" "c8" "k" None None "q" "O-O-O")
             (replayAfter (game beforeLongCastle) (mkRequest "e8" "c8" ""))
             (childNamed "c8" (scene beforeLongCastle))
             (childNamed "d8" (scene beforeLongCastle))).
    + vm_compute; reflexivity.
    + vm_compute; reflexivity.
    + apply wellFormedb_sound; vm_compute; reflexivity.
    + apply sameOccupancyb_spec; vm_compute; reflexivity.
    + vm_compute; reflexivity.
    + right. split; [reflexivity|]. split; vm_compute; reflexivity.
    + vm_compute; reflexivity.
    + discriminate.
    + discriminate.
    + vm_compute; reflexivity.
    + vm_compute; reflexivity.
    + vm_compute; reflexivity.
    + vm_compute; reflexivity.
    + apply castleBoardChangeb_sound; vm_compute; reflexivity.
Defined.

(** ** A promotion keeps the squares together *)

Lemma delete_absent (k : string) (bs : BoardState) :
  ~ In k (map fst bs) -> delete k bs = bs.
Proof.
  unfold delete. induction bs as [|[a b] rest IH]; simpl; intros H;
    [reflexivity|].
  destruct (String.eqb_spec a k) as [->|_]; simpl.
  - exfalso. apply H. left; reflexivity.
  - f_equal. apply IH. intros Hin. apply H. right; exact Hin.
Qed.

Lemma occupied_assign (bs : BoardState) (square k v : string) :
  isDictionary bs ->
  occupied square (assign k v bs)
  = (square =? v) || occupied square (delete k bs).
Proof.
  intros Hdict. apply Bool.eq_iff_eq_true.
  rewrite Bool.orb_true_iff, String.eqb_eq, !occupied_true_iff.
  split.
  - intros [k' Hin]. apply (In_assign_iff k v k' square bs Hdict) in Hin.
    destruct Hin as [[_ ->]|[Hin Hne]]; [left; reflexivity|].
    right. exists k'. apply In_delete. split; assumption.
  - intros [->|[k' Hin]].
    + exists k. apply (In_assign_iff k v k v bs Hdict). left; split; reflexivity.
    + apply In_delete in Hin. destruct Hin as [Hin Hne].
      exists k'. apply (In_assign_iff k v k' square bs Hdict).
      right; split; assumption.
Qed.

Section PromotionBoards.

Context {G : Type} {engine : RulesEngine G}.

(** X18.  A promotion of the player to a chosen type, capturing or not, on
    a well-formed registry in lockstep with a numbered scene and on the
    engine's squares: when the engine's board changes as on a plain move,
    the registry occupies the engine's squares again; and when the
    destination was empty the registry is well formed again. *)
Theorem promotion_keeps_the_squares_together (s : State G)
  (to sel from t display : string) (move : Move) (g' : G) (anchor : Object3D) :
  wellFormed (boardState s) ->
  inLockstep (boardState s) (scene s) ->
  sceneNumbered (scene s) ->
  sameOccupancy s ->
  truthy (selectedPiece s) = Some sel ->
  truthy (getPiecePosition sel (boardState s)) = Some from ->
  shouldPromote sel to = true ->
  promotion_modal (dom s) = Some display ->
  In t promotionTypes ->
  from <> to ->
  getSceneObject (Some to) (scene s) = Some anchor ->
  game_move (game s)
    (mkRequest from to (getPromotionPieceMoveCharacter (Some t)))
  = Some (move, g') ->
  isPromotionMove move = true ->
  isCastlingMove move = false ->
  isEnPassantMove move = false ->
  plainBoardChange (game s) g' from to ->
  let s' := playHumanMove to (Some t) s in
  sameOccupancy s' /\
  (getPieceAt to (boardState s) = None -> wellFormed (boardState s')).
Proof.
  intros Hwf Hlock Hnum Hsame Hsel Hfrom Hpromote Hmodal Ht Hft Hanchor
    Hengine Hpromotion Hcastle Hep Hlaw s'.
  pose proof Hwf as (Hdict & Hinj & Hkeys).
  destruct (family_of_type t Ht) as (Hfam & Htne & Hname).
  set (fresh := t ++ "_white_"
                ++ numToString (countNamed (t ++ "_white")
                                  (map name (scene s)) + 1)).
  assert (Hfresh : fresh = (t ++ "_white") ++ "_"
                           ++ numToString (countNamed (t ++ "_white")
                                             (map name (scene s)) + 1))
    by apply Hname.
  assert (Hnew : ~ In fresh (map name (scene s))).
  { rewrite Hfresh. apply numbered_fresh, Hnum, Hfam. }
  assert (Hnewkey : ~ In fresh (map fst (boardState s))).
  { intros Hin. apply Hnew, Hlock, Hin. }
  pose proof Hsel as Hsel'. apply truthy_Some in Hsel'. destruct Hsel' as [_ Hselne].
  pose proof Hfrom as Hfrom'. apply truthy_Some in Hfrom'.
  destruct Hfrom' as [Hposition _].
  pose proof (getPieceAt_of_position _ _ _ Hinj Hposition) as Hat.
  (* the run, up to the executor *)
  subst s'. unfold playHumanMove, moveSelectedPiece.
  rewrite Hsel, Hfrom, Hpromote, Hmodal.
  unfold onPromote.
  cbn [deferredResolve set_deferredResolve set_dom dom promotion_modal negb
       sus_from sus_to].
  unfold moveSelectedPiece_resume, tryFinally.
  match goal with
  | |- context [moveSelectedPiece_submit (Some t) from to ?x] =>
      rewrite (moveSelectedPiece_submit_accepted (Some t) from to x move g' Hengine);
      set (s0 := set_game g'
                   (logSubmission
                      (mkRequest from to
                         (getPromotionPieceMoveCharacter (Some t))) x))
  end.
  unfold executeHuman. rewrite Hcastle, Hep, Hpromotion.
  destruct (promotion_core s0 t to sel anchor Hsel Ht) as (s4 & Hrun & Hboard & _);
    [exact (proj1 (Hnum _ Hfam)) | exact Hanchor |].
  unfold s0 in Hboard.
  cbn [scene boardState set_game logSubmission set_dom set_deferredResolve]
    in Hboard.
  fold fresh in Hboard.
  pose proof (removePawnAndAddPromotedPiece_outside (Some t) to s0) as Hout.
  rewrite Hrun in *. cbn [snd] in Hout.
  assert (Hgame4 : game s4 = g')
    by exact (proj2 (dom_game_of_outside _ _ Hout)).
  pose proof (finish_game false move from to s4) as Hg.
  assert (Hgone : getPieceAt from (boardState s4) = None).
  { rewrite Hboard. apply getPieceAt_assign_None; [|exact Hft].
    apply getPieceAt_delete_found; assumption. }
  rewrite (movePieceOnBoard_no_mover from to s4 Hgone) in Hg |- *.
  destruct (finish_board false move s4) as [Hb _]. cbv zeta in Hb.
  match goal with
  | |- context [unsetSelectedPieceAndValidMoves ?x] =>
      destruct (unsetSelectedPieceAndValidMoves_effect x)
        as (Hub & _ & _ & _ & _ & _ & _ & _ & _ & Hug & _);
      set (final := unsetSelectedPieceAndValidMoves x) in *
  end.
  cbn [outcomeOf triggerBotMove].
  unfold sameOccupancy.
  destruct (makeBotMove_board final) as [-> _].
  change (game (makeBotMove final)) with (game final).
  rewrite Hub, Hb, Hug, Hg, Hgame4, Hboard.
  assert (Hdict1 : isDictionary (delete sel (boardState s)))
    by (apply delete_NoDup; exact Hdict).
  assert (Hfresh1 : ~ In fresh (map fst (delete sel (boardState s)))).
  { intros Hin. apply Hnewkey.
    apply in_map_iff in Hin. destruct Hin as (e & He & Hin).
    apply delete_incl in Hin. rewrite <- He. apply in_map; exact Hin. }
  split.
  - intros square Hsq.
    rewrite (occupied_assign _ square fresh to Hdict1).
    rewrite (delete_absent fresh _ Hfresh1).
    rewrite (occupied_delete _ square from sel Hdict Hinj Hat).
    rewrite (Hlaw square Hsq), (Hsame square Hsq). reflexivity.
  - intros Hempty.
    split; [apply assign_isDictionary; exact Hdict1|].
    split.
    + apply assign_injective;
        [exact Hdict1 | apply delete_NoDup; exact Hinj |].
      intros k' Hin. exfalso. apply delete_incl in Hin.
      apply getPieceAt_None in Hempty. apply Hempty.
      change to with (snd (k', to)). apply in_map; exact Hin.
    + intros Hin. apply assign_keys in Hin. destruct Hin as [Hin|Hin].
      * rewrite Hfresh in Hin. destruct t; [contradiction | discriminate].
      * apply Hkeys. apply in_map_iff in Hin. destruct Hin as (e & He & Hin).
        apply delete_incl in Hin. rewrite <- He. apply in_map; exact Hin.
Qed.

End PromotionBoards.

(** X18 at work: 5. a8=N on the empty a8, and 5. bxa8=Q on the rook. *)
Lemma promotion_boards_witness :
  (sameOccupancy (playHumanMove "a8" (Some "knight") beforeKnightPromotion) /\
   wellFormed
     (boardState (playHumanMove "a8" (Some "knight") beforeKnightPromotion))) /\
  sameOccupancy (playHumanMove "a8" (Some "queen") beforePromotionClick).
Proof.
  split.
  - pose proof (promotion_keeps_the_squares_together beforeKnightPromotion
                  "a8" "pawn_white_1" "a7" "knight" "none"
                  (mkMove "w" "a7" "a8" "p" None (Some "n") "np" "a8=N")
                  (replayAfter (game beforeKnightPromotion)
                     (mkRequest "a7" "a8" "n"))
                  (childNamed "a8" (scene beforeKnightPromotion))) as H.
    cbv zeta in H.
    enough (Hboth :
              sameOccupancy
                (playHumanMove "a8" (Some "knight") beforeKnightPromotion) /\
              (getPieceAt "a8" (boardState beforeKnightPromotion) = None ->
               wellFormed
                 (boardState
                    (playHumanMove "a8" (Some "knight") beforeKnightPromotion)))).
    { destruct Hboth as [Hsquares Hformed].
      split; [exact Hsquares | apply Hformed; vm_compute; reflexivity]. }
    apply H.
    + apply wellFormedb_sound; vm_compute; reflexivity.
    + apply inLockstepb_sound; vm_compute; reflexivity.
    + apply sceneNumberedb_sound; vm_compute; reflexivity.
    + apply sameOccupancyb_spec; vm_compute; reflexivity.
    + vm_compute; reflexivity.
    + vm_compute; reflexivity.
    + vm_compute; reflexivity.
    + vm_compute; reflexivity.
    + simpl; tauto.
    + vm_compute; discriminate.
    + vm_compute; reflexivity.
    + vm_compute; reflexivity.
    + vm_compute; reflexivity.
    + vm_compute; reflexivity.
    + vm_compute; reflexivity.
    + apply plainBoardChangeb_sound; vm_compute; reflexivity.
  - pose proof (promotion_keeps_the_squares_together beforePromotionClick
                  "a8" "pawn_white_1" "b7" "queen" "none"
                  (mkMove "w" "b7" "a8" "p" (Some "r") (Some "q") "cp" "bxa8=Q")
                  (replayAfter (game beforePromotionClick)
                     (mkRequest "b7" "a8" "q"))
                  (childNamed "a8" (scene beforePromotionClick))) as H.
    cbv zeta in H.
    enough (Hboth :
              sameOccupancy
                (playHumanMove "a8" (Some "queen") beforePromotionClick) /\
              (getPieceAt "a8" (boardState beforePromotionClick) = None ->
               wellFormed
                 (boardState
                    (playHumanMove "a8" (Some "queen") beforePromotionClick))))
      by exact (proj1 Hboth).
    apply H.
    + apply wellFormedb_sound; vm_compute; reflexivity.
    + apply inLockstepb_sound; vm_compute; reflexivity.
    + apply sceneNumberedb_sound; vm_compute; reflexivity.
    + apply sameOccupancyb_spec; vm_compute; reflexivity.
    + vm_compute; reflexivity.
    + vm_compute; reflexivity.
    + vm_compute; reflexivity.
    + vm_compute; reflexivity.
    + simpl; tauto.
    + vm_compute; discriminate.
    + vm_compute; reflexivity.
    + vm_compute; reflexivity.
    + vm_compute; reflexivity.
    + vm_compute; reflexivity.
    + vm_compute; reflexivity.
    + apply plainBoardChangeb_sound; vm_compute; reflexivity.
Defined.

(** ** The second click *)

Section SecondClick.

Context {G : Type} {engine : RulesEngine G}.

(** X19.  With a piece picked and the player to move, the second click
    runs the move flow.  On a shown square with no piece on it the flow is
    run to that square, whether or not it is the destination of a valid
    move: the engine alone decides.  On a shown child that stands for a
    piece (the piece or its square) whose square is the destination of a
    valid move, the flow is run to that square. *)
Theorem second_click_runs_the_move (s : State G) (sel : string) :
  isPlayerTurn s = true ->
  truthy (selectedPiece s) = Some sel ->
  (forall (square : string) (more : list string) (o : Object3D),
     getSceneObject (Some square) (scene s) = Some o ->
     visible o = true ->
     namesPiece square = false ->
     truthy (getPieceAt square (boardState s)) = None ->
     onClick (square :: more) s
     = moveSelectedPieceAndTriggerBotMove square s) /\
  (forall (n piece to : string) (more : list string) (o : Object3D)
          (move : Move),
     getSceneObject (Some n) (scene s) = Some o ->
     visible o = true ->
     truthy (checkAndGetIfPiece o (boardState s)) = Some piece ->
     truthy (getPiecePosition piece (boardState s)) = Some to ->
     checkAndGetValidMoveForSelectedPiece
       (getPiecePosition piece (boardState s)) s = Some move ->
     onClick (n :: more) s = moveSelectedPieceAndTriggerBotMove to s).
Proof.
  intros Hturn Hsel.
  assert (Hclick : forall hits,
            onClick hits s = handleSecondPlayerInteraction hits s).
  { intros hits. unfold onClick. rewrite Hturn, Hsel. reflexivity. }
  split.
  - intros square more o Ho Hv Hsquare Hempty.
    pose proof (getSceneObject_name _ _ _ Ho) as Hname.
    rewrite Hclick. unfold handleSecondPlayerInteraction. rewrite Hsel.
    rewrite (getInteractedObject_first square more o s Ho Hv).
    rewrite checkAndGetIfPiece_square by (rewrite Hname; exact Hsquare).
    rewrite Hname, Hempty. reflexivity.
  - intros n piece to more o move Ho Hv Hpiece Hto Hmove.
    rewrite Hclick. unfold handleSecondPlayerInteraction. rewrite Hsel.
    rewrite (getInteractedObject_first n more o s Ho Hv).
    rewrite Hpiece. unfold handleSecondPieceInteraction. cbv zeta.
    rewrite Hmove, Hto. reflexivity.
Qed.

End SecondClick.

(** X19 at work: with the e-pawn picked, a click on e4, a valid
    destination, and one on e5, which is none. *)
Lemma second_click_witness :
  onClick ["e4"] kingPawnPicked
  = moveSelectedPieceAndTriggerBotMove "e4" kingPawnPicked /\
  onClick ["e5"] kingPawnPicked
  = moveSelectedPieceAndTriggerBotMove "e5" kingPawnPicked.
Proof.
  split.
  - exact (proj1 (second_click_runs_the_move kingPawnPicked "pawn_white_5"
                    eq_refl eq_refl)
             "e4" [] (childNamed "e4" (scene kingPawnPicked))
             eq_refl eq_refl eq_refl eq_refl).
  - exact (proj1 (second_click_runs_the_move kingPawnPicked "pawn_white_5"
                    eq_refl eq_refl)
             "e5" [] (childNamed "e5" (scene kingPawnPicked))
             eq_refl eq_refl eq_refl eq_refl).
Defined.

(** X7 at work on the squares of the kings' wings. *)
Lemma file_neighbours_witness :
  getNextFileSameRankPosition (getPreviousFileSameRankPosition "g1") = "g1" /\
  getPreviousFileSameRankPosition (getNextFileSameRankPosition "c8") = "c8".
Proof.
  split.
  - apply (proj1 file_neighbours_undo_each_other "g" "1"%char);
      [simpl; tauto | discriminate].
  - apply (proj1 (proj2 file_neighbours_undo_each_other) "c" "8"%char);
      [simpl; tauto | discriminate].
Defined.

(** ** The opponent's promotion *)

Lemma getSceneObject_app (n : string) (sc extra : list Object3D) (o : Object3D) :
  getSceneObject (Some n) sc = Some o ->
  getSceneObject (Some n) (sc ++ extra) = Some o.
Proof.
  simpl. induction sc as [|x rest IH]; simpl; [discriminate|].
  destruct (name x =? n); [trivial | exact IH].
Qed.

Section OpponentPromotion.

Context {G : Type} {engine : RulesEngine G}.

(** The pawn leaves the registry and is hidden, the clone enters the
    registry under the next name of its family and the scene as its last
    child. *)
Lemma opponent_promotion_core (s : State G) (letter from to p : string)
  (pawn anchor : Object3D) :
  getPieceAt from (boardState s) = Some p ->
  getSceneObject (Some p) (scene s) = Some pawn ->
  getSceneObject (Some to) (scene s) = Some anchor ->
  let family := pieceOfCharacter letter (isPlayerTurn s) in
  countNamed family (map name (scene s)) <> 0 ->
  let fresh := family ++ "_"
               ++ numToString (countNamed family (map name (scene s)) + 1) in
  exists (s4 : State G) (clone : Object3D),
    promotePiece letter from to s = (Normal tt, s4) /\
    boardState s4 = assign fresh to (delete p (boardState s)) /\
    scene s4 = (updateObject p hide (scene s) ++ [clone])%list /\
    name clone = fresh /\
    outside s4 = outside s.
Proof.
  intros Hat Hpawn Hanchor family Hcount fresh.
  pose proof (getSceneObject_name _ _ _ Hpawn) as Hname.
  unfold promotePiece, getPieceCharacterToPiece. fold family.
  destruct (lastOf_nonempty
              (filter (fun o => includes family (name o)) (scene s)))
    as [latest Hlast].
  { rewrite countNamed_objects. exact Hcount. }
  rewrite Hlast, countNamed_objects. fold fresh.
  cbv zeta. rewrite Hat, Hpawn.
  unfold removePawnPieceAndAddPromotedPiece, removePawnPiece, addPieceAt.
  cbn [scene boardState set_scene set_boardState name rename
       removePieceFromBoard].
  rewrite Hname.
  assert (Hto : exists a, getSceneObject (Some to) (updateObject p hide (scene s))
                          = Some a).
  { apply getSceneObject_Some_iff. rewrite names_hide.
    apply getSceneObject_Some_iff. exists anchor; exact Hanchor. }
  destruct Hto as [a Ha]. rewrite Ha.
  eexists. eexists. split; [reflexivity|].
  cbn [scene boardState set_scene set_boardState name].
  repeat split; reflexivity.
Qed.

(** X20.  A promotion of the opponent, capturing or not: a message whose
    move carries a promotion letter and that the engine accepts, on a
    well-formed registry in lockstep with a numbered scene.  The pawn
    leaves the registry and its renderable is hidden; the identity
    [<type>_<colour>_<n+1>] is registered on the destination, with the type
    the letter stands for (queen for a letter that is none of q, n, b, r),
    the colour that [isPlayerTurn] gives (black while it is the opponent's
    turn) and [n] the number of children of that type and colour; that
    identity names no child before and the last child after; the scene is
    numbered again; and when the engine's board changes as on a plain
    move, the registry occupies the engine's squares again, and is well
    formed again if the destination was empty. *)
Theorem opponent_promotion_mints_a_new_identity (s : State G)
  (message from to letter p : string) (move : Move) (g' : G)
  (anchor : Object3D) :
  includes "bestmove" message = true ->
  getBestMoveDetails message = Some (from, to, letter) ->
  letter <> "" ->
  wellFormed (boardState s) ->
  inLockstep (boardState s) (scene s) ->
  sceneNumbered (scene s) ->
  sameOccupancy s ->
  getPieceAt from (boardState s) = Some p ->
  from <> to ->
  getSceneObject (Some to) (scene s) = Some anchor ->
  game_move (game s) (mkRequest from to letter) = Some (move, g') ->
  isCastlingMove move = false ->
  isEnPassantMove move = false ->
  plainBoardChange (game s) g' from to ->
  let family := pieceOfCharacter letter (isPlayerTurn s) in
  let fresh := family ++ "_"
               ++ numToString (countNamed family (map name (scene s)) + 1) in
  let s' := playBotMessage message s in
  getPiecePosition p (boardState s') = None /\
  getPiecePosition fresh (boardState s') = Some to /\
  ~ In fresh (map name (scene s)) /\
  map name (scene s') = (map name (scene s) ++ [fresh])%list /\
  option_map visible (getSceneObject (Some p) (scene s')) = Some false /\
  sceneNumbered (scene s') /\
  sameOccupancy s' /\
  (getPieceAt to (boardState s) = None -> wellFormed (boardState s')).
Proof.
  intros Hbest Hdetails Hletter Hwf Hlock Hnum Hsame Hat Hft Hanchor Hengine
    Hcastle Hep Hlaw family fresh s'.
  pose proof Hwf as (Hdict & Hinj & Hkeys).
  pose proof (pieceOfCharacter_family letter (isPlayerTurn s)) as Hfam.
  fold family in Hfam.
  assert (Hnew : ~ In fresh (map name (scene s)))
    by (apply numbered_fresh, Hnum, Hfam).
  assert (Hnewkey : ~ In fresh (map fst (boardState s)))
    by (intros Hin; apply Hnew, Hlock, Hin).
  pose proof (getPieceAt_In _ _ _ Hat) as Hpin.
  assert (Hpkey : In p (map fst (boardState s)))
    by (change p with (fst (p, from)); apply in_map; exact Hpin).
  assert (Hpfresh : p <> fresh) by (intros ->; contradiction).
  destruct (proj2 (getSceneObject_Some_iff p (scene s)) (Hlock p Hpkey))
    as [pawn Hpawn].
  (* the run, up to the executor *)
  subst s'. unfold playBotMessage, onBotMessage.
  rewrite Hbest, Hdetails. cbn [negb].
  rewrite (onBotMessage_move_accepted from to letter s move g' Hengine).
  set (s0 := set_game g' (logSubmission (mkRequest from to letter) s)).
  unfold executeBot. rewrite Hcastle, Hep.
  rewrite (eqb_neq_false letter "" Hletter). cbn [negb].
  (* the promotion itself *)
  destruct (opponent_promotion_core s0 letter from to p pawn anchor
              Hat Hpawn Hanchor (proj1 (Hnum _ Hfam)))
    as (s4 & clone & Hrun & Hboard & Hscene & Hclone & Hout).
  change (isPlayerTurn s0) with (isPlayerTurn s) in Hboard, Hclone.
  change (scene s0) with (scene s) in Hboard, Hscene, Hclone.
  change (boardState s0) with (boardState s) in Hboard.
  fold family in Hboard, Hclone. fold fresh in Hboard, Hclone.
  rewrite Hrun.
  assert (Hgame4 : game s4 = g')
    by exact (proj2 (dom_game_of_outside _ _ Hout)).
  pose proof (finish_game true move from to s4) as Hg.
  assert (Hgone : getPieceAt from (boardState s4) = None).
  { rewrite Hboard. apply getPieceAt_assign_None; [|exact Hft].
    apply getPieceAt_delete_found; assumption. }
  rewrite (movePieceOnBoard_no_mover from to s4 Hgone) in Hg |- *.
  destruct (finish_board true move s4) as [Hb Hgeo]. cbv zeta in Hb, Hgeo.
  cbn [snd].
  set (final := showVerdictIfNecessary _) in *.
  assert (Hnames : map name (scene final) = (map name (scene s) ++ [fresh])%list).
  { rewrite (names_of_geometry _ _ Hgeo), Hscene, map_app, names_hide.
    cbn [map]. rewrite Hclone. reflexivity. }
  assert (Hdict1 : isDictionary (delete p (boardState s)))
    by (apply delete_NoDup; exact Hdict).
  assert (Hfresh1 : ~ In fresh (map fst (delete p (boardState s)))).
  { intros Hin. apply Hnewkey.
    apply in_map_iff in Hin. destruct Hin as (e & He & Hin).
    apply delete_incl in Hin. rewrite <- He. apply in_map; exact Hin. }
  rewrite Hb, Hboard.
  split.
  { rewrite getPiecePosition_assign_other by exact Hpfresh.
    apply getPiecePosition_delete_same. }
  split; [apply getPiecePosition_assign_same|].
  split; [exact Hnew|].
  split; [exact Hnames|].
  split.
  { rewrite (getSceneObject_shown (Some p) (scene final) (scene s4)
               (shown_of_geometry _ _ Hgeo)).
    rewrite Hscene.
    rewrite (getSceneObject_app p _ [clone] (hide pawn)
               (getSceneObject_update_same p hide (scene s) pawn
                  (fun x => eq_refl) Hpawn)).
    reflexivity. }
  split.
  { intros family' Hf'.
    apply (sceneNumbered_mint family (scene s) _ Hfam Hnum); [|exact Hf'].
    exact Hnames. }
  split.
  { unfold sameOccupancy. rewrite Hb, Hg, Hgame4, Hboard.
    intros square Hsq.
    rewrite (occupied_assign _ square fresh to Hdict1).
    rewrite (delete_absent fresh _ Hfresh1).
    rewrite (occupied_delete _ square from p Hdict Hinj Hat).
    rewrite (Hlaw square Hsq), (Hsame square Hsq). reflexivity. }
  intros Hempty.
  split; [apply assign_isDictionary; exact Hdict1|].
  split.
  - apply assign_injective;
      [exact Hdict1 | apply delete_NoDup; exact Hinj |].
    intros k' Hin. exfalso. apply delete_incl in Hin.
    apply getPieceAt_None in Hempty. apply Hempty.
    change to with (snd (k', to)). apply in_map; exact Hin.
  - intros Hin. apply assign_keys in Hin. destruct Hin as [Hin|Hin].
    + unfold fresh, family, pieceOfCharacter in Hin.
      destruct (isPlayerTurn s), (letter =? "q"), (letter =? "n"),
               (letter =? "b"), (letter =? "r"); discriminate.
    + apply Hkeys. apply in_map_iff in Hin. destruct Hin as (e & He & Hin).
      apply delete_incl in Hin. rewrite <- He. apply in_map; exact Hin.
Qed.

End OpponentPromotion.

(** X20 at work on 5... bxa1=Q, the opponent's pawn promoting on the
    rook's square. *)
Lemma opponent_promotion_witness :
  pieceOfCharacter "q" (isPlayerTurn beforeBlackPromotion) ++ "_"
  ++ numToString
       (countNamed (pieceOfCharacter "q" (isPlayerTurn beforeBlackPromotion))
          (map name (scene beforeBlackPromotion)) + 1)
  = "queen_black_2" /\
  getPiecePosition "pawn_black_1"
    (boardState (playBotMessage "bestmove b2a1q" beforeBlackPromotion))
  = None /\
  getPiecePosition
    (pieceOfCharacter "q" (isPlayerTurn beforeBlackPromotion) ++ "_"
     ++ numToString
          (countNamed (pieceOfCharacter "q" (isPlayerTurn beforeBlackPromotion))
             (map name (scene beforeBlackPromotion)) + 1))
    (boardState (playBotMessage "bestmove b2a1q" beforeBlackPromotion))
  = Some "a1" /\
  sceneNumbered (scene (playBotMessage "bestmove b2a1q" beforeBlackPromotion)) /\
  sameOccupancy (playBotMessage "bestmove b2a1q" beforeBlackPromotion).
Proof.
  split; [vm_compute; reflexivity|].
  pose proof (opponent_promotion_mints_a_new_identity beforeBlackPromotion
                "bestmove b2a1q" "b2" "a1" "q" "pawn_black_1"
                (mkMove "b" "b2" "a1" "p" (Some "r") (Some "q") "cp" "bxa1=Q")
                (replayAfter (game beforeBlackPromotion)
                   (mkRequest "b2" "a1" "q"))
                (childNamed "a1" (scene beforeBlackPromotion))) as H.
  cbv zeta in H.
  refine (let H' := H _ _ _ _ _ _ _ _ _ _ _ _ _ _ in
          conj (proj1 H')
            (conj (proj1 (proj2 H'))
               (conj (proj1 (proj2 (proj2 (proj2 (proj2 (proj2 H'))))))
                  (proj1 (proj2 (proj2 (proj2 (proj2 (proj2 (proj2 H')))))))))).
  - vm_compute; reflexivity.
  - vm_compute; reflexivity.
  - discriminate.
  - apply wellFormedb_sound; vm_compute; reflexivity.
  - apply inLockstepb_sound; vm_compute; reflexivity.
  - apply sceneNumberedb_sound; vm_compute; reflexivity.
  - apply sameOccupancyb_spec; vm_compute; reflexivity.
  - vm_compute; reflexivity.
  - discriminate.
  - vm_compute; reflexivity.
  - vm_compute; reflexivity.
  - vm_compute; reflexivity.
  - vm_compute; reflexivity.
  - apply plainBoardChangeb_sound; vm_compute; reflexivity.
Defined.

(** ** The verdict at its edges *)

Section VerdictEdges.

Context {G : Type} {engine : RulesEngine G}.

(** X21.  The verdict at its edges.  It writes to the document only, and
    never to the promotion modal.  While the game is not over, or when the
    verdict node is not in the document, it changes nothing (with the node
    missing the modal is not displayed either).  When the engine reports
    checkmate and a draw at once the text reads [Draw!].  When the verdict
    modal is not in the document the text is written all the same. *)
Theorem verdict_edges (s : State G) :
  showVerdictIfNecessary s = set_dom (dom (showVerdictIfNecessary s)) s /\
  promotion_modal (dom (showVerdictIfNecessary s)) = promotion_modal (dom s) /\
  (isGameOver s = false -> showVerdictIfNecessary s = s) /\
  (game_verdict (dom s) = None -> showVerdictIfNecessary s = s) /\
  (forall text display,
     game_isCheckmate (game s) = true -> game_isDraw (game s) = true ->
     game_verdict (dom s) = Some text ->
     verdict_modal (dom s) = Some display ->
     game_verdict (dom (showVerdictIfNecessary s)) = Some "Draw!" /\
     verdict_modal (dom (showVerdictIfNecessary s)) = Some "block") /\
  (forall text,
     game_isCheckmate (game s) = true -> game_isDraw (game s) = false ->
     game_verdict (dom s) = Some text ->
     verdict_modal (dom s) = None ->
     game_verdict (dom (showVerdictIfNecessary s))
     = Some ("Checkmate! ("
             ++ (if negb (isPlayerTurn s) then "Player" else "Computer")
             ++ " wins)") /\
     verdict_modal (dom (showVerdictIfNecessary s)) = None).
Proof.
  split; [apply showVerdictIfNecessary_only_dom|].
  split.
  { pose proof (showVerdictIfNecessary_kept s) as Hk.
    unfold kept in Hk. injection Hk as _ Hmodal _ _. exact Hmodal. }
  destruct s as [bs sc sel vm pm turn dr [pmodal vmodal verdict] g bm sub].
  unfold showVerdictIfNecessary, showGameVerdict, isGameOver,
    showCheckmateVerdict, showDrawVerdict.
  cbn -[append].
  split; [intros ->; reflexivity|].
  split.
  { intros ->. destruct (game_isCheckmate g); cbn -[append];
      destruct (game_isDraw g); reflexivity. }
  split.
  { intros text display -> Hdraw -> ->. cbn -[append]. rewrite Hdraw.
    split; reflexivity. }
  intros text -> Hdraw -> ->. cbn -[append]. rewrite Hdraw.
  split; reflexivity.
Qed.

End VerdictEdges.

(** A position the engine reports as checkmate and draw at once, in the
    document of the page; a checkmate of the player in a document without
    the verdict modal; and the starting position. *)
Lemma verdict_edges_witness :
  let both := mkState initBoardState startScene None [] None true None
                startDom (mkReplay startBoard [] true true) [] [] in
  let bare := mkState initBoardState startScene None [] None true None
                (mkDom (Some "none") None (Some ""))
                (mkReplay startBoard [] true false) [] [] in
  (game_verdict (dom (showVerdictIfNecessary both)) = Some "Draw!" /\
   verdict_modal (dom (showVerdictIfNecessary both)) = Some "block") /\
  (game_verdict (dom (showVerdictIfNecessary bare))
   = Some "Checkmate! (Computer wins)" /\
   verdict_modal (dom (showVerdictIfNecessary bare)) = None) /\
  showVerdictIfNecessary (startState []) = startState [].
Proof.
  intros both bare. split; [|split].
  - exact (proj1 (proj2 (proj2 (proj2 (proj2 (verdict_edges both)))))
             "" "none" eq_refl eq_refl eq_refl eq_refl).
  - exact (proj2 (proj2 (proj2 (proj2 (proj2 (verdict_edges bare)))))
             "" eq_refl eq_refl eq_refl eq_refl).
  - exact (proj1 (proj2 (proj2 (verdict_edges (startState [])))) eq_refl).
Defined.

(** ** A restart and the promotion wait *)

Section Restart.

Context {G : Type} {engine : RulesEngine G} {fresh : FreshEngine G}.

(** The submission of the form resumes the flow that waits, which submits
    its move. *)
Lemma onPromote_submits (x : State G) (suspended : Suspended)
  (choice : option string) :
  deferredResolve x = Some suspended ->
  submissions (onPromote true choice x)
  = (submissions x
     ++ [mkRequest (sus_from suspended) (sus_to suspended)
           (getPromotionPieceMoveCharacter
              (match promotion_modal (dom x) with
               | Some _ => choice
               | None => None
               end))])%list.
Proof.
  intros Hpending. unfold onPromote. rewrite Hpending. cbn [negb]. cbv zeta.
  assert (Hposted : forall o (y : State G),
            submissions (triggerBotMove o y) = submissions y)
    by (intros o y; destruct o; reflexivity).
  cbn [dom set_deferredResolve].
  destruct (promotion_modal (dom x)) as [display|];
    match goal with
    | |- context [moveSelectedPiece_resume ?p ?f ?t ?z] =>
        destruct (moveSelectedPiece_resume_kept p f t z) as (_ & _ & _ & Hs);
        cbv zeta in Hs;
        destruct (moveSelectedPiece_resume p f t z) as [c s3]
    end;
    cbn [snd] in Hs; rewrite Hposted, Hs; reflexivity.
Qed.

(** X22.  A restart, once the model has loaded again: the registry is the
    initial one, the scene the loaded children, nothing is picked, there is
    no previous move, the turn is the player's, the engine is new, the new
    search process has its three first messages and the verdict modal, if
    any, is closed.  But the promotion wait and the promotion modal are as
    they were: a restart while the flow waits for a promotion choice leaves
    the wait pending, and the form's next submission resumes that flow,
    which submits the move of the old game to the new engine. *)
Theorem restart_keeps_the_promotion_wait (s : State G)
  (children : list Object3D) :
  let r := onSceneLoaded children (restartGame s) in
  (boardState r = initBoardState /\ scene r = children /\
   selectedPiece r = None /\ validMoves r = [] /\ previousMove r = None /\
   isPlayerTurn r = true /\ game r = game_new /\
   botMessages r = ["uci"; "ucinewgame"; "isready"] /\
   verdict_modal (dom r)
   = option_map (fun _ => "none") (verdict_modal (dom s))) /\
  (deferredResolve r = deferredResolve s /\
   promotion_modal (dom r) = promotion_modal (dom s)) /\
  (forall (suspended : Suspended) (choice : option string),
     deferredResolve s = Some suspended ->
     let piece := match promotion_modal (dom s) with
                  | Some _ => choice
                  | None => None
                  end in
     submissions (onPromote true choice r)
     = (submissions s
        ++ [mkRequest (sus_from suspended) (sus_to suspended)
              (getPromotionPieceMoveCharacter piece)])%list /\
     deferredResolve (onPromote true choice r) = None).
Proof.
  cbv zeta.
  assert (Hfields :
            deferredResolve (onSceneLoaded children (restartGame s))
            = deferredResolve s /\
            promotion_modal (dom (onSceneLoaded children (restartGame s)))
            = promotion_modal (dom s) /\
            submissions (onSceneLoaded children (restartGame s))
            = submissions s).
  { destruct s as [bs sc sel vm pm turn dr [pmodal [display|] verdict] g bm sub];
      repeat split; reflexivity. }
  destruct Hfields as (Hwait & Hpm & Hsub).
  split.
  { destruct s as [bs sc sel vm pm turn dr [pmodal [display|] verdict] g bm sub];
      repeat split; reflexivity. }
  split; [split; assumption|].
  intros suspended choice Hpending.
  split; [|apply onPromote_clears].
  rewrite <- Hwait in Hpending.
  rewrite (onPromote_submits _ suspended choice Hpending), Hpm, Hsub.
  reflexivity.
Qed.

End Restart.

(** X22 at work: a restart while the modal of 5. bxa8 is open, and the
    form submitted with the queen afterwards. *)
Lemma restart_witness :
  let r := onSceneLoaded startScene (restartGame waitingForChoice) in
  deferredResolve r = Some (mkSuspended "b7" "a8") /\
  promotion_modal (dom r) = Some "block" /\
  boardState r = initBoardState /\
  submissions (onPromote true (Some "queen") r)
  = (submissions waitingForChoice ++ [mkRequest "b7" "a8" "q"])%list.
Proof.
  destruct (restart_keeps_the_promotion_wait waitingForChoice startScene)
    as ((Hregistry & _) & (Hwait & Hmodal) & Hstale).
  cbv zeta in *.
  split; [rewrite Hwait; vm_compute; reflexivity|].
  split; [rewrite Hmodal; vm_compute; reflexivity|].
  split; [exact Hregistry|].
  exact (proj1 (Hstale (mkSuspended "b7" "a8") (Some "queen") eq_refl)).
Defined.

(** ** What leaves the registry stays out *)

Lemma within_assign (P : string -> Prop) (k v : string) (bs : BoardState) :
  within P bs -> P k -> within P (assign k v bs).
Proof.
  intros Hbs Hk k' Hin. apply assign_keys in Hin.
  destruct Hin as [->|Hin]; [exact Hk | apply Hbs, Hin].
Qed.

Lemma within_delete (P : string -> Prop) (k : string) (bs : BoardState) :
  within P bs -> within P (delete k bs).
Proof.
  intros Hbs k' Hin. apply Hbs.
  apply in_map_iff in Hin. destruct Hin as (e & He & Hin).
  apply delete_incl in Hin. rewrite <- He. apply in_map; exact Hin.
Qed.

Section RegistryOverTime.

Context {G : Type} {engine : RulesEngine G}.

Lemma within_movePieceOnBoard (P : string -> Prop) (from to : string)
  (s : State G) :
  within P (boardState s) ->
  within P (boardState (movePieceOnBoard from to s)).
Proof.
  intros H. unfold movePieceOnBoard.
  destruct (truthy (getPieceAt from (boardState s))) as [p|] eqn:Hp;
    [|exact H].
  assert (HP : P p).
  { apply truthy_Some in Hp. destruct Hp as [Hp _].
    apply getPieceAt_In in Hp. apply H.
    change p with (fst (p, from)). apply in_map; exact Hp. }
  cbv zeta.
  destruct (truthy (getPieceAt to (boardState s))) as [c|];
    cbn [scene boardState set_scene set_boardState];
    match goal with
    | |- context [getPositionObject to ?sc] =>
        destruct (getPositionObject to sc)
    end;
    cbn [scene boardState set_scene set_boardState];
    try (destruct (getSceneObject (Some p) (scene s));
         cbn [scene boardState set_scene set_boardState]);
    repeat first [apply within_assign | apply within_delete];
    assumption.
Qed.

Lemma within_castleRook (P : string -> Prop) (move : Move) (to : string)
  (s : State G) :
  within P (boardState s) -> within P (boardState (castleRook move to s)).
Proof.
  intros H. unfold castleRook.
  destruct (isKingSideCastling move), (isQueenSideCastling move);
    repeat match goal with
           | |- context [match truthy ?x with _ => _ end] => destruct (truthy x)
           end;
    repeat apply within_movePieceOnBoard; exact H.
Qed.

Lemma within_captureEnPassantPawn (P : string -> Prop) (s : State G) :
  within P (boardState s) -> within P (boardState (captureEnPassantPawn s)).
Proof.
  intros H. unfold captureEnPassantPawn.
  destruct (previousMove s) as [previous|]; [|exact H]. cbv zeta.
  destruct (truthy (getPieceAt (m_to previous) (boardState s)));
    cbn [scene boardState set_scene set_boardState];
    [apply within_delete|]; exact H.
Qed.

Lemma within_special_moves (P : string -> Prop) (move : Move) (to : string)
  (s : State G) :
  within P (boardState s) ->
  within P
    (boardState
       (let s2 := if isCastlingMove move then castleRook move to s else s in
        if isEnPassantMove move then captureEnPassantPawn s2 else s2)).
Proof.
  intros H. cbv zeta. destruct (isEnPassantMove move), (isCastlingMove move);
    repeat first [apply within_captureEnPassantPawn | apply within_castleRook];
    exact H.
Qed.

Lemma within_addPieceAt (P : string -> Prop) (o : Object3D) (to : string)
  (s : State G) :
  within P (boardState s) -> P (name o) ->
  within P (boardState (addPieceAt (Some o) to s)).
Proof.
  intros H Ho. unfold addPieceAt. cbv zeta.
  cbn [scene boardState set_scene set_boardState].
  destruct (getSceneObject (Some to) (scene s));
    cbn [scene boardState set_scene set_boardState];
    apply within_assign; assumption.
Qed.

Lemma within_removePawnAndAddPromotedPiece (P : string -> Prop)
  (piece : option string) (to : string) (s : State G) :
  match piece with Some t => In t promotionTypes | None => True end ->
  within P (boardState s) ->
  (forall k, minted (map name (scene s)) k -> P k) ->
  within P (boardState (snd (removePawnAndAddPromotedPiece piece to s))).
Proof.
  intros Hpiece H Hmint. unfold removePawnAndAddPromotedPiece.
  destruct (truthy piece) as [t|] eqn:Ht; [|exact H].
  destruct (truthy (selectedPiece s)) as [sel|] eqn:Hsel; [|exact H].
  apply truthy_Some in Ht. destruct Ht as [-> _].
  destruct (family_of_type t Hpiece) as (Hfam & _ & Hname).
  assert (Hpawn : within P (boardState (removePawn s))).
  { unfold removePawn. rewrite Hsel.
    cbn [scene boardState set_scene set_boardState].
    apply within_delete, H. }
  unfold addPromotedPiece, getPromotionPieceObject.
  destruct (lastOf (filter (fun o => includes (t ++ "_white") (name o))
                      (scene (removePawn s)))) as [latest|]; cbn [snd];
    [|exact Hpawn].
  apply within_addPieceAt; [exact Hpawn|].
  cbn [name rename]. apply Hmint. exists (t ++ "_white").
  split; [exact Hfam|].
  rewrite countNamed_objects, names_removePawn. apply Hname.
Qed.

Lemma within_promotePiece (P : string -> Prop) (letter from to : string)
  (s : State G) :
  within P (boardState s) ->
  (forall k, minted (map name (scene s)) k -> P k) ->
  within P (boardState (snd (promotePiece letter from to s))).
Proof.
  intros H Hmint. unfold promotePiece, getPieceCharacterToPiece.
  destruct (lastOf (filter (fun o => includes
                                       (pieceOfCharacter letter (isPlayerTurn s))
                                       (name o)) (scene s))) as [latest|];
    cbn [snd]; [|exact H].
  unfold removePawnPieceAndAddPromotedPiece.
  destruct (getSceneObject (getPieceAt from (boardState s)) (scene s)) as [pawn|];
    [|exact H].
  apply within_addPieceAt.
  - unfold removePawnPiece. cbn [scene boardState set_scene set_boardState].
    apply within_delete, H.
  - cbn [name rename]. apply Hmint.
    exists (pieceOfCharacter letter (isPlayerTurn s)).
    split; [apply pieceOfCharacter_family|].
    rewrite countNamed_objects. reflexivity.
Qed.

Lemma within_finish (P : string -> Prop) (b : bool) (move : Move)
  (from to : string) (s : State G) :
  within P (boardState s) ->
  within P
    (boardState
       (showVerdictIfNecessary
          (set_isPlayerTurn b
             (setAndIlluminatePreviousMove (Some move)
                (movePieceOnBoard from to s))))).
Proof.
  intros H.
  rewrite (proj1 (finish_board b move (movePieceOnBoard from to s))).
  apply within_movePieceOnBoard, H.
Qed.

Lemma within_executeHuman (P : string -> Prop) (piece : option string)
  (from to : string) (move : Move) (s : State G) :
  match piece with Some t => In t promotionTypes | None => True end ->
  within P (boardState s) ->
  (forall k, minted (map name (scene s)) k -> P k) ->
  within P (boardState (snd (executeHuman piece from to move s))).
Proof.
  intros Hpiece H Hmint. unfold executeHuman.
  pose proof (within_special_moves P move to s H) as H3.
  pose proof (names_special_moves move to s) as Hn3. cbv zeta in *.
  set (s3 := if isEnPassantMove move
             then captureEnPassantPawn
                    (if isCastlingMove move then castleRook move to s else s)
             else if isCastlingMove move then castleRook move to s else s) in *.
  destruct (isPromotionMove move).
  - assert (Hstep : within P (boardState
                                (snd (removePawnAndAddPromotedPiece piece to s3)))).
    { apply within_removePawnAndAddPromotedPiece; [exact Hpiece | exact H3 |].
      rewrite Hn3. exact Hmint. }
    destruct (removePawnAndAddPromotedPiece piece to s3) as [[[]|] s4];
      cbn [snd] in *; [apply within_finish|]; exact Hstep.
  - cbn [snd]. apply within_finish, H3.
Qed.

Lemma within_executeBot (P : string -> Prop) (from to letter : string)
  (move : Move) (s : State G) :
  within P (boardState s) ->
  (forall k, minted (map name (scene s)) k -> P k) ->
  within P (boardState (snd (executeBot from to letter move s))).
Proof.
  intros H Hmint. unfold executeBot.
  pose proof (within_special_moves P move to s H) as H3.
  pose proof (names_special_moves move to s) as Hn3. cbv zeta in *.
  set (s3 := if isEnPassantMove move
             then captureEnPassantPawn
                    (if isCastlingMove move then castleRook move to s else s)
             else if isCastlingMove move then castleRook move to s else s) in *.
  destruct (negb (letter =? "")).
  - assert (Hstep : within P (boardState (snd (promotePiece letter from to s3)))).
    { apply within_promotePiece; [exact H3|]. rewrite Hn3. exact Hmint. }
    destruct (promotePiece letter from to s3) as [[[]|] s4];
      cbn [snd] in *; [apply within_finish|]; exact Hstep.
  - cbn [snd]. apply within_finish, H3.
Qed.

Lemma within_moveSelectedPiece_resume (P : string -> Prop)
  (piece : option string) (from to : string) (s : State G) :
  match piece with Some t => In t promotionTypes | None => True end ->
  within P (boardState s) ->
  (forall k, minted (map name (scene s)) k -> P k) ->
  within P (boardState (snd (moveSelectedPiece_resume piece from to s))).
Proof.
  intros Hpiece H Hmint. unfold moveSelectedPiece_resume, tryFinally.
  assert (Hsubmit : within P (boardState
                                (snd (moveSelectedPiece_submit piece from to s)))).
  { destruct (game_move (game s)
                (mkRequest from to (getPromotionPieceMoveCharacter piece)))
      as [[move g']|] eqn:Hmove.
    - rewrite (moveSelectedPiece_submit_accepted piece from to s move g' Hmove).
      apply within_executeHuman; assumption.
    - unfold moveSelectedPiece_submit, bind, gameMove. rewrite Hmove.
      exact H. }
  destruct (moveSelectedPiece_submit piece from to s) as [c s'].
  cbn [snd] in *.
  rewrite (proj1 (unsetSelectedPieceAndValidMoves_effect s')). exact Hsubmit.
Qed.

Lemma boardState_triggerBotMove (o : Outcome) (s : State G) :
  boardState (triggerBotMove o s) = boardState s.
Proof. destruct o; reflexivity. Qed.

Lemma within_moveSelectedPieceAndTriggerBotMove (P : string -> Prop)
  (to : string) (s : State G) :
  within P (boardState s) ->
  (forall k, minted (map name (scene s)) k -> P k) ->
  within P (boardState (moveSelectedPieceAndTriggerBotMove to s)).
Proof.
  intros H Hmint. unfold moveSelectedPieceAndTriggerBotMove, moveSelectedPiece.
  destruct (truthy (selectedPiece s)) as [sel|]; [|exact H].
  destruct (truthy (getPiecePosition sel (boardState s))) as [from|];
    [|exact H].
  pose proof (within_moveSelectedPiece_resume P None from to s I H Hmint)
    as Hstep.
  destruct (shouldPromote sel to); [destruct (promotion_modal (dom s))|];
    try (destruct (moveSelectedPiece_resume None from to s) as [c s'];
         rewrite boardState_triggerBotMove; exact Hstep).
  exact H.
Qed.

Lemma within_onPromote (P : string -> Prop) (choice : option string)
  (s : State G) :
  properChoice (Promote choice) ->
  within P (boardState s) ->
  (forall k, minted (map name (scene s)) k -> P k) ->
  within P (boardState (onPromote true choice s)).
Proof.
  intros Hchoice H Hmint. unfold onPromote.
  destruct (deferredResolve s) as [suspended|]; [|exact H].
  cbn [negb]. cbv zeta.
  destruct (promotion_modal (dom (set_deferredResolve None s))).
  - match goal with
    | |- context [moveSelectedPiece_resume ?p ?f ?t ?x] =>
        pose proof (within_moveSelectedPiece_resume P p f t x Hchoice H Hmint)
          as Hstep;
        destruct (moveSelectedPiece_resume p f t x) as [c s3]
    end.
    rewrite boardState_triggerBotMove. exact Hstep.
  - match goal with
    | |- context [moveSelectedPiece_resume ?p ?f ?t ?x] =>
        pose proof (within_moveSelectedPiece_resume P p f t x I H Hmint)
          as Hstep;
        destruct (moveSelectedPiece_resume p f t x) as [c s3]
    end.
    rewrite boardState_triggerBotMove. exact Hstep.
Qed.

Lemma within_playBotMessage (P : string -> Prop) (message : string)
  (s : State G) :
  within P (boardState s) ->
  (forall k, minted (map name (scene s)) k -> P k) ->
  within P (boardState (playBotMessage message s)).
Proof.
  intros H Hmint. unfold playBotMessage, onBotMessage.
  destruct (negb (includes "bestmove" message)); [exact H|].
  destruct (getBestMoveDetails message) as [[[from to] letter]|]; [|exact H].
  destruct (game_move (game s) (mkRequest from to letter))
    as [[move g']|] eqn:Hmove.
  - rewrite (onBotMessage_move_accepted from to letter s move g' Hmove).
    apply within_executeBot; assumption.
  - unfold onBotMessage_move, bind, gameMove. rewrite Hmove. exact H.
Qed.

Lemma boardState_setAndIlluminateSelectedPiece (o : Object3D) (s : State G) :
  boardState (setAndIlluminateSelectedPiece o s) = boardState s.
Proof.
  unfold setAndIlluminateSelectedPiece, illuminatePiece. cbv zeta.
  destruct (truthy (selectedPiece
                      (set_selectedPiece
                         (checkAndGetIfPiece o (boardState s)) s)));
    reflexivity.
Qed.

Lemma boardState_setAndIlluminateValidMovesFor (p : option string)
  (s : State G) :
  boardState (setAndIlluminateValidMovesFor p s) = boardState s.
Proof.
  unfold setAndIlluminateValidMovesFor, illuminateValidMoves. cbv zeta.
  destruct (truthy p); [|reflexivity].
  cbn [selectedPiece set_validMoves].
  destruct (truthy (selectedPiece s)); reflexivity.
Qed.

Lemma within_onClick (P : string -> Prop) (hits : list string) (s : State G) :
  within P (boardState s) ->
  (forall k, minted (map name (scene s)) k -> P k) ->
  within P (boardState (onClick hits s)).
Proof.
  intros H Hmint. unfold onClick.
  destruct (negb (isPlayerTurn s)); [exact H|].
  destruct (truthy (selectedPiece s)) as [sel|] eqn:Hsel.
  - unfold handleSecondPlayerInteraction. rewrite Hsel.
    destruct (getInteractedObject hits s) as [o|]; [|exact H].
    destruct (truthy (checkAndGetIfPiece o (boardState s))) as [piece|];
      [|apply within_moveSelectedPieceAndTriggerBotMove; assumption].
    unfold handleSecondPieceInteraction. cbv zeta.
    destruct (checkAndGetValidMoveForSelectedPiece
                (getPiecePosition piece (boardState s)) s) as [move|],
             (getSceneObject (Some piece) (scene s)) as [pieceObject|],
             (truthy (getPiecePosition piece (boardState s))) as [t|];
      try exact H;
      try (apply within_moveSelectedPieceAndTriggerBotMove; assumption);
      rewrite boardState_setAndIlluminateValidMovesFor,
        boardState_setAndIlluminateSelectedPiece,
        (proj1 (unsetSelectedPieceAndValidMoves_effect s));
      exact H.
  - unfold handleFirstPlayerInteraction.
    destruct (getInteractedObject hits s) as [o|]; [|exact H].
    cbv zeta.
    rewrite boardState_setAndIlluminateValidMovesFor,
      boardState_setAndIlluminateSelectedPiece.
    exact H.
Qed.

(** One event: the names of the scene stay, and the identities of the
    registry are identities it had or the name a promotion mints. *)
Lemma deliver_registry (e : Event) (s : State G) :
  properChoice e ->
  namesStep (map name (scene s)) (map name (scene (deliver e s))) /\
  within (fun k => In k (map fst (boardState s))
                   \/ minted (map name (scene s)) k)
    (boardState (deliver e s)).
Proof.
  intros He.
  assert (Hhad : within (fun k => In k (map fst (boardState s))
                                  \/ minted (map name (scene s)) k)
                   (boardState s))
    by (intros k Hk; left; exact Hk).
  assert (Hmint : forall k, minted (map name (scene s)) k ->
                    In k (map fst (boardState s))
                    \/ minted (map name (scene s)) k)
    by (intros k Hk; right; exact Hk).
  destruct e as [hits|choice|message]; cbn [deliver].
  - split; [apply namesStep_onClick | apply within_onClick; assumption].
  - split; [apply namesStep_onPromote, He
           | apply within_onPromote; assumption].
  - split; [apply namesStep_playBotMessage
           | apply within_playBotMessage; assumption].
Qed.

(** X23.  What leaves the registry stays out.  In a scene whose piece
    families are numbered, an identity that names a child of the scene and
    is not in the registry (a captured piece, a promoted pawn) is not in
    the registry after any sequence of clicks, promotion choices among
    queen, knight, bishop and rook, and messages of the search process:
    events register only identities that are registered already and the
    names that promotions mint, which name no child yet. *)
Theorem what_leaves_the_registry_stays_out (es : list Event) (s : State G)
  (k : string) :
  sceneNumbered (scene s) ->
  Forall properChoice es ->
  In k (map name (scene s)) ->
  ~ In k (map fst (boardState s)) ->
  ~ In k (map fst (boardState (deliverAll es s))).
Proof.
  unfold deliverAll. revert s.
  induction es as [|e rest IH]; intros s Hnum Hes Hchild Hout; [exact Hout|].
  inversion Hes as [|e' rest' He Hrest]; subst.
  cbn [fold_left].
  destruct (deliver_registry e s He) as [Hnames Hkeys].
  apply IH.
  - apply (namesStep_numbered (scene s)); assumption.
  - exact Hrest.
  - destruct Hnames as [->|(family & _ & ->)]; [exact Hchild|].
    apply in_or_app. left; exact Hchild.
  - intros Hin. destruct (Hkeys k Hin) as [Hhad|(family & Hfam & ->)].
    + exact (Hout Hhad).
    + exact (numbered_fresh family _ (Hnum family Hfam) Hchild).
Qed.

End RegistryOverTime.

Lemma absent_by_search (k : string) (l : list string) :
  existsb (String.eqb k) l = false -> ~ In k l.
Proof.
  intros Hsearch Hin.
  assert (Hfound : existsb (String.eqb k) l = true)
    by (apply existsb_exists; exists k; split;
        [exact Hin | apply String.eqb_refl]).
  rewrite Hsearch in Hfound. discriminate.
Qed.

Lemma present_by_search (k : string) (l : list string) :
  existsb (String.eqb k) l = true -> In k l.
Proof.
  intros Hsearch. apply existsb_exists in Hsearch.
  destruct Hsearch as (x & Hin & Heq).
  apply String.eqb_eq in Heq. rewrite Heq. exact Hin.
Qed.

(** After 5. bxa8=Q the bishop taken on b7 is a child of the scene and out
    of the registry; it is out of it after 5... h5 6. Qa4 too. *)
Lemma stays_out_witness :
  sceneNumbered (scene afterCapturePromotion) /\
  Forall properChoice queenLeavesEvents /\
  In "bishop_black_2" (map name (scene afterCapturePromotion)) /\
  ~ In "bishop_black_2" (map fst (boardState afterCapturePromotion)) /\
  ~ In "bishop_black_2"
      (map fst (boardState (deliverAll queenLeavesEvents afterCapturePromotion))).
Proof.
  assert (Hnum : sceneNumbered (scene afterCapturePromotion))
    by (apply sceneNumberedb_sound; vm_compute; reflexivity).
  assert (Hes : Forall properChoice queenLeavesEvents)
    by (repeat constructor).
  assert (Hchild : In "bishop_black_2" (map name (scene afterCapturePromotion)))
    by (apply present_by_search; vm_compute; reflexivity).
  assert (Hout : ~ In "bishop_black_2"
                     (map fst (boardState afterCapturePromotion)))
    by (apply absent_by_search; vm_compute; reflexivity).
  repeat (split; [assumption|]).
  exact (what_leaves_the_registry_stays_out queenLeavesEvents
           afterCapturePromotion "bishop_black_2" Hnum Hes Hchild Hout).
Defined.
